(* ===== verification/_CoqProject ===== *)
-Q . S2P
Prelude.v
ClusterAlloc.v
Scatter.v
WriteMarks.v
Runlist.v
Engine.v
Koio.v
KoioFacts.v
KoioInv.v
KoioSafety.v
ToyEngine.v
KoioTheorems.v
Crc64.v
Device.v
MkWrite.v
Options.v
Layout.v
LayoutArith.v
LayoutTheorems.v
Calls.v
Bridge.v
Ledger.v
Names.v
Bytes.v
Sd.v
AttrDef.v
Mft.v
MftFacts.v
MftTheorems.v
MftNonRes.v
MftNonResFacts.v
MftNonResTheorems.v
MftPositioned.v
Index.v
IndexFacts.v
IndexRoot.v
IndexTheorems.v
IndexSecure.v
IndexLinks.v
IndexLarge.v
Boot.v
Sized.v
Format.v
FormatFacts.v
FormatTheorems.v
FormatZero.v
ToyFormat.v
Mkntfs.v
MkntfsTheorems.v
FormatSamples.v
FormatBitmap.v
FormatRecords.v
FormatReady.v
Utils.v
UtilsTheorems.v
UtilsNames.v
