(* ===== verification/Prelude.v ===== *)
(** * NTFSKit: a verification development

    NTFSKit mounts and formats NTFS volumes on macOS.  Its C part, under
    src/NTFSModule/bridge/, is a bridge between a file-system extension and
    libntfs-3g (ntfs_bridge.c, nk_bde.c) and a formatter, mkntfs (mkntfs/mkntfs.c
    with sd.c, attrdef.c, boot.c and utils.c).  This library translates that code into
    Rocq functions and proves what makes it correct.  libntfs-3g, libbde, libbfio,
    the C library's getopt_long and the kernel are not in the repository: they
    appear as type classes or arguments, and what the code relies on of them as
    named laws, each class with an instance that satisfies it.

    ** The parts and their files

    Shared: [Prelude] (integers of C, runlist elements, tactics [zb] and [zcase],
    this overview), [Bytes] (a monad of stores into a byte buffer, bounds checked).

    Kernel-offloaded I/O (ntfs_bridge.c: nk_blockmap and the functions around it).
    The kernel reads and writes file data itself, on extents the bridge hands out;
    the bridge must keep what the kernel may see initialised.
    - [WriteMarks]: the table of high-water marks (wr_find, wr_hwm, wr_set,
      wr_drop) as an array; it refines a finite map.
    - [Runlist]: bad_runlist and the loop that cuts a window into extents.
    - [Engine]: the calls to libntfs-3g and their laws; [ToyEngine]: an engine with
      one file that satisfies them, on which the witnesses run.
    - [Koio]: nk_blockmap stage by stage, nk_complete_write, nk_abort_write,
      nk_truncate, in a state monad with the [goto out] exits.
    - [KoioFacts], [KoioInv], [KoioSafety], [KoioTheorems]: the effect of each
      stage, the transition system of a mounted volume with the kernel's own
      writes, its invariant, and the theorems: what is mapped for writing is real,
      inside the file, and recorded or already initialised; what is mapped for
      reading is initialised, in flight or zero, except in the block of a mark that
      is not on a block boundary; no call clobbers initialised or in-flight bytes;
      the loops end.

    The rest of the bridge.
    - [Device]: the device operations nkdev_*, bdedev_*, bfio_* and the recognition
      of BitLocker and ReFS: position arithmetic, and that a read-only device is
      never written.
    - [Calls]: the calls the bridge makes, and programs as trees of calls;
      [Bridge]: every remaining operation of ntfs_bridge.c and the opening and
      closing of nk_bde.c as such programs.
    - [Ledger]: programs run against an account of the handles that are open, with
      arbitrary answers: no double close, no use after close, and no leak but of an
      inode (or volume) whose close failed.
    - [Names]: programs run against an engine with a namespace, whose failing calls
      may have done part of their work: listing, renaming and its rollback, splitting
      of paths.

    The formatter.
    - [Options]: the command line, number parsing (strtol, mkntfs_parse_options,
      utils_parse_size, utils_parse_range) and the arguments of nk_format.
    - [Layout], [LayoutArith], [LayoutTheorems]: the volume geometry
      (mkntfs_override_vol_params) and the places of the system files
      (the mkntfs_initialize_ functions), as mkntfs_redirect composes them.
    - [ClusterAlloc], [Scatter]: the cluster allocator of mkntfs and the allocation
      of scattered clusters.
    - [MkWrite]: writing a runlist to the device (mkntfs_write, ntfs_rlwrite).
    - [Crc64]: the checksum of the upper-case table.
    - [Sd], [AttrDef]: the security descriptors and the attribute definitions mkntfs
      stores, against decoders of the formats.
    - [Mft], [MftFacts], [MftTheorems]: an MFT record as the bytes of a buffer.
      Searching it for an attribute (mkntfs_attr_find), making room, inserting a
      resident attribute and the functions that add one (add_attr_std_info to
      add_attr_index_root).  The specification is a list of attributes: a record is
      well formed ([rec_ok]) when its bytes are a header, such a list, the end
      marker and unused bytes.  The checks of DEBUG builds are left out.
    - [MftNonRes], [MftNonResFacts], [MftNonResTheorems], [MftPositioned]:
      attributes whose value is in clusters (insert_non_resident_attr_in_mft_record,
      insert_positioned_attr_in_mft_record, add_attr_data and its like).  Here the
      record, the allocator ([Scatter]) and the device ([MkWrite]) work together, in
      a monad over [fstate]; the encoding of mapping pairs is libntfs-3g's, with
      the class [MappingLib].
    - [Index], [IndexFacts], [IndexRoot], [IndexTheorems], [IndexSecure],
      [IndexLinks], [IndexLarge]: the indexes of directories and views.  Collation,
      insertion into an index root inside its MFT record and into an index block,
      hard links, the indexes of $Secure, $Quota and $ObjId, and
      upgrade_to_large_index.  The specification is a list of entries: a root, or a
      block, is well formed ([root_ok], [block_ok]) when its bytes are a header,
      such a list and the end entry.  The comparison of names is libntfs-3g's
      (class [CollateLaws]), memcmp the C library's (class [CLib]).
    - [Boot]: the bytes of boot.c and the boot sector made of them, against a
      decoder of its fields.
    - [Format]: the formatting run: zeroing the device, the system files of
      mkntfs_create_root_structures one by one, the index, the bitmap, the MFT and
      its mirror.  The state [fmt] has g_buf (all records in one buffer), the index
      block, the MFT bitmap, the static arrays of sd.c, the allocator and the
      device; [on_rec] runs a function of the files above on one record.
    - [Sized], [FormatFacts]: what every step keeps: the size of the buffers, and
      without action the bytes of the device, by tactics that follow the code.
    - [FormatTheorems], [FormatZero]: writing the MFT and its mirror, a failed
      allocation, and zeroing.
    - [Mkntfs], [MkntfsTheorems]: mkntfs_open_partition, mkntfs_redirect and
      nk_mkntfs_main: [Options], [Layout] and [Format] put together, and the
      theorems about a whole run.
    - [ToyFormat], [FormatSamples]: an executable library on which the run can be
      evaluated, and the witnesses.
    - [FormatBitmap]: the bitmap of the clusters on the device is the allocator's.
    - [FormatRecords], [FormatReady]: the records and the MFT bitmap as the loops at
      the start of mkntfs_create_root_structures leave them; the relation [only] says
      which records a step may touch.

    The helpers of utils.c.
    - [Utils], [UtilsTheorems]: the static caches of $Bitmap and of the bitmap of the
      MFT, metadata files, and the search through the records (mft_next_record), with
      an account of the inodes it opens and closes.
    - [UtilsNames]: mounting, the paths of files, the names of attributes, the dump,
      and the formats and paths for Windows.

    ** How code is translated

    C integers are [Z]; where a computation can leave its type the wrap-around is
    written out ([to_u], [to_s], [s64]).  A routine that changes state takes it and
    returns it; a [goto out] is the left value of a sum; a pointer to an array
    element is an index; a pointer that can be NULL is an option.  Messages are
    left out.  Loops without a bound in the source run on fuel, and the answer of
    an exhausted loop is a value of its own ([OUT_OF_FUEL] in [Koio], [None]
    elsewhere), so that the theorems which rule it out are statements of
    termination: nk_blockmap's loops get the number of chunks left, or the length
    of the window for the scan of holes (each round fills one); the deallocation
    loop the clusters left; the write loops the bytes left plus the three retries;
    the shrinking of the log file a number of steps for which [mkntfs_plan_sound]
    shows an answer, and [oversized_cluster_hangs] shows none for the one input
    on which the source loops for ever; the search of [Utils] the number of records.

    ** The theorems

    A property's doc comment begins with its number.
    Safety and invariants: [KoioTheorems], [LayoutTheorems], [Ledger],
    [MftTheorems], [MkntfsTheorems], [FormatReady]; without a number [Device].
    Functional behaviour and equivalence: [Runlist], [ClusterAlloc], [Scatter],
    [MkWrite], [Crc64], [Names], [MftTheorems], [MftNonResTheorems],
    [MftPositioned], [IndexTheorems], [IndexSecure], [FormatZero], [UtilsTheorems]
    (the caches without a number), without a number [UtilsNames].
    Refinement: [WriteMarks], [MftNonResTheorems], [IndexLarge], [MkntfsTheorems],
    [FormatBitmap].  Round trips: [Sd], [Boot], and without a number [Options],
    [Names].  Termination and liveness: [KoioTheorems], [LayoutTheorems],
    [IndexSecure], [FormatZero].  Errors: [IndexLinks], without a number [Options],
    and the theorems that state a defect, with a number or without:
    [nk_abort_write_unopened], [mkntfs_write_repeats], [oversized_cluster_hangs],
    [second_run_overlaps], [insert_non_resident_no_value],
    [insert_index_entry_no_room], [quota_failure_ignored],
    [utils_cluster_in_use_poisoned], [utils_inode_get_name_leak].
    The two theorems about a whole run, [mkntfs_redirect_mirrors] and
    [mkntfs_redirect_dry], speak of what the run answers; that it answers at all is
    [mkntfs_plan_sound] for the layout and the fuel of each loop for the rest.

    ** What the theorems assume

    The premises are in the statements; these recur.  Of libntfs-3g, the laws of
    [EngineLaws] (on a volume without cross-linked clusters) and [NameLaws].  Of
    runlists nothing is assumed: [nk_blockmap] refuses bad ones, and where
    nk_complete_write and nk_abort_write zero through a runlist they do not check,
    that it passes [bad_runlist] is a premise ([path_sound]); that an abort can open
    its attribute is a premise of the invariant, and [nk_abort_write_unopened] shows
    why.  Of the formatter's allocations, that they succeed, unless a theorem says
    what happens when they fail ([bitmap_allocate_correct],
    [quota_failure_ignored]); of a run of mkntfs, that it is the first of the
    process and that a cluster size it is given is at most 1 MiB.

    ** Not modelled

    Messages, colours and the column of characters of the dump in utils.c are left
    out, and so are the functions that only call libntfs-3g (find_attribute,
    find_first_attribute): their answers are arguments.
    The contents of the records a run leaves are stated function by function
    ([FormatReady], [MftTheorems], [IndexTheorems] and the others), not for the
    finished volume.
    What the machine code of boot.c does when it runs is not modelled; the Swift
    extension is written against a framework that is not in the repository;
    test_bridge.c is a manual test. *)

From Stdlib Require Export ZArith Lia Bool.
From stdpp Require Export base tactics decidable option numbers list gmap.

#[global] Open Scope Z_scope.

(** ** Machine integers

    Values of the C integer types are elements of [Z]; the wrap-around of the
    width is applied where the code can leave the range. *)

Definition INT64_MAX : Z := 2 ^ 63 - 1.
Definition INT64_MIN : Z := - 2 ^ 63.
Definition INT32_MAX : Z := 2 ^ 31 - 1.

(** Conversion to an unsigned, respectively signed, integer of [w] bits. *)
Definition to_u (w z : Z) : Z := z mod 2 ^ w.
Definition to_s (w z : Z) : Z := (z + 2 ^ (w - 1)) mod 2 ^ w - 2 ^ (w - 1).

Definition fits_s64 (z : Z) : Prop := INT64_MIN <= z <= INT64_MAX.
Definition fits_u (w z : Z) : Prop := 0 <= z < 2 ^ w.
Definition fits_s (w z : Z) : Prop := - 2 ^ (w - 1) <= z < 2 ^ (w - 1).

Lemma to_u_small w z : fits_u w z -> to_u w z = z.
Proof. unfold fits_u, to_u. intros H. by apply Z.mod_small. Qed.

Lemma to_u_range w z : 0 <= w -> fits_u w (to_u w z).
Proof.
  intros Hw. unfold fits_u, to_u.
  apply Z.mod_pos_bound, Z.pow_pos_nonneg; lia.
Qed.

Lemma to_s_small w z : 1 <= w -> fits_s w z -> to_s w z = z.
Proof.
  unfold fits_s, to_s. intros Hw H.
  assert (2 ^ w = 2 * 2 ^ (w - 1)) as E.
  { rewrite <- Z.pow_succ_r by lia. f_equal. lia. }
  rewrite Z.mod_small; lia.
Qed.

Lemma to_s_range w z : 1 <= w -> fits_s w (to_s w z).
Proof.
  unfold fits_s, to_s. intros Hw.
  assert (2 ^ w = 2 * 2 ^ (w - 1)) as E.
  { rewrite <- Z.pow_succ_r by lia. f_equal. lia. }
  assert (0 < 2 ^ (w - 1)) by (apply Z.pow_pos_nonneg; lia).
  pose proof (Z.mod_pos_bound (z + 2 ^ (w - 1)) (2 ^ w)). lia.
Qed.

(** [errno] values the code tests or returns. *)
Inductive errno_t :=
  | EPERM | ENOENT | EIO | ENXIO | ENOMEM | EBUSY | EEXIST | ENOTDIR | EINVAL
  | ENOSPC | EROFS | ERANGE | ENAMETOOLONG | ENOTSUP | EOPNOTSUPP.

#[global] Instance errno_eq_dec : EqDecision errno_t.
Proof. solve_decision. Defined.

(** [runlist_element] of libntfs-3g: [rl_length] clusters from virtual cluster
    [rl_vcn] are stored from logical cluster [rl_lcn] on ([LCN_HOLE] = -1 for a
    sparse run). *)
Record rle := mkRle { rl_vcn : Z; rl_lcn : Z; rl_length : Z }.

Definition LCN_HOLE : Z := -1.

#[global] Instance rle_eq_dec : EqDecision rle.
Proof. solve_decision. Defined.

(** ** Boolean reflection

    [zb] turns the comparisons of the code among the hypotheses into propositions
    [lia] understands; [zcase] splits on the next comparison of the goal. *)

Ltac zb :=
  repeat match goal with
  | H : (_ && _) = true |- _ => apply andb_true_iff in H as [? ?]
  | H : (_ || _) = false |- _ => apply orb_false_iff in H as [? ?]
  | H : negb _ = true |- _ => apply negb_true_iff in H
  | H : negb _ = false |- _ => apply negb_false_iff in H
  | H : (_ <? _) = true |- _ => apply Z.ltb_lt in H
  | H : (_ <? _) = false |- _ => apply Z.ltb_ge in H
  | H : (_ <=? _) = true |- _ => apply Z.leb_le in H
  | H : (_ <=? _) = false |- _ => apply Z.leb_gt in H
  | H : (_ =? _) = true |- _ => apply Z.eqb_eq in H
  | H : (_ =? _) = false |- _ => apply Z.eqb_neq in H
  end.

Ltac zcase :=
  match goal with
  | |- context [?a <? ?b] => destruct (Z.ltb_spec a b)
  | |- context [?a <=? ?b] => destruct (Z.leb_spec a b)
  | |- context [?a =? ?b] => destruct (Z.eqb_spec a b)
  end.

(** ** Lexicographic order

    The comparison of two lists by their first difference, then by length: the
    reference for the collation orders of names and of index keys. *)
Fixpoint lex_compare (l1 l2 : list Z) : Z :=
  match l1, l2 with
  | [], [] => 0
  | [], _ => -1
  | _, [] => 1
  | x :: l1, y :: l2 => if x <? y then -1 else if y <? x then 1 else lex_compare l1 l2
  end.

Lemma lex_compare_sign l1 l2 : lex_compare l1 l2 = -1 \/ lex_compare l1 l2 = 0 \/ lex_compare l1 l2 = 1.
Proof. revert l2. induction l1; intros [|y l2]; cbn; auto. repeat zcase; auto. Qed.

Lemma lex_compare_eq l1 l2 : lex_compare l1 l2 = 0 <-> l1 = l2.
Proof.
  revert l2. induction l1 as [|x l1 IH]; intros [|y l2]; cbn; try done.
  repeat zcase; try (split; [lia | intros [= ]; lia]).
  rewrite IH. split; [|by intros [= ]]. intros ->. f_equal. lia.
Qed.

Lemma lex_compare_antisym l1 l2 : lex_compare l2 l1 = - lex_compare l1 l2.
Proof. revert l2. induction l1 as [|x l1 IH]; intros [|y l2]; cbn; auto. repeat zcase; auto; lia. Qed.

Lemma lex_compare_trans l1 l2 l3 :
  lex_compare l1 l2 = -1 -> lex_compare l2 l3 = -1 -> lex_compare l1 l3 = -1.
Proof.
  revert l2 l3. induction l1 as [|x l1 IH]; intros [|y l2] [|z l3]; cbn; try done.
  repeat zcase; try done; try lia; eauto.
Qed.
