(* ===== verification/ClusterAlloc.v ===== *)
(** * The cluster allocator of mkntfs

    Models [bitmap_allocate], [bitmap_deallocate], [bitmap_get_and_set] and
    [bitmap_build] of src/NTFSModule/bridge/mkntfs/mkntfs.c: the linked list
    [g_allocation] of allocated cluster runs, kept sorted by first cluster, and
    the bitmap section built from it.

    The list of [struct BITMAP_ALLOCATION] nodes is a [list run].  [ntfs_malloc]
    may fail at any call: the section is parametrised by an oracle [malloc_ok]
    that tells for each call number whether it succeeds. *)

From S2P Require Import Prelude.

(** [struct BITMAP_ALLOCATION] *)
Record run := mkRun { r_lcn : Z; r_length : Z }.

#[global] Instance run_eq_dec : EqDecision run.
Proof. solve_decision. Defined.

(** The allocator's globals: the list [g_allocation], and the number of calls
    to [ntfs_malloc] made so far. *)
Record astate := mkAstate { g_allocation : list run; mallocs : nat }.

Definition r_end (r : run) : Z := r_lcn r + r_length r.

Section Allocator.

Variable malloc_ok : nat -> bool.

(** [while (p && (p->lcn <= lcn)) { q = p; p = p->next; }]: the nodes passed by
    and the nodes left; [q] is the last of the former, [p] the first of the
    latter. *)
Fixpoint locate (l : list run) (lcn : Z) : list run * list run :=
  match l with
  | [] => ([], [])
  | p :: next =>
      if r_lcn p <=? lcn
      then let '(before, after) := locate next lcn in (p :: before, after)
      else ([], p :: next)
  end.

Definition bitmap_allocate (lcn length : Z) (st : astate) : bool * astate :=
  if length =? 0 then (true, st) else
  let '(before, after) := locate (g_allocation st) lcn in
  let overlap :=
    match last before with Some q => lcn <? r_end q | None => false end ||
    match head after with Some p => r_lcn p <? lcn + length | None => false end in
  let link :=
    if malloc_ok (mallocs st)
    then (negb overlap,
          mkAstate (before ++ mkRun lcn length :: after) (S (mallocs st)))
    else (false, mkAstate (g_allocation st) (S (mallocs st))) in
  match last before with
  | Some q =>
      if r_end q =? lcn
      then (negb overlap,
            mkAstate (removelast before ++ mkRun (r_lcn q) (r_length q + length) :: after)
                     (mallocs st))
      else link
  | None => link
  end.

(** The common portion of a run and the clusters to free. *)
Definition common_first (p : run) (lcn : Z) : Z :=
  if lcn <? r_lcn p then r_lcn p else lcn.
Definition common_last (p : run) (lcn length : Z) : Z :=
  if r_end p <? lcn + length then r_end p else lcn + length.

(** Locate a run which has a common portion with the clusters to free: the nodes
    before it, the run, and the nodes after it. *)
Fixpoint find_common (l : list run) (lcn length : Z) : option (list run * run * list run) :=
  match l with
  | [] => None
  | p :: next =>
      if common_first p lcn <? common_last p lcn length
      then Some ([], p, next)
      else match find_common next lcn length with
           | Some (before, r, after) => Some (p :: before, r, after)
           | None => None
           end
  end.

(** One run found is deleted, its kept parts are allocated again, and the search
    restarts from the head of the list; [None] when the fuel is used up. *)
Fixpoint deallocate_loop (fuel : nat) (lcn length : Z) (done : bool) (st : astate)
  : option (bool * astate) :=
  match fuel with
  | O => None
  | S fuel =>
      match find_common (g_allocation st) lcn length with
      | None => Some (done, st)
      | Some (before, p, after) =>
          let first := common_first p lcn in
          let last := common_last p lcn length in
          let begin_length := first - r_lcn p in
          let end_length := r_lcn p + r_length p - last in
          let st1 := mkAstate (before ++ after) (mallocs st) in
          let '(ok1, st2) :=
            if begin_length =? 0 then (true, st1)
            else bitmap_allocate (first - begin_length) begin_length st1 in
          let '(ok2, st3) :=
            if end_length =? 0 then (true, st2)
            else bitmap_allocate last end_length st2 in
          deallocate_loop fuel lcn length (done && ok1 && ok2) st3
      end
  end.

Definition bitmap_deallocate (lcn length : Z) (st : astate) : option (bool * astate) :=
  if length =? 0 then Some (true, st)
  else deallocate_loop (S (List.length (g_allocation st))) lcn length true st.

Definition bitmap_get_and_set (lcn length : Z) (st : astate) : Z * astate :=
  if length =? 1 then
    let '(before, _) := locate (g_allocation st) lcn in
    let was_allocated :=
      match last before with
      | Some q => (r_lcn q <=? lcn) && (lcn <? r_end q)
      | None => false
      end in
    if was_allocated then (1, st)
    else (0, snd (bitmap_allocate lcn length st))
  else (0, st).

End Allocator.

(** ** Building a section of the bitmap *)

(** [buf[i]] for a byte buffer. *)
Definition byte_at (buf : list Z) (i : Z) : Z := default 0 (buf !! Z.to_nat i).

(** [buf[bn >> 3] |= 1 << (bn & 7)] *)
Definition or_bit (buf : list Z) (bn : Z) : list Z :=
  <[Z.to_nat (Z.shiftr bn 3) :=
      Z.lor (byte_at buf (Z.shiftr bn 3)) (Z.shiftl 1 (Z.land bn 7))]> buf.

(** [for (j=0; (8*j)<length; j++) buf[j] = 0;] *)
Fixpoint clear_loop (fuel : nat) (j length : Z) (buf : list Z) : list Z :=
  match fuel with
  | O => buf
  | S fuel =>
      if 8 * j <? length
      then clear_loop fuel (j + 1) length (<[Z.to_nat j := 0]> buf)
      else buf
  end.

(** Initial partial byte: [while ((bn < lim) && (bn & 7))]. *)
Fixpoint initial_loop (fuel : nat) (bn lim : Z) (buf : list Z) : Z * list Z :=
  match fuel with
  | O => (bn, buf)
  | S fuel =>
      if (bn <? lim) && negb (Z.land bn 7 =? 0)
      then initial_loop fuel (bn + 1) lim (or_bit buf bn)
      else (bn, buf)
  end.

(** Full bytes: [while (bn < (lim - 7))]. *)
Fixpoint full_loop (fuel : nat) (bn lim : Z) (buf : list Z) : Z * list Z :=
  match fuel with
  | O => (bn, buf)
  | S fuel =>
      if bn <? lim - 7
      then full_loop fuel (bn + 8) lim (<[Z.to_nat (Z.shiftr bn 3) := 255]> buf)
      else (bn, buf)
  end.

(** Final partial byte: [while (bn < lim)]. *)
Fixpoint final_loop (fuel : nat) (bn lim : Z) (buf : list Z) : Z * list Z :=
  match fuel with
  | O => (bn, buf)
  | S fuel =>
      if bn <? lim
      then final_loop fuel (bn + 1) lim (or_bit buf bn)
      else (bn, buf)
  end.

(** The bits of one run. *)
Definition build_run (p : run) (lcn length : Z) (buf : list Z) : list Z :=
  let first := common_first p lcn in
  let last := common_last p lcn length in
  if first <? last then
    let bn := first - lcn in
    let lim := last - lcn in
    let fuel := S (Z.to_nat (lim - bn)) in
    let '(bn, buf) := initial_loop fuel bn lim buf in
    let '(bn, buf) := full_loop fuel bn lim buf in
    let '(bn, buf) := final_loop fuel bn lim buf in
    buf
  else buf.

Definition bitmap_build (buf : list Z) (lcn length : Z) (l : list run) : list Z :=
  let buf := clear_loop (S (Z.to_nat length)) 0 length buf in
  fold_left (fun buf p => build_run p lcn length buf) l buf.

(** ** Meaning of the list and its invariant *)

(** Cluster [x] is allocated: it lies in a run of the list. *)
Definition in_run (x : Z) (r : run) : Prop := r_lcn r <= x < r_end r.
Definition allocated (l : list run) (x : Z) : Prop := Exists (in_run x) l.

#[global] Instance in_run_dec x r : Decision (in_run x r).
Proof. unfold in_run. apply _. Defined.
#[global] Instance allocated_dec l x : Decision (allocated l x).
Proof. unfold allocated. apply _. Defined.

(** The runs are non-empty, disjoint, sorted, and start at [lo] or above. *)
Fixpoint runs_from (lo : Z) (l : list run) : Prop :=
  match l with
  | [] => True
  | r :: l => lo <= r_lcn r /\ 0 < r_length r /\ runs_from (r_end r) l
  end.

Definition wf_alloc (l : list run) : Prop := runs_from 0 l.

(** Where the next run may start after the runs of [l]. *)
Definition end_of (lo : Z) (l : list run) : Z :=
  match last l with Some r => r_end r | None => lo end.

Create HintDb alloc discriminated.

Lemma end_of_cons lo r l : end_of lo (r :: l) = end_of (r_end r) l.
Proof.
  unfold end_of. destruct l as [|r' l]; [done|]. rewrite last_cons_cons.
  destruct (last (r' :: l)) eqn:E; [done|]. by apply last_None in E.
Qed.

Lemma end_of_snoc lo l r : end_of lo (l ++ [r]) = r_end r.
Proof. unfold end_of. by rewrite last_snoc. Qed.

Lemma runs_from_app lo l1 l2 :
  runs_from lo (l1 ++ l2) <-> runs_from lo l1 /\ runs_from (end_of lo l1) l2.
Proof.
  revert lo; induction l1 as [|r l1 IH]; intros lo; simpl; [tauto|].
  rewrite IH, end_of_cons. tauto.
Qed.

Lemma runs_from_weaken lo lo' l : lo' <= lo -> runs_from lo l -> runs_from lo' l.
Proof. destruct l; simpl; [done|]. intros; intuition lia. Qed.

Lemma runs_from_end lo l : runs_from lo l -> lo <= end_of lo l.
Proof.
  revert lo; induction l as [|r l IH]; intros lo; simpl; [unfold end_of; simpl; lia|].
  intros (H1 & H2 & H3). rewrite end_of_cons. specialize (IH _ H3).
  unfold r_end in *. lia.
Qed.

Lemma runs_from_in lo l x :
  runs_from lo l -> allocated l x -> lo <= x < end_of lo l.
Proof.
  revert lo; induction l as [|r l IH]; intros lo; simpl.
  { intros _ H. by apply Exists_nil in H. }
  intros (H1 & H2 & H3) Hx. rewrite end_of_cons.
  pose proof (runs_from_end _ _ H3) as He.
  apply Exists_cons in Hx as [Hx|Hx].
  - unfold in_run, r_end in *. lia.
  - specialize (IH _ H3 Hx). unfold r_end in *. lia.
Qed.

Lemma allocated_app l1 l2 x :
  allocated (l1 ++ l2) x <-> allocated l1 x \/ allocated l2 x.
Proof. apply Exists_app. Qed.

Lemma allocated_cons r l x : allocated (r :: l) x <-> in_run x r \/ allocated l x.
Proof. apply Exists_cons. Qed.

Lemma allocated_nil x : allocated [] x <-> False.
Proof. apply Exists_nil. Qed.

(** Membership in a list of runs, run by run. *)
Ltac alloc_set :=
  repeat (rewrite allocated_app || rewrite allocated_cons || rewrite allocated_nil).

#[export] Hint Resolve runs_from_weaken runs_from_end : alloc.

Lemma locate_spec l lcn before after :
  locate l lcn = (before, after) ->
  l = before ++ after /\
  Forall (fun r => r_lcn r <= lcn) before /\
  match head after with Some p => lcn < r_lcn p | None => True end.
Proof.
  revert before after; induction l as [|p l IH]; simpl; intros before after.
  { intros [= <- <-]. by split_and!. }
  destruct (Z.leb_spec (r_lcn p) lcn) as [Hle|Hgt].
  - destruct (locate l lcn) as [b a]. intros [= <- <-].
    destruct (IH b a eq_refl) as (-> & Hb & Ha). split_and!; [done| |done].
    by constructor.
  - intros [= <- <-]. by split_and!.
Qed.

(** In a sorted list every run before [q] ends at or before [q]. *)
Lemma runs_from_locate l lcn before after :
  wf_alloc l -> locate l lcn = (before, after) ->
  runs_from 0 before /\ runs_from (end_of 0 before) after /\
  (forall x, lcn < x -> allocated after x -> forall p, head after = Some p -> r_lcn p <= x).
Proof.
  intros Hwf Hloc. destruct (locate_spec _ _ _ _ Hloc) as (-> & _ & _).
  apply runs_from_app in Hwf as [Hb Ha]. repeat split; [done..|].
  intros x _ Hx p Hp. destruct after as [|p' after]; [done|].
  simpl in Hp. injection Hp as ->. simpl in Ha. destruct Ha as (? & ? & Ha).
  apply allocated_cons in Hx as [Hx|Hx]; [by destruct Hx|].
  apply (runs_from_in _ _ _ Ha) in Hx. unfold r_end in *. lia.
Qed.

(** Splitting the result of the search for the insertion point. *)
Ltac locate_cases l lcn before after q b' :=
  let Hloc := fresh "Hloc" in let Hq := fresh "Hq" in
  destruct (locate l lcn) as [before after] eqn:Hloc;
  destruct (last before) as [q|] eqn:Hq;
  [ apply last_Some in Hq as [b' ->]; rewrite ?removelast_last
  | apply last_None in Hq as -> ].

Section AllocatorProofs.

Variable malloc_ok : nat -> bool.
Hypothesis malloc_never_fails : forall k, malloc_ok k = true.

Lemma bitmap_allocate_denote lcn length st :
  Forall (fun r => 0 <= r_length r) (g_allocation st) -> 0 <= length ->
  forall x, allocated (g_allocation (snd (bitmap_allocate malloc_ok lcn length st))) x <->
            allocated (g_allocation st) x \/ lcn <= x < lcn + length.
Proof.
  destruct st as [l k]. simpl. intros Hpos Hlen x. unfold bitmap_allocate. simpl.
  destruct (Z.eqb_spec length 0) as [->|Hne].
  { simpl. split; [tauto|]. intros [?|?]; [done|lia]. }
  rewrite malloc_never_fails.
  locate_cases l lcn before after q b';
    destruct (locate_spec _ _ _ _ Hloc) as (-> & _ & _); simpl.
  - destruct (Z.eqb_spec (r_end q) lcn) as [He|He]; simpl.
    + alloc_set.
      apply Forall_app in Hpos as [Hpos _]. apply Forall_app in Hpos as [_ Hq].
      apply Forall_cons_1 in Hq as [Hq _].
      assert (in_run x (mkRun (r_lcn q) (r_length q + length)) <->
              in_run x q \/ lcn <= x < lcn + length) as ->
        by (unfold in_run, r_end in *; simpl; lia).
      tauto.
    + alloc_set. unfold in_run, r_end; simpl. tauto.
  - alloc_set. unfold in_run, r_end; simpl. tauto.
Qed.

Lemma wf_alloc_pos lo l : runs_from lo l -> Forall (fun r => 0 < r_length r) l.
Proof.
  revert lo; induction l as [|r l IH]; simpl; intros lo; [constructor|].
  intros (_ & ? & ?). constructor; eauto.
Qed.

Lemma wf_alloc_nonneg l : wf_alloc l -> Forall (fun r => 0 <= r_length r) l.
Proof. intros H. eapply Forall_impl; [by eapply wf_alloc_pos|]. simpl. lia. Qed.

(** With the list sorted, the overlap test of the code is exact. *)
Lemma overlap_exact l lcn length before after :
  wf_alloc l -> 0 < length -> locate l lcn = (before, after) ->
  (match last before with Some q => lcn <? r_end q | None => false end ||
   match head after with Some p => r_lcn p <? lcn + length | None => false end) = false <->
  (forall x, lcn <= x < lcn + length -> ~ allocated l x).
Proof.
  intros Hwf Hlen Hloc. destruct (runs_from_locate _ _ _ _ Hwf Hloc) as (Hb & Ha & Hp).
  destruct (locate_spec _ _ _ _ Hloc) as (-> & Hle & Hhd). clear Hloc Hwf.
  rewrite orb_false_iff. split.
  - intros [Hq Hpq] x Hx Hin. apply allocated_app in Hin as [Hin|Hin].
    + apply (runs_from_in _ _ _ Hb) in Hin. unfold end_of in Hin.
      destruct (last before); zb; lia.
    + destruct after as [|p after]; [by apply allocated_nil in Hin|]. simpl in *. zb.
      destruct (decide (lcn < x)) as [Hlt|Hnlt].
      * specialize (Hp x Hlt Hin p eq_refl). lia.
      * destruct Ha as (_ & Hp' & Ha). apply allocated_cons in Hin as [Hin|Hin].
        { unfold in_run in Hin. lia. }
        apply (runs_from_in _ _ _ Ha) in Hin. unfold r_end in *. lia.
  - intros Hfree. split.
    + destruct (last before) as [q|] eqn:Hq; [|done]. apply Z.ltb_ge.
      apply last_Some in Hq as [b' ->].
      destruct (decide (r_end q <= lcn)) as [|Hgt]; [done|]. exfalso.
      apply (Hfree lcn); [lia|]. rewrite !allocated_app, allocated_cons. left; right; left.
      apply Forall_app in Hle as [_ Hle]. apply Forall_cons_1 in Hle as [Hle _].
      unfold in_run. lia.
    + destruct after as [|p after]; [done|]. simpl in *. apply Z.ltb_ge.
      destruct (decide (lcn + length <= r_lcn p)) as [|Hlt]; [done|]. exfalso.
      apply (Hfree (r_lcn p)); [lia|]. rewrite allocated_app, allocated_cons. right; left.
      unfold in_run, r_end. lia.
Qed.

Lemma bitmap_allocate_ok lcn length st :
  wf_alloc (g_allocation st) -> 0 < length ->
  fst (bitmap_allocate malloc_ok lcn length st) = true <->
  (forall x, lcn <= x < lcn + length -> ~ allocated (g_allocation st) x).
Proof.
  intros Hwf Hlen. unfold bitmap_allocate.
  destruct (Z.eqb_spec length 0) as [->|_]; [lia|].
  rewrite malloc_never_fails.
  destruct (locate (g_allocation st) lcn) as [before after] eqn:Hloc.
  rewrite <- (overlap_exact _ _ _ _ _ Hwf Hlen Hloc).
  destruct (last before) as [q|]; [destruct (r_end q =? lcn)|]; simpl;
    apply negb_true_iff.
Qed.

Lemma bitmap_allocate_wf lcn length st :
  wf_alloc (g_allocation st) -> 0 <= lcn -> 0 <= length ->
  fst (bitmap_allocate malloc_ok lcn length st) = true ->
  wf_alloc (g_allocation (snd (bitmap_allocate malloc_ok lcn length st))).
Proof.
  intros Hwf Hlcn Hlen. unfold bitmap_allocate.
  destruct (Z.eqb_spec length 0) as [->|Hne]; [done|].
  rewrite malloc_never_fails.
  locate_cases (g_allocation st) lcn before after q b';
    destruct (runs_from_locate _ _ _ _ Hwf Hloc) as (Hb & Ha & _);
    destruct (locate_spec _ _ _ _ Hloc) as (_ & Hle & Hhd).
  - rewrite end_of_snoc in Ha. apply runs_from_app in Hb as [Hb Hq]. simpl in Hq.
    destruct (Z.eqb_spec (r_end q) lcn) as [He|He]; simpl; intros Hok; zb;
      unfold wf_alloc; rewrite <- ?app_assoc; rewrite runs_from_app; simpl.
    + split_and!; try tauto; [lia|].
      destruct after as [|p after]; simpl in *; [done|]. zb. unfold r_end in *; simpl.
      intuition lia.
    + split_and!; try tauto; try lia.
      destruct after as [|p after]; simpl in *; [done|]. zb. unfold r_end in *; simpl.
      intuition lia.
  - simpl. intros Hok. zb. split_and!; simpl; [done|lia|].
    destruct after as [|p after]; simpl in *; [done|]. zb. unfold r_end in *; simpl.
    intuition lia.
Qed.

End AllocatorProofs.

(** ** Freeing clusters *)

(** The run has a common portion with the [length] clusters from [lcn]. *)
Definition common (lcn length : Z) (p : run) : Prop :=
  common_first p lcn < common_last p lcn length.

#[global] Instance common_dec lcn length p : Decision (common lcn length p).
Proof. unfold common. apply _. Defined.

Lemma common_first_max p lcn : common_first p lcn = Z.max (r_lcn p) lcn.
Proof. unfold common_first. zcase; lia. Qed.

Lemma common_last_min p lcn length :
  common_last p lcn length = Z.min (r_end p) (lcn + length).
Proof. unfold common_last. zcase; lia. Qed.

Lemma common_iff lcn length p :
  common lcn length p <-> exists x, in_run x p /\ lcn <= x < lcn + length.
Proof.
  unfold common, in_run. rewrite common_first_max, common_last_min. split.
  - intros H. exists (Z.max (r_lcn p) lcn). lia.
  - intros (x & ? & ?). lia.
Qed.

Lemma find_common_Some l lcn length before p after :
  find_common l lcn length = Some (before, p, after) ->
  l = before ++ p :: after /\ Forall (fun r => ~ common lcn length r) before /\
  common lcn length p.
Proof.
  revert before p after; induction l as [|r l IH]; simpl; [done|].
  intros before p after.
  destruct (Z.ltb_spec (common_first r lcn) (common_last r lcn length)) as [Hlt|Hge].
  - intros [= <- <- <-]. split_and!; [done|constructor|exact Hlt].
  - destruct (find_common l lcn length) as [[[b r'] a]|]; [|done].
    intros [= <- <- <-]. destruct (IH _ _ _ eq_refl) as (-> & Hb & Hp).
    split_and!; [done| |done]. constructor; [unfold common; lia|done].
Qed.

Lemma find_common_None l lcn length :
  find_common l lcn length = None -> Forall (fun r => ~ common lcn length r) l.
Proof.
  induction l as [|r l IH]; simpl; [constructor|].
  destruct (Z.ltb_spec (common_first r lcn) (common_last r lcn length)) as [Hlt|Hge]; [done|].
  destruct (find_common l lcn length) as [[[b r'] a]|]; [done|].
  intros _. constructor; [unfold common; lia|auto].
Qed.

(** The runs still to be cut. *)
Definition ncommon (lcn length : Z) (l : list run) : nat :=
  List.length (filter (common lcn length) l).

Lemma ncommon_app lcn length l1 l2 :
  ncommon lcn length (l1 ++ l2) = (ncommon lcn length l1 + ncommon lcn length l2)%nat.
Proof. unfold ncommon. by rewrite filter_app, length_app. Qed.

Lemma ncommon_cons lcn length r l :
  ncommon lcn length (r :: l) =
  ((if decide (common lcn length r) then 1 else 0) + ncommon lcn length l)%nat.
Proof. unfold ncommon. rewrite filter_cons. by destruct (decide _). Qed.

Lemma ncommon_le lcn length l : (ncommon lcn length l <= List.length l)%nat.
Proof. apply length_filter. Qed.

(** In a sorted list the clusters of a run belong to no other run. *)
Lemma wf_alloc_disjoint lo l1 p l2 x :
  runs_from lo (l1 ++ p :: l2) -> in_run x p -> ~ allocated (l1 ++ l2) x.
Proof.
  intros Hwf Hx Hin. apply runs_from_app in Hwf as [H1 H2]. simpl in H2.
  destruct H2 as (? & ? & H2). apply allocated_app in Hin as [Hin|Hin].
  - apply (runs_from_in _ _ _ H1) in Hin. unfold in_run in Hx. lia.
  - apply (runs_from_in _ _ _ H2) in Hin. unfold in_run in Hx. lia.
Qed.

Lemma wf_alloc_remove lo l1 p l2 :
  runs_from lo (l1 ++ p :: l2) -> runs_from lo (l1 ++ l2).
Proof.
  rewrite !runs_from_app. simpl. intros (H1 & ? & ? & H2). split; [done|].
  eapply runs_from_weaken; [|done]. unfold r_end. lia.
Qed.

Section Deallocation.

Variable malloc_ok : nat -> bool.
Hypothesis malloc_never_fails : forall k, malloc_ok k = true.

(** Allocating clusters outside the freed range cuts no further run. *)
Lemma bitmap_allocate_ncommon lcn length a n st :
  Forall (fun r => 0 < r_length r) (g_allocation st) -> 0 < n ->
  (forall x, a <= x < a + n -> ~ (lcn <= x < lcn + length)) ->
  ncommon lcn length (g_allocation (snd (bitmap_allocate malloc_ok a n st))) =
  ncommon lcn length (g_allocation st).
Proof.
  destruct st as [l k]; simpl. intros Hpos Hn Hout. unfold bitmap_allocate; simpl.
  destruct (Z.eqb_spec n 0) as [|_]; [lia|]. rewrite malloc_never_fails.
  assert (~ common lcn length (mkRun a n)) as Hnew.
  { rewrite common_iff. intros (x & Hx & Hx'). apply (Hout x); [|done].
    unfold in_run, r_end in Hx. simpl in Hx. lia. }
  locate_cases l a before after q b';
    destruct (locate_spec _ _ _ _ Hloc) as (-> & _ & _); simpl.
  - destruct (Z.eqb_spec (r_end q) a) as [He|He]; simpl.
    + rewrite !ncommon_app, !ncommon_cons, (decide_ext _ (common lcn length q));
        [change (ncommon lcn length []) with 0%nat; lia|].
      apply Forall_app in Hpos as [Hpos _]. apply Forall_app in Hpos as [_ Hq].
      apply Forall_cons_1 in Hq as [Hq _].
      rewrite !common_iff. unfold in_run, r_end in *; simpl in *. split.
      * intros (x & Hx & Hx'). exists x. split; [|done].
        destruct (decide (x < a)); [lia|]. exfalso. apply (Hout x); lia.
      * intros (x & Hx & Hx'). exists x. lia.
    + rewrite !ncommon_app, !ncommon_cons. rewrite (decide_False _ _ Hnew). simpl. lia.
  - rewrite !ncommon_cons. rewrite (decide_False _ _ Hnew). done.
Qed.

(** Allocating free clusters: success, the invariant, the new clusters, and no
    new run to cut. *)
Lemma bitmap_allocate_free a n st :
  wf_alloc (g_allocation st) -> 0 <= a -> 0 <= n ->
  (forall x, a <= x < a + n -> ~ allocated (g_allocation st) x) ->
  exists st', bitmap_allocate malloc_ok a n st = (true, st') /\
    wf_alloc (g_allocation st') /\
    (forall x, allocated (g_allocation st') x <->
               allocated (g_allocation st) x \/ a <= x < a + n) /\
    (forall lcn length, (forall x, a <= x < a + n -> ~ (lcn <= x < lcn + length)) ->
       ncommon lcn length (g_allocation st') = ncommon lcn length (g_allocation st)).
Proof.
  intros Hwf Ha Hn Hfree.
  destruct (decide (n = 0)) as [->|Hne].
  { exists st. split_and!; try done. intros x. split; [tauto|]. intros [|]; [done|lia]. }
  assert (fst (bitmap_allocate malloc_ok a n st) = true) as Hok
    by (apply bitmap_allocate_ok; [done|done|lia|done]).
  exists (snd (bitmap_allocate malloc_ok a n st)). split_and!.
  - rewrite <- Hok. by destruct (bitmap_allocate malloc_ok a n st).
  - by apply bitmap_allocate_wf.
  - by apply bitmap_allocate_denote; [|apply wf_alloc_nonneg|].
  - intros lcn length Hout. apply bitmap_allocate_ncommon; [|lia|done].
    by eapply wf_alloc_pos.
Qed.

Lemma reallocate_if a n st :
  (if n =? 0 then (true, st) else bitmap_allocate malloc_ok a n st) =
  bitmap_allocate malloc_ok a n st.
Proof. unfold bitmap_allocate. by destruct (n =? 0). Qed.

(** One round of the loop: exactly the common portion of the run is freed. *)
Lemma deallocate_step fuel lcn length done st before p after :
  wf_alloc (g_allocation st) ->
  find_common (g_allocation st) lcn length = Some (before, p, after) ->
  exists st',
    deallocate_loop malloc_ok (S fuel) lcn length done st =
      deallocate_loop malloc_ok fuel lcn length done st' /\
    wf_alloc (g_allocation st') /\
    (forall x, allocated (g_allocation st') x <->
       allocated (g_allocation st) x /\ ~ (in_run x p /\ lcn <= x < lcn + length)) /\
    S (ncommon lcn length (g_allocation st')) = ncommon lcn length (g_allocation st).
Proof.
  destruct st as [l k]; cbn [deallocate_loop g_allocation mallocs].
  intros Hwf Hfind. rewrite Hfind.
  destruct (find_common_Some _ _ _ _ _ _ Hfind) as (-> & _ & Hcom).
  unfold wf_alloc in Hwf.
  pose proof (fun x => wf_alloc_disjoint 0 before p after x Hwf) as Hdis.
  pose proof (wf_alloc_remove _ _ _ _ Hwf) as Hwf'.
  assert (0 <= r_lcn p) as Hp0.
  { apply runs_from_app in Hwf as [H1 H2]. simpl in H2. pose proof (runs_from_end _ _ H1). lia. }
  pose proof Hcom as Hcom'. unfold common in Hcom'.
  rewrite !common_first_max, !common_last_min in *.
  rewrite reallocate_if.
  destruct (bitmap_allocate_free (Z.max (r_lcn p) lcn - (Z.max (r_lcn p) lcn - r_lcn p))
              (Z.max (r_lcn p) lcn - r_lcn p) (mkAstate (before ++ after) k))
    as (st1 & -> & Hwf1 & Hin1 & Hn1); simpl in *; [done|lia|lia| |].
  { intros x Hx. apply Hdis. unfold in_run, r_end in *. lia. }
  rewrite reallocate_if.
  destruct (bitmap_allocate_free (Z.min (r_end p) (lcn + length))
              (r_lcn p + r_length p - Z.min (r_end p) (lcn + length)) st1)
    as (st2 & -> & Hwf2 & Hin2 & Hn2); [done|unfold r_end in *; lia|unfold r_end; lia| |].
  { intros x Hx. rewrite Hin1. intros [H|H]; [|unfold r_end in *; lia].
    apply (Hdis x); [|done]. unfold in_run, r_end in *. lia. }
  exists st2. split_and!; [by destruct done|done| |].
  - intros x. rewrite Hin2, Hin1. alloc_set. specialize (Hdis x). revert Hdis.
    alloc_set. unfold in_run, r_end in *. intros Hdis. intuition lia.
  - rewrite Hn2 by (unfold r_end in *; lia). rewrite Hn1 by lia.
    rewrite !ncommon_app, ncommon_cons, decide_True by done. lia.
Qed.

Lemma deallocate_loop_correct fuel lcn length st :
  wf_alloc (g_allocation st) ->
  (ncommon lcn length (g_allocation st) < fuel)%nat ->
  exists st',
    deallocate_loop malloc_ok fuel lcn length true st = Some (true, st') /\
    wf_alloc (g_allocation st') /\
    (forall x, allocated (g_allocation st') x <->
       allocated (g_allocation st) x /\ ~ (lcn <= x < lcn + length)).
Proof.
  revert st; induction fuel as [|fuel IH]; intros st Hwf Hfuel; [lia|].
  destruct (find_common (g_allocation st) lcn length) as [[[before p] after]|] eqn:Hfind.
  - destruct (deallocate_step fuel _ _ true _ _ _ _ Hwf Hfind) as (st1 & -> & Hwf1 & Hin1 & Hn).
    destruct (IH st1 Hwf1) as (st2 & -> & Hwf2 & Hin2); [lia|].
    exists st2. split_and!; [done..|]. intros x. rewrite Hin2, Hin1. tauto.
  - simpl. rewrite Hfind. exists st. split_and!; [done..|]. intros x. split; [|tauto].
    intros Hx. split; [done|]. intros Hr. apply find_common_None in Hfind.
    unfold allocated in Hx. rewrite Exists_exists in Hx. destruct Hx as (r & Hr' & Hx).
    rewrite Forall_forall in Hfind. apply (Hfind r); [done|]. apply common_iff. eauto.
Qed.

End Deallocation.

(** ** The bits of a bitmap section *)

(** Bit [i] of a bitmap buffer. *)
Definition bit_of (buf : list Z) (i : Z) : bool := Z.testbit (byte_at buf (i / 8)) (i mod 8).

Lemma shiftr_3 z : Z.shiftr z 3 = z / 8.
Proof. by rewrite Z.shiftr_div_pow2. Qed.

Lemma land_7 z : Z.land z 7 = z mod 8.
Proof. change 7 with (Z.ones 3). by rewrite Z.land_ones. Qed.

Lemma byte_at_insert buf j v i :
  0 <= j < Z.of_nat (length buf) -> 0 <= i ->
  byte_at (<[Z.to_nat j := v]> buf) i = if i =? j then v else byte_at buf i.
Proof.
  intros Hj Hi. unfold byte_at. zcase.
  - subst. rewrite list_lookup_insert_eq by lia. done.
  - rewrite list_lookup_insert_ne by lia. done.
Qed.

Lemma div_mod_8_eq i j : i / 8 = j / 8 -> i mod 8 = j mod 8 -> i = j.
Proof. intros H1 H2. rewrite (Z.div_mod i 8), (Z.div_mod j 8) by lia. lia. Qed.

Lemma or_bit_bits buf bn i :
  0 <= bn < 8 * Z.of_nat (length buf) -> 0 <= i ->
  bit_of (or_bit buf bn) i = bit_of buf i || (i =? bn).
Proof.
  intros Hbn Hi. unfold or_bit, bit_of. rewrite shiftr_3, land_7.
  pose proof (Z.mod_pos_bound i 8). pose proof (Z.mod_pos_bound bn 8).
  pose proof (Z.div_mod bn 8). pose proof (Z.div_mod i 8).
  rewrite byte_at_insert by lia.
  destruct (Z.eqb_spec (i / 8) (bn / 8)) as [E|E].
  - rewrite Z.lor_spec, E, Z.shiftl_spec by lia. f_equal.
    destruct (Z.eqb_spec i bn) as [->|Hne].
    + by rewrite Z.sub_diag.
    + destruct (Z.testbit 1 (i mod 8 - bn mod 8)) eqn:Hb; [|done]. exfalso.
      apply Hne, div_mod_8_eq; [done|].
      destruct (Z.lt_trichotomy (i mod 8 - bn mod 8) 0) as [Hn|[Hz|Hp]]; [|lia|].
      * by rewrite Z.testbit_neg_r in Hb.
      * rewrite Z.bits_above_log2 in Hb; [done|lia|by apply Z.lt_le_trans with 1; [|lia]].
  - destruct (Z.eqb_spec i bn) as [->|]; [done|]. by rewrite orb_false_r.
Qed.

Lemma full_byte_bits buf bn i :
  0 <= bn -> bn + 7 < 8 * Z.of_nat (length buf) -> bn mod 8 = 0 -> 0 <= i ->
  bit_of (<[Z.to_nat (Z.shiftr bn 3) := 255]> buf) i =
  bit_of buf i || ((bn <=? i) && (i <? bn + 8)).
Proof.
  intros Hbn Hlen Hm Hi. unfold bit_of. rewrite shiftr_3.
  pose proof (Z.div_mod bn 8). pose proof (Z.div_mod i 8). pose proof (Z.mod_pos_bound i 8).
  rewrite byte_at_insert by lia.
  destruct (Z.eqb_spec (i / 8) (bn / 8)) as [E|E].
  - assert ((bn <=? i) && (i <? bn + 8) = true) as -> by lia. rewrite orb_true_r.
    change 255 with (Z.ones 8). rewrite Z.ones_spec_low; [done|lia].
  - assert ((bn <=? i) && (i <? bn + 8) = false) as -> by lia. by rewrite orb_false_r.
Qed.

Lemma length_or_bit buf bn : length (or_bit buf bn) = length buf.
Proof. apply length_insert. Qed.

Lemma clear_loop_length fuel j n buf : length (clear_loop fuel j n buf) = length buf.
Proof.
  revert j buf; induction fuel as [|fuel IH]; intros j buf; simpl; [done|].
  destruct (_ <? _); [|done]. by rewrite IH, length_insert.
Qed.

Lemma clear_loop_byte fuel j n buf i :
  0 <= j -> n - 8 * j <= 8 * Z.of_nat fuel -> n <= 8 * Z.of_nat (length buf) -> 0 <= i ->
  byte_at (clear_loop fuel j n buf) i =
  if (j <=? i) && (8 * i <? n) then 0 else byte_at buf i.
Proof.
  revert j buf; induction fuel as [|fuel IH]; intros j buf Hj Hf Hl Hi; simpl.
  { by assert ((j <=? i) && (8 * i <? n) = false) as -> by lia. }
  destruct (Z.ltb_spec (8 * j) n).
  - rewrite IH by (rewrite ?length_insert; lia). rewrite byte_at_insert by lia.
    destruct (Z.eqb_spec i j) as [->|].
    + assert ((j <=? j) && (8 * j <? n) = true) as -> by lia. by destruct (_ && _).
    + by assert ((j + 1 <=? i) && (8 * i <? n) = (j <=? i) && (8 * i <? n)) as -> by lia.
  - by assert ((j <=? i) && (8 * i <? n) = false) as -> by lia.
Qed.

(** [buf'] is [buf] with exactly the bits [a <= i < b] set as well. *)
Definition sets_bits (a b : Z) (buf buf' : list Z) : Prop :=
  length buf' = length buf /\
  forall i, 0 <= i -> bit_of buf' i = bit_of buf i || ((a <=? i) && (i <? b)).

Lemma sets_bits_refl a b buf : b <= a -> sets_bits a b buf buf.
Proof.
  intros H. split; [done|]. intros i Hi.
  assert ((a <=? i) && (i <? b) = false) as -> by lia. by rewrite orb_false_r.
Qed.

Lemma sets_bits_trans a b c buf1 buf2 buf3 :
  a <= b <= c -> sets_bits a b buf1 buf2 -> sets_bits b c buf2 buf3 -> sets_bits a c buf1 buf3.
Proof.
  intros Hab [L1 H1] [L2 H2]. split; [congruence|]. intros i Hi.
  rewrite H2, H1, <- orb_assoc by done. f_equal. lia.
Qed.

Lemma sets_bits_or a buf :
  0 <= a < 8 * Z.of_nat (length buf) -> sets_bits a (a + 1) buf (or_bit buf a).
Proof.
  intros H. split; [apply length_or_bit|]. intros i Hi. rewrite or_bit_bits by done.
  f_equal. lia.
Qed.

Lemma sets_bits_byte a buf :
  0 <= a -> a + 7 < 8 * Z.of_nat (length buf) -> a mod 8 = 0 ->
  sets_bits a (a + 8) buf (<[Z.to_nat (Z.shiftr a 3) := 255]> buf).
Proof.
  intros ? ? ?. split; [apply length_insert|]. intros i Hi. by apply full_byte_bits.
Qed.

Lemma initial_loop_spec fuel bn lim buf :
  0 <= bn <= lim -> lim <= 8 * Z.of_nat (length buf) -> lim - bn < Z.of_nat fuel ->
  exists bn' buf', initial_loop fuel bn lim buf = (bn', buf') /\ bn <= bn' <= lim /\
    sets_bits bn bn' buf buf' /\ (bn' = lim \/ bn' mod 8 = 0).
Proof.
  revert bn buf; induction fuel as [|fuel IH]; intros bn buf Hbn Hl Hf; [lia|]. simpl.
  rewrite land_7.
  destruct (Z.ltb_spec bn lim); simpl; [destruct (Z.eqb_spec (bn mod 8) 0); simpl|].
  - exists bn, buf. split_and!; try done; try lia. by apply sets_bits_refl; lia.
  - destruct (IH (bn + 1) (or_bit buf bn)) as (bn' & buf' & -> & Hb & Hs & He);
      [lia|rewrite length_or_bit; lia|lia|].
    exists bn', buf'. split_and!; try done; try lia.
    eapply sets_bits_trans; [|by apply sets_bits_or; lia|done]. lia.
  - exists bn, buf. split_and!; try done; try lia. by apply sets_bits_refl; lia.
Qed.

Lemma full_loop_spec fuel bn lim buf :
  0 <= bn <= lim -> lim <= 8 * Z.of_nat (length buf) -> lim - bn < Z.of_nat fuel ->
  bn = lim \/ bn mod 8 = 0 ->
  exists bn' buf', full_loop fuel bn lim buf = (bn', buf') /\ bn <= bn' <= lim /\
    sets_bits bn bn' buf buf'.
Proof.
  revert bn buf; induction fuel as [|fuel IH]; intros bn buf Hbn Hl Hf Hm; [lia|]. simpl.
  destruct (Z.ltb_spec bn (lim - 7)).
  - destruct Hm as [|Hm]; [lia|].
    destruct (IH (bn + 8) (<[Z.to_nat (Z.shiftr bn 3) := 255]> buf))
      as (bn' & buf' & -> & Hb & Hs); [lia|rewrite length_insert; lia|lia| |].
    { right. rewrite <- Z.add_mod_idemp_r by lia. change (8 mod 8) with 0. by rewrite Z.add_0_r. }
    exists bn', buf'. split_and!; try done; try lia.
    eapply sets_bits_trans; [|by apply sets_bits_byte; lia|done]. lia.
  - exists bn, buf. split_and!; try done; try lia. by apply sets_bits_refl; lia.
Qed.

Lemma final_loop_spec fuel bn lim buf :
  0 <= bn <= lim -> lim <= 8 * Z.of_nat (length buf) -> lim - bn < Z.of_nat fuel ->
  exists buf', final_loop fuel bn lim buf = (lim, buf') /\ sets_bits bn lim buf buf'.
Proof.
  revert bn buf; induction fuel as [|fuel IH]; intros bn buf Hbn Hl Hf; [lia|]. simpl.
  destruct (Z.ltb_spec bn lim).
  - destruct (IH (bn + 1) (or_bit buf bn)) as (buf' & -> & Hs);
      [lia|rewrite length_or_bit; lia|lia|].
    exists buf'. split; [done|].
    eapply sets_bits_trans; [|by apply sets_bits_or; lia|done]. lia.
  - exists buf. replace bn with lim by lia. split; [done|]. by apply sets_bits_refl; lia.
Qed.

Lemma build_run_bits p lcn n buf i :
  n <= 8 * Z.of_nat (length buf) -> 0 <= i < n ->
  length (build_run p lcn n buf) = length buf /\
  bit_of (build_run p lcn n buf) i = bit_of buf i || bool_decide (in_run (lcn + i) p).
Proof.
  intros Hl Hi. unfold build_run. rewrite common_first_max, common_last_min.
  destruct (Z.ltb_spec (Z.max (r_lcn p) lcn) (Z.min (r_end p) (lcn + n))) as [Hlt|Hge].
  - cbv zeta. set (bn := Z.max (r_lcn p) lcn - lcn).
    set (lim := Z.min (r_end p) (lcn + n) - lcn). set (fuel := S (Z.to_nat (lim - bn))).
    assert (lim - bn < Z.of_nat fuel) by (subst fuel; lia).
    destruct (initial_loop_spec fuel bn lim buf) as (b1 & buf1 & -> & H1 & S1 & M1); try lia.
    destruct (full_loop_spec fuel b1 lim buf1) as (b2 & buf2 & -> & H2 & S2); try done; try lia.
    { destruct S1. lia. }
    destruct (final_loop_spec fuel b2 lim buf2) as (buf3 & -> & S3); try lia.
    { destruct S1, S2. lia. }
    assert (sets_bits bn lim buf buf3) as [L B].
    { eapply sets_bits_trans; [|done|eapply sets_bits_trans; [|done|done]]; lia. }
    split; [done|]. rewrite B by lia. f_equal. unfold in_run.
    subst bn lim. case_bool_decide; lia.
  - split; [done|]. rewrite bool_decide_false; [by rewrite orb_false_r|].
    unfold in_run. lia.
Qed.

Lemma build_runs_bits l lcn n buf i :
  n <= 8 * Z.of_nat (length buf) -> 0 <= i < n ->
  bit_of (fold_left (fun buf p => build_run p lcn n buf) l buf) i =
  bit_of buf i || bool_decide (allocated l (lcn + i)).
Proof.
  revert buf; induction l as [|p l IH]; intros buf Hl Hi; cbn [fold_left].
  { rewrite bool_decide_false; [by rewrite orb_false_r|].
    intros H. by apply allocated_nil in H. }
  destruct (build_run_bits p lcn n buf i Hl Hi) as [L B].
  rewrite IH by lia. rewrite B, <- orb_assoc. f_equal.
  symmetry. rewrite (bool_decide_ext _ _ (allocated_cons _ _ _)). apply bool_decide_or.
Qed.

Lemma build_run_length p lcn n buf :
  n <= 8 * Z.of_nat (length buf) -> length (build_run p lcn n buf) = length buf.
Proof.
  intros Hl. destruct (Z.lt_ge_cases 0 n) as [Hn|Hn].
  - by apply (build_run_bits p lcn n buf 0).
  - unfold build_run. rewrite common_first_max, common_last_min.
    destruct (Z.ltb_spec (Z.max (r_lcn p) lcn) (Z.min (r_end p) (lcn + n))); [lia|done].
Qed.

Lemma bitmap_build_length buf lcn n l :
  n <= 8 * Z.of_nat (length buf) -> length (bitmap_build buf lcn n l) = length buf.
Proof.
  intros Hl. unfold bitmap_build. rewrite <- (clear_loop_length (S (Z.to_nat n)) 0 n buf) in Hl |- *.
  revert Hl. generalize (clear_loop (S (Z.to_nat n)) 0 n buf). clear buf.
  induction l as [|p l IH]; intros buf Hl; cbn [fold_left]; [done|].
  pose proof (build_run_length p lcn n buf Hl) as E. rewrite IH; lia.
Qed.

Lemma bitmap_deallocate_spec malloc_ok lcn length st :
  (forall k, malloc_ok k = true) ->
  wf_alloc (g_allocation st) -> 0 < length ->
  exists st', bitmap_deallocate malloc_ok lcn length st = Some (true, st') /\
    wf_alloc (g_allocation st') /\
    (forall x, allocated (g_allocation st') x <->
               allocated (g_allocation st) x /\ ~ (lcn <= x < lcn + length)).
Proof.
  intros Hm Hwf Hlen. unfold bitmap_deallocate.
  destruct (Z.eqb_spec length 0) as [|_]; [lia|].
  apply deallocate_loop_correct; [done|done|].
  pose proof (ncommon_le lcn length (g_allocation st)). lia.
Qed.

Lemma bitmap_get_and_set_spec malloc_ok lcn st :
  (forall k, malloc_ok k = true) ->
  wf_alloc (g_allocation st) -> 0 <= lcn ->
  let r := bitmap_get_and_set malloc_ok lcn 1 st in
  (allocated (g_allocation st) lcn -> r = (1, st)) /\
  (~ allocated (g_allocation st) lcn ->
     fst r = 0 /\ wf_alloc (g_allocation (snd r)) /\
     forall x, allocated (g_allocation (snd r)) x <->
               allocated (g_allocation st) x \/ x = lcn).
Proof.
  intros Hm Hwf Hlcn. cbv zeta. unfold bitmap_get_and_set. simpl.
  destruct (locate (g_allocation st) lcn) as [before after] eqn:Hloc.
  pose proof (overlap_exact _ _ 1 _ _ Hwf ltac:(lia) Hloc) as Hov.
  destruct (locate_spec _ _ _ _ Hloc) as (Heq & Hle & Hhd).
  assert (match head after with Some p => r_lcn p <? lcn + 1 | None => false end = false) as Hp.
  { destruct (head after); [|done]. lia. }
  rewrite Hp, orb_false_r in Hov.
  assert (match last before with
          | Some q => (r_lcn q <=? lcn) && (lcn <? r_end q) | None => false end =
          match last before with Some q => lcn <? r_end q | None => false end) as ->.
  { destruct (last before) as [q|] eqn:Hq; [|done]. apply last_Some in Hq as [b' ->].
    apply Forall_app in Hle as [_ Hle]. apply Forall_cons_1 in Hle as [Hle _].
    by rewrite (proj2 (Z.leb_le _ _) Hle). }
  destruct (match last before with Some q => _ | None => false end) eqn:Hb.
  - split; [done|]. intros Hn. exfalso. cut (true = false); [done|]. apply Hov.
    intros x Hx. by replace x with lcn by lia.
  - split; [intros Ha; exfalso; apply (proj1 Hov eq_refl lcn); [lia|done]|]. intros Hn.
    destruct (bitmap_allocate_free malloc_ok Hm lcn 1 st) as (st' & E & Hwf' & Hin & _);
      [done|done|lia|by apply Hov|].
    rewrite E. simpl. split_and!; [done|done|]. intros x. rewrite Hin.
    assert (lcn <= x < lcn + 1 <-> x = lcn) as -> by lia. done.
Qed.

(** ** The properties of the allocator *)

(** The only use of memory: a node for a run that does not extend the one before. *)
Lemma bitmap_allocate_memory malloc_ok lcn length st :
  bitmap_allocate malloc_ok lcn length st = bitmap_allocate (fun _ => true) lcn length st \/
  malloc_ok (mallocs st) = false /\
  bitmap_allocate malloc_ok lcn length st =
    (false, mkAstate (g_allocation st) (S (mallocs st))).
Proof.
  unfold bitmap_allocate. destruct (length =? 0); [by left|].
  destruct (locate (g_allocation st) lcn) as [before after].
  destruct (malloc_ok (mallocs st)); [by left|].
  destruct (last before) as [q|]; [destruct (r_end q =? lcn)|]; auto.
Qed.

(** [C11] [bitmap_allocate] on a sorted list of disjoint runs, whatever [malloc] does.
    Either [malloc] failed, and then it answers FALSE and the list is unchanged; or
    the requested clusters are allocated afterwards and nothing else changes, it
    answers TRUE exactly when none of them was allocated before, and when it answers
    TRUE the list is again sorted and disjoint (when it answers FALSE for an
    overlap it is not: the clusters are entered all the same). *)
Theorem bitmap_allocate_correct malloc_ok lcn length st :
  wf_alloc (g_allocation st) -> 0 <= lcn -> 0 < length ->
  let ok := fst (bitmap_allocate malloc_ok lcn length st) in
  let st' := snd (bitmap_allocate malloc_ok lcn length st) in
  malloc_ok (mallocs st) = false /\ ok = false /\ g_allocation st' = g_allocation st \/
  (ok = true <-> forall x, lcn <= x < lcn + length -> ~ allocated (g_allocation st) x) /\
  (forall x, allocated (g_allocation st') x <->
             allocated (g_allocation st) x \/ lcn <= x < lcn + length) /\
  (ok = true -> wf_alloc (g_allocation st')).
Proof.
  intros Hwf Hlcn Hlen. cbv zeta.
  destruct (bitmap_allocate_memory malloc_ok lcn length st) as [->|[Hm ->]]; [right|by left].
  split_and!.
  - by apply bitmap_allocate_ok.
  - apply bitmap_allocate_denote; [done|by apply wf_alloc_nonneg|lia].
  - apply bitmap_allocate_wf; [done|done|done|lia].
Qed.

Definition sample_alloc : astate := mkAstate [mkRun 0 2; mkRun 4 3; mkRun 7 1] 0.

(** Clusters 2 and 3 extend the first run, and no memory is needed. *)
Lemma bitmap_allocate_correct_witness :
  let ok := fst (bitmap_allocate (fun _ => false) 2 2 sample_alloc) in
  let st' := snd (bitmap_allocate (fun _ => false) 2 2 sample_alloc) in
  ok = true /\
  (false = false /\ ok = false /\ g_allocation st' = g_allocation sample_alloc \/
  (ok = true <-> forall x, 2 <= x < 2 + 2 -> ~ allocated (g_allocation sample_alloc) x) /\
  (forall x, allocated (g_allocation st') x <->
             allocated (g_allocation sample_alloc) x \/ 2 <= x < 2 + 2) /\
  (ok = true -> wf_alloc (g_allocation st'))).
Proof.
  split; [reflexivity|]. apply (bitmap_allocate_correct (fun _ => false) 2 2 sample_alloc).
  - unfold wf_alloc, r_end. simpl. unfold r_end. simpl. lia.
  - lia.
  - lia.
Defined.

(** [bitmap_deallocate] on a sorted list of disjoint runs terminates with TRUE (its
    loop cuts each overlapping run once, the fuel of one round per run plus one
    is enough), leaves the list sorted and disjoint, and frees exactly the
    requested clusters, clusters that were free already being no error. *)
Theorem bitmap_deallocate_correct malloc_ok lcn length st :
  (forall k, malloc_ok k = true) ->
  wf_alloc (g_allocation st) -> 0 < length ->
  exists st', bitmap_deallocate malloc_ok lcn length st = Some (true, st') /\
    wf_alloc (g_allocation st') /\
    (forall x, allocated (g_allocation st') x <->
               allocated (g_allocation st) x /\ ~ (lcn <= x < lcn + length)).
Proof.
  apply bitmap_deallocate_spec.
Qed.

Lemma bitmap_deallocate_correct_witness :
  exists st', bitmap_deallocate (fun _ => true) 1 5 sample_alloc = Some (true, st') /\
    wf_alloc (g_allocation st') /\
    (forall x, allocated (g_allocation st') x <->
               allocated (g_allocation sample_alloc) x /\ ~ (1 <= x < 1 + 5)).
Proof.
  apply (bitmap_deallocate_correct (fun _ => true) 1 5 sample_alloc).
  - intros k. reflexivity.
  - unfold wf_alloc, r_end. simpl. unfold r_end. simpl. lia.
  - lia.
Defined.

Example deallocate_splits_runs :
  bitmap_deallocate (fun _ => true) 1 5 sample_alloc =
  Some (true, mkAstate [mkRun 0 1; mkRun 6 1; mkRun 7 1] 2).
Proof. reflexivity. Qed.

(** [bitmap_get_and_set] on one cluster of a sorted list answers 1 and changes
    nothing when the cluster was allocated, and otherwise answers 0 and
    allocates exactly that cluster, keeping the list sorted and disjoint. *)
Theorem bitmap_get_and_set_correct malloc_ok lcn st :
  (forall k, malloc_ok k = true) ->
  wf_alloc (g_allocation st) -> 0 <= lcn ->
  let r := bitmap_get_and_set malloc_ok lcn 1 st in
  (allocated (g_allocation st) lcn -> r = (1, st)) /\
  (~ allocated (g_allocation st) lcn ->
     fst r = 0 /\ wf_alloc (g_allocation (snd r)) /\
     forall x, allocated (g_allocation (snd r)) x <->
               allocated (g_allocation st) x \/ x = lcn).
Proof. apply bitmap_get_and_set_spec. Qed.

Lemma bitmap_get_and_set_correct_witness :
  let r := bitmap_get_and_set (fun _ => true) 3 1 sample_alloc in
  (allocated (g_allocation sample_alloc) 3 -> r = (1, sample_alloc)) /\
  (~ allocated (g_allocation sample_alloc) 3 ->
     fst r = 0 /\ wf_alloc (g_allocation (snd r)) /\
     forall x, allocated (g_allocation (snd r)) x <->
               allocated (g_allocation sample_alloc) x \/ x = 3).
Proof.
  apply (bitmap_get_and_set_correct (fun _ => true) 3 sample_alloc).
  - intros k. reflexivity.
  - unfold wf_alloc, r_end. simpl. unfold r_end. simpl. lia.
  - lia.
Defined.

Lemma bitmap_build_bits buf lcn length l i :
  length <= 8 * Z.of_nat (List.length buf) -> 0 <= i < length ->
  bit_of (bitmap_build buf lcn length l) i = bool_decide (allocated l (lcn + i)).
Proof.
  intros Hl Hi. unfold bitmap_build.
  rewrite build_runs_bits by (rewrite ?clear_loop_length; lia).
  replace (bit_of (clear_loop _ _ _ _) i) with false; [done|].
  unfold bit_of. pose proof (Z.div_mod i 8). pose proof (Z.mod_pos_bound i 8).
  rewrite clear_loop_byte by lia.
  assert ((0 <=? i / 8) && (8 * (i / 8) <? length) = true) as -> by lia.
  by rewrite Z.testbit_0_l.
Qed.

(** [C12] [bitmap_build], which writes whole bytes where it can, produces the same
    section as the specification bit by bit: for any list of runs, bit [i] of
    the section that starts at cluster [lcn] is set exactly when cluster
    [lcn + i] is allocated, whatever the buffer held before. *)
Theorem bitmap_build_correct buf lcn length l i :
  length <= 8 * Z.of_nat (List.length buf) -> 0 <= i < length ->
  bit_of (bitmap_build buf lcn length l) i = bool_decide (allocated l (lcn + i)).
Proof. apply bitmap_build_bits. Qed.

Lemma bitmap_build_correct_witness :
  bit_of (bitmap_build (replicate 4 170) 0 30 (g_allocation sample_alloc)) 6 =
  bool_decide (allocated (g_allocation sample_alloc) (0 + 6)).
Proof. apply (bitmap_build_correct (replicate 4 170) 0 30); simpl; lia. Defined.

Example build_sample :
  bitmap_build (replicate 4 170) 0 30 [mkRun 0 2; mkRun 4 14; mkRun 29 40] = [243; 255; 3; 32].
Proof. reflexivity. Qed.
