(* ===== verification/Scatter.v ===== *)
(** * Scattered allocation

    Models [allocate_scattered_clusters] and [deallocate_scattered_clusters] of
    src/NTFSModule/bridge/mkntfs/mkntfs.c on top of the cluster allocator: free
    clusters are taken from the MFT zone's end upwards, the zone being halved
    each time the clusters above it are exhausted.

    The runlist is the list of its elements without the terminator the code
    appends.  Heap requests ([realloc] of the runlist and the allocator's own
    [ntfs_malloc]) are answered by the oracle [malloc_ok].  The [s64] counters
    are elements of [Z]: they are bounded by the number of clusters. *)

From S2P Require Import Prelude ClusterAlloc.

(** Clusters of a runlist in the order of their virtual cluster numbers. *)
Definition rl_clusters (rl : list rle) : list Z :=
  rl ≫= fun e => seqZ (rl_lcn e) (rl_length e).
Arguments rl_clusters : simpl never.

(** The locals of the function and the globals it changes. *)
Record scatter := mkScatter {
  sc_rl : list rle;          (* rl[0 .. rlpos-1] *)
  sc_rlsize : Z;             (* bytes allocated for rl *)
  sc_vcn : Z;
  sc_prev_lcn : Z;
  sc_prev_run_len : Z;
  sc_clusters : Z;           (* clusters still to allocate *)
  sc_alloc : astate }.

Inductive scan_result :=
  | ScanDone (s : scatter)     (* all clusters allocated *)
  | ScanNoMem (s : scatter)    (* realloc failed: goto err_end *)
  | ScanEnd (s : scatter).     (* zone exhausted *)

Section Scatter.

Variable malloc_ok : nat -> bool.
Variable nr_clusters : Z.

Definition sizeof_runlist : Z := 24.

(** [realloc(rl, rlsize)] when the next element and the terminator do not fit. *)
Definition grow_rl (s : scatter) : bool * scatter :=
  if sc_rlsize s <=? (Z.of_nat (length (sc_rl s)) + 2) * sizeof_runlist then
    let k := mallocs (sc_alloc s) in
    let a := mkAstate (g_allocation (sc_alloc s)) (S k) in
    (malloc_ok k,
     mkScatter (sc_rl s) (sc_rlsize s + 4096) (sc_vcn s) (sc_prev_lcn s)
               (sc_prev_run_len s) (sc_clusters s) a)
  else (true, s).

(** Record cluster [lcn], coalescing with the previous run if adjacent. *)
Definition record_cluster (lcn : Z) (s : scatter) : scatter :=
  if sc_prev_lcn s =? lcn - sc_prev_run_len s then
    let len := sc_prev_run_len s + 1 in
    mkScatter
      (alter (fun e => mkRle (rl_vcn e) (rl_lcn e) len) (pred (length (sc_rl s))) (sc_rl s))
      (sc_rlsize s) (sc_vcn s + 1) (sc_prev_lcn s) len (sc_clusters s) (sc_alloc s)
  else
    mkScatter (sc_rl s ++ [mkRle (sc_vcn s) lcn 1])
      (sc_rlsize s) (sc_vcn s + 1) lcn 1 (sc_clusters s) (sc_alloc s).

(** The inner loop [for (lcn = g_mft_zone_end; lcn < end; lcn++)]; the fuel is
    the number of clusters of the zone. *)
Fixpoint scan_zone (fuel : nat) (lcn : Z) (s : scatter) : scan_result :=
  match fuel with
  | O => ScanEnd s
  | S fuel =>
      let '(bit, a) := bitmap_get_and_set malloc_ok lcn 1 (sc_alloc s) in
      let s := mkScatter (sc_rl s) (sc_rlsize s) (sc_vcn s) (sc_prev_lcn s)
                         (sc_prev_run_len s) (sc_clusters s) a in
      if negb (bit =? 0) then scan_zone fuel (lcn + 1) s
      else
        let '(ok, s) := grow_rl s in
        if negb ok then ScanNoMem s
        else
          let s := record_cluster lcn s in
          let s := mkScatter (sc_rl s) (sc_rlsize s) (sc_vcn s) (sc_prev_lcn s)
                             (sc_prev_run_len s) (sc_clusters s - 1) (sc_alloc s) in
          if sc_clusters s =? 0 then ScanDone s
          else scan_zone fuel (lcn + 1) s
  end.

(** Deallocate the runs of a runlist; [None] if a loop of the allocator ran out
    of fuel. *)
Fixpoint deallocate_scattered_clusters (rl : list rle) (st : astate) : option astate :=
  match rl with
  | [] => Some st
  | e :: rl =>
      if rl_lcn e =? -1 then deallocate_scattered_clusters rl st
      else match bitmap_deallocate malloc_ok (rl_lcn e) (rl_length e) st with
           | Some (_, st) => deallocate_scattered_clusters rl st
           | None => None
           end
  end.

(** The result of the call: the runlist or NULL, the new [g_mft_zone_end] and
    the allocator; [None] stands for exhausted fuel. *)
Definition err_end (zone : Z) (s : scatter) : option (option (list rle) * Z * astate) :=
  match deallocate_scattered_clusters (sc_rl s) (sc_alloc s) with
  | Some a => Some (None, zone, a)
  | None => None
  end.

(** The outer loop: [end], [g_mft_zone_end] and the locals. *)
Fixpoint scatter_loop (fuel : nat) (zend zone : Z) (s : scatter)
  : option (option (list rle) * Z * astate) :=
  match fuel with
  | O => None
  | S fuel =>
      if sc_clusters s =? 0
      then Some (if sc_rlsize s =? 0 then None else Some (sc_rl s), zone, sc_alloc s)
      else
        match scan_zone (Z.to_nat (zend - zone)) zone s with
        | ScanDone s => Some (Some (sc_rl s), zone, sc_alloc s)
        | ScanNoMem s => err_end zone s
        | ScanEnd s =>
            let zend := zone in
            let zone := Z.shiftr zone 1 in
            if zone <=? 0 then err_end zone s
            else scatter_loop fuel zend zone s
        end
  end.

Definition allocate_scattered_clusters (clusters g_mft_zone_end : Z) (a : astate)
  : option (option (list rle) * Z * astate) :=
  scatter_loop (S (Z.to_nat g_mft_zone_end)) nr_clusters g_mft_zone_end
               (mkScatter [] 0 0 0 0 clusters a).

End Scatter.

Example scatter_run :
  allocate_scattered_clusters (fun _ => true) 12 7 6 (mkAstate [mkRun 0 2; mkRun 8 2] 0) =
  Some (Some [mkRle 0 6 2; mkRle 2 10 2; mkRle 4 3 3], 3,
        mkAstate [mkRun 0 2; mkRun 3 3; mkRun 6 2; mkRun 8 4] 3).
Proof. vm_compute. reflexivity. Qed.

(** When the runlist cannot grow, the cluster just taken is in no run yet, and
    [err_end] does not give it back: here it is cluster 6. *)
Example scatter_realloc_leak :
  allocate_scattered_clusters (fun k => Nat.eqb k 0) 12 2 6 (mkAstate [mkRun 0 2] 0) =
  Some (None, 6, mkAstate [mkRun 0 2; mkRun 6 1] 2).
Proof. vm_compute. reflexivity. Qed.

(** ** Shape of the runlist *)

(** The virtual clusters of the runlist are contiguous from [v] on, and no run
    is empty. *)
Fixpoint vcn_from (v : Z) (rl : list rle) : Prop :=
  match rl with
  | [] => True
  | e :: rl => rl_vcn e = v /\ 0 < rl_length e /\ vcn_from (v + rl_length e) rl
  end.

Definition rl_total (rl : list rle) : Z := Z.of_nat (length (rl_clusters rl)).

Lemma rl_clusters_app l1 l2 : rl_clusters (l1 ++ l2) = rl_clusters l1 ++ rl_clusters l2.
Proof. apply bind_app. Qed.

Lemma seqZ_one m : seqZ m 1 = [m].
Proof. unfold seqZ. simpl. f_equal. Qed.

Lemma rl_clusters_one v lcn n : rl_clusters [mkRle v lcn n] = seqZ lcn n.
Proof. unfold rl_clusters. simpl. apply app_nil_r. Qed.

Lemma rl_total_cons e l : rl_total (e :: l) = Z.max 0 (rl_length e) + rl_total l.
Proof.
  unfold rl_total. change (e :: l) with ([e] ++ l). destruct e as [v lcn n].
  rewrite rl_clusters_app, rl_clusters_one, length_app, length_seqZ. simpl. lia.
Qed.

Lemma vcn_from_snoc v l e :
  vcn_from v (l ++ [e]) <->
  vcn_from v l /\ rl_vcn e = v + rl_total l /\ 0 < rl_length e.
Proof.
  revert v; induction l as [|e' l IH]; intros v; simpl.
  { change (rl_total []) with 0. rewrite Z.add_0_r. tauto. }
  rewrite IH, rl_total_cons.
  split; intros H; decompose [and] H; split_and!; try done; lia.
Qed.

Lemma alter_last {A} (f : A -> A) l x :
  alter f (pred (length (l ++ [x]))) (l ++ [x]) = l ++ [f x].
Proof.
  rewrite length_app. simpl. replace (pred (length l + 1)) with (length l + 0)%nat by lia.
  by rewrite alter_app_r.
Qed.

(** ** The loop invariant

    [a0] is the allocator before the call and [total] the clusters requested. *)
Record sc_inv (nr : Z) (a0 : list run) (total : Z) (s : scatter) : Prop := {
  inv_wf : wf_alloc (g_allocation (sc_alloc s));
  inv_set : forall x, allocated (g_allocation (sc_alloc s)) x <->
                      allocated a0 x \/ x ∈ rl_clusters (sc_rl s);
  inv_nodup : NoDup (rl_clusters (sc_rl s));
  inv_new : forall x, x ∈ rl_clusters (sc_rl s) -> ~ allocated a0 x /\ 1 <= x < nr;
  inv_vcns : vcn_from 0 (sc_rl s);
  inv_vcn : sc_vcn s = rl_total (sc_rl s);
  inv_count : sc_vcn s + sc_clusters s = total;
  inv_prev : match last (sc_rl s) with
             | None => sc_prev_lcn s = 0 /\ sc_prev_run_len s = 0
             | Some e => sc_prev_lcn s = rl_lcn e /\ sc_prev_run_len s = rl_length e
             end }.

Lemma record_cluster_spec lcn s :
  1 <= lcn -> vcn_from 0 (sc_rl s) -> sc_vcn s = rl_total (sc_rl s) ->
  match last (sc_rl s) with
  | None => sc_prev_lcn s = 0 /\ sc_prev_run_len s = 0
  | Some e => sc_prev_lcn s = rl_lcn e /\ sc_prev_run_len s = rl_length e
  end ->
  let s' := record_cluster lcn s in
  rl_clusters (sc_rl s') = rl_clusters (sc_rl s) ++ [lcn] /\
  vcn_from 0 (sc_rl s') /\ sc_vcn s' = sc_vcn s + 1 /\
  sc_clusters s' = sc_clusters s /\ sc_alloc s' = sc_alloc s /\
  match last (sc_rl s') with
  | None => sc_prev_lcn s' = 0 /\ sc_prev_run_len s' = 0
  | Some e => sc_prev_lcn s' = rl_lcn e /\ sc_prev_run_len s' = rl_length e
  end.
Proof.
  destruct s as [rl sz vcn pl pn cl a]; simpl. intros Hlcn Hv Hvcn Hprev.
  unfold record_cluster; simpl. destruct (Z.eqb_spec pl (lcn - pn)) as [Heq|Hne]; simpl.
  - destruct (last rl) as [e|] eqn:Hl; [|lia]. apply last_Some in Hl as [l' ->].
    destruct Hprev as [-> ->]. rewrite alter_last, last_snoc.
    apply vcn_from_snoc in Hv as (Hv & He & Hpos).
    rewrite !rl_clusters_app, rl_clusters_one. destruct e as [ev el en]; simpl in *.
    rewrite rl_clusters_one, vcn_from_snoc; simpl.
    split_and!; try done; try lia.
    rewrite seqZ_app, <- app_assoc, seqZ_one by lia. by replace (el + en) with lcn by lia.
  - rewrite last_snoc, rl_clusters_app, rl_clusters_one, seqZ_one, vcn_from_snoc. simpl.
    split_and!; try done; lia.
Qed.

Section ScatterProofs.

Variable malloc_ok : nat -> bool.
Hypothesis malloc_never_fails : forall k, malloc_ok k = true.
Variable nr : Z.
Variable a0 : list run.
Variable total : Z.

Lemma grow_rl_spec s :
  exists s', grow_rl malloc_ok s = (true, s') /\
    sc_rl s' = sc_rl s /\ sc_vcn s' = sc_vcn s /\ sc_prev_lcn s' = sc_prev_lcn s /\
    sc_prev_run_len s' = sc_prev_run_len s /\ sc_clusters s' = sc_clusters s /\
    g_allocation (sc_alloc s') = g_allocation (sc_alloc s).
Proof.
  unfold grow_rl. destruct (_ <=? _); [|by exists s].
  rewrite malloc_never_fails. eexists. by split_and!.
Qed.

(** Taking one free cluster keeps the invariant. *)
Lemma take_cluster lcn s s1 a :
  sc_inv nr a0 total s -> 1 <= lcn < nr -> ~ allocated (g_allocation (sc_alloc s)) lcn ->
  wf_alloc (g_allocation a) ->
  (forall x, allocated (g_allocation a) x <->
             allocated (g_allocation (sc_alloc s)) x \/ x = lcn) ->
  sc_rl s1 = sc_rl s -> sc_vcn s1 = sc_vcn s -> sc_prev_lcn s1 = sc_prev_lcn s ->
  sc_prev_run_len s1 = sc_prev_run_len s -> sc_clusters s1 = sc_clusters s ->
  g_allocation (sc_alloc s1) = g_allocation a ->
  let s2 := record_cluster lcn s1 in
  sc_inv nr a0 total
    (mkScatter (sc_rl s2) (sc_rlsize s2) (sc_vcn s2) (sc_prev_lcn s2)
               (sc_prev_run_len s2) (sc_clusters s2 - 1) (sc_alloc s2)).
Proof.
  intros [Hwf Hset Hnd Hnew Hvs Hv Hc Hp] Hlcn Hfree Hwfa Ha E1 E2 E3 E4 E5 E6.
  destruct (record_cluster_spec lcn s1) as (R1 & R2 & R3 & R4 & R5 & R6);
    [lia|by rewrite E1|by rewrite E1, E2|by rewrite E1, E3, E4|].
  cbv zeta. rewrite E1 in R1.
  assert (lcn ∉ rl_clusters (sc_rl s)) as Hni by (intros H; apply Hfree, Hset; by right).
  split; simpl; rewrite ?R5, ?E6; try done.
  - intros x. rewrite Ha, Hset, R1, elem_of_app, list_elem_of_singleton. tauto.
  - rewrite R1. apply NoDup_app. split_and!; [done| |apply NoDup_singleton].
    intros x Hx Hx2. apply list_elem_of_singleton in Hx2 as ->. done.
  - intros x. rewrite R1, elem_of_app, list_elem_of_singleton. intros [Hx|Hx]; [by apply Hnew|]. subst x.
    split; [|done]. intros H. apply Hfree, Hset. by left.
  - unfold rl_total in *. rewrite R1, length_app. simpl. lia.
  - lia.
Qed.

Lemma scan_zone_spec fuel lcn s :
  sc_inv nr a0 total s -> 1 <= lcn -> lcn + Z.of_nat fuel <= nr -> 0 < sc_clusters s ->
  match scan_zone malloc_ok fuel lcn s with
  | ScanDone s' => sc_inv nr a0 total s' /\ sc_clusters s' = 0
  | ScanNoMem _ => False
  | ScanEnd s' => sc_inv nr a0 total s' /\ 0 < sc_clusters s' /\
      (forall x, allocated (g_allocation (sc_alloc s)) x ->
                 allocated (g_allocation (sc_alloc s')) x) /\
      (forall x, lcn <= x < lcn + Z.of_nat fuel -> allocated (g_allocation (sc_alloc s')) x)
  end.
Proof.
  revert lcn s; induction fuel as [|fuel IH]; intros lcn s Hinv Hlcn Hf Hc.
  { simpl. split_and!; try done. lia. }
  cbn [scan_zone].
  destruct (bitmap_get_and_set_spec malloc_ok lcn (sc_alloc s) malloc_never_fails
              (inv_wf _ _ _ _ Hinv) ltac:(lia)) as [Hal Hfr].
  destruct (decide (allocated (g_allocation (sc_alloc s)) lcn)) as [Hin|Hout].
  - rewrite (Hal Hin). simpl. destruct s as [rl sz vcn pl pn cl a]; simpl in *.
    specialize (IH (lcn + 1) _ Hinv ltac:(lia) ltac:(lia) Hc).
    destruct (scan_zone _ _ _ _) as [s'|s'|s']; [done|done|].
    destruct IH as (? & ? & Hmon & Hz). split_and!; [done|done|done|]. intros x Hx.
    destruct (decide (x = lcn)) as [->|]; [by apply Hmon|]. apply Hz. lia.
  - destruct (Hfr Hout) as (Hbit & Hwf & Hset). clear Hal Hfr.
    destruct (bitmap_get_and_set malloc_ok lcn 1 (sc_alloc s)) as [bit a]; simpl in *. subst bit.
    simpl. match goal with |- context [grow_rl _ ?s0] =>
      destruct (grow_rl_spec s0) as (s1 & -> & E1 & E2 & E3 & E4 & E5 & E6) end.
    simpl in *.
    pose proof (take_cluster lcn s s1 a Hinv ltac:(lia) Hout Hwf Hset E1 E2 E3 E4 E5 E6) as Hinv2.
    cbv zeta in Hinv2. set (s2 := mkScatter _ _ _ _ _ _ _) in *.
    assert (sc_clusters s2 = sc_clusters s - 1) as Hcl.
    { subst s2. simpl. unfold record_cluster. destruct (_ =? _); simpl; lia. }
    assert (forall x, allocated (g_allocation (sc_alloc s2)) x <->
                      allocated (g_allocation (sc_alloc s)) x \/ x = lcn) as Hset2.
    { intros x. rewrite <- Hset, <- E6. subst s2. simpl. unfold record_cluster.
      by destruct (_ =? _). }
    change (sc_clusters (record_cluster lcn s1) - 1) with (sc_clusters s2).
    destruct (Z.eqb_spec (sc_clusters s2) 0) as [Hz|Hnz]; [by split|].
    specialize (IH (lcn + 1) s2 Hinv2 ltac:(lia) ltac:(lia) ltac:(lia)).
    destruct (scan_zone _ _ _ _) as [s'|s'|s']; [done|done|].
    destruct IH as (? & ? & Hmon & Hz). split_and!; [done|done| |].
    + intros x Hx. apply Hmon, Hset2. by left.
    + intros x Hx. destruct (decide (x = lcn)) as [->|]; [|apply Hz; lia].
      apply Hmon, Hset2. by right.
Qed.

Lemma vcn_from_lcn v rl e :
  vcn_from v rl -> e ∈ rl -> 0 < rl_length e /\ rl_lcn e ∈ rl_clusters rl.
Proof.
  revert v; induction rl as [|e' rl IH]; simpl; intros v Hv He; [by apply not_elem_of_nil in He|].
  destruct Hv as (_ & Hpos & Hv). change (e' :: rl) with ([e'] ++ rl).
  rewrite rl_clusters_app, elem_of_app.
  apply elem_of_cons in He as [Heq|He].
  - subst e'. split; [done|]. left. destruct e as [ev el en]. rewrite rl_clusters_one.
    simpl in *. apply elem_of_seqZ. lia.
  - destruct (IH _ Hv He). tauto.
Qed.

Lemma deallocate_scattered_spec rl st :
  wf_alloc (g_allocation st) -> Forall (fun e => 0 < rl_length e /\ 0 <= rl_lcn e) rl ->
  exists st', deallocate_scattered_clusters malloc_ok rl st = Some st' /\
    wf_alloc (g_allocation st') /\
    (forall x, allocated (g_allocation st') x <->
               allocated (g_allocation st) x /\ x ∉ rl_clusters rl).
Proof.
  revert st; induction rl as [|e rl IH]; intros st Hwf Hrl; simpl.
  { exists st. split_and!; try done. intros x. split; [|tauto]. intros H. split; [done|].
    apply not_elem_of_nil. }
  apply Forall_cons_1 in Hrl as [[Hpos Hl] Hrl].
  destruct (Z.eqb_spec (rl_lcn e) (-1)) as [|_]; [lia|].
  destruct (bitmap_deallocate_spec malloc_ok (rl_lcn e) (rl_length e) st malloc_never_fails Hwf Hpos)
    as (st1 & -> & Hwf1 & H1).
  destruct (IH st1 Hwf1 Hrl) as (st2 & -> & Hwf2 & H2).
  exists st2. split_and!; try done. intros x. rewrite H2, H1.
  change (e :: rl) with ([e] ++ rl). rewrite rl_clusters_app, elem_of_app.
  destruct e as [ev el en]. rewrite rl_clusters_one, elem_of_seqZ. simpl. tauto.
Qed.

(** Free clusters the search can reach: cluster 0 is never tried. *)
Definition free_clusters : list Z :=
  filter (fun x => ~ allocated a0 x) (seqZ 1 (nr - 1)).

Lemma err_end_spec zone s :
  sc_inv nr a0 total s ->
  exists a, err_end malloc_ok zone s = Some (None, zone, a) /\
    wf_alloc (g_allocation a) /\ (forall x, allocated (g_allocation a) x <-> allocated a0 x).
Proof.
  intros [Hwf Hset Hnd Hnew Hvs Hv Hc Hp]. unfold err_end.
  destruct (deallocate_scattered_spec (sc_rl s) (sc_alloc s)) as (a & -> & Hwfa & Ha); [done| |].
  { rewrite Forall_forall. intros e He. destruct (vcn_from_lcn _ _ _ Hvs He) as [H1 H2].
    apply Hnew in H2. lia. }
  exists a. split_and!; try done. intros x. rewrite Ha, Hset. split; [tauto|].
  intros Hx. split; [by left|]. intros Hin. by apply Hnew in Hin as [? _].
Qed.

Lemma exhausted_free s :
  sc_inv nr a0 total s -> 0 < sc_clusters s ->
  (forall x, 1 <= x < nr -> allocated (g_allocation (sc_alloc s)) x) ->
  Z.of_nat (length free_clusters) < total.
Proof.
  intros [Hwf Hset Hnd Hnew Hvs Hv Hc Hp] Hcl Hall.
  assert (free_clusters ⊆+ rl_clusters (sc_rl s)) as Hsub.
  { apply NoDup_submseteq; [apply NoDup_filter, NoDup_seqZ|]. intros x Hx.
    unfold free_clusters in Hx. rewrite list_elem_of_filter, elem_of_seqZ in Hx.
    destruct Hx as [Hf Hx]. destruct (proj1 (Hset x) (Hall x ltac:(lia))); [done|done]. }
  apply submseteq_length in Hsub. unfold rl_total in Hv. lia.
Qed.

Lemma scatter_loop_spec fuel zend zone s :
  sc_inv nr a0 total s -> 0 < sc_clusters s -> 1 <= zone <= zend -> zend <= nr ->
  zone < Z.of_nat fuel ->
  (forall x, zend <= x < nr -> allocated (g_allocation (sc_alloc s)) x) ->
  exists r zone' a,
    scatter_loop malloc_ok fuel zend zone s = Some (r, zone', a) /\
    match r with
    | Some rl => exists s', sc_inv nr a0 total s' /\ sc_clusters s' = 0 /\
                            rl = sc_rl s' /\ a = sc_alloc s'
    | None => wf_alloc (g_allocation a) /\
              (forall x, allocated (g_allocation a) x <-> allocated a0 x) /\
              Z.of_nat (length free_clusters) < total
    end.
Proof.
  revert zend zone s; induction fuel as [|fuel IH]; intros zend zone s Hinv Hcl Hz Hze Hf Hall;
    [lia|].
  cbn [scatter_loop]. destruct (Z.eqb_spec (sc_clusters s) 0) as [|_]; [lia|].
  pose proof (scan_zone_spec (Z.to_nat (zend - zone)) zone s Hinv ltac:(lia) ltac:(lia) Hcl) as Hscan.
  destruct (scan_zone _ _ _ _) as [s'|s'|s']; [|done|].
  - destruct Hscan. exists (Some (sc_rl s')), zone, (sc_alloc s'). split; [done|]. by exists s'.
  - destruct Hscan as (Hinv' & Hcl' & Hmon & Hzone).
    assert (forall x, zone <= x < nr -> allocated (g_allocation (sc_alloc s')) x) as Hall'.
    { intros x Hx. destruct (decide (x < zend)); [apply Hzone; lia|apply Hmon, Hall; lia]. }
    rewrite Z.shiftr_div_pow2 by lia. change (2 ^ 1) with 2.
    pose proof (Z.div_mod zone 2). pose proof (Z.mod_pos_bound zone 2).
    destruct (Z.leb_spec (zone / 2) 0) as [Hend|Hgo].
    + destruct (err_end_spec (zone / 2) s' Hinv') as (a & -> & ? & ?).
      exists None, (zone / 2), a. split_and!; try done.
      apply (exhausted_free s'); [done|done|]. intros x Hx. apply Hall'. lia.
    + apply IH; try done; lia.
Qed.

End ScatterProofs.

(** The outcomes of a call. *)
Lemma allocate_scattered_spec malloc_ok nr clusters zone a :
  (forall k, malloc_ok k = true) ->
  wf_alloc (g_allocation a) -> 0 < clusters -> 1 <= zone <= nr ->
  exists r zone' a',
    allocate_scattered_clusters malloc_ok nr clusters zone a = Some (r, zone', a') /\
    wf_alloc (g_allocation a') /\
    match r with
    | Some rl =>
        vcn_from 0 rl /\ Z.of_nat (length (rl_clusters rl)) = clusters /\
        NoDup (rl_clusters rl) /\
        (forall x, x ∈ rl_clusters rl -> ~ allocated (g_allocation a) x /\ 1 <= x < nr) /\
        (forall x, allocated (g_allocation a') x <->
                   allocated (g_allocation a) x \/ x ∈ rl_clusters rl)
    | None =>
        (forall x, allocated (g_allocation a') x <-> allocated (g_allocation a) x) /\
        Z.of_nat (length (free_clusters nr (g_allocation a))) < clusters
    end.
Proof.
  intros Hm Hwf Hc Hz. unfold allocate_scattered_clusters.
  destruct (scatter_loop_spec malloc_ok Hm nr (g_allocation a) clusters (S (Z.to_nat zone))
              nr zone (mkScatter [] 0 0 0 0 clusters a))
    as (r & zone' & a' & E & Hr); [|simpl; lia|lia|lia|lia|lia|].
  { split; simpl; try done; try lia.
    - intros x. split; [tauto|]. intros [|H]; [done|by apply not_elem_of_nil in H].
    - constructor.
    - intros x H. by apply not_elem_of_nil in H. }
  exists r, zone', a'. split; [exact E|]. destruct r as [rl|].
  - destruct Hr as (s' & [Hwf' Hset Hnd Hnew Hvs Hv Hcnt Hp] & Hc0 & -> & ->).
    unfold rl_total in Hv. split_and!; try done. lia.
  - tauto.
Qed.

(** [C13] [allocate_scattered_clusters], when neither [malloc] nor [realloc] fails (a
    failing [realloc] leaks a cluster, see [scatter_realloc_leak]), on a sorted list
    of disjoint runs and with a zone inside the volume, returns for every request.
    When it returns a runlist, the runlist has exactly the requested number of
    clusters, each once, with contiguous virtual cluster numbers from 0; all of
    them were free and inside the volume, and exactly they became allocated.
    When it returns NULL, the allocation is as before the call and fewer than
    the requested clusters were free above cluster 0. *)
Theorem allocate_scattered_correct malloc_ok nr clusters zone a :
  (forall k, malloc_ok k = true) ->
  wf_alloc (g_allocation a) -> 0 < clusters -> 1 <= zone <= nr ->
  exists r zone' a',
    allocate_scattered_clusters malloc_ok nr clusters zone a = Some (r, zone', a') /\
    wf_alloc (g_allocation a') /\
    match r with
    | Some rl =>
        vcn_from 0 rl /\ Z.of_nat (length (rl_clusters rl)) = clusters /\
        NoDup (rl_clusters rl) /\
        (forall x, x ∈ rl_clusters rl -> ~ allocated (g_allocation a) x /\ 1 <= x < nr) /\
        (forall x, allocated (g_allocation a') x <->
                   allocated (g_allocation a) x \/ x ∈ rl_clusters rl)
    | None =>
        (forall x, allocated (g_allocation a') x <-> allocated (g_allocation a) x) /\
        Z.of_nat (length (free_clusters nr (g_allocation a))) < clusters
    end.
Proof. apply allocate_scattered_spec. Qed.

Lemma allocate_scattered_correct_witness :
  exists r zone' a',
    allocate_scattered_clusters (fun _ => true) 12 7 6 (mkAstate [mkRun 0 2; mkRun 8 2] 0) =
      Some (r, zone', a') /\
    wf_alloc (g_allocation a') /\
    match r with
    | Some rl =>
        vcn_from 0 rl /\ Z.of_nat (length (rl_clusters rl)) = 7 /\
        NoDup (rl_clusters rl) /\
        (forall x, x ∈ rl_clusters rl ->
           ~ allocated [mkRun 0 2; mkRun 8 2] x /\ 1 <= x < 12) /\
        (forall x, allocated (g_allocation a') x <->
                   allocated [mkRun 0 2; mkRun 8 2] x \/ x ∈ rl_clusters rl)
    | None =>
        (forall x, allocated (g_allocation a') x <-> allocated [mkRun 0 2; mkRun 8 2] x) /\
        Z.of_nat (length (free_clusters 12 [mkRun 0 2; mkRun 8 2])) < 7
    end.
Proof.
  apply (allocate_scattered_correct (fun _ => true) 12 7 6 (mkAstate [mkRun 0 2; mkRun 8 2] 0)).
  - intros k. reflexivity.
  - unfold wf_alloc, r_end. simpl. unfold r_end. simpl. lia.
  - lia.
  - lia.
Defined.
