(* ===== verification/WriteMarks.v ===== *)
(** * The table of KOIO write high-water marks

    Models [struct nk_wr], [wr_find], [wr_hwm], [wr_set] and [wr_drop] of
    src/NTFSModule/bridge/ntfs_bridge.c: an unordered array of pairs (MFT
    reference, end of the highest range handed to the kernel for writing), grown
    by [realloc] and shrunk by moving the last entry into the freed slot.

    The array [v->wr[0 .. nwr-1]] is a list; the answer of [realloc] is the
    argument [realloc_ok] of [wr_set]. *)

From S2P Require Import Prelude.

Record nk_wr := mkWr { wr_mref : Z; wr_mark : Z }.

#[global] Instance nk_wr_eq_dec : EqDecision nk_wr.
Proof. solve_decision. Defined.

(** [MK_MREF(m, s)]: the sequence number in the upper 16 bits of a [u64]. *)
Definition MK_MREF (m s : Z) : Z :=
  to_u 64 (Z.lor (Z.shiftl s 48) (Z.land m (2 ^ 48 - 1))).
Definition MREF (x : Z) : Z := Z.land x (2 ^ 48 - 1).

(** Index of the first entry for [mref]. *)
Fixpoint wr_find (wr : list nk_wr) (mref : Z) : option nat :=
  match wr with
  | [] => None
  | w :: wr => if wr_mref w =? mref then Some O else S <$> wr_find wr mref
  end.

Definition wr_hwm (wr : list nk_wr) (mref : Z) : Z :=
  match wr_find wr mref with
  | Some i => match wr !! i with Some w => wr_mark w | None => 0 end
  | None => 0
  end.

(** The result is 0 / -1 and the array. *)
Definition wr_set (realloc_ok : bool) (wr : list nk_wr) (mref hwm : Z) : Z * list nk_wr :=
  match wr_find wr mref with
  | Some i => (0, <[i := mkWr mref hwm]> wr)
  | None => if realloc_ok then (0, wr ++ [mkWr mref hwm]) else (-1, wr)
  end.

(** [*w = v->wr[--v->nwr]] *)
Definition wr_remove_at (wr : list nk_wr) (i : nat) : list nk_wr :=
  match last wr with
  | Some l => removelast (<[i := l]> wr)
  | None => wr
  end.

Definition wr_drop (wr : list nk_wr) (mref : Z) : list nk_wr :=
  match wr_find wr mref with
  | Some i => wr_remove_at wr i
  | None => wr
  end.

(** [w->hwm = h] for the entry of [m]. *)
Definition wr_store (wr : list nk_wr) (m h : Z) : list nk_wr :=
  match wr_find wr m with Some i => <[i := mkWr m h]> wr | None => wr end.

(** [w && offset < w->hwm]: the entry of the file, when the window is below it. *)
Definition abort_entry (wr : list nk_wr) (m offset : Z) : option Z :=
  match wr_find wr m with
  | Some i => match wr !! i with
              | Some w => if offset <? wr_mark w then Some (wr_mark w) else None
              | None => None
              end
  | None => None
  end.

(** ** The table as a finite map

    The abstraction: at most one entry per file, and the mark of a file. *)

Definition wr_ok (wr : list nk_wr) : Prop := NoDup (map wr_mref wr).
Definition wr_map (wr : list nk_wr) : gmap Z Z :=
  list_to_map (map (fun w => (wr_mref w, wr_mark w)) wr).

Lemma wr_find_Some wr mref i :
  wr_find wr mref = Some i ->
  exists w, wr !! i = Some w /\ wr_mref w = mref.
Proof.
  revert i; induction wr as [|w wr IH]; simpl; [done|]. intros i.
  destruct (Z.eqb_spec (wr_mref w) mref); [intros [= <-]; eauto|].
  destruct (wr_find wr mref) as [j|]; [|done]. simpl. intros [= <-]. simpl. by apply IH.
Qed.

Lemma wr_find_None wr mref : wr_find wr mref = None -> mref ∉ map wr_mref wr.
Proof.
  induction wr as [|w wr IH]; simpl; [intros _; apply not_elem_of_nil|].
  destruct (Z.eqb_spec (wr_mref w) mref); [done|].
  destruct (wr_find wr mref); [done|]. intros _. rewrite elem_of_cons. intros [?|?]; [done|].
  by apply IH.
Qed.

Lemma wr_map_cons w wr : wr_map (w :: wr) = <[wr_mref w := wr_mark w]> (wr_map wr).
Proof. done. Qed.

(** Only the set of entries counts, not their order. *)
Lemma wr_map_perm wr1 wr2 : wr_ok wr1 -> wr1 ≡ₚ wr2 -> wr_map wr1 = wr_map wr2.
Proof.
  intros Hok Hp. unfold wr_map. apply list_to_map_proper.
  - rewrite <- list_fmap_compose. exact Hok.
  - by rewrite Hp.
Qed.

Lemma wr_ok_perm wr1 wr2 : wr1 ≡ₚ wr2 -> wr_ok wr1 -> wr_ok wr2.
Proof. unfold wr_ok. by intros <-. Qed.

Lemma wr_map_None wr mref : mref ∉ map wr_mref wr -> wr_map wr !! mref = None.
Proof.
  intros H. apply not_elem_of_list_to_map_1. by rewrite <- list_fmap_compose.
Qed.

Lemma wr_find_split wr mref i :
  wr_find wr mref = Some i ->
  exists l1 w l2, wr = l1 ++ w :: l2 /\ i = length l1 /\ wr_mref w = mref.
Proof.
  intros H. destruct (wr_find_Some _ _ _ H) as (w & Hw & Hm).
  destruct (list_elem_of_split_length _ _ _ Hw) as (l1 & l2 & -> & ->). eauto 6.
Qed.

Lemma wr_remove_at_perm l1 w l2 :
  wr_remove_at (l1 ++ w :: l2) (length l1) ≡ₚ l1 ++ l2.
Proof.
  unfold wr_remove_at.
  destruct (last l2) as [z|] eqn:Hl.
  - apply last_Some in Hl as [l2' ->].
    rewrite app_comm_cons, app_assoc, last_snoc, <- app_assoc, insert_app_r_alt, Nat.sub_diag by lia.
    simpl. rewrite app_comm_cons, app_assoc, removelast_last.
    apply Permutation_app_head. apply Permutation_cons_append.
  - apply last_None in Hl as ->. rewrite last_snoc, insert_app_r_alt, Nat.sub_diag by lia. simpl.
    by rewrite removelast_last, app_nil_r.
Qed.

Lemma wr_ok_app_cons l1 w l2 :
  wr_ok (l1 ++ w :: l2) -> (wr_mref w ∉ map wr_mref (l1 ++ l2)) /\ wr_ok (l1 ++ l2).
Proof.
  unfold wr_ok. rewrite <- Permutation_middle. simpl. by rewrite NoDup_cons.
Qed.

Lemma wr_map_middle l1 w l2 :
  wr_ok (l1 ++ w :: l2) ->
  wr_map (l1 ++ w :: l2) = <[wr_mref w := wr_mark w]> (wr_map (l1 ++ l2)).
Proof.
  intros H. rewrite (wr_map_perm _ _ H (symmetry (Permutation_middle _ _ _))). done.
Qed.

Lemma wr_hwm_map wr mref : wr_ok wr -> wr_hwm wr mref = default 0 (wr_map wr !! mref).
Proof.
  intros Hok. unfold wr_hwm. destruct (wr_find wr mref) as [i|] eqn:Hf.
  - destruct (wr_find_split _ _ _ Hf) as (l1 & w & l2 & -> & -> & <-).
    rewrite wr_map_middle, lookup_insert_eq by done.
    by rewrite lookup_app_r, Nat.sub_diag by lia.
  - by rewrite (wr_map_None _ _ (wr_find_None _ _ Hf)).
Qed.

Lemma wr_set_map ok wr mref hwm wr' :
  wr_ok wr -> wr_set ok wr mref hwm = (0, wr') ->
  wr_ok wr' /\ wr_map wr' = <[mref := hwm]> (wr_map wr).
Proof.
  intros Hok. unfold wr_set. destruct (wr_find wr mref) as [i|] eqn:Hf.
  - destruct (wr_find_split _ _ _ Hf) as (l1 & w & l2 & -> & -> & <-).
    rewrite insert_app_r_alt, Nat.sub_diag by lia. simpl. intros [= <-].
    assert (wr_ok (l1 ++ mkWr (wr_mref w) hwm :: l2)) as Hok'.
    { revert Hok. unfold wr_ok. by rewrite !map_app. }
    split; [done|]. rewrite !wr_map_middle by done. simpl. by rewrite insert_insert_eq.
  - destruct ok; [|done]. intros [= <-]. apply wr_find_None in Hf.
    assert (wr ++ [mkWr mref hwm] ≡ₚ mkWr mref hwm :: wr) as Hp
      by (symmetry; apply Permutation_cons_append).
    assert (wr_ok (mkWr mref hwm :: wr)) as Hok'.
    { unfold wr_ok. simpl. by apply NoDup_cons. }
    split; [by eapply wr_ok_perm|].
    rewrite (wr_map_perm _ _ (wr_ok_perm _ _ (symmetry Hp) Hok') Hp). done.
Qed.

Lemma wr_drop_map wr mref :
  wr_ok wr -> wr_ok (wr_drop wr mref) /\ wr_map (wr_drop wr mref) = delete mref (wr_map wr).
Proof.
  intros Hok. unfold wr_drop. destruct (wr_find wr mref) as [i|] eqn:Hf.
  - destruct (wr_find_split _ _ _ Hf) as (l1 & w & l2 & -> & -> & <-).
    pose proof (wr_remove_at_perm l1 w l2) as Hp.
    destruct (wr_ok_app_cons _ _ _ Hok) as [Hni Hok'].
    split; [by eapply wr_ok_perm|].
    rewrite (wr_map_perm _ _ (wr_ok_perm _ _ (symmetry Hp) Hok') Hp).
    rewrite wr_map_middle by done. rewrite delete_insert_id; [done|]. by apply wr_map_None.
  - split; [done|]. rewrite delete_id; [done|]. by apply wr_map_None, wr_find_None.
Qed.

(** ** The marks after each operation *)

Lemma wr_hwm_set ok wr m h wr' m' :
  wr_ok wr -> wr_set ok wr m h = (0, wr') ->
  wr_hwm wr' m' = if m' =? m then h else wr_hwm wr m'.
Proof.
  intros Hok Hs. destruct (wr_set_map _ _ _ _ _ Hok Hs) as [Hok' Hm].
  rewrite !wr_hwm_map, Hm by done. destruct (Z.eqb_spec m' m) as [->|Hne].
  - by rewrite lookup_insert_eq.
  - by rewrite lookup_insert_ne.
Qed.

Lemma wr_hwm_drop wr m m' :
  wr_ok wr -> wr_hwm (wr_drop wr m) m' = if m' =? m then 0 else wr_hwm wr m'.
Proof.
  intros Hok. destruct (wr_drop_map wr m Hok) as [Hok' Hm].
  rewrite !wr_hwm_map, Hm by done. destruct (Z.eqb_spec m' m) as [->|Hne].
  - by rewrite lookup_delete_eq.
  - by rewrite lookup_delete_ne.
Qed.

Lemma wr_store_set wr m h : wr_find wr m <> None -> wr_set true wr m h = (0, wr_store wr m h).
Proof. unfold wr_set, wr_store. by destruct (wr_find wr m). Qed.

Lemma abort_entry_spec wr m offset :
  match abort_entry wr m offset with
  | Some h => h = wr_hwm wr m /\ offset < h /\ wr_find wr m <> None
  | None => wr_find wr m = None \/ wr_hwm wr m <= offset
  end.
Proof.
  unfold abort_entry, wr_hwm. destruct (wr_find wr m) as [i|] eqn:Hf; [|by left].
  destruct (wr_find_Some _ _ _ Hf) as (w & -> & _). zcase; [done|by right].
Qed.

(** [C10] Refinement: the array of marks is a finite map from files to marks.
    Reading a mark is a lookup (0 for no entry), a successful [wr_set] an
    insertion, [wr_drop] a deletion; each keeps at most one entry per file, so
    moving the last entry into the freed slot loses nobody's mark, and a failed
    [realloc] leaves the table as it was. *)
Theorem wr_refines_map : forall wr mref,
  wr_ok wr ->
  wr_hwm wr mref = default 0 (wr_map wr !! mref) /\
  (forall realloc_ok hwm r wr', wr_set realloc_ok wr mref hwm = (r, wr') ->
     (r = 0 /\ wr_ok wr' /\ wr_map wr' = <[mref := hwm]> (wr_map wr)) \/
     (r = -1 /\ realloc_ok = false /\ wr' = wr /\ wr_map wr !! mref = None)) /\
  (wr_ok (wr_drop wr mref) /\ wr_map (wr_drop wr mref) = delete mref (wr_map wr)).
Proof.
  intros wr mref Hok. split; [by apply wr_hwm_map|]. split; [|by apply wr_drop_map].
  intros ok hwm r wr' Hs. destruct (decide (r = 0)) as [->|Hr].
  - left. split; [done|]. by eapply wr_set_map.
  - right. unfold wr_set in Hs. destruct (wr_find wr mref) eqn:Hf; [injection Hs as <- <-; done|].
    destruct ok; injection Hs as <- <-; [done|]. split_and!; [done..|].
    by apply wr_map_None, wr_find_None.
Qed.

Lemma wr_refines_map_witness :
  wr_drop [mkWr 1 10; mkWr 2 20; mkWr 3 30] 1 = [mkWr 3 30; mkWr 2 20] /\
  wr_map (wr_drop [mkWr 1 10; mkWr 2 20; mkWr 3 30] 1) =
  delete 1 (wr_map [mkWr 1 10; mkWr 2 20; mkWr 3 30]).
Proof.
  split; [reflexivity|].
  apply (wr_refines_map [mkWr 1 10; mkWr 2 20; mkWr 3 30] 1).
  unfold wr_ok. apply (bool_decide_unpack _). vm_compute. exact I.
Defined.
