(* ===== verification/Runlist.v ===== *)
(** * Runlists and the extents handed to the kernel

    Models [bad_runlist] and the extent-packing loop of [nk_blockmap]
    (src/NTFSModule/bridge/ntfs_bridge.c).

    A runlist is the list of its elements; the C loops stop at the first element
    of length 0, which is what [live_runs] keeps.  Products and sums of the loops
    are computed in [s64] with the wrap-around written out; [bad_runlist] is what
    makes them exact.

    The extent callback is [cb]: given the extents delivered so far and the next
    one, whether it answers "packer full".  (A callback with a context is such a
    function of the history.) *)

From S2P Require Import Prelude.

Definition s64 (z : Z) : Z := to_s 64 z.

Lemma s64_exact z : fits_s64 z -> s64 z = z.
Proof.
  unfold fits_s64, INT64_MIN, INT64_MAX, s64. intros H.
  apply to_s_small; [lia|]. unfold fits_s. change (64 - 1) with 63. lia.
Qed.

(** The fields of [ntfs_volume] the bridge reads. *)
Record volume := mkVol { cluster_size : Z; nr_clusters : Z; vol_readonly : bool }.

(** A volume the engine mounts: positive cluster size, and a device whose size in
    bytes is an [s64]. *)
Definition vol_ok (vol : volume) : Prop :=
  0 < cluster_size vol <= INT64_MAX /\ 0 <= nr_clusters vol /\
  nr_clusters vol * cluster_size vol <= INT64_MAX.

(** [for (; rl && rl->length; rl++)] visits these elements. *)
Fixpoint live_runs (rl : list rle) : list rle :=
  match rl with
  | [] => []
  | r :: rl => if rl_length r =? 0 then [] else r :: live_runs rl
  end.

(** One iteration of [bad_runlist]: reject the element. *)
Definition bad_run (vol : volume) (expect_vcn : Z) (r : rle) : bool :=
  let csize := cluster_size vol in
  (rl_lcn r <? LCN_HOLE) ||
  ((rl_length r <=? 0) || (rl_vcn r <? 0) ||
   (INT64_MAX ÷ csize <? rl_vcn r) || (INT64_MAX ÷ csize <? rl_length r) ||
   (INT64_MAX ÷ csize - rl_vcn r <? rl_length r)) ||
  ((0 <=? rl_lcn r) &&
   ((nr_clusters vol <=? rl_lcn r) || (INT64_MAX ÷ csize <? rl_lcn r) ||
    (nr_clusters vol - rl_lcn r <? rl_length r))) ||
  ((0 <=? expect_vcn) && negb (rl_vcn r =? expect_vcn)).

Fixpoint bad_runs (vol : volume) (expect_vcn : Z) (rl : list rle) : bool :=
  match rl with
  | [] => false
  | r :: rl =>
      if bad_run vol expect_vcn r then true
      else bad_runs vol (rl_vcn r + rl_length r) rl
  end.

Definition bad_runlist (vol : volume) (rl : list rle) : bool :=
  bad_runs vol (-1) (live_runs rl).

(** ** The packing loop *)

(** An extent [cb(ctx, log, phys, len)]; [phys] is -1 for zero fill. *)
Record extent := mkExt { e_log : Z; e_phys : Z; e_len : Z }.

#[global] Instance extent_eq_dec : EqDecision extent.
Proof. solve_decision. Defined.

Section Pack.

Variable cb : list extent -> extent -> bool.

(** The locals [covered] and [full], and the extents delivered. *)
Record packer := mkPacker { pk_covered : Z; pk_full : bool; pk_out : list extent }.

(** The body of the loop, for one element. *)
Definition pack_run (csize offset length init_end : Z) (r : rle) (k : packer) : packer :=
  let log := s64 (rl_vcn r * csize) in
  let len := s64 (rl_length r * csize) in
  let phys := if 0 <=? rl_lcn r then s64 (rl_lcn r * csize) else -1 in
  let start := if offset <? log then log else offset in
  let end_req := s64 (offset + length) in
  let fin := if s64 (log + len) <? end_req then s64 (log + len) else end_req in
  if fin <=? start then k else
  if (0 <=? phys) && (start <? init_end) && (init_end <? fin) then
    let e1 := mkExt start (s64 (phys + (start - log))) (init_end - start) in
    if cb (pk_out k) e1
    then mkPacker init_end true (pk_out k ++ [e1])
    else
      let e2 := mkExt init_end (-1) (fin - init_end) in
      mkPacker fin (cb (pk_out k ++ [e1]) e2) (pk_out k ++ [e1; e2])
  else
    let as_zero := (phys <? 0) || (init_end <=? start) in
    let e := mkExt start (if as_zero then -1 else s64 (phys + (start - log))) (fin - start) in
    mkPacker fin (cb (pk_out k) e) (pk_out k ++ [e]).

Fixpoint pack_runs (csize offset length init_end : Z) (rl : list rle) (k : packer) : packer :=
  match rl with
  | [] => k
  | r :: rl =>
      if pk_full k then k
      else pack_runs csize offset length init_end rl (pack_run csize offset length init_end r k)
  end.

(** From [covered = offset] on. *)
Definition pack_extents (csize offset length init_end : Z) (rl : list rle) : packer :=
  pack_runs csize offset length init_end (live_runs rl) (mkPacker offset false []).

End Pack.

(** ** Specification: where a byte of the file is

    [rl_phys csize rl p] is the device offset of the logical byte [p], [None] in a
    hole or outside the runs. *)

Definition in_run (csize : Z) (r : rle) (p : Z) : bool :=
  (rl_vcn r * csize <=? p) && (p <? (rl_vcn r + rl_length r) * csize).

Definition run_phys (csize : Z) (r : rle) (p : Z) : option Z :=
  if 0 <=? rl_lcn r then Some (rl_lcn r * csize + (p - rl_vcn r * csize)) else None.

Fixpoint runs_phys (csize : Z) (rl : list rle) (p : Z) : option Z :=
  match rl with
  | [] => None
  | r :: rl => if in_run csize r p then run_phys csize r p else runs_phys csize rl p
  end.

Definition rl_phys (csize : Z) (rl : list rle) (p : Z) : option Z :=
  runs_phys csize (live_runs rl) p.

(** What [bad_runlist] establishes of every element. *)
Record run_ok (vol : volume) (r : rle) : Prop := {
  ro_len : 0 < rl_length r;
  ro_vcn : 0 <= rl_vcn r;
  ro_log : (rl_vcn r + rl_length r) * cluster_size vol <= INT64_MAX;
  ro_lcn : -1 <= rl_lcn r;
  ro_in : 0 <= rl_lcn r -> rl_lcn r + rl_length r <= nr_clusters vol;
}.

(** The elements from virtual cluster [v] on follow each other without a gap. *)
Fixpoint contiguous (v : Z) (rl : list rle) : Prop :=
  match rl with
  | [] => True
  | r :: rl => rl_vcn r = v /\ contiguous (v + rl_length r) rl
  end.

Definition first_vcn (rl : list rle) : Z :=
  match rl with [] => 0 | r :: _ => rl_vcn r end.

Fixpoint runs_end (v : Z) (rl : list rle) : Z :=
  match rl with [] => v | r :: rl => runs_end (v + rl_length r) rl end.

Lemma bad_run_false vol x r :
  vol_ok vol -> bad_run vol x r = false -> run_ok vol r /\ (0 <= x -> rl_vcn r = x).
Proof.
  intros (Hc & Hn & Hnc) H. unfold bad_run, LCN_HOLE in H.
  rewrite Z.quot_div_nonneg in H by (unfold INT64_MAX in *; lia).
  zb. split.
  - constructor; try lia.
    assert (rl_vcn r + rl_length r <= INT64_MAX / cluster_size vol) as Hd by lia.
    apply (Z.mul_le_mono_nonneg_r _ _ (cluster_size vol)) in Hd; [|lia].
    pose proof (Z.mul_div_le INT64_MAX (cluster_size vol)). lia.
  - intros Hx. apply Z.leb_le in Hx. rewrite Hx in *. simpl in *. by zb.
Qed.

Lemma bad_runs_false vol rl : forall x,
  vol_ok vol -> bad_runs vol x rl = false ->
  Forall (run_ok vol) rl /\ contiguous (first_vcn rl) rl /\ (0 <= x -> rl <> [] -> first_vcn rl = x).
Proof.
  induction rl as [|r rl IH]; intros x Hv; simpl; [done|].
  destruct (bad_run vol x r) eqn:Hb; [done|]. intros H.
  destruct (bad_run_false _ _ _ Hv Hb) as [Hr Hx].
  destruct (IH _ Hv H) as (Hall & Hc & Hf).
  split; [by constructor|]. split; [|tauto]. split; [done|].
  destruct rl as [|r' rl]; [done|]. rewrite <- Hf; [done| |done].
  destruct Hr. lia.
Qed.

Lemma bad_runlist_ok vol rl :
  vol_ok vol -> bad_runlist vol rl = false ->
  Forall (run_ok vol) (live_runs rl) /\ contiguous (first_vcn (live_runs rl)) (live_runs rl).
Proof. intros Hv H. destruct (bad_runs_false _ _ _ Hv H) as (? & ? & ?). done. Qed.

(** ** The packing loop meets its specification *)

(** [es] cuts the bytes from [a] to [b] into consecutive non-empty extents. *)
Inductive tiles : Z -> Z -> list extent -> Prop :=
  | tiles_nil a : tiles a a []
  | tiles_cons a b e es :
      e_log e = a -> 0 < e_len e -> tiles (a + e_len e) b es -> tiles a b (e :: es).

(** An extent tells the truth about its bytes: either they are zero-filled, being
    in a hole or past [init_end], or they are at the place announced. *)
Definition ext_ok (phys : Z -> option Z) (init_end : Z) (e : extent) : Prop :=
  forall p, e_log e <= p < e_log e + e_len e ->
    (e_phys e = -1 /\ (phys p = None \/ init_end <= p)) \/
    (0 <= e_phys e /\ p < init_end /\ phys p = Some (e_phys e + (p - e_log e))).

Lemma tiles_app a b c es es' : tiles a b es -> tiles b c es' -> tiles a c (es ++ es').
Proof. induction 1; simpl; [done|]. intros. constructor; auto. Qed.

Lemma tiles_one a b ph : a < b -> tiles a b [mkExt a ph (b - a)].
Proof.
  intros H. constructor; simpl; [done|lia|]. replace (a + (b - a)) with b by lia. constructor.
Qed.

Lemma tiles_le a b es : tiles a b es -> a <= b.
Proof. induction 1; lia. Qed.

Lemma tiles_cover a b es p :
  tiles a b es -> a <= p < b -> exists e, e ∈ es /\ e_log e <= p < e_log e + e_len e.
Proof.
  induction 1 as [a|a b e es He Hl Ht IH]; [lia|]. intros Hp.
  destruct (Z.lt_ge_cases p (a + e_len e)) as [Hlt|Hge].
  - exists e. split; [left|lia].
  - destruct IH as (e' & ? & ?); [lia|]. exists e'. split; [by right|done].
Qed.

Lemma tiles_inside a b es e :
  tiles a b es -> e ∈ es -> a <= e_log e /\ e_log e + e_len e <= b /\ 0 < e_len e.
Proof.
  induction 1 as [a|a b e' es He Hl Ht IH]; [by intros ?%not_elem_of_nil|].
  pose proof (tiles_le _ _ _ Ht). rewrite elem_of_cons. intros [->|Hin]; [lia|].
  specialize (IH Hin). lia.
Qed.

Section PackSpec.

Context (cb : list extent -> extent -> bool) (vol : volume) (offset length init_end : Z).
Hypothesis (Hv : vol_ok vol) (Ho : 0 <= offset) (Hl : 0 < length).
Hypothesis (Hw : offset + length <= INT64_MAX).

Local Abbreviation csize := (cluster_size vol).

(** The part of the window below a byte. *)
Definition clamp (b : Z) : Z := Z.max offset (Z.min (offset + length) b).

Lemma run_ok_exact r :
  run_ok vol r ->
  s64 (rl_vcn r * csize) = rl_vcn r * csize /\
  s64 (rl_length r * csize) = rl_length r * csize /\
  s64 (rl_vcn r * csize + rl_length r * csize) = (rl_vcn r + rl_length r) * csize /\
  (0 <= rl_lcn r -> s64 (rl_lcn r * csize) = rl_lcn r * csize) /\
  (forall start, 0 <= rl_lcn r -> rl_vcn r * csize <= start <= (rl_vcn r + rl_length r) * csize ->
     s64 (rl_lcn r * csize + (start - rl_vcn r * csize)) =
     rl_lcn r * csize + (start - rl_vcn r * csize)).
Proof.
  destruct Hv as (Hc & Hn & Hnc). intros [H1 H2 H3 H4 H5]. unfold INT64_MAX in *.
  assert (0 <= rl_vcn r * csize) by nia. assert (0 < rl_length r * csize) by nia.
  repeat split; intros; try (rewrite s64_exact; [done || lia|]; unfold fits_s64, INT64_MIN, INT64_MAX);
    try lia.
  - specialize (H5 ltac:(done)). nia.
  - specialize (H5 ltac:(done)).
    assert ((rl_lcn r + rl_length r) * csize <= nr_clusters vol * csize) by nia. nia.
Qed.

(** The packing of one element, without the machine arithmetic. *)
Lemma pack_run_exact r k :
  run_ok vol r ->
  let log := rl_vcn r * csize in
  let start := Z.max log offset in
  let fin := Z.min ((rl_vcn r + rl_length r) * csize) (offset + length) in
  let at_ x := if 0 <=? rl_lcn r then rl_lcn r * csize + (x - log) else -1 in
  pack_run cb csize offset length init_end r k =
  if fin <=? start then k else
  if (0 <=? rl_lcn r) && (start <? init_end) && (init_end <? fin) then
    let e1 := mkExt start (at_ start) (init_end - start) in
    if cb (pk_out k) e1 then mkPacker init_end true (pk_out k ++ [e1])
    else let e2 := mkExt init_end (-1) (fin - init_end) in
      mkPacker fin (cb (pk_out k ++ [e1]) e2) (pk_out k ++ [e1; e2])
  else
    let e := mkExt start (if init_end <=? start then -1 else at_ start) (fin - start) in
    mkPacker fin (cb (pk_out k) e) (pk_out k ++ [e]).
Proof.
  intros Hr. destruct (run_ok_exact r Hr) as (E1 & E2 & E3 & E4 & E5). cbv zeta.
  destruct Hv as (Hc & Hn & Hnc). destruct Hr as [H1 H2 H3 H4 H5].
  unfold pack_run. rewrite E1, E2, E3.
  rewrite (s64_exact (offset + length)) by (unfold fits_s64, INT64_MIN, INT64_MAX in *; lia).
  replace (if offset <? rl_vcn r * csize then rl_vcn r * csize else offset)
    with (Z.max (rl_vcn r * csize) offset) by (zcase; lia).
  replace (if (rl_vcn r + rl_length r) * csize <? offset + length
           then (rl_vcn r + rl_length r) * csize else offset + length)
    with (Z.min ((rl_vcn r + rl_length r) * csize) (offset + length)) by (zcase; lia).
  destruct (Z.leb_spec (Z.min ((rl_vcn r + rl_length r) * csize) (offset + length))
                       (Z.max (rl_vcn r * csize) offset)) as [Hle|Hgt]; [done|].
  destruct (Z.leb_spec 0 (rl_lcn r)) as [Hlcn|Hlcn]; simpl.
  - rewrite E4 by done.
    replace (0 <=? rl_lcn r * csize) with true by (symmetry; apply Z.leb_le; nia).
    replace (rl_lcn r * csize <? 0) with false by (symmetry; apply Z.ltb_ge; nia).
    rewrite E5 by lia. done.
  - by destruct (_ <=? _).
Qed.

Lemma in_run_true r p :
  in_run csize r p = true <-> rl_vcn r * csize <= p < (rl_vcn r + rl_length r) * csize.
Proof. unfold in_run. rewrite andb_true_iff, Z.leb_le, Z.ltb_lt. done. Qed.

(** What the loop maintains: the extents delivered tile the window up to
    [covered], and tell the truth. *)
Record packed (phys : Z -> option Z) (k : packer) : Prop := {
  pd_tiles : tiles offset (pk_covered k) (pk_out k);
  pd_ok : Forall (ext_ok phys init_end) (pk_out k);
  pd_end : pk_covered k <= offset + length;
  pd_full : pk_full k = true -> offset < pk_covered k;
}.

Lemma packed_add phys k a b ph full :
  packed phys k -> pk_covered k = a -> a < b <= offset + length ->
  ext_ok phys init_end (mkExt a ph (b - a)) ->
  packed phys (mkPacker b full (pk_out k ++ [mkExt a ph (b - a)])).
Proof.
  intros [H1 H2 H3 H4] <- Hb He. pose proof (tiles_le _ _ _ H1). constructor; simpl.
  - eapply tiles_app; [done|]. apply tiles_one. lia.
  - apply Forall_app; split; [done|]. by constructor.
  - lia.
  - lia.
Qed.

Lemma pack_run_spec phys r k :
  run_ok vol r ->
  (forall p, in_run csize r p = true -> phys p = run_phys csize r p) ->
  packed phys k -> pk_full k = false ->
  pk_covered k = clamp (rl_vcn r * csize) ->
  let k' := pack_run cb csize offset length init_end r k in
  packed phys k' /\ pk_covered k' <= clamp ((rl_vcn r + rl_length r) * csize) /\
  (pk_full k' = false -> pk_covered k' = clamp ((rl_vcn r + rl_length r) * csize)).
Proof.
  intros Hr Hp Hk Hf Hc. cbv zeta. rewrite pack_run_exact by done. cbv zeta.
  assert (0 < csize) by (destruct Hv; lia).
  pose proof Hr as [H1 H2 H3 H4 H5].
  set (fin := Z.min _ (offset + length)). set (start := Z.max _ offset).
  assert (rl_vcn r * csize < (rl_vcn r + rl_length r) * csize) by nia.
  destruct (Z.leb_spec fin start) as [Hle|Hgt].
  { split; [done|]. rewrite Hc. unfold clamp. lia. }
  assert (pk_covered k = start) as Hcs by (unfold clamp in Hc; lia).
  assert (forall p, start <= p < fin -> phys p = run_phys csize r p) as Hph.
  { intros p Hpr. apply Hp, in_run_true. lia. }
  destruct (Z.leb_spec 0 (rl_lcn r)) as [Hlcn|Hlcn]; simpl.
  2:{ split; [|simpl; unfold clamp; lia]. apply packed_add; [done..|lia|].
      intros p Hpr. left. simpl in *. split; [by destruct (_ <=? _)|]. left.
      rewrite Hph by lia. unfold run_phys. by apply Z.leb_gt in Hlcn as ->. }
  assert (forall p, start <= p < fin ->
            phys p = Some (rl_lcn r * csize + (start - rl_vcn r * csize) + (p - start))) as Hph'.
  { intros p Hpr. rewrite Hph by done. unfold run_phys. apply Z.leb_le in Hlcn as ->. f_equal. lia. }
  assert (0 <= rl_lcn r * csize + (start - rl_vcn r * csize)) by nia.
  destruct (Z.ltb_spec start init_end) as [Hi|Hi]; simpl.
  - destruct (Z.ltb_spec init_end fin) as [Hj|Hj].
    + set (e1 := mkExt start _ _).
      assert (packed phys (mkPacker init_end (cb (pk_out k) e1) (pk_out k ++ [e1]))) as Hk1.
      { unfold e1. apply packed_add; [done..|lia|].
        intros p Hpr. right. simpl in *. rewrite Hph' by lia. repeat split; lia. }
      destruct (cb (pk_out k) e1); [split; [done|]; simpl; unfold clamp; lia|].
      split; [|simpl; unfold clamp; lia].
      change [e1; _] with ([e1] ++ [mkExt init_end (-1) (fin - init_end)]). rewrite app_assoc.
      apply (packed_add _ _ _ _ _ _ Hk1); simpl; [done|lia|].
      intros p Hpr. simpl in *. left. split; [done|]. right. lia.
    + rewrite (proj2 (Z.leb_gt _ _) Hi). split; [|simpl; unfold clamp; lia].
      apply packed_add; [done..|lia|].
      intros p Hpr. right. simpl in *. rewrite Hph' by lia. repeat split; lia.
  - rewrite (proj2 (Z.leb_le _ _) Hi). split; [|simpl; unfold clamp; lia].
    apply packed_add; [done..|lia|].
    intros p Hpr. left. simpl in *. split; [done|]. right. lia.
Qed.

Lemma runs_phys_tail r rl v p :
  run_ok vol r -> contiguous v (r :: rl) -> (v + rl_length r) * csize <= p ->
  runs_phys csize (r :: rl) p = runs_phys csize rl p.
Proof.
  intros Hr [Hvcn _] Hp. simpl.
  destruct (in_run csize r p) eqn:E; [|done]. apply in_run_true in E. rewrite Hvcn in E. lia.
Qed.

Lemma runs_end_le rl : forall v, Forall (run_ok vol) rl -> v <= runs_end v rl.
Proof.
  induction rl as [|r rl IH]; intros v Hall; simpl; [lia|].
  apply Forall_cons_1 in Hall as [Hr Hall]. specialize (IH (v + rl_length r) Hall).
  destruct Hr. lia.
Qed.

(** Every byte below the end of the runs is in one of them. *)
Lemma runs_cover rl : forall v p,
  Forall (run_ok vol) rl -> contiguous v rl -> v * csize <= p < runs_end v rl * csize ->
  exists r, r ∈ rl /\ in_run csize r p = true.
Proof.
  induction rl as [|r rl IH]; intros v p Hall Hc Hp; simpl in *; [lia|].
  apply Forall_cons_1 in Hall as [Hr Hall]. destruct Hc as [Hvcn Hc].
  destruct (Z.lt_ge_cases p ((v + rl_length r) * csize)).
  - exists r. split; [left|]. apply in_run_true. rewrite Hvcn. lia.
  - destruct (IH (v + rl_length r) p Hall Hc) as (r' & ? & ?); [lia|].
    exists r'. split; [by right|done].
Qed.

Lemma pack_runs_spec phys rl : forall v k,
  Forall (run_ok vol) rl -> contiguous v rl ->
  (forall p, v * csize <= p -> phys p = runs_phys csize rl p) ->
  packed phys k -> pk_full k = false -> pk_covered k = clamp (v * csize) ->
  let k' := pack_runs cb csize offset length init_end rl k in
  packed phys k' /\ pk_covered k' <= clamp (runs_end v rl * csize) /\
  (pk_full k' = false -> pk_covered k' = clamp (runs_end v rl * csize)).
Proof.
  induction rl as [|r rl IH]; intros v k Hall Hc Hp Hk Hf Hcov; simpl; [split; [done|]; rewrite Hcov; done|].
  apply Forall_cons_1 in Hall as [Hr Hall]. rewrite Hf.
  pose proof Hc as [Hvcn Hc'].
  destruct (pack_run_spec phys r k Hr) as (Hk' & Hle' & Hcov'); [|done..|by rewrite Hvcn|].
  { intros p E. pose proof E as E'. apply in_run_true in E' as [? ?]. rewrite Hp by lia. simpl. by rewrite E. }
  destruct (pk_full (pack_run cb csize offset length init_end r k)) eqn:Hfull.
  - assert (forall k' : packer, pk_full k' = true -> pack_runs cb csize offset length init_end rl k' = k')
      as Hstop by (intros k' Hk''; destruct rl; simpl; by rewrite ?Hk'').
    rewrite Hstop by done. split; [done|]. split; [|congruence].
    pose proof (runs_end_le rl (v + rl_length r) Hall).
    assert (0 <= csize) by (destruct Hv; lia). rewrite Hvcn in Hle'.
    assert ((v + rl_length r) * csize <= runs_end (v + rl_length r) rl * csize) by nia.
    unfold clamp in *. lia.
  - rewrite <- Hvcn in *. apply IH; [done..| |done|done|by apply Hcov'].
    intros p Hpp. destruct Hv as [? _]. pose proof (ro_len _ _ Hr).
    rewrite Hp by nia. apply (runs_phys_tail r rl (rl_vcn r)); [done|done|lia].
Qed.

Lemma pack_extents_spec rl :
  bad_runlist vol rl = false -> first_vcn (live_runs rl) = 0 ->
  let k := pack_extents cb csize offset length init_end rl in
  packed (rl_phys csize rl) k /\ pk_covered k <= clamp (runs_end 0 (live_runs rl) * csize) /\
  (pk_full k = false -> pk_covered k = clamp (runs_end 0 (live_runs rl) * csize)).
Proof.
  intros Hb Hz. destruct (bad_runlist_ok _ _ Hv Hb) as [Hall Hc]. rewrite Hz in Hc.
  apply pack_runs_spec; simpl; [done..| |done|unfold clamp; lia].
  constructor; simpl; [constructor|constructor|lia|done].
Qed.

End PackSpec.

(** A packer that is never full does not stop the loop. *)
Lemma pack_never_full cb csize offset length init_end rl k :
  (forall l x, cb l x = false) -> pk_full k = false ->
  pk_full (pack_runs cb csize offset length init_end rl k) = false.
Proof.
  intros Hcb. revert k. induction rl as [|r rl IH]; intros k Hk; simpl; [done|].
  rewrite Hk. apply IH. unfold pack_run. cbv zeta. rewrite !Hcb.
  repeat match goal with |- context [if ?b then mkPacker _ _ _ else _] => destruct b
         | |- pk_full (if ?b then _ else _) = false => destruct b end; done.
Qed.

(** ** [bad_runlist] rejects exactly the runlists the code cannot work with *)

Lemma bad_run_complete vol x r :
  vol_ok vol -> run_ok vol r -> (0 <= x -> rl_vcn r = x) -> bad_run vol x r = false.
Proof.
  intros (Hc & Hn & Hnc) [H1 H2 H3 H4 H5] Hx. unfold bad_run, LCN_HOLE.
  rewrite Z.quot_div_nonneg by (unfold INT64_MAX in *; lia).
  assert (rl_vcn r + rl_length r <= INT64_MAX / cluster_size vol).
  { apply Z.div_le_lower_bound; lia. }
  assert (nr_clusters vol <= INT64_MAX / cluster_size vol).
  { apply Z.div_le_lower_bound; lia. }
  lia.
Qed.

Lemma bad_runs_complete vol rl : forall x,
  vol_ok vol -> Forall (run_ok vol) rl -> contiguous (first_vcn rl) rl ->
  (0 <= x -> rl <> [] -> first_vcn rl = x) -> bad_runs vol x rl = false.
Proof.
  induction rl as [|r rl IH]; intros x Hv Hall Hc Hx; simpl; [done|].
  apply Forall_cons_1 in Hall as [Hr Hall]. destruct Hc as [_ Hc].
  rewrite bad_run_complete; [|done..|by intros; apply Hx].
  assert (rl <> [] -> first_vcn rl = rl_vcn r + rl_length r) as Hf.
  { destruct rl; [done|]. by destruct Hc. }
  apply IH; [done|done|..].
  - destruct rl as [|r' rl]; [done|]. rewrite Hf by done. exact Hc.
  - intros _ ?. by apply Hf.
Qed.

Lemma rl_phys_in_volume vol rl p a :
  vol_ok vol -> Forall (run_ok vol) rl -> runs_phys (cluster_size vol) rl p = Some a ->
  0 <= a < nr_clusters vol * cluster_size vol.
Proof.
  intros Hv. induction 1 as [|r rl Hr _ IH]; simpl; [done|].
  destruct (in_run _ r p) eqn:E; [|done]. apply in_run_true in E.
  unfold run_phys. destruct (Z.leb_spec 0 (rl_lcn r)); [|done]. intros [= <-].
  destruct Hv as (Hc & _). destruct Hr as [H1 H2 H3 H4 H5]. specialize (H5 ltac:(done)).
  assert ((rl_lcn r + rl_length r) * cluster_size vol <= nr_clusters vol * cluster_size vol) by nia.
  nia.
Qed.

(** [C8] On a mountable volume [bad_runlist] accepts a runlist exactly when every
    run is non-empty, its logical end fits an [s64], a run with clusters lies
    inside the volume, and the runs follow each other without a gap; and then no
    logical byte is ever placed outside the device, and none of the products and
    sums the extent loops compute for a run wraps. *)
Theorem bad_runlist_exact : forall vol rl,
  vol_ok vol ->
  (bad_runlist vol rl = false <->
   Forall (run_ok vol) (live_runs rl) /\ contiguous (first_vcn (live_runs rl)) (live_runs rl)) /\
  (bad_runlist vol rl = false ->
   (forall p a, rl_phys (cluster_size vol) rl p = Some a ->
      0 <= a < nr_clusters vol * cluster_size vol) /\
   (forall r, r ∈ live_runs rl ->
      fits_s64 (rl_vcn r * cluster_size vol) /\
      fits_s64 (rl_length r * cluster_size vol) /\
      fits_s64 (rl_vcn r * cluster_size vol + rl_length r * cluster_size vol) /\
      fits_s64 (rl_lcn r * cluster_size vol + rl_length r * cluster_size vol))).
Proof.
  intros vol rl Hv. split; [split|].
  - by apply bad_runlist_ok.
  - intros [Hall Hc]. by apply bad_runs_complete.
  - intros Hb. destruct (bad_runlist_ok _ _ Hv Hb) as [Hall _]. split.
    + intros p a. by apply rl_phys_in_volume.
    + intros r Hin. rewrite Forall_forall in Hall. destruct (Hall r Hin) as [H1 H2 H3 H4 H5].
      destruct Hv as (Hc & Hn & Hnc). unfold fits_s64, INT64_MIN, INT64_MAX in *.
      assert (0 <= rl_vcn r * cluster_size vol) by nia.
      assert (0 < rl_length r * cluster_size vol) by nia.
      assert (0 <= rl_lcn r -> (rl_lcn r + rl_length r) * cluster_size vol
                               <= nr_clusters vol * cluster_size vol) by nia.
      destruct (Z.le_gt_cases 0 (rl_lcn r)); [|assert (rl_lcn r = -1) as -> by lia]; nia.
Qed.

Lemma bad_runlist_exact_witness :
  vol_ok (mkVol 4096 1000 false) /\
  bad_runlist (mkVol 4096 1000 false) [mkRle 0 10 5; mkRle 5 (-1) 3; mkRle 8 0 0] = false /\
  (bad_runlist (mkVol 4096 1000 false) [mkRle 0 10 5; mkRle 6 (-1) 3] = false <->
   Forall (run_ok (mkVol 4096 1000 false)) [mkRle 0 10 5; mkRle 6 (-1) 3] /\
   contiguous 0 [mkRle 0 10 5; mkRle 6 (-1) 3]).
Proof.
  split; [vm_compute; intuition congruence|]. split; [reflexivity|].
  apply (bad_runlist_exact (mkVol 4096 1000 false) [mkRle 0 10 5; mkRle 6 (-1) 3]).
  vm_compute; intuition congruence.
Defined.

(** [C9] The extent loop of [nk_blockmap] on an accepted runlist that starts at
    virtual cluster 0, for any packer callback: the extents delivered cut the
    window, from [offset] to [covered], into consecutive non-empty pieces; each
    either announces the true device offset of all its bytes, all of which are
    below [init_end], or announces zero fill for bytes in a hole or past
    [init_end]; and unless the packer became full, everything up to the end of
    the window or of the runlist is covered. *)
Theorem pack_extents_correct : forall cb vol offset length init_end rl,
  vol_ok vol -> 0 <= offset -> 0 < length -> offset + length <= INT64_MAX ->
  bad_runlist vol rl = false -> first_vcn (live_runs rl) = 0 ->
  let k := pack_extents cb (cluster_size vol) offset length init_end rl in
  tiles offset (pk_covered k) (pk_out k) /\
  Forall (ext_ok (rl_phys (cluster_size vol) rl) init_end) (pk_out k) /\
  pk_covered k <= offset + length /\
  (pk_full k = false ->
   pk_covered k = clamp offset length (runs_end 0 (live_runs rl) * cluster_size vol)) /\
  (pk_full k = true -> offset < pk_covered k).
Proof.
  intros cb vol offset length init_end rl Hv Ho Hl Hw Hb Hz k.
  destruct (pack_extents_spec cb vol offset length init_end Hv Ho Hl Hw rl Hb Hz) as ([] & ? & ?).
  auto.
Qed.

Lemma pack_extents_correct_witness :
  let rl := [mkRle 0 10 1; mkRle 1 (-1) 1; mkRle 2 20 1; mkRle 3 (-1) 0] in
  let k := pack_extents (fun _ _ => false) 4096 1024 9216 9216 rl in
  pk_out k = [mkExt 1024 41984 3072; mkExt 4096 (-1) 4096; mkExt 8192 81920 1024;
              mkExt 9216 (-1) 1024] /\
  tiles 1024 (pk_covered k) (pk_out k).
Proof.
  split; [reflexivity|].
  apply (pack_extents_correct (fun _ _ => false) (mkVol 4096 100 false) 1024 9216 9216
           [mkRle 0 10 1; mkRle 1 (-1) 1; mkRle 2 20 1; mkRle 3 (-1) 0]);
    vm_compute; intuition congruence.
Defined.
