(* ===== verification/Engine.v ===== *)
(** * The interface of the NTFS engine

    The bridge calls libntfs-3g, which is not part of the repository.  The class
    [Engine] names the calls the KOIO code makes, as operations on an abstract
    engine state; the class [EngineLaws] states what the code relies on, in terms
    of four observations of the state, for a file named by its MFT reference:

    - [phys s m p]: the device offset of byte [p] of the unnamed data of [m], when
      that byte is on an allocated cluster;
    - [dbyte s a]: the byte of the device at [a];
    - [f_init s m], [f_size s m]: the recorded [initialized_size] and [data_size].

    The laws are the documented behaviour of the library on a volume without
    cross-linked clusters, where no two bytes are at one place ([phys_inj]):
    opening, closing, synchronising and mapping the runlist
    observe only; [ntfs_attr_pwrite] zero-fills from [initialized_size] when it
    writes past it, fills the holes it meets, zeroes what it allocates and touches
    nothing else; [ntfs_attr_truncate_solid] allocates only past the old size;
    [ntfs_attr_truncate] leaves the clusters of a non-resident uncompressed
    attribute below both sizes alone.  Nothing is assumed of the runlists: a
    runlist that the engine maps can be any list of runs. *)

From S2P Require Import Prelude WriteMarks Runlist.

(** The fields of [ntfs_inode] the bridge reads. *)
Record inode := mkInode { ni_mft_no : Z; ni_sequence : Z }.

(** [nk_mref] *)
Definition nk_mref (ni : inode) : Z := MK_MREF (ni_mft_no ni) (ni_sequence ni).

(** The fields of [ntfs_attr] (the unnamed data attribute) the bridge reads;
    [na_mref] is [nk_mref(na->ni)]. *)
Record attr := mkAttr {
  na_mref : Z; na_nonresident : bool; na_compressed : bool; na_encrypted : bool;
  na_data_size : Z; na_initialized_size : Z; na_rl : list rle }.

(** [na->initialized_size = v] *)
Definition set_init (na : attr) (v : Z) : attr :=
  mkAttr (na_mref na) (na_nonresident na) (na_compressed na) (na_encrypted na)
    (na_data_size na) v (na_rl na).

(** The calls; [true] is the error answer of the calls that return an [int]. *)
Class Engine (S : Type) := {
  pathname_to_inode : list Z -> S -> option inode * S;
  inode_sync : inode -> S -> bool * S;
  inode_close : inode -> S -> bool * S;
  inode_update_times : inode -> S -> S;
  attr_open : inode -> S -> option attr * S;
  attr_close : attr -> S -> S;
  attr_force_non_resident : attr -> S -> bool * attr * S;
  attr_truncate : attr -> Z -> S -> bool * attr * S;
  attr_truncate_solid : attr -> Z -> S -> bool * attr * S;
  attr_map_whole_runlist : attr -> S -> bool * attr * S;
  attr_pwrite : attr -> Z -> list Z -> S -> Z * attr * S;
  dev_pwrite : Z -> list Z -> S -> Z * S;
  attr_get_search_ctx : attr -> S -> bool * S;
  attr_lookup : attr -> S -> bool * S;
  attr_put_search_ctx : attr -> S -> S;
  rec_set_initialized_size : attr -> Z -> S -> S;
  inode_mark_dirty : attr -> S -> S;
}.

(** The observations. *)
Class EngineView (S : Type) := {
  phys : S -> Z -> Z -> option Z;
  dbyte : S -> Z -> Z;
  f_init : S -> Z -> Z;
  f_size : S -> Z -> Z;
  opened : S -> Z -> attr -> Prop;
}.

Section Observations.

Context {S : Type} `{EngineView S}.

(** The bytes selected by [P] that are on clusters stay where they are and keep
    their value. *)
Definition keeps (P : Z -> Z -> Prop) (s s' : S) : Prop :=
  forall m p a, P m p -> phys s m p = Some a -> phys s' m p = Some a /\ dbyte s' a = dbyte s a.

Definition everything (m p : Z) : Prop := True.

(** The other files are as before. *)
Record others_same (m : Z) (s s' : S) : Prop := {
  os_phys : forall m' p, m' <> m -> phys s' m' p = phys s m' p;
  os_byte : forall m' p a, m' <> m -> phys s m' p = Some a -> dbyte s' a = dbyte s a;
  os_init : forall m', m' <> m -> f_init s' m' = f_init s m';
  os_size : forall m', m' <> m -> f_size s' m' = f_size s m';
}.

Record same_obs (s s' : S) : Prop := {
  so_phys : forall m p, phys s' m p = phys s m p;
  so_byte : forall m p a, phys s m p = Some a -> dbyte s' a = dbyte s a;
  so_init : forall m, f_init s' m = f_init s m;
  so_size : forall m, f_size s' m = f_size s m;
}.

(** Byte [p] of file [m] reads as zero, or is in a hole. *)
Definition zero_or_hole (s : S) (m p : Z) : Prop :=
  forall a, phys s m p = Some a -> dbyte s a = 0.

#[export] Instance same_obs_refl : Reflexive same_obs.
Proof. by constructor. Qed.

#[export] Instance same_obs_trans : Transitive same_obs.
Proof.
  intros s1 s2 s3 [A1 A2 A3 A4] [B1 B2 B3 B4]. constructor; intros.
  - by rewrite B1.
  - rewrite (B2 m p); [by eapply A2|by rewrite A1].
  - by rewrite B3.
  - by rewrite B4.
Qed.

Lemma same_obs_keeps P s s' : same_obs s s' -> keeps P s s'.
Proof. intros [A1 A2 _ _] m p a _ Ha. rewrite A1. eauto. Qed.

Lemma same_obs_others m s s' : same_obs s s' -> others_same m s s'.
Proof. intros [A1 A2 A3 A4]. constructor; eauto. Qed.

Lemma keeps_trans (P : Z -> Z -> Prop) s1 s2 s3 : keeps P s1 s2 -> keeps P s2 s3 -> keeps P s1 s3.
Proof.
  intros A B m p a HP Ha. destruct (A _ _ _ HP Ha) as [Ha' E].
  destruct (B _ _ _ HP Ha') as [Ha'' E']. split; [done|congruence].
Qed.

Lemma keeps_weaken (P Q : Z -> Z -> Prop) s s' :
  (forall m p, Q m p -> P m p) -> keeps P s s' -> keeps Q s s'.
Proof. intros HPQ K m p a HQ. apply K. by apply HPQ. Qed.

Lemma keeps_refl P s : keeps P s s.
Proof. by intros m p a _ Ha. Qed.

Lemma others_same_refl m s : others_same m s s.
Proof. by constructor. Qed.

Lemma others_same_trans m s1 s2 s3 :
  others_same m s1 s2 -> others_same m s2 s3 -> others_same m s1 s3.
Proof.
  intros [A1 A2 A3 A4] [B1 B2 B3 B4]. constructor; intros.
  - by rewrite B1, A1.
  - rewrite (B2 m' p); [by eapply A2|done|by rewrite A1].
  - by rewrite B3, A3.
  - by rewrite B4, A4.
Qed.

Lemma zero_or_hole_same s s' m p : same_obs s s' -> zero_or_hole s m p -> zero_or_hole s' m p.
Proof. intros [A1 A2 _ _] Z0 a. rewrite A1. intros Ha. rewrite (A2 _ _ _ Ha). eauto. Qed.

End Observations.

(** [lo] is where [ntfs_attr_pwrite] starts to touch the file. *)
Definition pwrite_lo (na : attr) (pos : Z) : Z := Z.min (na_initialized_size na) pos.

Class EngineLaws (S : Type) (vol : volume) `{Engine S, EngineView S} : Prop := {
  phys_inj : forall s m1 m2 p1 p2 a,
    phys s m1 p1 = Some a -> phys s m2 p2 = Some a -> m1 = m2 /\ p1 = p2;
  pathname_obs : forall path s, same_obs s (snd (pathname_to_inode path s));
  sync_obs : forall ni s, same_obs s (snd (inode_sync ni s));
  iclose_obs : forall ni s, same_obs s (snd (inode_close ni s));
  times_obs : forall ni s, same_obs s (inode_update_times ni s);
  aclose_obs : forall na s, same_obs s (attr_close na s);
  get_ctx_obs : forall na s, same_obs s (snd (attr_get_search_ctx na s));
  lookup_obs : forall na s, same_obs s (snd (attr_lookup na s));
  put_ctx_obs : forall na s, same_obs s (attr_put_search_ctx na s);
  mark_dirty_obs : forall na s, same_obs s (inode_mark_dirty na s);
  (** the record's [initialized_size] is all that a store to it changes *)
  rec_set_phys : forall na v s m p, phys (rec_set_initialized_size na v s) m p = phys s m p;
  rec_set_byte : forall na v s m p a,
    phys s m p = Some a -> dbyte (rec_set_initialized_size na v s) a = dbyte s a;
  rec_set_size : forall na v s m, f_size (rec_set_initialized_size na v s) m = f_size s m;
  rec_set_init : forall na v s m,
    f_init (rec_set_initialized_size na v s) m = if m =? na_mref na then v else f_init s m;
  (** an open attribute *)
  open_obs : forall ni s, same_obs s (snd (attr_open ni s));
  open_opened : forall ni s na s', attr_open ni s = (Some na, s') ->
    opened s' (nk_mref ni) na /\ na_initialized_size na = f_init s' (nk_mref ni);
  opened_mref : forall s m na, opened s m na -> na_mref na = m;
  opened_size : forall s m na, opened s m na -> na_data_size na = f_size s m;
  opened_set_init : forall s m na v, opened s m na -> na_nonresident na = true ->
    opened s m (set_init na v);
  opened_resident : forall s m na, opened s m na -> na_nonresident na = false ->
    f_init s m = f_size s m;
  (** resident data gets clusters; nothing that had clusters moves *)
  force_law : forall s m na err na' s',
    attr_force_non_resident na s = (err, na', s') ->
    opened s m na -> na_nonresident na = false ->
    keeps everything s s' /\ others_same m s s' /\ opened s' m na' /\
    f_init s' m = f_init s m /\ f_size s' m = f_size s m /\
    na_initialized_size na' = na_initialized_size na /\
    (err = false -> na_nonresident na' = true);
  (** growing: the allocated bytes stay, new clusters lie past the old size *)
  solid_law : forall s m na size err na' s',
    attr_truncate_solid na size s = (err, na', s') ->
    opened s m na -> na_nonresident na = true -> na_data_size na < size ->
    keeps everything s s' /\ others_same m s s' /\ opened s' m na' /\
    na_nonresident na' = true /\ f_init s' m = f_init s m /\
    na_initialized_size na' = na_initialized_size na /\
    (err = false -> f_size s' m = size /\
       forall p, phys s m p = None -> phys s' m p <> None -> f_size s m <= p);
  (** the runlist in memory is the map of the file *)
  map_law : forall s m na err na' s',
    attr_map_whole_runlist na s = (err, na', s') ->
    opened s m na -> na_nonresident na = true ->
    same_obs s s' /\ opened s' m na' /\ na_nonresident na' = true /\
    na_initialized_size na' = na_initialized_size na /\
    (err = false -> first_vcn (live_runs (na_rl na')) = 0 /\
       forall p, rl_phys (cluster_size vol) (na_rl na') p = phys s' m p);
  (** writing through the attribute, inside its size *)
  pwrite_law : forall s m na pos data n na' s',
    attr_pwrite na pos data s = (n, na', s') ->
    opened s m na -> na_nonresident na = true ->
    0 <= pos -> 0 < Z.of_nat (length data) -> pos + Z.of_nat (length data) <= na_data_size na ->
    let fin := pos + Z.of_nat (length data) in
    keeps (fun m' p => m' <> m \/ p < pwrite_lo na pos \/ fin <= p) s s' /\
    (forall m' p a, phys s m' p = Some a -> phys s' m' p = Some a) /\
    others_same m s s' /\ opened s' m na' /\ na_nonresident na' = true /\
    f_size s' m = f_size s m /\
    (n = Z.of_nat (length data) ->
       f_init s' m = (if na_initialized_size na <? fin then fin else f_init s m) /\
       na_initialized_size na' = Z.max (na_initialized_size na) fin /\
       (forall p, pos <= p < fin -> exists a,
          phys s' m p = Some a /\ data !! Z.to_nat (p - pos) = Some (dbyte s' a)) /\
       (forall p, na_initialized_size na <= p < pos -> zero_or_hole s' m p) /\
       (forall p, phys s m p = None -> p < pos \/ fin <= p -> zero_or_hole s' m p));
  (** writing to the device at the place of file data *)
  dev_pwrite_law : forall at_ data n s s',
    dev_pwrite at_ data s = (n, s') ->
    (forall m p, phys s' m p = phys s m p) /\
    (forall m, f_init s' m = f_init s m) /\ (forall m, f_size s' m = f_size s m) /\
    (forall m p a, phys s m p = Some a -> ~ (at_ <= a < at_ + Z.of_nat (length data)) ->
       dbyte s' a = dbyte s a) /\
    (n = Z.of_nat (length data) ->
     forall m p a, phys s m p = Some a -> at_ <= a < at_ + Z.of_nat (length data) ->
       data !! Z.to_nat (a - at_) = Some (dbyte s' a)) /\
    (forall m na, opened s m na -> opened s' m na);
  (** setting the size.  A resident attribute may get clusters when it grows and a
      compressed one may be packed again, so only the clusters of a non-resident
      uncompressed attribute are known to stay, below both sizes; what was a hole
      there is not given stale clusters. *)
  truncate_law : forall s m na size err na' s',
    attr_truncate na size s = (err, na', s') -> opened s m na ->
    others_same m s s' /\
    (err = false -> 0 <= size /\ f_size s' m = size /\
       Z.min (f_init s m) size <= f_init s' m /\
       (na_nonresident na = true -> na_compressed na = false ->
          forall p, p < Z.min size (f_size s m) ->
            match phys s m p with
            | Some a => phys s' m p = Some a /\ dbyte s' a = dbyte s a
            | None => zero_or_hole s' m p
            end));
}.
