(* ===== verification/Koio.v ===== *)
(** * Kernel-offloaded I/O: mapping, completing and aborting writes

    Models [zero_raw], [stamp_init], [nk_blockmap], [nk_complete_write],
    [nk_abort_write] and [nk_truncate] of src/NTFSModule/bridge/ntfs_bridge.c over
    the engine interface of [Engine].

    [nk_blockmap] is cut into the stages its comments mark; a stage runs in the
    monad [K]: the engine state, the open attribute [na] and the local [oi], with
    an exit [inr r] for [goto out] with that [r].  The loops carry fuel; running
    out of it is the result [OUT_OF_FUEL], which no C path returns.  [errno] is not
    modelled. *)

From S2P Require Import Prelude WriteMarks Runlist Engine.

Definition OUT_OF_FUEL : Z := -99.

(** [sizeof(gz)], [sizeof(zeros)] and [sizeof(zpad)] *)
Definition GZ : Z := 65536.
Definition ZPAD : Z := 4096.

(** [struct nk_volume]; [devctx] plays no part here. *)
Record nk_volume := mkNkVolume { v_vol : volume; v_bde : bool; v_wr : list nk_wr }.

Definition with_wr (v : nk_volume) (wr : list nk_wr) : nk_volume :=
  mkNkVolume (v_vol v) (v_bde v) wr.

(** [chunk] of the zeroing loops. *)
Definition chunk_of (size p e : Z) : Z := if e - p <? size then e - p else size.

Definition chunk_fuel (size p e : Z) : nat := Z.to_nat ((e - p) / size + 1).

(** A window no caller may ask for: negative, empty or wrapping. *)
Definition window_bad (offset length : Z) : bool :=
  (offset <? 0) || (length <=? 0) || (INT64_MAX - length <? offset).

Section Koio.

Context {S : Type} `{Engine S}.

(** ** [zero_raw] and [stamp_init] *)

(** [for (s64 p = s; p < e; )] of [zero_raw], for the run at [lcn] whose first
    logical byte is [log]. *)
Fixpoint zero_raw_run (fuel : nat) (at_ log p e : Z) (s : S) : Z * S :=
  if p <? e then
    match fuel with
    | O => (OUT_OF_FUEL, s)
    | Datatypes.S fuel =>
        let chunk := chunk_of GZ p e in
        let '(n, s1) := dev_pwrite (s64 (at_ + (p - log))) (repeat 0 (Z.to_nat chunk)) s in
        if negb (n =? chunk) then (-1, s1) else zero_raw_run fuel at_ log (p + chunk) e s1
    end
  else (0, s).

Fixpoint zero_raw_runs (csize : Z) (rl : list rle) (from to : Z) (s : S) : Z * S :=
  match rl with
  | [] => (0, s)
  | r :: rl =>
      if rl_lcn r <? 0 then zero_raw_runs csize rl from to s else
      let log := s64 (rl_vcn r * csize) in
      let fin := s64 (log + s64 (rl_length r * csize)) in
      let st := if from <? log then log else from in
      let e := if fin <? to then fin else to in
      let '(z, s1) := zero_raw_run (chunk_fuel GZ st e) (s64 (rl_lcn r * csize)) log st e s in
      if negb (z =? 0) then (z, s1) else zero_raw_runs csize rl from to s1
  end.

Definition zero_raw (vol : volume) (na : attr) (from to : Z) (s : S) : Z * S :=
  zero_raw_runs (cluster_size vol) (live_runs (na_rl na)) from to s.

Definition stamp_init (na : attr) (val : Z) (s : S) : Z * attr * S :=
  let '(sctx, s1) := attr_get_search_ctx na s in
  if negb sctx then (-1, na, s1) else
  let '(err, s2) := attr_lookup na s1 in
  if err then (-1, na, attr_put_search_ctx na s2) else
  let s3 := rec_set_initialized_size na val s2 in
  let na' := set_init na val in
  let s4 := inode_mark_dirty na s3 in
  (0, na', attr_put_search_ctx na s4).

(** ** The stages of [nk_blockmap] *)

Record kst := mkK { k_eng : S; k_na : attr; k_oi : Z }.

Definition K (A : Type) : Type := kst -> (A + Z) * kst.

#[global] Instance K_ret : MRet K := fun A x k => (inl x, k).
#[global] Instance K_bind : MBind K := fun A B f m k =>
  match m k with
  | (inl x, k') => f x k'
  | (inr r, k') => (inr r, k')
  end.

(** [r = z; goto out] *)
Definition goto_out {A} (z : Z) : K A := fun k => (inr z, k).

Definition read_na : K attr := fun k => (inl (k_na k), k).

(** A call on [na] that answers an error or not. *)
Definition call_na (f : attr -> S -> bool * attr * S) : K bool := fun k =>
  let '(err, na, s) := f (k_na k) (k_eng k) in (inl err, mkK s na (k_oi k)).

Definition map_runlist (vol : volume) : K unit :=
  err ← call_na attr_map_whole_runlist;
  na ← read_na;
  if err || bad_runlist vol (na_rl na) then goto_out (-1) else mret tt.

(** A loop that writes zeros through the attribute from [p] to [to], [size] bytes
    at a time; [whole] tells the loops that advance by [size] from those that
    advance by the chunk written. *)
Fixpoint zero_loop (fuel : nat) (size : Z) (whole : bool) (p to : Z) : K unit := fun k =>
  if p <? to then
    match fuel with
    | O => (inr OUT_OF_FUEL, k)
    | Datatypes.S fuel =>
        let chunk := chunk_of size p to in
        let '(n, na, s) := attr_pwrite (k_na k) p (repeat 0 (Z.to_nat chunk)) (k_eng k) in
        let k' := mkK s na (k_oi k) in
        if negb (n =? chunk) then (inr (-1), k')
        else zero_loop fuel size whole (p + if whole then size else chunk) to k'
    end
  else (inl tt, k).

(** Grow the file to a window to write, with solid clusters, then map and check
    the runlist. *)
Definition stage_grow (vol : volume) (for_write : bool) (offset length : Z) : K unit :=
  na ← read_na;
  _ ← (if for_write && (na_data_size na <? offset + length) then
         err ← call_na (fun na => attr_truncate_solid na (offset + length));
         if err : bool then goto_out (-1) else mret tt
       else mret tt);
  map_runlist vol.

(** Refuse what cannot be mapped, give resident data clusters, grow. *)
Definition stage_map (vol : volume) (for_write : bool) (offset length : Z) : K unit :=
  na ← read_na;
  if na_compressed na || na_encrypted na then goto_out (-2) else
  if negb (na_nonresident na) then
    if vol_readonly vol then goto_out (-2) else
    err ← call_na attr_force_non_resident;
    if err : bool then goto_out (-2) else stage_grow vol for_write offset length
  else stage_grow vol for_write offset length.

(** The zeroing below the window; the result is [hwm]. *)
Definition stage_zero (vol : volume) (for_write : bool) (mark offset : Z) : K Z :=
  if negb for_write then mret 0 else
  na ← read_na;
  let init := na_initialized_size na in
  if mark <=? init then
    _ ← zero_loop (chunk_fuel GZ init offset) GZ false init offset;
    _ ← map_runlist vol;
    mret mark
  else if mark <? offset then
    fun k => let '(z, s) := zero_raw vol (k_na k) mark offset (k_eng k) in
             let k' := mkK s (k_na k) (k_oi k) in
             if negb (z =? 0) then (inr (-1), k') else (inl mark, k')
  else mret mark.

(** The first hole that overlaps the window: its part inside. *)
Fixpoint find_hole (csize offset length : Z) (rl : list rle) : option (Z * Z) :=
  match rl with
  | [] => None
  | r :: rl =>
      if negb (rl_lcn r =? LCN_HOLE) then find_hole csize offset length rl else
      let log := s64 (rl_vcn r * csize) in
      let len := s64 (rl_length r * csize) in
      let st := if offset <? log then log else offset in
      let e := if s64 (log + len) <? offset + length then s64 (log + len) else offset + length in
      if st <? e then Some (st, e) else find_hole csize offset length rl
  end.

Definition set_na_init (v : Z) : K unit := fun k =>
  (inl tt, mkK (k_eng k) (set_init (k_na k) v) (k_oi k)).

(** Fill the hole from [start] to [fin], starting at [hwm] what lies above
    [initialized_size], and map again. *)
Definition fill_hole (vol : volume) (hwm start fin : Z) : K unit :=
  na ← read_na;
  _ ← (if (na_initialized_size na <? hwm) && (na_initialized_size na <? start)
       then set_na_init hwm else mret tt);
  _ ← zero_loop (chunk_fuel GZ start fin) GZ true start fin;
  map_runlist vol.

(** [for (;;)]: fill the first hole, scan again. *)
Fixpoint hole_loop (fuel : nat) (vol : volume) (hwm offset length : Z) : K unit := fun k =>
  match find_hole (cluster_size vol) offset length (live_runs (na_rl (k_na k))) with
  | None => (inl tt, k)
  | Some (start, fin) =>
      match fuel with
      | O => (inr OUT_OF_FUEL, k)
      | Datatypes.S fuel =>
          (_ ← fill_hole vol hwm start fin; hole_loop fuel vol hwm offset length) k
      end
  end.

(** [stamp_init] on the attribute of the state. *)
Definition stamp_na (v : Z) : K Z := fun k =>
  let '(z, na, s) := stamp_init (k_na k) v (k_eng k) in (inl z, mkK s na (k_oi k)).

Definition set_oi (v : Z) : K unit := fun k => (inl tt, mkK (k_eng k) (k_na k) v).

Definition stage_holes (vol : volume) (for_write : bool) (hwm offset length : Z) : K unit :=
  if negb for_write then mret tt else
  na ← read_na;
  let oi := na_initialized_size na in
  _ ← set_oi oi;
  _ ← hole_loop (Datatypes.S (Z.to_nat length)) vol hwm offset length;
  na ← read_na;
  if oi <? na_initialized_size na then
    z ← stamp_na oi;
    if negb (z =? 0) then goto_out (-1) else mret tt
  else mret tt.

(** Where data ends and zeros begin, for a read. *)
Definition stage_init_end (vol : volume) (for_write : bool) (mark bs : Z) : K Z :=
  if for_write then mret INT64_MAX else
  na ← read_na;
  let init_end := na_initialized_size na in
  if init_end <? 0 then goto_out (-1) else
  if Z.rem init_end bs =? 0 then mret init_end else
  let zend0 := init_end + (bs - Z.rem init_end bs) in
  let zend := if na_data_size na <? zend0 then na_data_size na else zend0 in
  if (init_end <? zend) && vol_readonly vol then goto_out (-2) else
  init_end ← (if (init_end <? zend) && (mark <=? init_end) then
                _ ← zero_loop (chunk_fuel ZPAD init_end zend) ZPAD false init_end zend;
                _ ← map_runlist vol;
                na ← read_na;
                mret (na_initialized_size na)
              else mret init_end);
  mret (((init_end + bs - 1) ÷ bs) * bs).

(** The extents: the packer, the answer so far, and the extents delivered. *)
Definition deliver (cb : list extent -> extent -> bool) (csize offset length init_end : Z)
    (for_write : bool) (rl : list rle) : packer * Z * list extent :=
  let k := pack_extents cb csize offset length init_end rl in
  if negb (pk_full k) && (pk_covered k <? offset + length) then
    if for_write then (k, -1, pk_out k)
    else (k, 0, pk_out k ++ [mkExt (pk_covered k) (-1) (offset + length - pk_covered k)])
  else (k, 0, pk_out k).

(** Everything between the opening of the attribute and [out]. *)
Definition blockmap_body (vol : volume) (for_write : bool) (mark offset length bs : Z) : K (Z * Z) :=
  _ ← stage_map vol for_write offset length;
  hwm ← stage_zero vol for_write mark offset;
  _ ← stage_holes vol for_write hwm offset length;
  init_end ← stage_init_end vol for_write mark bs;
  mret (hwm, init_end).

(** [out:] *)
Definition blockmap_out (ni : inode) (r : Z) (k : kst) : Z * S :=
  let '(na, s) :=
    if (0 <=? k_oi k) && (k_oi k <? na_initialized_size (k_na k))
    then let '(_, na, s) := stamp_init (k_na k) (k_oi k) (k_eng k) in (na, s)
    else (k_na k, k_eng k) in
  let s1 := attr_close na s in
  let '(e1, s2) := inode_sync ni s1 in
  let r1 := if e1 && (r =? 0) then -1 else r in
  let '(e2, s3) := inode_close ni s2 in
  (if e2 && (r1 =? 0) then -1 else r1, s3).

Definition nk_blockmap (realloc_ok : bool) (v : option nk_volume) (path : list Z)
    (offset length : Z) (for_write : bool) (blocksize : Z)
    (cb : option (list extent -> extent -> bool)) (s : S) : Z * option nk_volume * S * list extent :=
  match v, cb with
  | Some v, Some cb =>
      if window_bad offset length
      then (-1, Some v, s, []) else
      let bs := if 512 <=? blocksize then blocksize else 512 in
      let vol := v_vol v in
      if v_bde v || negb (Z.rem (cluster_size vol) bs =? 0) then (-2, Some v, s, []) else
      match pathname_to_inode path s with
      | (None, s1) => (-1, Some v, s1, [])
      | (Some ni, s1) =>
          match attr_open ni s1 with
          | (None, s2) => let '(_, s3) := inode_close ni s2 in (-1, Some v, s3, [])
          | (Some na, s2) =>
              let mark := wr_hwm (v_wr v) (nk_mref ni) in
              match blockmap_body vol for_write mark offset length bs (mkK s2 na (-1)) with
              | (inr r, k) => let '(r', s3) := blockmap_out ni r k in (r', Some v, s3, [])
              | (inl (hwm, init_end), k) =>
                  let '(pk, r, exts) :=
                    deliver cb (cluster_size vol) offset length init_end for_write
                      (na_rl (k_na k)) in
                  let mapped_end := if pk_full pk then pk_covered pk else offset + length in
                  let '(z, wr) :=
                    if (r =? 0) && for_write && (hwm <? mapped_end) &&
                       (na_initialized_size (k_na k) <? mapped_end)
                    then wr_set realloc_ok (v_wr v) (nk_mref ni) mapped_end
                    else (0, v_wr v) in
                  let r1 := if negb (z =? 0) then -1 else r in
                  let '(r2, s3) := blockmap_out ni r1 k in
                  (r2, Some (with_wr v wr), s3, exts)
              end
          end
      end
  | _, _ => (-1, v, s, [])
  end.

(** ** Completing, aborting, truncating *)

(** From [offset >= na->data_size] to [done]: the result, [na], the table, the
    engine. *)
Definition complete_body (v : nk_volume) (m : Z) (offset length : Z) (na : attr) (s : S)
  : Z * attr * list nk_wr * S :=
  if na_data_size na <=? offset then (0, na, v_wr v, s) else
  let target0 := offset + length in
  let target := if na_data_size na <? target0 then na_data_size na else target0 in
  let h := wr_hwm (v_wr v) m in
  let floor := if na_initialized_size na <? h then h else na_initialized_size na in
  let '(failed, na1, s1) :=
    if na_nonresident na && (floor <? offset) then
      let '(err, na1, s1) := attr_map_whole_runlist na s in
      if err : bool then (true, na1, s1) else
      let '(z, s2) := zero_raw (v_vol v) na1 floor offset s1 in (negb (z =? 0), na1, s2)
    else (false, na, s) in
  if failed : bool then (-1, na1, v_wr v, s1) else
  let '(failed, na2, s2) :=
    if na_nonresident na1 && (na_initialized_size na1 <? target) then
      let '(z, na2, s2) := stamp_init na1 target s1 in (negb (z =? 0), na2, s2)
    else (false, na1, s1) in
  if failed : bool then (-1, na2, v_wr v, s2) else
  if wr_hwm (v_wr v) m <=? na_initialized_size na2
  then (0, na2, wr_drop (v_wr v) m, s2)
  else (0, na2, v_wr v, s2).

Definition nk_complete_write (v : option nk_volume) (path : list Z) (offset length : Z) (s : S)
  : Z * option nk_volume * S :=
  match v with
  | None => (-1, None, s)
  | Some v =>
      if window_bad offset length then (-1, Some v, s) else
      match pathname_to_inode path s with
      | (None, s1) => (-1, Some v, s1)
      | (Some ni, s1) =>
          match attr_open ni s1 with
          | (None, s2) => let '(_, s3) := inode_close ni s2 in (-1, Some v, s3)
          | (Some na, s2) =>
              let '(r, na', wr, s3) := complete_body v (nk_mref ni) offset length na s2 in
              let s4 := attr_close na' s3 in
              let '(e1, s5) := inode_sync ni s4 in
              let r1 := if e1 && (r =? 0) then -1 else r in
              let '(e2, s6) := inode_close ni s5 in
              (if e2 && (r1 =? 0) then -1 else r1, Some (with_wr v wr), s6)
          end
      end
  end.

Definition abort_body (v : nk_volume) (m : Z) (offset length mark : Z) (na : option attr) (s : S)
  : Z * option attr * list nk_wr * S :=
  let init := match na with Some na => na_initialized_size na | None => 0 end in
  if mark <=? offset + length then
    let wr := wr_store (v_wr v) m offset in
    (0, na, if offset <=? init then wr_drop wr m else wr, s)
  else
    match na with
    | Some na =>
        if na_nonresident na then
          let from := if init <? offset then offset else init in
          if from <? offset + length then
            let '(err, na1, s1) := attr_map_whole_runlist na s in
            if err : bool then (-1, Some na1, v_wr v, s1) else
            let '(z, s2) := zero_raw (v_vol v) na1 from (offset + length) s1 in
            (if negb (z =? 0) then -1 else 0, Some na1, v_wr v, s2)
          else (0, Some na, v_wr v, s)
        else (0, Some na, v_wr v, s)
    | None => (0, None, v_wr v, s)
    end.

Definition nk_abort_write (v : option nk_volume) (path : list Z) (offset length : Z) (s : S)
  : Z * option nk_volume * S :=
  match v with
  | None => (-1, None, s)
  | Some v =>
      if window_bad offset length then (-1, Some v, s) else
      match pathname_to_inode path s with
      | (None, s1) => (-1, Some v, s1)
      | (Some ni, s1) =>
          let m := nk_mref ni in
          match abort_entry (v_wr v) m offset with
          | None => let '(_, s2) := inode_close ni s1 in (0, Some v, s2)
          | Some mark =>
              let '(na, s2) := attr_open ni s1 in
              let '(r, na', wr, s3) := abort_body v m offset length mark na s2 in
              let s4 := match na' with Some na => attr_close na s3 | None => s3 end in
              let '(_, s5) := inode_close ni s4 in
              (r, Some (with_wr v wr), s5)
          end
      end
  end.

Definition nk_truncate (v : option nk_volume) (path : list Z) (size : Z) (s : S)
  : Z * option nk_volume * S :=
  match v with
  | None => (-1, None, s)
  | Some v =>
      match pathname_to_inode path s with
      | (None, s1) => (-1, Some v, s1)
      | (Some ni, s1) =>
          let '(na, s2) := attr_open ni s1 in
          let '(r, s3) :=
            match na with
            | Some na => let '(err, na', s3) := attr_truncate na size s2 in
                         (if err : bool then -1 else 0, attr_close na' s3)
            | None => (-1, s2)
            end in
          let m := nk_mref ni in
          let wr := match abort_entry (v_wr v) m size with
                    | Some _ => wr_store (v_wr v) m size
                    | None => v_wr v
                    end in
          let s4 := inode_update_times ni s3 in
          let '(e, s5) := inode_close ni s4 in
          let r1 := if e : bool then -1 else r in
          (if negb (r1 =? 0) then -1 else 0, Some (with_wr v wr), s5)
      end
  end.

End Koio.
