(* ===== verification/KoioFacts.v ===== *)
(** * What the stages of [nk_blockmap] do to the files

    The lemmas behind the theorems of [KoioInv]: the effect of each loop and stage
    of [Koio] on the bytes of all files, on every outcome, and what a successful
    outcome adds. *)

From S2P Require Import Prelude WriteMarks Runlist Engine Koio.

Section Facts.

Context {S : Type} (vol : volume) `{EngineLaws S vol}.

(** On success the zeroing code only adds clusters and zeros to a file. *)
Record zgrow (m : Z) (s s' : S) : Prop := {
  zg_phys : forall q a, phys s m q = Some a -> phys s' m q = Some a;
  zg_zero : forall q, zero_or_hole s m q -> zero_or_hole s' m q;
  zg_size : f_size s' m = f_size s m;
}.

#[export] Instance zgrow_refl m : Reflexive (zgrow m).
Proof. by constructor. Qed.

#[export] Instance zgrow_trans m : Transitive (zgrow m).
Proof. intros a b c [A1 A2 A3] [B1 B2 B3]. constructor; auto. congruence. Qed.

Lemma same_obs_zgrow m s s' : same_obs s s' -> zgrow m s s'.
Proof.
  intros O. constructor.
  - intros q a Ha. by rewrite (so_phys _ _ O).
  - intros q. by apply zero_or_hole_same.
  - apply (so_size _ _ O).
Qed.

(** The bytes a mapping must not touch: those of the other files, and of the file
    itself those below [b]. *)
Definition protected (m b m' p : Z) : Prop := m' <> m \/ p < b.

Record frame (m b : Z) (s0 : S) (k : kst) : Prop := {
  fr_keep : keeps (protected m b) s0 (k_eng k);
  fr_others : others_same m s0 (k_eng k);
  fr_open : opened (k_eng k) m (k_na k);
}.

Lemma frame_step m b s0 k k' :
  frame m b s0 k -> keeps (protected m b) (k_eng k) (k_eng k') ->
  others_same m (k_eng k) (k_eng k') -> opened (k_eng k') m (k_na k') -> frame m b s0 k'.
Proof.
  intros [F1 F2 F3] Hk Ho Hop. constructor; [|by eapply others_same_trans|done].
  by eapply keeps_trans.
Qed.

Lemma chunk_of_spec size p e :
  0 < size -> p < e ->
  0 < chunk_of size p e <= e - p /\ (p + chunk_of size p e = e \/ chunk_of size p e = size) /\
  (p + size < e -> chunk_of size p e = size).
Proof. unfold chunk_of. intros. zcase; lia. Qed.

Lemma repeat_zero_lookup n i x : repeat 0 n !! i = Some x -> x = 0.
Proof.
  intros Hx. assert (x ∈ repeat 0 n) as Hin by (by eapply list_elem_of_lookup_2).
  apply list_elem_of_In, repeat_spec in Hin. done.
Qed.

(** One write of zeros through the attribute. *)
Lemma pwrite_zero_step s m na p c n na' s' :
  attr_pwrite na p (repeat 0 (Z.to_nat c)) s = (n, na', s') ->
  opened s m na -> na_nonresident na = true ->
  0 <= p -> 0 < c -> p + c <= na_data_size na ->
  keeps (fun m' q => m' <> m \/ q < pwrite_lo na p \/ p + c <= q) s s' /\
  others_same m s s' /\ opened s' m na' /\ na_nonresident na' = true /\
  na_data_size na' = na_data_size na /\
  (n = c ->
     zgrow m s s' /\
     f_init s' m = (if na_initialized_size na <? p + c then p + c else f_init s m) /\
     na_initialized_size na' = Z.max (na_initialized_size na) (p + c) /\
     (forall q, pwrite_lo na p <= q < p + c -> zero_or_hole s' m q) /\
     (forall q, p <= q < p + c -> phys s' m q <> None)).
Proof.
  intros E Hop Hnr Hp Hc Hsz.
  assert (Z.of_nat (length (repeat 0 (Z.to_nat c))) = c) as Hlen by (rewrite repeat_length; lia).
  destruct (pwrite_law _ _ _ _ _ _ _ _ E Hop Hnr) as (K & M & O & Hop' & Hnr' & Fs & Hs);
    [lia..|]. rewrite Hlen in *.
  split; [done|]. split; [done|]. split; [done|]. split; [done|].
  split; [rewrite (opened_size _ _ _ Hop'), (opened_size _ _ _ Hop); done|].
  intros ->. destruct (Hs eq_refl) as (Fi & Ni & Dat & Gap & Fresh).
  assert (forall q, p <= q < p + c -> zero_or_hole s' m q) as Hin.
  { intros q Hq a Ha. destruct (Dat q Hq) as (a' & Ha' & Hb).
    rewrite Ha in Ha'. injection Ha' as <-. by apply repeat_zero_lookup in Hb. }
  assert (forall q, pwrite_lo na p <= q < p + c -> zero_or_hole s' m q) as Hlo.
  { unfold pwrite_lo. intros q Hq. destruct (Z.lt_ge_cases q p) as [Hl|Hg].
    - apply Gap. lia.
    - apply Hin. lia. }
  split; [|split; [done|split; [done|split; [done|]]]].
  - constructor; [by apply M| |done].
    intros q Hz. destruct (decide (pwrite_lo na p <= q < p + c)) as [Hr|Hr]; [by apply Hlo|].
    destruct (phys s m q) as [a|] eqn:Ha.
    + destruct (K m q a) as [Ha' Hb]; [lia|done|].
      intros x Hx. rewrite Ha' in Hx. injection Hx as <-. rewrite Hb. by apply Hz.
    + apply Fresh; [done|]. unfold pwrite_lo in Hr. lia.
  - intros q Hq. destruct (Dat q Hq) as (a & -> & _). done.
Qed.

(** The loops that write zeros through the attribute from [p] to [to]. *)
Record zeroed (m p to : Z) (k k' : kst) : Prop := {
  zd_grow : zgrow m (k_eng k) (k_eng k');
  zd_zero : forall q, p < to -> pwrite_lo (k_na k) p <= q < to -> zero_or_hole (k_eng k') m q;
  zd_mapped : forall q, p <= q < to -> phys (k_eng k') m q <> None;
  zd_init : p < to -> na_initialized_size (k_na k') = Z.max (na_initialized_size (k_na k)) to;
  zd_finit : p < to -> f_init (k_eng k') m =
    (if na_initialized_size (k_na k) <? to then to else f_init (k_eng k) m);
  zd_none : to <= p -> k' = k;
}.

Lemma zero_loop_spec m b s0 size whole to fuel : forall p k r k',
  zero_loop fuel size whole p to k = (r, k') ->
  0 < size -> 0 <= p -> to <= na_data_size (k_na k) -> to - p <= Z.of_nat fuel * size ->
  na_nonresident (k_na k) = true -> frame m b s0 k ->
  (forall q, pwrite_lo (k_na k) p <= q < to -> q < b -> phys s0 m q = None) ->
  frame m b s0 k' /\ na_nonresident (k_na k') = true /\ k_oi k' = k_oi k /\
  na_data_size (k_na k') = na_data_size (k_na k) /\
  ((r = inr (-1)) \/ (r = inl tt /\ zeroed m p to k k')).
Proof.
  induction fuel as [|fuel IH]; intros p k r k' E Hsize Hp Hto Hfuel Hnr HF Hfree; simpl in E.
  { destruct (Z.ltb_spec p to); [lia|]. injection E as <- <-.
    split_and!; try done. right. split; [done|].
    constructor; [reflexivity|intros; lia..|done]. }
  destruct (Z.ltb_spec p to) as [Hlt|Hge].
  2:{ injection E as <- <-. split_and!; try done. right. split; [done|].
      constructor; [reflexivity|intros; lia..|done]. }
  destruct (chunk_of_spec size p to Hsize Hlt) as (Hc & Hce & Hcs).
  set (c := chunk_of size p to) in *.
  destruct (attr_pwrite (k_na k) p (repeat 0 (Z.to_nat c)) (k_eng k)) as [[n na1] s1] eqn:Ew.
  destruct (pwrite_zero_step _ m _ _ _ _ _ _ Ew (fr_open _ _ _ _ HF) Hnr)
    as (K1 & O1 & Op1 & Nr1 & Sz1 & Hs); [lia..|].
  set (k1 := mkK s1 na1 (k_oi k)) in *.
  assert (frame m b s0 k1) as HF1.
  { constructor; simpl; [|by eapply others_same_trans; [apply HF|]|done].
    intros m' q a HP Ha. destruct (fr_keep _ _ _ _ HF m' q a HP Ha) as [Ha1 Hb1].
    destruct (K1 m' q a) as [Ha2 Hb2]; [|done|by rewrite Hb2].
    destruct HP as [?|Hqb]; [by left|]. destruct (decide (m' = m)) as [->|]; [right|by left].
    destruct (decide (pwrite_lo (k_na k) p <= q < to)) as [Hr|Hr]; [|lia].
    rewrite Hfree in Ha by done. done. }
  destruct (Z.eqb_spec n c) as [->|Hne]; simpl in E.
  2:{ injection E as <- <-. split_and!; try done. by left. }
  destruct (Hs eq_refl) as (G1 & Fi1 & Ni1 & Z1 & M1).
  set (p1 := p + (if whole then size else c)) in *.
  assert (p + c <= p1 /\ (p1 < to -> p1 = p + c) /\ (to <= p1 -> p + c = to)) as (Hp1 & Hp2 & Hp3)
    by (unfold p1; destruct whole; lia).
  assert (to - p1 <= Z.of_nat fuel * size) as Hfuel1 by (unfold p1; destruct whole; nia).
  destruct (IH p1 k1 r k' E) as (HF' & Nr' & Oi' & Sz' & Hr); try done.
  - lia.
  - simpl. lia.
  - intros q Hq Hqb. apply Hfree; [|done]. unfold pwrite_lo in *. simpl in *. lia.
  - split_and!; try done; [simpl in Sz'; lia|].
    destruct Hr as [->|[-> Hd]]; [by left|]. right. split; [done|].
    destruct (Z.lt_ge_cases p1 to) as [Hl|Hg].
    + pose proof (Hp2 Hl). destruct Hd as [D1 D2 D3 D4 D5 D6]. simpl in *.
      constructor.
      * by transitivity s1.
      * intros q _ Hq. destruct (Z.lt_ge_cases q (p + c)).
        -- apply (zg_zero _ _ _ D1), Z1. lia.
        -- apply D2; [done|]. unfold pwrite_lo in *. lia.
      * intros q Hq. destruct (Z.lt_ge_cases q (p + c)); [|apply D3; lia].
        destruct (phys s1 m q) as [a|] eqn:Ha; [|destruct (M1 q); [lia|done]].
        by rewrite (zg_phys _ _ _ D1 _ _ Ha).
      * intros _. rewrite D4 by done. lia.
      * intros _. rewrite D5, Fi1 by done. rewrite Ni1. repeat zcase; lia.
      * lia.
    + pose proof (Hp3 Hg) as Hpc. rewrite (zd_none _ _ _ _ _ Hd Hg). rewrite Hpc in *.
      constructor; simpl; auto. lia.
Qed.

Lemma chunk_fuel_enough size p e : 0 < size -> e - p <= Z.of_nat (chunk_fuel size p e) * size.
Proof.
  intros Hs. unfold chunk_fuel. destruct (Z.le_gt_cases e p); [lia|].
  pose proof (Z.div_mod (e - p) size). pose proof (Z.mod_pos_bound (e - p) size).
  assert (0 <= (e - p) / size) by (apply Z.div_pos; lia). nia.
Qed.

(** ** [zero_raw] *)

(** The effect of zeroing [from, to) of file [m] on its clusters. *)
Record rawed (m from to : Z) (s s' : S) : Prop := {
  rw_phys : forall m' q, phys s' m' q = phys s m' q;
  rw_init : forall m', f_init s' m' = f_init s m';
  rw_size : forall m', f_size s' m' = f_size s m';
  rw_byte : forall m' q a, phys s m' q = Some a -> m' <> m \/ ~ (from <= q < to) ->
    dbyte s' a = dbyte s a;
  rw_open : forall na, opened s m na -> opened s' m na;
}.

Lemma rawed_refl m from to s : rawed m from to s s.
Proof. by constructor. Qed.

Lemma rawed_trans m from to s1 s2 s3 :
  rawed m from to s1 s2 -> rawed m from to s2 s3 -> rawed m from to s1 s3.
Proof.
  intros [A1 A2 A3 A4 A5] [B1 B2 B3 B4 B5]. constructor; intros; auto.
  - by rewrite B1.
  - by rewrite B2.
  - by rewrite B3.
  - rewrite (B4 m' q a); [|by rewrite A1|done]. by apply (A4 m' q).
Qed.

Lemma rawed_weaken m from to from' to' s s' :
  from' <= from -> to <= to' -> rawed m from to s s' -> rawed m from' to' s s'.
Proof.
  intros Hf Ht [A1 A2 A3 A4 A5]. constructor; auto.
  intros m' q a Ha Hq. apply (A4 m' q a Ha). destruct Hq; [by left|right; lia].
Qed.

(** One write of zeros on the clusters of a run. *)
Lemma dev_zero_step m at_ p c n s s' :
  dev_pwrite at_ (repeat 0 (Z.to_nat c)) s = (n, s') -> 0 <= c ->
  (forall q, p <= q < p + c -> phys s m q = Some (at_ + (q - p))) ->
  rawed m p (p + c) s s' /\
  (n = c -> forall q, p <= q < p + c -> zero_or_hole s' m q).
Proof.
  intros E Hc Hph.
  assert (Z.of_nat (length (repeat 0 (Z.to_nat c))) = c) as Hlen by (rewrite repeat_length; lia).
  destruct (dev_pwrite_law _ _ _ _ _ E) as (L1 & L2 & L3 & L4 & L5 & L6). rewrite Hlen in *.
  assert (forall m' q a, phys s m' q = Some a -> m' <> m \/ ~ (p <= q < p + c) ->
            dbyte s' a = dbyte s a) as Hb.
  { intros m' q a Ha Hq. apply (L4 m' q a Ha). intros Hr.
    assert (phys s m (a - at_ + p) = Some a) as Ha'.
    { rewrite Hph by lia. f_equal. lia. }
    destruct (phys_inj _ _ _ _ _ _ Ha Ha') as [-> ->]. destruct Hq; [done|lia]. }
  assert (n = c -> forall q, p <= q < p + c -> zero_or_hole s' m q) as Hz.
  { intros Hn q Hq a Ha. rewrite L1 in Ha. pose proof Ha as Ha'. rewrite Hph in Ha' by done.
    assert (a = at_ + (q - p)) by congruence. apply (L5 Hn m q) in Ha; [|lia]. by apply repeat_zero_lookup in Ha. }
  split; [|done]. constructor; eauto.
Qed.

Lemma rawed_zero m from to s s' q :
  rawed m from to s s' -> (forall q, from <= q < to -> zero_or_hole s' m q) ->
  zero_or_hole s m q -> zero_or_hole s' m q.
Proof.
  intros R Hz Hq. destruct (decide (from <= q < to)) as [Hr|Hr]; [by apply Hz|].
  intros a. rewrite (rw_phys _ _ _ _ _ R). intros Ha.
  rewrite (rw_byte _ _ _ _ _ R m q a Ha) by (by right). by apply Hq.
Qed.

(** The bytes below [log] are at [at_ - log]. *)
Lemma zero_raw_run_spec m at_ log e fuel : forall p s z s',
  zero_raw_run fuel at_ log p e s = (z, s') ->
  e - p <= Z.of_nat fuel * GZ -> log <= p ->
  (forall q, log <= q <= e -> s64 (at_ + (q - log)) = at_ + (q - log)) ->
  (forall q, p <= q < e -> phys s m q = Some (at_ + (q - log))) ->
  rawed m p e s s' /\ (z = 0 \/ z = -1) /\
  (z = 0 -> forall q, p <= q < e -> zero_or_hole s' m q).
Proof.
  induction fuel as [|fuel IH]; intros p s z s' E Hf Hlog Hex Hph; simpl in E.
  { destruct (Z.ltb_spec p e); [lia|]. injection E as <- <-.
    split; [apply rawed_refl|]. split; [by left|]. intros; lia. }
  destruct (Z.ltb_spec p e) as [Hlt|Hge].
  2:{ injection E as <- <-. split; [apply rawed_refl|]. split; [by left|]. intros; lia. }
  destruct (chunk_of_spec GZ p e ltac:(unfold GZ; lia) Hlt) as (Hc & Hce & _).
  set (c := chunk_of GZ p e) in *. rewrite Hex in E by lia.
  destruct (dev_pwrite _ _ s) as [n s1] eqn:Ew.
  destruct (dev_zero_step m _ p c n s s1 Ew ltac:(lia)) as [R1 Z1].
  { intros q Hq. rewrite Hph by lia. f_equal. lia. }
  destruct (Z.eqb_spec n c) as [->|Hne]; simpl in E.
  - destruct (IH _ _ _ _ E) as (R2 & Hr & Z2).
    + unfold GZ in *; lia.
    + lia.
    + done.
    + intros q Hq. rewrite (rw_phys _ _ _ _ _ R1). apply Hph. lia.
    + split; [|split; [done|]].
      * eapply rawed_trans; [apply (rawed_weaken m p (p + c)); [..|done]; lia|].
        apply (rawed_weaken m (p + c) e); [lia..|done].
      * intros Hz q Hq. destruct (Z.lt_ge_cases q (p + c)); [|apply Z2; [done|lia]].
        eapply rawed_zero; [exact R2|by apply Z2|]. apply Z1; [done|lia].
  - injection E as <- <-. split; [apply (rawed_weaken m p (p + c)); [lia..|done]|].
    split; [by right|]. lia.
Qed.

Lemma zero_raw_runs_spec m from to : forall rl v s z s',
  zero_raw_runs (cluster_size vol) rl from to s = (z, s') ->
  vol_ok vol -> Forall (run_ok vol) rl -> contiguous v rl -> 0 <= from ->
  (forall r q, r ∈ rl -> in_run (cluster_size vol) r q = true ->
     phys s m q = run_phys (cluster_size vol) r q) ->
  rawed m from to s s' /\ (z = 0 \/ z = -1) /\
  (z = 0 -> (forall q, zero_or_hole s m q -> zero_or_hole s' m q) /\
     forall r q, r ∈ rl -> in_run (cluster_size vol) r q = true ->
       from <= q < to -> zero_or_hole s' m q).
Proof.
  induction rl as [|r rl IH]; intros v s z s' E Hv Hall Hc Hfrom Hph; simpl in E.
  { injection E as <- <-. split; [apply rawed_refl|]. split; [by left|].
    intros _. split; [done|]. intros r q Hr. by apply not_elem_of_nil in Hr. }
  apply Forall_cons_1 in Hall as [Hr Hall]. destruct Hc as [Hvcn Hc].
  assert (forall q, in_run (cluster_size vol) r q = true -> phys s m q = run_phys (cluster_size vol) r q)
    as Hphr by (intros q; apply Hph; left).
  destruct (Z.ltb_spec (rl_lcn r) 0) as [Hh|Hh].
  - destruct (IH _ _ _ _ E Hv Hall Hc Hfrom) as (R & Hz & Z0).
    { intros r' q Hin. apply Hph. by right. }
    split; [done|]. split; [done|]. intros Hz0. destruct (Z0 Hz0) as [Zk Zr]. split; [done|].
    intros r' q Hin. apply elem_of_cons in Hin as [->|Hin].
    + intros Hq _ a. rewrite (rw_phys _ _ _ _ _ R), Hphr by done. unfold run_phys.
      by rewrite (proj2 (Z.leb_gt _ _) Hh).
    + by apply Zr.
  - destruct (run_ok_exact vol Hv r Hr) as (E1 & E2 & E3 & E4 & E5).
    rewrite E1, E2, E3, E4 in E by done.
    set (log := rl_vcn r * cluster_size vol) in *.
    set (fin := (rl_vcn r + rl_length r) * cluster_size vol) in *.
    set (st := if from <? log then log else from) in *.
    set (e := if fin <? to then fin else to) in *.
    assert (log <= st /\ from <= st) as [Hst1 Hst2] by (unfold st; zcase; lia).
    assert (e <= fin /\ e <= to) as [He1 He2] by (unfold e; zcase; lia).
    destruct (zero_raw_run _ _ log st e s) as [z1 s1] eqn:Er.
    assert (forall q, st <= q < e -> in_run (cluster_size vol) r q = true) as Hin.
    { intros q Hq. apply in_run_true. fold log fin. lia. }
    destruct (zero_raw_run_spec m _ _ _ _ _ _ _ _ Er) as (R1 & Hz1 & Z1).
    + apply chunk_fuel_enough. unfold GZ. lia.
    + done.
    + intros q Hq. apply E5; [done|]. lia.
    + intros q Hq. rewrite Hphr by auto. unfold run_phys. by rewrite (proj2 (Z.leb_le _ _) Hh).
    + assert (rawed m from to s s1) as R1' by (eapply rawed_weaken; [..|done]; lia).
      destruct (Z.eqb_spec z1 0) as [->|Hne]; simpl in E.
      * destruct (IH _ _ _ _ E Hv Hall Hc Hfrom) as (R2 & Hz & Z2).
        { intros r' q Hin' Hq. rewrite (rw_phys _ _ _ _ _ R1). apply Hph; [by right|done]. }
        split; [by eapply rawed_trans|]. split; [done|].
        intros Hz0. destruct (Z2 Hz0) as [Zk Zr].
        split; [intros q Hq; by apply Zk, (rawed_zero m st e s); [..|apply Z1|]|].
        intros r' q Hin' Hq Hft. apply elem_of_cons in Hin' as [->|Hin']; [|by apply (Zr r')].
        apply Zk, Z1; [done|]. apply in_run_true in Hq. fold log fin in Hq.
        revert Hq Hft. unfold st, e. repeat zcase; lia.
      * injection E as <- <-. split; [done|]. split; [done|]. intros ->. done.
Qed.

(** ** The runlist in memory is the map of the file *)

Record mapped (m : Z) (na : attr) (s : S) : Prop := {
  mp_ok : bad_runlist vol (na_rl na) = false;
  mp_first : first_vcn (live_runs (na_rl na)) = 0;
  mp_phys : forall q, rl_phys (cluster_size vol) (na_rl na) q = phys s m q;
}.

Lemma runs_phys_in rl : forall v r q,
  vol_ok vol -> Forall (run_ok vol) rl -> contiguous v rl -> r ∈ rl ->
  in_run (cluster_size vol) r q = true ->
  v * cluster_size vol <= q /\
  runs_phys (cluster_size vol) rl q = run_phys (cluster_size vol) r q.
Proof.
  induction rl as [|r0 rl IH]; intros v r q Hv Hall Hc Hin Hq; [by apply not_elem_of_nil in Hin|].
  apply Forall_cons_1 in Hall as [Hr Hall]. pose proof Hc as [Hvcn Hc'].
  pose proof (ro_len _ _ Hr). assert (0 < cluster_size vol) by (destruct Hv; lia).
  apply elem_of_cons in Hin as [->|Hin].
  - split; [|simpl; by rewrite Hq]. apply in_run_true in Hq. subst v. lia.
  - destruct (IH _ _ _ Hv Hall Hc' Hin Hq) as [Hle He]. split; [nia|].
    rewrite <- He. by apply (runs_phys_tail vol r0 rl v).
Qed.

Lemma runs_phys_Some csize rl q a :
  runs_phys csize rl q = Some a -> exists r, r ∈ rl /\ in_run csize r q = true.
Proof.
  induction rl as [|r rl IH]; simpl; [done|].
  destruct (in_run csize r q) eqn:E; [intros _; exists r; split; [left|done]|].
  intros Hs. destruct (IH Hs) as (r' & ? & ?). exists r'. split; [by right|done].
Qed.

Lemma zero_raw_spec m na from to s z s' :
  zero_raw vol na from to s = (z, s') -> vol_ok vol -> mapped m na s -> 0 <= from ->
  rawed m from to s s' /\ (z = 0 \/ z = -1) /\
  (z = 0 -> (forall q, zero_or_hole s m q -> zero_or_hole s' m q) /\
            forall q, from <= q < to -> zero_or_hole s' m q).
Proof.
  intros E Hv [M1 M2 M3] Hf. destruct (bad_runlist_ok _ _ Hv M1) as [Hall Hc].
  destruct (zero_raw_runs_spec m from to _ _ _ _ _ E Hv Hall Hc Hf) as (R & Hz & Z0).
  { intros r q Hin Hq. rewrite <- M3. by eapply runs_phys_in. }
  split; [done|]. split; [done|]. intros Hz0. destruct (Z0 Hz0) as [Zk Zr]. split; [done|].
  intros q Hq a Ha. pose proof Ha as Ha'. rewrite (rw_phys _ _ _ _ _ R), <- M3 in Ha'.
  destruct (runs_phys_Some _ _ _ _ Ha') as (r & Hin & Hir). by apply (Zr r q).
Qed.

(** ** [stamp_init] *)

(** Only the recorded [initialized_size] of [m] may differ. *)
Record stamped (m : Z) (s s' : S) : Prop := {
  sm_phys : forall m' q, phys s' m' q = phys s m' q;
  sm_byte : forall m' q a, phys s m' q = Some a -> dbyte s' a = dbyte s a;
  sm_size : forall m', f_size s' m' = f_size s m';
  sm_init : forall m', m' <> m -> f_init s' m' = f_init s m';
}.

Lemma same_obs_stamped m s s' : same_obs s s' -> stamped m s s'.
Proof. intros [A1 A2 A3 A4]. constructor; eauto. Qed.

Lemma stamped_trans m s1 s2 s3 : stamped m s1 s2 -> stamped m s2 s3 -> stamped m s1 s3.
Proof.
  intros [A1 A2 A3 A4] [B1 B2 B3 B4]. constructor; intros.
  - by rewrite B1.
  - rewrite (B2 m' q); [by eapply A2|by rewrite A1].
  - by rewrite B3.
  - by rewrite B4, A4.
Qed.

Lemma stamped_keeps m P s s' : stamped m s s' -> keeps P s s'.
Proof. intros [A1 A2 A3 A4] m' q a _ Ha. rewrite A1. eauto. Qed.

Lemma stamped_others m s s' : stamped m s s' -> others_same m s s'.
Proof. intros [A1 A2 A3 A4]. constructor; eauto. Qed.

Lemma stamped_zero m s s' q : stamped m s s' -> zero_or_hole s m q -> zero_or_hole s' m q.
Proof. intros [A1 A2 A3 A4] Hz a. rewrite A1. intros Ha. rewrite (A2 m q a Ha). by apply Hz. Qed.

Lemma stamp_init_spec m na v s z na' s' :
  stamp_init na v s = (z, na', s') -> na_mref na = m ->
  stamped m s s' /\ na_nonresident na' = na_nonresident na /\ na_rl na' = na_rl na /\
  ((z = 0 /\ na' = set_init na v /\ f_init s' m = v) \/
   (z = -1 /\ na' = na /\ f_init s' m = f_init s m)).
Proof.
  unfold stamp_init. intros E Hm.
  pose proof (get_ctx_obs na s) as O1.
  destruct (attr_get_search_ctx na s) as [ok s1]. destruct ok; simpl in *.
  2:{ injection E as <- <- <-. split; [by apply same_obs_stamped|].
      split; [done|]. split; [done|]. right. split_and!; [done..|apply (so_init _ _ O1)]. }
  pose proof (lookup_obs na s1) as O2. destruct (attr_lookup na s1) as [err s2]. simpl in *.
  destruct err.
  { injection E as <- <- <-.
    assert (same_obs s (attr_put_search_ctx na s2)) as O
      by (etransitivity; [exact O1|]; etransitivity; [exact O2|]; apply put_ctx_obs).
    split; [by apply same_obs_stamped|]. split; [done|]. split; [done|].
    right. split_and!; [done..|apply (so_init _ _ O)]. }
  injection E as <- <- <-.
  set (s3 := rec_set_initialized_size na v s2).
  assert (stamped m s2 s3) as Hr.
  { constructor; intros; unfold s3.
    - apply rec_set_phys.
    - by eapply rec_set_byte.
    - apply rec_set_size.
    - rewrite rec_set_init, Hm. by destruct (Z.eqb_spec m' m). }
  assert (same_obs s3 (attr_put_search_ctx na (inode_mark_dirty na s3))) as O4
    by (etransitivity; [apply mark_dirty_obs|apply put_ctx_obs]).
  split; [|split; [done|split; [done|left; split_and!; [done..|]]]].
  - eapply stamped_trans; [apply same_obs_stamped; etransitivity; [exact O1|exact O2]|].
    eapply stamped_trans; [exact Hr|]. by apply same_obs_stamped.
  - rewrite (so_init _ _ O4). unfold s3. by rewrite rec_set_init, Hm, Z.eqb_refl.
Qed.

(** ** Mapping the runlist *)

Lemma frame_same_obs m b s0 k s na :
  frame m b s0 k -> same_obs (k_eng k) s -> opened s m na -> frame m b s0 (mkK s na (k_oi k)).
Proof.
  intros F O Hop. eapply frame_step; simpl; [done|by apply same_obs_keeps|by apply same_obs_others|done].
Qed.

Record remapped (m : Z) (k k' : kst) : Prop := {
  rm_obs : same_obs (k_eng k) (k_eng k');
  rm_open : opened (k_eng k') m (k_na k');
  rm_nonres : na_nonresident (k_na k') = true;
  rm_init : na_initialized_size (k_na k') = na_initialized_size (k_na k);
  rm_size : na_data_size (k_na k') = na_data_size (k_na k);
  rm_oi : k_oi k' = k_oi k;
}.

Lemma map_runlist_spec m k r k' :
  map_runlist vol k = (r, k') -> opened (k_eng k) m (k_na k) -> na_nonresident (k_na k) = true ->
  remapped m k k' /\ (r = inr (-1) \/ (r = inl tt /\ mapped m (k_na k') (k_eng k'))).
Proof.
  unfold map_runlist, call_na, read_na, mbind, K_bind. intros E Hop Hnr.
  destruct (attr_map_whole_runlist _ _) as [[err na] s] eqn:Em.
  destruct (map_law _ _ _ _ _ _ Em Hop Hnr) as (O & Op & Nr & Ni & Hs). simpl in E.
  assert (remapped m k (mkK s na (k_oi k))) as R.
  { constructor; simpl; try done.
    rewrite (opened_size _ _ _ Op), (opened_size _ _ _ Hop). apply (so_size _ _ O). }
  destruct err; simpl in E; [injection E as <- <-; split; [done|by left]|].
  destruct (bad_runlist vol (na_rl na)) eqn:Hb; injection E as <- <-; (split; [done|]); [by left|].
  right. split; [done|]. destruct Hs as [H2 H3]; [done|]. by constructor.
Qed.

(** ** [stage_map] *)

Lemma keeps_everything P s s' : keeps everything s s' -> keeps P s s'.
Proof. by apply keeps_weaken. Qed.

(** What a successful [stage_map] adds to the frame. *)
Record map_done (m : Z) (for_write : bool) (offset length : Z) (k k' : kst) : Prop := {
  md_nonres : na_nonresident (k_na k') = true;
  md_map : mapped m (k_na k') (k_eng k');
  md_window : for_write = true -> offset + length <= na_data_size (k_na k');
  md_size : f_size (k_eng k) m <= f_size (k_eng k') m;
  md_zero : na_nonresident (k_na k) = true -> forall q, q < f_size (k_eng k) m ->
    zero_or_hole (k_eng k) m q -> zero_or_hole (k_eng k') m q;
}.

(** On every outcome. *)
Record calm (m b : Z) (s0 : S) (k k' : kst) : Prop := {
  cm_frame : frame m b s0 k';
  cm_init : na_initialized_size (k_na k') = na_initialized_size (k_na k);
  cm_finit : f_init (k_eng k') m = f_init (k_eng k) m;
  cm_oi : k_oi k' = k_oi k;
}.

Lemma calm_remapped m b s0 k k1 k2 : calm m b s0 k k1 -> remapped m k1 k2 -> calm m b s0 k k2.
Proof.
  intros [C1 C2 C3 C4] [R1 R2 R3 R4 R5 R6]. constructor; [|congruence| |congruence].
  - eapply frame_step; [done|by apply same_obs_keeps|by apply same_obs_others|done].
  - rewrite (so_init _ _ R1). done.
Qed.

(** Making room for the data and the window. *)
Lemma stage_grow_spec m b s0 for_write offset length k r k' :
  stage_grow vol for_write offset length k = (r, k') ->
  frame m b s0 k -> na_nonresident (k_na k) = true ->
  calm m b s0 k k' /\ (r = inr (-1) \/ (r = inl tt /\ map_done m for_write offset length k k')).
Proof.
  unfold stage_grow, read_na, mbind, K_bind. simpl. intros E F Hnr.
  destruct (for_write && (na_data_size (k_na k) <? offset + length)) eqn:Hg.
  - unfold call_na in E. destruct (attr_truncate_solid _ _ _) as [[err na] s] eqn:Et.
    apply andb_true_iff in Hg as [-> Hg]. apply Z.ltb_lt in Hg.
    destruct (solid_law _ _ _ _ _ _ _ Et (fr_open _ _ _ _ F) Hnr Hg)
      as (L1 & L2 & L3 & L4 & L5 & L6 & L7).
    assert (calm m b s0 k (mkK s na (k_oi k))) as C.
    { constructor; simpl; [|done..]. eapply frame_step; simpl; [done|by apply keeps_everything|done..]. }
    destruct err; simpl in E; [injection E as <- <-; split; [done|by left]|].
    destruct (map_runlist_spec m _ _ _ E L3 L4) as [R Hr].
    split; [by eapply calm_remapped|]. destruct Hr as [->|[-> Hm]]; [by left|]. right.
    split; [done|]. destruct L7 as [Hsz Hnew]; [done|]. destruct R as [R1 R2 R3 R4 R5 R6].
    simpl in *. rewrite (opened_size _ _ _ (fr_open _ _ _ _ F)) in Hg.
    constructor; [done|done| | |].
    + intros _. rewrite R5, (opened_size _ _ _ L3), Hsz. lia.
    + rewrite (so_size _ _ R1), Hsz. lia.
    + intros _ q Hq Hz. apply (zero_or_hole_same _ _ _ _ R1).
      intros a Ha. destruct (phys (k_eng k) m q) as [a'|] eqn:Ha'.
      * destruct (L1 m q a' I Ha') as [H2 H3]. rewrite Ha in H2. injection H2 as ->.
        rewrite H3. by apply Hz.
      * assert (f_size (k_eng k) m <= q) by (apply Hnew; [done|congruence]). lia.
  - simpl in E. destruct (map_runlist_spec m _ _ _ E (fr_open _ _ _ _ F) Hnr) as [R Hr].
    split; [by eapply calm_remapped; [by constructor|]|].
    destruct Hr as [->|[-> Hm]]; [by left|]. right. split; [done|].
    destruct R as [R1 R2 R3 R4 R5 R6]. constructor; [done|done| | |].
    + intros ->. simpl in Hg. apply Z.ltb_ge in Hg. lia.
    + rewrite (so_size _ _ R1). lia.
    + intros _ q _. by apply zero_or_hole_same.
Qed.

Lemma calm_trans m b s0 k1 k2 k3 : calm m b s0 k1 k2 -> calm m b s0 k2 k3 -> calm m b s0 k1 k3.
Proof. intros [A1 A2 A3 A4] [B1 B2 B3 B4]. constructor; congruence. Qed.

Lemma stage_map_spec m b s0 for_write offset length k r k' :
  stage_map vol for_write offset length k = (r, k') -> frame m b s0 k ->
  calm m b s0 k k' /\
  (r = inr (-1) \/ r = inr (-2) \/ (r = inl tt /\ map_done m for_write offset length k k')).
Proof.
  unfold stage_map. unfold read_na at 1, mbind at 1, K_bind at 1. intros E F.
  destruct (na_compressed (k_na k) || na_encrypted (k_na k)).
  { injection E as <- <-. split; [by constructor|]. right; by left. }
  destruct (na_nonresident (k_na k)) eqn:Hnr; simpl in E.
  { destruct (stage_grow_spec m b s0 _ _ _ _ _ _ E F Hnr) as [C Hr]. split; [done|]. tauto. }
  destruct (vol_readonly vol).
  { injection E as <- <-. split; [by constructor|]. right; by left. }
  unfold call_na, mbind, K_bind in E.
  destruct (attr_force_non_resident _ _) as [[err na] s] eqn:Ef.
  destruct (force_law _ _ _ _ _ _ Ef (fr_open _ _ _ _ F) Hnr) as (L1 & L2 & L3 & L4 & L5 & L6 & L7).
  assert (calm m b s0 k (mkK s na (k_oi k))) as C.
  { constructor; simpl; [|done..]. eapply frame_step; simpl; [done|by apply keeps_everything|done..]. }
  destruct err; [injection E as <- <-; split; [done|]; right; by left|].
  destruct (stage_grow_spec m b s0 _ _ _ _ _ _ E (cm_frame _ _ _ _ _ C) (L7 eq_refl)) as [C' Hr].
  split; [by eapply calm_trans|]. destruct Hr as [->|[-> D]]; [by left|]. right; right.
  split; [done|]. destruct D as [D1 D2 D3 D4 D5]. constructor; [done..| |].
  - simpl in D4. lia.
  - by rewrite Hnr.
Qed.

(** ** [stage_zero] *)

(** What a successful [stage_zero] leaves: everything between what was handed out
    and the window is zero, and what [ntfs_attr_pwrite] initialised is recorded. *)
Record zero_done (m mark i0 offset : Z) (k k' : kst) : Prop := {
  zo_nonres : na_nonresident (k_na k') = true;
  zo_map : mapped m (k_na k') (k_eng k');
  zo_size : na_data_size (k_na k') = na_data_size (k_na k);
  zo_grow : zgrow m (k_eng k) (k_eng k');
  zo_init : na_initialized_size (k_na k') = if mark <=? i0 then Z.max i0 offset else i0;
  zo_finit : f_init (k_eng k') m = na_initialized_size (k_na k');
  zo_gap : i0 < mark -> forall q, mark <= q < offset -> zero_or_hole (k_eng k') m q;
}.

Lemma frame_oi m b s0 k k' :
  frame m b s0 k -> k_eng k' = k_eng k -> k_na k' = k_na k -> frame m b s0 k'.
Proof. intros [F1 F2 F3] E1 E2. constructor; by rewrite ?E1, ?E2. Qed.

Lemma stage_zero_spec m s0 mark i0 offset k r k' :
  stage_zero vol true mark offset k = (r, k') -> vol_ok vol ->
  frame m (Z.max i0 mark) s0 k -> na_nonresident (k_na k) = true -> mapped m (k_na k) (k_eng k) ->
  na_initialized_size (k_na k) = i0 -> f_init (k_eng k) m = i0 -> 0 <= mark ->
  offset <= na_data_size (k_na k) ->
  frame m (Z.max i0 mark) s0 k' /\ k_oi k' = k_oi k /\
  (r = inr (-1) \/ (r = inl mark /\ zero_done m mark i0 offset k k')).
Proof.
  unfold stage_zero. simpl. unfold read_na at 1, mbind at 1, K_bind at 1.
  intros E Hv F Hnr Hm Hi Hfi Hmk Hsz. rewrite Hi in E.
  destruct (Z.leb_spec mark i0) as [Hle|Hgt].
  - unfold mbind at 1, K_bind at 1 in E.
    destruct (zero_loop _ GZ false i0 offset k) as [r1 k1] eqn:Ez.
    destruct (zero_loop_spec m (Z.max i0 mark) s0 GZ false offset _ _ _ _ _ Ez)
      as (F1 & Nr1 & Oi1 & Sz1 & Hr1); [unfold GZ; lia|lia|done| |done|done| |].
    { apply chunk_fuel_enough. unfold GZ. lia. }
    { unfold pwrite_lo. rewrite Hi. intros q Hq Hqb. lia. }
    destruct Hr1 as [->|[-> D]].
    { injection E as <- <-. split; [done|]. split; [done|]. by left. }
    unfold mbind, K_bind in E. destruct (map_runlist vol k1) as [r2 k2] eqn:Em.
    destruct (map_runlist_spec m _ _ _ Em (fr_open _ _ _ _ F1) Nr1) as [R Hr2].
    destruct R as [R1 R2 R3 R4 R5 R6].
    assert (frame m (Z.max i0 mark) s0 k2) as F2.
    { eapply frame_step; [done|by apply same_obs_keeps|by apply same_obs_others|done]. }
    destruct Hr2 as [->|[-> Hm2]]; injection E as <- <-; (split; [done|]); (split; [congruence|]);
      [by left|]. right. split; [done|].
    assert (na_initialized_size (k_na k2) = Z.max i0 offset /\
            f_init (k_eng k2) m = Z.max i0 offset) as [N2 N3].
    { rewrite R4, (so_init _ _ R1). destruct (Z.lt_ge_cases i0 offset).
      - rewrite (zd_init _ _ _ _ _ D), (zd_finit _ _ _ _ _ D), Hi by done. zcase; lia.
      - rewrite (zd_none _ _ _ _ _ D) by done. lia. }
    constructor; [done|done|congruence| | |congruence|lia].
    + etransitivity; [by apply D|by apply same_obs_zgrow].
    + rewrite N2. zcase; lia.
  - destruct (Z.ltb_spec mark offset) as [Hlt|Hge].
    + destruct (zero_raw vol (k_na k) mark offset (k_eng k)) as [z s] eqn:Ez.
      destruct (zero_raw_spec m _ _ _ _ _ _ Ez Hv Hm) as (R & Hz & Zs); [lia|].
      pose proof R as [R1 R2 R3 R4 R5].
      assert (frame m (Z.max i0 mark) s0 (mkK s (k_na k) (k_oi k))) as F1.
      { eapply frame_step; simpl; [done| | |by apply R5, F].
        - intros m' q a HP Ha. rewrite R1. split; [done|].
          apply (R4 m' q a Ha). destruct HP as [?|?]; [by left|]. right. lia.
        - constructor; intros; auto. apply (R4 m' p a); [done|by left]. }
      destruct Hz as [->| ->]; simpl in E; injection E as <- <-; (split; [done|]);
        (split; [done|]); [|by left].
      right. split; [done|]. destruct (Zs eq_refl) as [Zk Zn].
      constructor; simpl; [done| |done| |zcase; lia|by rewrite R2, Hi|done].
      * destruct Hm as [M1 M2 M3]. constructor; [done..|]. intros q. by rewrite R1.
      * constructor; [|done|done]. intros q a. by rewrite R1.
    + injection E as <- <-. split; [done|]. split; [done|]. right. split; [done|].
      constructor; [done..| |congruence|lia]. zcase; lia.
Qed.

(** ** Holes in the window *)

Lemma find_hole_Some csize offset length rl st e :
  find_hole csize offset length rl = Some (st, e) ->
  exists r, r ∈ rl /\ rl_lcn r = LCN_HOLE /\ st < e /\
    let log := s64 (rl_vcn r * csize) in
    let fin := s64 (log + s64 (rl_length r * csize)) in
    st = Z.max log offset /\ e = Z.min fin (offset + length).
Proof.
  induction rl as [|r rl IH]; simpl; [done|].
  destruct (Z.eqb_spec (rl_lcn r) LCN_HOLE) as [He|He]; simpl.
  - set (st0 := if offset <? _ then _ else _). set (e0 := if _ <? offset + length then _ else _).
    destruct (Z.ltb_spec st0 e0) as [Hlt|Hge].
    + intros [= <- <-]. exists r. split; [left|]. split; [done|]. split; [done|].
      unfold st0, e0. repeat zcase; lia.
    + intros Hs. destruct (IH Hs) as (r' & ? & ?). exists r'. split; [by right|done].
  - intros Hs. destruct (IH Hs) as (r' & ? & ?). exists r'. split; [by right|done].
Qed.

Lemma find_hole_None csize offset length rl r :
  find_hole csize offset length rl = None -> r ∈ rl -> rl_lcn r = LCN_HOLE ->
  let log := s64 (rl_vcn r * csize) in
  let fin := s64 (log + s64 (rl_length r * csize)) in
  Z.min fin (offset + length) <= Z.max log offset.
Proof.
  induction rl as [|r0 rl IH]; simpl; [intros _ ?%not_elem_of_nil; done|].
  intros Hn Hin Hh. apply elem_of_cons in Hin as [->|Hin].
  - rewrite Hh in Hn. simpl in Hn. revert Hn.
    set (st0 := if offset <? _ then _ else _). set (e0 := if _ <? offset + length then _ else _).
    destruct (Z.ltb_spec st0 e0) as [|Hge]; [done|]. intros _. revert Hge.
    unfold st0, e0. repeat zcase; lia.
  - apply IH; [|done..]. revert Hn. destruct (negb _); [done|]. cbv zeta. repeat zcase; done.
Qed.

Lemma mapped_ok m na s r :
  vol_ok vol -> mapped m na s -> r ∈ live_runs (na_rl na) ->
  run_ok vol r /\
  forall q, in_run (cluster_size vol) r q = true -> phys s m q = run_phys (cluster_size vol) r q.
Proof.
  intros Hv [M1 M2 M3] Hin. destruct (bad_runlist_ok _ _ Hv M1) as [Hall Hc]. split.
  - rewrite Forall_forall in Hall. by apply Hall.
  - intros q Hq. rewrite <- M3. by eapply runs_phys_in.
Qed.

Lemma find_hole_spec m k offset length st e :
  vol_ok vol -> mapped m (k_na k) (k_eng k) ->
  find_hole (cluster_size vol) offset length (live_runs (na_rl (k_na k))) = Some (st, e) ->
  offset <= st < e /\ e <= offset + length /\ forall q, st <= q < e -> phys (k_eng k) m q = None.
Proof.
  intros Hv Hm Hs.
  destruct (find_hole_Some _ _ _ _ _ _ Hs) as (r & Hin & Hh & Hlt & Hst & He).
  destruct (mapped_ok _ _ _ _ Hv Hm Hin) as [Hr Hp].
  destruct (run_ok_exact vol Hv r Hr) as (E1 & E2 & E3 & _). rewrite E1, E2, E3 in *.
  split; [lia|]. split; [lia|]. intros q Hq.
  rewrite Hp by (apply in_run_true; lia). unfold run_phys. by rewrite Hh.
Qed.

(** With no hole left every byte of the window inside the runlist has a place. *)
Lemma no_hole_phys m na s offset length r q :
  vol_ok vol -> mapped m na s ->
  find_hole (cluster_size vol) offset length (live_runs (na_rl na)) = None ->
  r ∈ live_runs (na_rl na) -> in_run (cluster_size vol) r q = true ->
  offset <= q < offset + length -> rl_lcn r <> LCN_HOLE.
Proof.
  intros Hv Hm Hn Hin Hq Hw Hh. destruct (mapped_ok _ _ _ _ Hv Hm Hin) as [Hr _].
  destruct (run_ok_exact vol Hv r Hr) as (E1 & E2 & E3 & _).
  pose proof (find_hole_None _ _ _ _ _ Hn Hin Hh) as Hle. simpl in Hle. rewrite E1, E2, E3 in Hle.
  apply in_run_true in Hq. lia.
Qed.

(** The bytes of the window that are in holes: what [hole_loop] uses up. *)
Definition holes (s : S) (m offset length : Z) : list Z :=
  filter (fun q => phys s m q = None) (seqZ offset length).

Lemma elem_of_holes s m offset length q :
  q ∈ holes s m offset length <-> phys s m q = None /\ offset <= q < offset + length.
Proof. unfold holes. by rewrite list_elem_of_filter, elem_of_seqZ. Qed.

Lemma holes_lt s s' m offset length q0 :
  (forall q a, phys s m q = Some a -> phys s' m q = Some a) ->
  offset <= q0 < offset + length -> phys s m q0 = None -> phys s' m q0 <> None ->
  (List.length (holes s' m offset length) < List.length (holes s m offset length))%nat.
Proof.
  intros Hmono Hq Hn Hs.
  assert (q0 :: holes s' m offset length ⊆+ holes s m offset length) as Hsub.
  { apply NoDup_submseteq.
    - apply NoDup_cons. split; [by rewrite elem_of_holes; intros [? _]|].
      apply NoDup_filter, NoDup_seqZ.
    - intros q. rewrite elem_of_cons, !elem_of_holes. intros [->|[Hq1 Hq2]]; [done|].
      split; [|done]. destruct (phys s m q) as [a|] eqn:Ha; [|done].
      by rewrite (Hmono _ _ Ha) in Hq1. }
  apply submseteq_length in Hsub. simpl in Hsub. lia.
Qed.

Lemma holes_window s m offset length :
  (List.length (holes s m offset length) <= Z.to_nat length)%nat.
Proof.
  etransitivity; [apply length_filter|]. by rewrite length_seqZ.
Qed.

(** The state of [hole_loop]: [oi] is what [initialized_size] was at its start. *)
Record filling (m oi : Z) (k : kst) : Prop := {
  fl_nonres : na_nonresident (k_na k) = true;
  fl_map : mapped m (k_na k) (k_eng k);
  fl_init : oi <= na_initialized_size (k_na k);
  fl_finit : na_initialized_size (k_na k) = oi -> f_init (k_eng k) m = oi;
}.

(** The optional store of [hwm] into [na->initialized_size]. *)
Lemma set_init_step m k (up : bool) mark :
  opened (k_eng k) m (k_na k) -> na_nonresident (k_na k) = true ->
  exists na1, (if up then set_na_init mark else mret tt) k = (inl tt, mkK (k_eng k) na1 (k_oi k)) /\
    na_initialized_size na1 = (if up then mark else na_initialized_size (k_na k)) /\
    na_nonresident na1 = true /\ na_data_size na1 = na_data_size (k_na k) /\
    opened (k_eng k) m na1.
Proof.
  intros Hop Hnr. destruct up; [exists (set_init (k_na k) mark)|exists (k_na k)];
    split_and!; try done.
  - by apply opened_set_init.
  - by destruct k.
Qed.

Lemma fill_hole_spec m s0 i0 mark st e oi k r k' :
  fill_hole vol mark st e k = (r, k') ->
  0 <= st < e -> i0 <= oi -> frame m (Z.max i0 mark) s0 k -> filling m oi k ->
  e <= na_data_size (k_na k) -> (forall q, st <= q < e -> phys (k_eng k) m q = None) ->
  frame m (Z.max i0 mark) s0 k' /\ k_oi k' = k_oi k /\
  (r = inr (-1) \/
   (r = inl tt /\ filling m oi k' /\ zgrow m (k_eng k) (k_eng k') /\
    na_data_size (k_na k') = na_data_size (k_na k) /\ phys (k_eng k') m st <> None)).
Proof.
  intros E Hst Hoi F L He Hhole. pose proof (fl_init _ _ _ L) as Hinit.
  unfold fill_hole, read_na, mbind, K_bind in E.
  set (up := (na_initialized_size (k_na k) <? mark) && (na_initialized_size (k_na k) <? st)) in *.
  destruct (set_init_step m k up mark (fr_open _ _ _ _ F) (fl_nonres _ _ _ L))
    as (na1 & Ek1 & Ni1 & Nr1 & Sz1 & Op1).
  rewrite Ek1 in E. set (k1 := mkK (k_eng k) na1 (k_oi k)) in *.
  assert (frame m (Z.max i0 mark) s0 k1) as F1 by (destruct F; by constructor).
  destruct (zero_loop _ GZ true st e k1) as [r2 k2] eqn:Ez.
  destruct (zero_loop_spec m (Z.max i0 mark) s0 GZ true e _ _ _ _ _ Ez)
    as (F2 & Nr2 & Oi2 & Sz2 & Hr2); [unfold GZ; lia|lia|simpl; lia| |done|done| |].
  { apply chunk_fuel_enough. unfold GZ. lia. }
  { intros q Hq Hqb. unfold pwrite_lo in Hq. simpl in Hq. rewrite Ni1 in Hq.
    assert (phys (k_eng k) m q = None) as Hqn.
    { apply Hhole. split; [|lia]. unfold up in Hq. revert Hq. repeat zcase; simpl; lia. }
    destruct (phys s0 m q) as [a|] eqn:Ha; [|done].
    destruct (fr_keep _ _ _ _ F m q a) as [Ha' _]; [by right|done|congruence]. }
  simpl in Oi2, Sz2. destruct Hr2 as [->|[-> D]].
  { injection E as <- <-. split; [done|]. split; [done|]. by left. }
  destruct (map_runlist_spec m _ _ _ E (fr_open _ _ _ _ F2) Nr2) as [[R1 R2 R3 R4 R5 R6] Hr3].
  split; [|split; [congruence|]].
  { eapply frame_step; [done|by apply same_obs_keeps|by apply same_obs_others|done]. }
  destruct Hr3 as [->|[-> Hm3]]; [by left|]. right. split; [done|].
  assert (na_initialized_size (k_na k') = Z.max (na_initialized_size na1) e) as Ni3.
  { rewrite R4, (zd_init _ _ _ _ _ D) by lia. done. }
  split; [constructor; [done|done| |]|].
  - rewrite Ni3, Ni1. destruct up eqn:Hup; [|lia]. unfold up in Hup. zb. lia.
  - rewrite Ni3, Ni1. intros Hmax. rewrite (so_init _ _ R1), (zd_finit _ _ _ _ _ D) by lia.
    simpl. rewrite Ni1. destruct up eqn:Hup; [unfold up in Hup; zb; lia|].
    zcase; [lia|]. apply (fl_finit _ _ _ L). lia.
  - split; [etransitivity; [apply (zd_grow _ _ _ _ _ D)|by apply same_obs_zgrow]|].
    split; [congruence|]. rewrite (so_phys _ _ R1). apply (zd_mapped _ _ _ _ _ D). lia.
Qed.

Lemma hole_loop_spec m s0 i0 mark offset length oi : forall fuel k r k',
  hole_loop fuel vol mark offset length k = (r, k') ->
  vol_ok vol -> 0 <= offset -> i0 <= oi -> frame m (Z.max i0 mark) s0 k -> filling m oi k ->
  offset + length <= na_data_size (k_na k) ->
  (List.length (holes (k_eng k) m offset length) <= fuel)%nat ->
  frame m (Z.max i0 mark) s0 k' /\ k_oi k' = k_oi k /\
  (r = inr (-1) \/
   (r = inl tt /\ filling m oi k' /\ zgrow m (k_eng k) (k_eng k') /\
    find_hole (cluster_size vol) offset length (live_runs (na_rl (k_na k'))) = None)).
Proof.
  induction fuel as [|fuel IH]; intros k r k' E Hv Ho Hoi F L Hsz Hfuel; cbn [hole_loop] in E;
    destruct (find_hole _ _ _ _) as [[st e]|] eqn:Hfh.
  2,4: injection E as <- <-; split; [done|]; split; [done|]; right; split_and!; done.
  { destruct (find_hole_spec _ _ _ _ _ _ Hv (fl_map _ _ _ L) Hfh) as (H2 & H3 & H4).
    assert (st ∈ holes (k_eng k) m offset length) as Hin.
    { apply elem_of_holes. split; [apply H4|]; lia. }
    destruct (holes _ _ _ _); [by apply not_elem_of_nil in Hin|simpl in Hfuel; lia]. }
  destruct (find_hole_spec _ _ _ _ _ _ Hv (fl_map _ _ _ L) Hfh) as (Hst & He & Hhole).
  unfold mbind, K_bind in E. destruct (fill_hole vol mark st e k) as [r1 k1] eqn:Ef.
  destruct (fill_hole_spec m s0 i0 mark st e oi _ _ _ Ef) as (F1 & Oi1 & Hr1);
    [lia|done|done|done|lia|done|].
  destruct Hr1 as [->|(-> & L1 & G1 & Sz1 & Hm1)].
  { injection E as <- <-. split; [done|]. split; [done|]. by left. }
  destruct (IH k1 r k' E Hv Ho Hoi F1 L1) as (F' & Oi' & Hr').
  - lia.
  - enough (List.length (holes (k_eng k1) m offset length)
            < List.length (holes (k_eng k) m offset length))%nat by lia.
    apply (holes_lt _ _ _ _ _ st); [apply G1|lia|apply Hhole; lia|done].
  - split; [done|]. split; [congruence|]. destruct Hr' as [->|(-> & L' & G' & N')]; [by left|].
    right. split_and!; [done..| |done]. by transitivity (k_eng k1).
Qed.

(** ** [stage_holes] *)

Record quiet (m b : Z) (s0 s : S) : Prop := {
  qt_keep : keeps (protected m b) s0 s;
  qt_others : others_same m s0 s;
}.

Lemma frame_quiet m b s0 k : frame m b s0 k -> quiet m b s0 (k_eng k).
Proof. by intros [F1 F2 _]. Qed.

Lemma quiet_trans m b s0 s1 s2 : quiet m b s0 s1 -> quiet m b s1 s2 -> quiet m b s0 s2.
Proof.
  intros [A1 A2] [B1 B2]. split; [by eapply keeps_trans|by eapply others_same_trans].
Qed.

Lemma stamped_quiet m b s s' : stamped m s s' -> quiet m b s s'.
Proof. split; [by eapply stamped_keeps|by apply stamped_others]. Qed.

Lemma same_obs_quiet m b s s' : same_obs s s' -> quiet m b s s'.
Proof. split; [by apply same_obs_keeps|by apply same_obs_others]. Qed.

(** What a successful [stage_holes] leaves for a write: no hole in the window, and
    the recorded [initialized_size] back where it was. *)
Record holes_done (m offset length : Z) (k k' : kst) : Prop := {
  hd_map : mapped m (k_na k') (k_eng k');
  hd_grow : zgrow m (k_eng k) (k_eng k');
  hd_init : na_initialized_size (k_na k') = na_initialized_size (k_na k);
  hd_finit : f_init (k_eng k') m = na_initialized_size (k_na k);
  hd_oi : k_oi k' = na_initialized_size (k_na k);
  hd_none : find_hole (cluster_size vol) offset length (live_runs (na_rl (k_na k'))) = None;
}.

Lemma stage_holes_spec m s0 i0 mark offset length k r k' :
  stage_holes vol true mark offset length k = (r, k') ->
  vol_ok vol -> 0 <= offset -> 0 < length -> i0 <= na_initialized_size (k_na k) ->
  frame m (Z.max i0 mark) s0 k -> na_nonresident (k_na k) = true ->
  mapped m (k_na k) (k_eng k) -> f_init (k_eng k) m = na_initialized_size (k_na k) ->
  offset + length <= na_data_size (k_na k) ->
  quiet m (Z.max i0 mark) s0 (k_eng k') /\ na_mref (k_na k') = m /\
  (r = inr (-1) \/ (r = inl tt /\ holes_done m offset length k k')).
Proof.
  intros E Hv Ho Hl Hi F Hnr Hm Hfi Hsz.
  unfold stage_holes, read_na, set_oi, stamp_na, mbind, K_bind in E.
  cbn [negb k_eng k_na k_oi] in E.
  set (oi := na_initialized_size (k_na k)) in *.
  destruct (hole_loop _ vol mark offset length (mkK (k_eng k) (k_na k) oi)) as [r1 k1] eqn:Eh.
  destruct (hole_loop_spec m s0 i0 mark offset length oi _ _ _ _ Eh) as (F1 & Oi1 & Hr1);
    [done..|by eapply frame_oi|by constructor|done| |].
  { pose proof (holes_window (k_eng k) m offset length). simpl. lia. }
  assert (na_mref (k_na k1) = m) as Hmr by (eapply opened_mref, F1).
  destruct Hr1 as [->|(-> & L1 & G1 & N1)].
  { injection E as <- <-. split; [by apply frame_quiet|]. split; [done|by left]. }
  destruct (Z.ltb_spec oi (na_initialized_size (k_na k1))) as [Hlt|Hge].
  - destruct (stamp_init (k_na k1) oi (k_eng k1)) as [[z na2] s2] eqn:Es.
    destruct (stamp_init_spec m _ _ _ _ _ _ Es Hmr) as (Hst & Hnr2 & Hrl2 & Hz).
    assert (quiet m (Z.max i0 mark) s0 s2) as Q2
      by (eapply quiet_trans; [by apply frame_quiet|by apply stamped_quiet]).
    destruct Hz as [(-> & -> & Hf2)|(-> & -> & Hf2)]; simpl in E; injection E as <- <-;
      (split; [done|]); (split; [done|]); [|by left].
    right. split; [done|]. destruct Hst as [A1 A2 A3 A4].
    constructor; simpl; [|etransitivity; [exact G1|]|done..].
    + destruct (fl_map _ _ _ L1) as [M1 M2 M3]. constructor; [done..|]. intros q. by rewrite A1.
    + constructor; [|by intros q; apply (stamped_zero m (k_eng k1))|done]. intros q a. by rewrite A1.
  - injection E as <- <-. split; [by apply frame_quiet|]. split; [done|]. right. split; [done|].
    pose proof (fl_init _ _ _ L1) as Hge'.
    assert (na_initialized_size (k_na k1) = oi) as Heq by lia.
    constructor; [by apply L1|done|done|by apply (fl_finit _ _ _ L1)|done|done].
Qed.

(** ** [stage_init_end] *)

Lemma round_up_spec x bs :
  0 <= x -> 0 < bs ->
  let y := ((x + bs - 1) ÷ bs) * bs in x <= y < x + bs /\ (bs | y).
Proof.
  intros Hx Hb. cbv zeta. rewrite Z.quot_div_nonneg by lia.
  pose proof (Z.div_mod (x + bs - 1) bs). pose proof (Z.mod_pos_bound (x + bs - 1) bs).
  split; [lia|]. exists ((x + bs - 1) / bs). done.
Qed.

(** No block boundary lies strictly inside a block. *)
Lemma round_up_block i0 bs x :
  0 <= i0 -> 0 < bs -> i0 mod bs <> 0 -> i0 <= x <= i0 + (bs - i0 mod bs) ->
  ((x + bs - 1) ÷ bs) * bs = i0 + (bs - i0 mod bs).
Proof.
  intros Hi Hb Hr Hx. destruct (round_up_spec x bs ltac:(lia) Hb) as [Hy [d Hd]].
  pose proof (Z.mod_pos_bound i0 bs Hb). pose proof (Z.div_mod i0 bs ltac:(lia)) as Hdm.
  rewrite Hd in *. assert (d = i0 / bs + 1) as -> by nia. lia.
Qed.

(** The bytes a read map announces as data with nobody having written or zeroed
    them: [initialized_size] is below the mark, and both are in the block of [q]. *)
Definition unpadded (i0 mark bs q : Z) : Prop :=
  i0 < mark <= q /\ q / bs = i0 / bs /\ ~ (bs | mark).

Lemma unpadded_intro i0 mark bs q :
  0 <= i0 -> 0 < bs -> i0 < mark <= q -> q < (i0 / bs + 1) * bs -> unpadded i0 mark bs q.
Proof.
  intros Hi Hb Hm Hq. pose proof (Z.div_mod i0 bs ltac:(lia)). pose proof (Z.mod_pos_bound i0 bs Hb).
  split; [done|]. split.
  - symmetry. apply (Z.div_unique q bs (i0 / bs) (q - bs * (i0 / bs))); lia.
  - intros [c ->]. assert (c < i0 / bs + 1) by (apply (Z.mul_lt_mono_pos_r bs); lia).
    assert (c * bs <= i0 / bs * bs) by (apply Z.mul_le_mono_nonneg_r; lia). lia.
Qed.

(** The boundary of a read map is a block boundary past the initialised data, and
    what lies below it is data, handed out for write, zero on the clusters, or in
    the block where the mark ends. *)
Record init_end_done (m mark i0 bs : Z) (k k' : kst) (ie : Z) : Prop := {
  id_map : mapped m (k_na k') (k_eng k');
  id_grow : zgrow m (k_eng k) (k_eng k');
  id_finit : f_init (k_eng k') m = i0 \/ mark <= i0 <= f_init (k_eng k') m;
  id_mult : (bs | ie);
  id_ge : i0 <= ie;
  id_safe : forall q, i0 <= q < ie -> q < f_size (k_eng k') m ->
    q < mark \/ zero_or_hole (k_eng k') m q \/ unpadded i0 mark bs q;
}.

Lemma stage_init_end_spec m s0 i0 mark bs k r k' :
  stage_init_end vol false mark bs k = (r, k') ->
  0 < bs -> frame m (Z.max i0 mark) s0 k -> na_nonresident (k_na k) = true ->
  mapped m (k_na k) (k_eng k) -> na_initialized_size (k_na k) = i0 -> f_init (k_eng k) m = i0 ->
  frame m (Z.max i0 mark) s0 k' /\ k_oi k' = k_oi k /\
  (r = inr (-1) \/ r = inr (-2) \/ exists ie, r = inl ie /\ init_end_done m mark i0 bs k k' ie).
Proof.
  intros E Hb F Hnr Hm Hi Hfi.
  unfold stage_init_end, read_na, goto_out, mbind, K_bind, mret, K_ret in E. rewrite Hi in E.
  pose proof (opened_size _ _ _ (fr_open _ _ _ _ F)) as Hds.
  destruct (Z.ltb_spec i0 0); [injection E as <- <-; split_and!; auto|].
  destruct (Z.eqb_spec (Z.rem i0 bs) 0) as [Hr0|Hr0].
  { injection E as <- <-. split_and!; [done..|]. right; right. exists i0. split; [done|].
    constructor; [done|reflexivity|by left| |lia|lia].
    apply Z.mod_divide; [lia|]. by rewrite <- Z.rem_mod_nonneg by lia. }
  rewrite Z.rem_mod_nonneg in * by lia. pose proof (Z.mod_pos_bound i0 bs Hb) as Hmod.
  set (zend0 := i0 + (bs - i0 mod bs)) in *.
  assert (bs | zend0) as Hz0.
  { exists (i0 / bs + 1). unfold zend0. pose proof (Z.div_mod i0 bs). lia. }
  set (zend := if na_data_size (k_na k) <? zend0 then na_data_size (k_na k) else zend0) in *.
  assert (zend <= zend0 /\ zend <= na_data_size (k_na k) /\
          (zend < zend0 -> zend = na_data_size (k_na k))) as (Hz1 & Hz2 & Hz3)
    by (unfold zend; zcase; lia).
  destruct ((i0 <? zend) && vol_readonly vol); [injection E as <- <-; split_and!; auto|].
  destruct ((i0 <? zend) && (mark <=? i0)) eqn:Hcond.
  - apply andb_true_iff in Hcond as [Hc1 Hc2]. zb.
    destruct (zero_loop _ ZPAD false i0 zend k) as [r1 k1] eqn:Ez.
    destruct (zero_loop_spec m (Z.max i0 mark) s0 ZPAD false zend _ _ _ _ _ Ez)
      as (F1 & Nr1 & Oi1 & Sz1 & Hr1); [unfold ZPAD; lia|done|done| |done|done| |].
    { apply chunk_fuel_enough. unfold ZPAD. lia. }
    { unfold pwrite_lo. rewrite Hi. intros q Hq Hqb. lia. }
    destruct Hr1 as [->|[-> D]]; [injection E as <- <-; split_and!; auto|].
    destruct (map_runlist vol k1) as [r2 k2] eqn:Em.
    destruct (map_runlist_spec m _ _ _ Em (fr_open _ _ _ _ F1) Nr1) as [[R1 R2 R3 R4 R5 R6] Hr2].
    assert (frame m (Z.max i0 mark) s0 k2) as F2.
    { eapply frame_step; [done|by apply same_obs_keeps|by apply same_obs_others|done]. }
    destruct Hr2 as [->|[-> Hm2]]; injection E as <- <-; (split; [done|]); (split; [congruence|]);
      [by left|]. right; right. eexists. split; [reflexivity|].
    rewrite R4, (zd_init _ _ _ _ _ D), Hi by done.
    replace (Z.max i0 zend) with zend by lia.
    rewrite (round_up_block i0 bs zend) by first [done | unfold zend0 in *; lia]. fold zend0.
    constructor; [done| | |done|lia|].
    + etransitivity; [apply (zd_grow _ _ _ _ _ D)|by apply same_obs_zgrow].
    + right. rewrite (so_init _ _ R1), (zd_finit _ _ _ _ _ D), Hi by done. zcase; lia.
    + intros q Hq Hqs. right; left. rewrite (so_size _ _ R1) in Hqs.
      rewrite <- (opened_size _ _ _ (fr_open _ _ _ _ F1)) in Hqs.
      apply (zero_or_hole_same _ _ _ _ R1), (zd_zero _ _ _ _ _ D); [done|].
      unfold pwrite_lo. lia.
  - injection E as <- <-. split; [done|]. split; [done|]. right; right.
    eexists. split; [reflexivity|].
    rewrite (round_up_block i0 bs i0) by first [done | lia]. fold zend0.
    constructor; [done|reflexivity|by left|done|lia|].
    intros q Hq Hqs. rewrite <- Hds in Hqs.
    apply andb_false_iff in Hcond. zb. destruct Hcond as [Hc1|Hc1]; zb; [lia|].
    destruct (Z.lt_ge_cases q mark) as [?|?]; [by left|]. right; right.
    apply unpadded_intro; [done|done|lia|].
    pose proof (Z.div_mod i0 bs). unfold zend0 in *. lia.
Qed.

(** ** From the opened attribute to [out] *)

(** A mapping for write that reached the extents. *)
Record write_done (m mark i0 offset length : Z) (s : S) (nonres : bool) (k : kst) : Prop := {
  wd_map : mapped m (k_na k) (k_eng k);
  wd_none : find_hole (cluster_size vol) offset length (live_runs (na_rl (k_na k))) = None;
  wd_window : offset + length <= f_size (k_eng k) m;
  wd_size : f_size s m <= f_size (k_eng k) m;
  wd_init : na_initialized_size (k_na k) = if mark <=? i0 then Z.max i0 offset else i0;
  wd_finit : f_init (k_eng k) m = na_initialized_size (k_na k);
  wd_oi : k_oi k = na_initialized_size (k_na k);
  wd_zero : nonres = true -> forall q, q < f_size s m ->
    zero_or_hole s m q -> zero_or_hole (k_eng k) m q;
  wd_gap : i0 < mark -> forall q, mark <= q < offset -> zero_or_hole (k_eng k) m q;
}.

(** A mapping for read that reached the extents. *)
Record read_done (m mark i0 bs : Z) (s : S) (nonres : bool) (k : kst) (ie : Z) : Prop := {
  rd_map : mapped m (k_na k) (k_eng k);
  rd_size : f_size s m <= f_size (k_eng k) m;
  rd_oi : k_oi k = -1;
  rd_finit : f_init (k_eng k) m = i0 \/ mark <= i0 <= f_init (k_eng k) m;
  rd_zero : nonres = true -> forall q, q < f_size s m ->
    zero_or_hole s m q -> zero_or_hole (k_eng k) m q;
  rd_ge : i0 <= ie;
  rd_mult : (bs | ie);
  rd_safe : forall q, i0 <= q < ie -> q < f_size (k_eng k) m ->
    q < mark \/ zero_or_hole (k_eng k) m q \/ unpadded i0 mark bs q;
}.

Lemma blockmap_body_write m s na mark offset length bs r k' :
  blockmap_body vol true mark offset length bs (mkK s na (-1)) = (r, k') ->
  vol_ok vol -> 0 <= offset -> 0 < length -> 0 <= mark ->
  opened s m na -> na_initialized_size na = f_init s m ->
  quiet m (Z.max (f_init s m) mark) s (k_eng k') /\ na_mref (k_na k') = m /\
  (r = inr (-1) \/ r = inr (-2) \/
   (r = inl (mark, INT64_MAX) /\
    write_done m mark (f_init s m) offset length s (na_nonresident na) k')).
Proof.
  intros E Hv Ho Hl Hmk Hop Hi. unfold blockmap_body in E.
  set (i0 := f_init s m) in *. set (k0 := mkK s na (-1)) in *.
  assert (frame m (Z.max i0 mark) s k0) as F0
    by (constructor; [apply keeps_refl|apply others_same_refl|done]).
  unfold mbind at 1, K_bind at 1 in E.
  destruct (stage_map vol true offset length k0) as [r1 k1] eqn:E1.
  destruct (stage_map_spec m _ _ _ _ _ _ _ _ E1 F0) as [[F1 N1 I1 O1] Hr1]. unfold k0 in N1, I1, O1, Hr1. simpl in N1, I1, O1.
  assert (na_mref (k_na k1) = m) as Mr1 by (eapply opened_mref, F1).
  destruct Hr1 as [->|[->|[-> D1]]];
    [injection E as <- <-; split; [by apply frame_quiet|split; [done|tauto]]..|].
  destruct D1 as [Nr1 M1 W1 Sz1 Z1]. simpl in Sz1, Z1. specialize (W1 eq_refl).
  unfold mbind at 1, K_bind at 1 in E.
  destruct (stage_zero vol true mark offset k1) as [r2 k2] eqn:E2.
  destruct (stage_zero_spec m s mark i0 offset _ _ _ E2 Hv F1 Nr1 M1) as (F2 & O2 & Hr2);
    [by rewrite N1|by rewrite I1|done|lia|].
  destruct Hr2 as [->|[-> [Nr2 M2 Sz2 G2 I2 Fi2 Gap2]]];
    [injection E as <- <-; split; [by apply frame_quiet|split; [by eapply opened_mref, F2|tauto]]|].
  unfold mbind at 1, K_bind at 1 in E.
  destruct (stage_holes vol true mark offset length k2) as [r3 k3] eqn:E3.
  destruct (stage_holes_spec m s i0 mark offset length _ _ _ E3 Hv Ho Hl) as (Q3 & Mr3 & Hr3);
    [rewrite I2; zcase; lia|done..|lia|].
  destruct Hr3 as [->|[-> [M3 G3 I3 Fi3 Oi3 N3]]]; [injection E as <- <-; tauto|].
  unfold stage_init_end in E. injection E as <- <-.
  split; [done|]. split; [done|]. right; right. split; [done|].
  pose proof (opened_size _ _ _ (fr_open _ _ _ _ F2)) as Sz2'.
  constructor; [done|done| | |congruence|congruence|congruence| |].
  - rewrite (zg_size _ _ _ G3). lia.
  - rewrite (zg_size _ _ _ G3), (zg_size _ _ _ G2). done.
  - intros Hn q Hq Hz. apply (zg_zero _ _ _ G3), (zg_zero _ _ _ G2). by apply Z1.
  - intros Hlt q Hq. apply (zg_zero _ _ _ G3). by apply Gap2.
Qed.

Lemma blockmap_body_read m s na mark offset length bs r k' :
  blockmap_body vol false mark offset length bs (mkK s na (-1)) = (r, k') ->
  0 < bs -> opened s m na -> na_initialized_size na = f_init s m ->
  quiet m (Z.max (f_init s m) mark) s (k_eng k') /\ na_mref (k_na k') = m /\
  (r = inr (-1) \/ r = inr (-2) \/
   (exists ie, r = inl (0, ie) /\ read_done m mark (f_init s m) bs s (na_nonresident na) k' ie)).
Proof.
  intros E Hb Hop Hi. unfold blockmap_body in E.
  set (i0 := f_init s m) in *. set (k0 := mkK s na (-1)) in *.
  assert (frame m (Z.max i0 mark) s k0) as F0
    by (constructor; [apply keeps_refl|apply others_same_refl|done]).
  unfold mbind at 1, K_bind at 1 in E.
  destruct (stage_map vol false offset length k0) as [r1 k1] eqn:E1.
  destruct (stage_map_spec m _ _ _ _ _ _ _ _ E1 F0) as [[F1 N1 I1 O1] Hr1]. unfold k0 in N1, I1, O1, Hr1. simpl in N1, I1, O1.
  destruct Hr1 as [->|[->|[-> D1]]];
    [injection E as <- <-; split; [by apply frame_quiet|split; [by eapply opened_mref, F1|tauto]]..|].
  destruct D1 as [Nr1 M1 W1 Sz1 Z1]. simpl in Sz1, Z1.
  unfold stage_zero, stage_holes, mbind, K_bind in E. cbn [negb mret K_ret] in E.
  unfold mret, K_ret in E.
  destruct (stage_init_end vol false mark bs k1) as [r2 k2] eqn:E2.
  destruct (stage_init_end_spec m s i0 mark bs _ _ _ E2 Hb F1 Nr1 M1) as (F2 & O2 & Hr2);
    [by rewrite N1|by rewrite I1|].
  assert (na_mref (k_na k2) = m) as Mr2 by (eapply opened_mref, F2).
  destruct Hr2 as [->|[->|(ie & -> & [M2 G2 Fi2 Mu2 Ge2 Sf2])]];
    [injection E as <- <-; split; [by apply frame_quiet|split; [done|tauto]]..|].
  injection E as <- <-. split; [by apply frame_quiet|]. split; [done|]. right; right.
  exists ie. split; [done|]. constructor; [done| |congruence|done| |done..].
  - by rewrite (zg_size _ _ _ G2).
  - intros Hn q Hq Hz. apply (zg_zero _ _ _ G2). by apply Z1.
Qed.

(** ** [out] *)

Lemma blockmap_out_spec m b ni r k r' s' :
  blockmap_out ni r k = (r', s') -> na_mref (k_na k) = m ->
  quiet m b (k_eng k) s' /\ (r' = r \/ (r = 0 /\ r' = -1)) /\
  (k_oi k < 0 \/ na_initialized_size (k_na k) <= k_oi k -> same_obs (k_eng k) s').
Proof.
  unfold blockmap_out. intros E Hm.
  set (c := (0 <=? k_oi k) && (k_oi k <? na_initialized_size (k_na k))) in *.
  assert (exists na s1, (if c then let '(_, na, s) := stamp_init (k_na k) (k_oi k) (k_eng k) in (na, s)
                         else (k_na k, k_eng k)) = (na, s1) /\
            quiet m b (k_eng k) s1 /\ (c = false -> s1 = k_eng k)) as (na & s1 & Ec & Q1 & Hc).
  { destruct c; [|by exists (k_na k), (k_eng k); split_and!; [|apply same_obs_quiet; reflexivity|]].
    destruct (stamp_init _ _ _) as [[z na] s1] eqn:Es. exists na, s1.
    destruct (stamp_init_spec m _ _ _ _ _ _ Es Hm) as (Hst & _).
    split; [done|]. split; [by apply stamped_quiet|done]. }
  rewrite Ec in E.
  pose proof (sync_obs ni (attr_close na s1)) as O2.
  destruct (inode_sync ni (attr_close na s1)) as [e1 s2].
  pose proof (iclose_obs ni s2) as O3. destruct (inode_close ni s2) as [e2 s3].
  simpl in *. injection E as <- <-.
  assert (same_obs s1 s3) as O
    by (etransitivity; [apply aclose_obs|]; etransitivity; [exact O2|exact O3]).
  split; [eapply quiet_trans; [done|by apply same_obs_quiet]|]. split.
  - destruct (Z.eqb_spec r 0) as [->|Hne]; destruct e1, e2; simpl; auto;
      rewrite (proj2 (Z.eqb_neq _ _) Hne); auto.
  - intros Ho. assert (c = false) as Hcf.
    { unfold c. apply andb_false_iff. rewrite Z.leb_gt, Z.ltb_ge. lia. }
    by rewrite <- (Hc Hcf).
Qed.

(** ** [nk_blockmap] as a whole *)

Lemma write_done_same m mark i0 offset length s s2 nonres k :
  same_obs s s2 -> write_done m mark i0 offset length s2 nonres k ->
  write_done m mark i0 offset length s nonres k.
Proof.
  intros O [W1 W2 W3 W4 W5 W6 W7 W8 W9]. pose proof (so_size _ _ O m) as Es.
  constructor; try done; [by rewrite <- Es|].
  intros Hn q Hq Hz. apply W8; [done|by rewrite Es|by apply (zero_or_hole_same s)].
Qed.

Lemma read_done_same m mark i0 bs s s2 nonres k ie :
  same_obs s s2 -> read_done m mark i0 bs s2 nonres k ie -> read_done m mark i0 bs s nonres k ie.
Proof.
  intros O [W1 W2 W3 W4 W5 W6 W7 W8]. pose proof (so_size _ _ O m) as Es.
  constructor; try done; [by rewrite <- Es|].
  intros Hn q Hq Hz. apply W5; [done|by rewrite Es|by apply (zero_or_hole_same s)].
Qed.

(** The table after a mapping for write: the mark, when the window went past it. *)
Definition new_wr (ok : bool) (wr : list nk_wr) (m mark init e : Z) : Z * list nk_wr :=
  if (mark <? e) && (init <? e) then wr_set ok wr m e else (0, wr).

Definition block_of (blocksize : Z) : Z := if 512 <=? blocksize then blocksize else 512.

(** The file a path names. *)
Definition path_file (path : list Z) (s : S) : option Z :=
  nk_mref <$> fst (pathname_to_inode path s).

(** How a call can end: it fails, or it maps a window for write or for read. *)
Inductive bm_case (ok : bool) (v : nk_volume) (path : list Z) (offset length : Z) (for_write : bool)
    (bs : Z) (cb : list extent -> extent -> bool) (s : S)
  : Z -> nk_volume -> S -> list extent -> Prop :=
  | bm_failed m r v' s' exts :
      r = -1 \/ r = -2 ->
      quiet m (Z.max (f_init s m) (wr_hwm (v_wr v) m)) s s' ->
      bm_case ok v path offset length for_write bs cb s r v' s' exts
  | bm_wrote m nonres k s' wr :
      let mark := wr_hwm (v_wr v) m in
      let pk := pack_extents cb (cluster_size (v_vol v)) offset length INT64_MAX (na_rl (k_na k)) in
      let e := if pk_full pk then pk_covered pk else offset + length in
      for_write = true ->
      path_file path s = Some m ->
      write_done m mark (f_init s m) offset length s nonres k ->
      (nonres = false -> f_init s m = f_size s m) ->
      quiet m (Z.max (f_init s m) mark) s s' -> same_obs (k_eng k) s' ->
      (pk_full pk = false -> offset + length <= pk_covered pk) ->
      (0, wr) = new_wr ok (v_wr v) m mark (na_initialized_size (k_na k)) e ->
      bm_case ok v path offset length for_write bs cb s 0 (with_wr v wr) s' (pk_out pk)
  | bm_read m nonres k s' ie :
      let mark := wr_hwm (v_wr v) m in
      let pk := pack_extents cb (cluster_size (v_vol v)) offset length ie (na_rl (k_na k)) in
      for_write = false ->
      path_file path s = Some m ->
      read_done m mark (f_init s m) bs s nonres k ie ->
      (nonres = false -> f_init s m = f_size s m) ->
      quiet m (Z.max (f_init s m) mark) s s' -> same_obs (k_eng k) s' ->
      bm_case ok v path offset length for_write bs cb s 0 v s' (pk_out pk ++
        (if negb (pk_full pk) && (pk_covered pk <? offset + length)
         then [mkExt (pk_covered pk) (-1) (offset + length - pk_covered pk)] else [])).

Lemma with_wr_same v : with_wr v (v_wr v) = v.
Proof. by destruct v. Qed.

Lemma new_wr_cases ok wr m mark init e z wr' :
  new_wr ok wr m mark init e = (z, wr') -> z = 0 \/ z = -1.
Proof.
  unfold new_wr, wr_set. destruct (_ && _); [|intros [= <- <-]; by left].
  destruct (wr_find wr m); [intros [= <- <-]; by left|].
  destruct ok; intros [= <- <-]; auto.
Qed.

(** After a successful body: the extents, the table, [out]. *)
Lemma wrote_case ok v path offset length bs cb s s2 ni nonres k r' s' :
  let m := nk_mref ni in
  let mark := wr_hwm (v_wr v) m in
  let '(pk, r, exts) := deliver cb (cluster_size (v_vol v)) offset length INT64_MAX true (na_rl (k_na k)) in
  let e := if pk_full pk then pk_covered pk else offset + length in
  let '(z, wr) :=
    if (r =? 0) && true && (mark <? e) && (na_initialized_size (k_na k) <? e)
    then wr_set ok (v_wr v) m e else (0, v_wr v) in
  path_file path s = Some m ->
  same_obs s s2 -> quiet m (Z.max (f_init s2 m) mark) s2 (k_eng k) -> na_mref (k_na k) = m ->
  write_done m mark (f_init s2 m) offset length s2 nonres k ->
  (nonres = false -> f_init s m = f_size s m) ->
  blockmap_out ni (if negb (z =? 0) then -1 else r) k = (r', s') ->
  bm_case ok v path offset length true bs cb s r' (with_wr v wr) s' exts.
Proof.
  intros m mark. unfold deliver.
  set (pk := pack_extents _ _ _ _ _ _).
  assert (forall s3, quiet m (Z.max (f_init s2 m) mark) s2 (k_eng k) -> same_obs s s2 ->
    quiet m (Z.max (f_init s2 m) mark) (k_eng k) s3 -> quiet m (Z.max (f_init s m) mark) s s3) as Hq.
  { intros s3 Q O Q3. rewrite <- (so_init _ _ O m).
    eapply quiet_trans; [by apply same_obs_quiet|]. by eapply quiet_trans. }
  destruct (negb (pk_full pk) && (pk_covered pk <? offset + length)) eqn:Hshort; simpl.
  - intros Hpf O Q Hm W Hres E.
    destruct (blockmap_out_spec m (Z.max (f_init s2 m) mark) _ _ _ _ _ E Hm) as (Q' & Hr & _).
    apply (bm_failed _ _ _ _ _ _ _ _ _ m); [|by apply Hq]. destruct Hr as [->|[? _]]; [by left|done].
  - set (e := if pk_full pk then _ else _).
    change (if (mark <? e) && _ then _ else _)
      with (new_wr ok (v_wr v) m mark (na_initialized_size (k_na k)) e).
    destruct (new_wr ok (v_wr v) m mark (na_initialized_size (k_na k)) e) as [z wr] eqn:En.
    intros Hpf O Q Hm W Hres E.
    destruct (blockmap_out_spec m (Z.max (f_init s2 m) mark) _ _ _ _ _ E Hm) as (Q' & Hr & Hs).
    destruct (new_wr_cases _ _ _ _ _ _ _ _ En) as [->| ->]; simpl in Hr.
    + destruct Hr as [->|[_ ->]]; [|apply (bm_failed _ _ _ _ _ _ _ _ _ m); [by left|by apply Hq]].
      apply (bm_wrote ok v path offset length true bs cb s m nonres k); try done.
      * rewrite <- (so_init _ _ O m). by eapply write_done_same.
      * by apply Hq.
      * apply Hs. right. rewrite (wd_oi _ _ _ _ _ _ _ _ W). lia.
      * intros Hf. fold mark pk in Hf |- *. rewrite Hf in Hshort. simpl in Hshort. zb. lia.
    + apply (bm_failed _ _ _ _ _ _ _ _ _ m); [|by apply Hq]. destruct Hr as [->|[? _]]; [by left|done].
Qed.

Lemma read_case ok v path offset length bs cb s s2 ni nonres k ie r' s' :
  let m := nk_mref ni in
  let mark := wr_hwm (v_wr v) m in
  let '(pk, r, exts) := deliver cb (cluster_size (v_vol v)) offset length ie false (na_rl (k_na k)) in
  path_file path s = Some m ->
  same_obs s s2 -> quiet m (Z.max (f_init s2 m) mark) s2 (k_eng k) -> na_mref (k_na k) = m ->
  read_done m mark (f_init s2 m) bs s2 nonres k ie ->
  (nonres = false -> f_init s m = f_size s m) ->
  blockmap_out ni r k = (r', s') ->
  bm_case ok v path offset length false bs cb s r' v s' exts.
Proof.
  intros m mark. unfold deliver. set (pk := pack_extents _ _ _ _ _ _).
  assert ((if negb (pk_full pk) && (pk_covered pk <? offset + length)
           then (pk, 0, pk_out pk ++ [mkExt (pk_covered pk) (-1) (offset + length - pk_covered pk)])
           else (pk, 0, pk_out pk)) =
          (pk, 0, pk_out pk ++ if negb (pk_full pk) && (pk_covered pk <? offset + length)
             then [mkExt (pk_covered pk) (-1) (offset + length - pk_covered pk)] else [])) as ->
    by (destruct (_ && _); by rewrite ?app_nil_r).
  intros Hpf O Q Hm W Hres E.
  destruct (blockmap_out_spec m (Z.max (f_init s2 m) mark) _ _ _ _ _ E Hm) as (Q' & Hr & Hs).
  assert (quiet m (Z.max (f_init s m) mark) s s') as Hq.
  { rewrite <- (so_init _ _ O m). eapply quiet_trans; [by apply same_obs_quiet|]. by eapply quiet_trans. }
  destruct Hr as [->|[_ ->]]; [|by apply (bm_failed _ _ _ _ _ _ _ _ _ m); [left|]].
  apply (bm_read ok v path offset length false bs cb s m nonres k s' ie); try done.
  - rewrite <- (so_init _ _ O m). by eapply read_done_same.
  - apply Hs. left. rewrite (rd_oi _ _ _ _ _ _ _ _ W). lia.
Qed.

Lemma nk_blockmap_cases ok v path offset length for_write blocksize cb s r v' s' exts :
  nk_blockmap ok (Some v) path offset length for_write blocksize (Some cb) s = (r, v', s', exts) ->
  v_vol v = vol -> vol_ok vol -> (forall m, 0 <= wr_hwm (v_wr v) m) ->
  exists v1, v' = Some v1 /\
    bm_case ok v path offset length for_write (block_of blocksize) cb s r v1 s' exts.
Proof.
  unfold nk_blockmap. intros E Hvol Hv Hmk. rewrite Hvol in E.
  assert (forall b s1, same_obs s s1 -> b = -1 \/ b = -2 -> exists v1, Some v = Some v1 /\
    bm_case ok v path offset length for_write (block_of blocksize) cb s b v1 s1 []) as Hearly.
  { intros b s1 O Hb. exists v. split; [done|].
    by apply (bm_failed _ _ _ _ _ _ _ _ _ 0); [|apply same_obs_quiet]. }
  destruct (window_bad offset length) eqn:Hw.
  { injection E as <- <- <- <-. apply Hearly; [reflexivity|by left]. }
  fold (block_of blocksize) in E.
  destruct (v_bde v || negb _).
  { injection E as <- <- <- <-. apply Hearly; [reflexivity|by right]. }
  assert (0 < block_of blocksize) as Hbs by (unfold block_of; zcase; lia).
  unfold window_bad in Hw. zb.
  pose proof (pathname_obs path s) as O1.
  assert (forall ni, fst (pathname_to_inode path s) = Some ni -> path_file path s = Some (nk_mref ni))
    as Hpf by (unfold path_file; by intros ni ->).
  destruct (pathname_to_inode path s) as [[ni|] s1]; simpl in O1, Hpf; [specialize (Hpf ni eq_refl)|].
  2:{ injection E as <- <- <- <-. apply Hearly; [done|by left]. }
  pose proof (open_obs ni s1) as O2. pose proof (open_opened ni s1) as Hop.
  destruct (attr_open ni s1) as [[na|] s2]; simpl in O2.
  2:{ pose proof (iclose_obs ni s2) as O3. destruct (inode_close ni s2) as [e s3].
      injection E as <- <- <- <-. apply Hearly; [|by left].
      etransitivity; [exact O1|]. etransitivity; [exact O2|exact O3]. }
  destruct (Hop na s2 eq_refl) as [Op2 Ni2]. clear Hop.
  assert (same_obs s s2) as O by (etransitivity; [exact O1|exact O2]).
  assert (na_nonresident na = false -> f_init s (nk_mref ni) = f_size s (nk_mref ni)) as Hres.
  { intros Hn. rewrite <- (so_init _ _ O), <- (so_size _ _ O). by eapply opened_resident. }
  set (m := nk_mref ni) in *. set (mark := wr_hwm (v_wr v) m) in *.
  destruct (blockmap_body vol for_write mark offset length (block_of blocksize) (mkK s2 na (-1)))
    as [r1 k] eqn:Eb.
  assert (forall z, r1 = inr z -> z = -1 \/ z = -2 -> quiet m (Z.max (f_init s2 m) mark) s2 (k_eng k) ->
    na_mref (k_na k) = m -> exists v1, v' = Some v1 /\
    bm_case ok v path offset length for_write (block_of blocksize) cb s r v1 s' exts) as Hfail.
  { intros z -> Hz Q Hm. destruct (blockmap_out ni z k) as [r' s3] eqn:Eo.
    injection E as <- <- <- <-. exists v. split; [done|].
    destruct (blockmap_out_spec m (Z.max (f_init s2 m) mark) _ _ _ _ _ Eo Hm) as (Q' & Hr & _).
    apply (bm_failed _ _ _ _ _ _ _ _ _ m); [destruct Hr as [->|[-> _]]; lia|].
    fold mark. rewrite <- (so_init _ _ O m).
    eapply quiet_trans; [by apply same_obs_quiet|]. by eapply quiet_trans. }
  destruct for_write.
  - destruct (blockmap_body_write m s2 na mark offset length (block_of blocksize) r1 k Eb)
      as (Q & Hm & Hr); [done|lia|lia|apply Hmk|done|done|].
    destruct Hr as [->|[->|[-> W]]]; [by eapply Hfail; auto|by eapply Hfail; auto|].
    pose proof (wrote_case ok v path offset length (block_of blocksize) cb s s2 ni (na_nonresident na) k r s')
      as Hc. cbv zeta in Hc. rewrite Hvol in Hc. fold m in Hc. fold mark in Hc.
    destruct (deliver _ _ _ _ _ _ _) as [[pk r0] exts0].
    destruct (if (r0 =? 0) && _ && _ && _ then _ else _) as [z wr].
    destruct (blockmap_out _ _ _) as [r2 s3]. injection E as -> <- -> ->.
    exists (with_wr v wr). split; [done|]. by apply Hc.
  - destruct (blockmap_body_read m s2 na mark offset length (block_of blocksize) r1 k Eb)
      as (Q & Hm & Hr); [done|done|done|].
    destruct Hr as [->|[->|(ie & -> & W)]]; [by eapply Hfail; auto|by eapply Hfail; auto|].
    pose proof (read_case ok v path offset length (block_of blocksize) cb s s2 ni (na_nonresident na) k ie r s')
      as Hc. cbv zeta in Hc. rewrite Hvol in Hc. fold m in Hc. fold mark in Hc.
    destruct (deliver _ _ _ _ _ _ _) as [[pk r0] exts0].
    rewrite andb_false_r in E. simpl in E.
    destruct (blockmap_out _ _ _) as [r2 s3]. injection E as -> <- -> ->.
    exists v. split; [by rewrite with_wr_same|]. by apply Hc.
Qed.

End Facts.
