(* ===== verification/KoioInv.v ===== *)
(** * Kernel-offloaded I/O is safe

    The effect of [nk_complete_write], [nk_abort_write] and [nk_truncate], the
    transition system of a mounted volume (mappings, completions, aborts,
    truncations, and the kernel's own writes into the windows it was handed), and
    the invariant stated in [nk_blockmap]'s comments: every byte of
    [[init, hwm)] is handed out, in a hole, or zero. *)

From S2P Require Import Prelude WriteMarks Runlist Engine Koio KoioFacts.

Section KoioInv.

Context {S : Type} (vol : volume) `{EngineLaws S vol}.

(** The runlist of the attribute, when it is mapped, passes [bad_runlist].
    [nk_blockmap] checks it of each runlist it maps; [nk_complete_write] and
    [nk_abort_write] do not, so it is a premise of what they zero. *)
Definition maps_soundly (na : attr) (s : S) : Prop :=
  forall na1 s1, attr_map_whole_runlist na s = (false, na1, s1) ->
    bad_runlist vol (na_rl na1) = false.

(** [Q] holds of the attribute that [path] opens. *)
Definition path_attr (path : list Z) (s : S) (Q : attr -> S -> Prop) : Prop :=
  forall ni s1 na s2, pathname_to_inode path s = (Some ni, s1) ->
    attr_open ni s1 = (Some na, s2) -> Q na s2.

Definition path_sound (path : list Z) (s : S) : Prop := path_attr path s maps_soundly.

Definition path_uncompressed (path : list Z) (s : S) : Prop :=
  path_attr path s (fun na _ => na_compressed na = false).

(** ** Completion *)

(** Where a completion starts zeroing: above what is initialised or handed out. *)
Definition gap_floor (wr : list nk_wr) (m init : Z) : Z := Z.max init (wr_hwm wr m).

Record completed (m offset length : Z) (wr : list nk_wr) (s s' : S) (wr' : list nk_wr) : Prop := {
  ct_size : f_size s' m = f_size s m;
  ct_late : f_size s m <= offset -> f_init s' m = f_init s m;
  ct_init : offset < f_size s m ->
    f_init s' m = Z.max (f_init s m) (Z.min (offset + length) (f_size s m));
  ct_zero : forall q, zero_or_hole s m q -> zero_or_hole s' m q;
  ct_gap : offset < f_size s m -> forall q, gap_floor wr m (f_init s m) <= q < offset ->
    zero_or_hole s' m q;
  ct_wr : wr' = wr \/ (wr' = wr_drop wr m /\ wr_hwm wr m <= f_init s' m);
}.

(** The bytes a completion may touch: the gap below its window, of its file. *)
Definition outside (m from to m' q : Z) : Prop := m' <> m \/ ~ (from <= q < to).

Lemma complete_zero_spec v m na from to s err na1 s1 :
  (if na_nonresident na && (from <? to) then
     let '(e, na1, s1) := attr_map_whole_runlist na s in
     if e : bool then (true, na1, s1) else
     let '(z, s2) := zero_raw (v_vol v) na1 from to s1 in (negb (z =? 0), na1, s2)
   else (false, na, s)) = (err, na1, s1) ->
  v_vol v = vol -> vol_ok vol -> (from < to -> maps_soundly na s) ->
  opened s m na -> 0 <= from ->
  keeps (outside m from to) s s1 /\ others_same m s s1 /\
  f_init s1 m = f_init s m /\ f_size s1 m = f_size s m /\
  na_mref na1 = m /\ na_nonresident na1 = na_nonresident na /\
  na_initialized_size na1 = na_initialized_size na /\
  (err = false ->
     (forall q, zero_or_hole s m q -> zero_or_hole s1 m q) /\
     (na_nonresident na = true -> forall q, from <= q < to -> zero_or_hole s1 m q)).
Proof.
  intros E Hvol Hv Hvet Hop Hfrom. rewrite Hvol in E.
  destruct (na_nonresident na && (from <? to)) eqn:Hc.
  - apply andb_true_iff in Hc as [Hnr Hlt]. zb.
    destruct (attr_map_whole_runlist na s) as [[e na2] s2] eqn:Em.
    destruct (map_law _ _ _ _ _ _ Em Hop Hnr) as (O & Op & Nr & Ni & Hs).
    assert (na_mref na2 = m) by by eapply opened_mref.
    destruct e.
    { injection E as <- <- <-. split; [by apply same_obs_keeps|]. split; [by apply same_obs_others|].
      split; [apply (so_init _ _ O)|]. split; [apply (so_size _ _ O)|]. split_and!; (done || congruence). }
    destruct (Hs eq_refl) as [Hf Hp].
    assert (mapped vol m na2 s2) as Hm by (constructor; [exact (Hvet ltac:(lia) _ _ Em)|done|done]).
    destruct (zero_raw vol na2 from to s2) as [z s3] eqn:Ez.
    destruct (zero_raw_spec vol m _ _ _ _ _ _ Ez Hv Hm Hfrom) as ([R1 R2 R3 R4 R5] & Hz & Zs).
    injection E as <- <- <-.
    split; [|split; [|split; [|split; [|split; [done|split; [congruence|split; [done|]]]]]]].
    + eapply keeps_trans; [by apply same_obs_keeps|]. intros m' q a HP Ha. rewrite R1.
      split; [done|]. by apply (R4 m' q).
    + eapply others_same_trans; [by apply same_obs_others|].
      constructor; intros; auto. apply (R4 m' p); [done|by left].
    + rewrite R2. apply (so_init _ _ O).
    + rewrite R3. apply (so_size _ _ O).
    + intros Hz0. destruct (Z.eqb_spec z 0) as [->|]; [|done]. destruct (Zs eq_refl) as [Zk Zn].
      split; [|done]. intros q Hq. apply Zk. by apply (zero_or_hole_same s).
  - injection E as <- <- <-. split; [apply keeps_refl|]. split; [apply others_same_refl|].
    split_and!; try done; [by eapply opened_mref|]. intros _. split; [done|].
    intros Hnr. rewrite Hnr in Hc. simpl in Hc. intros q Hq. zb. lia.
Qed.

Lemma complete_body_spec v m offset length na s r na' wr' s' :
  complete_body v m offset length na s = (r, na', wr', s') ->
  v_vol v = vol -> vol_ok vol ->
  (gap_floor (v_wr v) m (f_init s m) < offset -> maps_soundly na s) ->
  0 <= offset -> 0 < length -> 0 <= wr_hwm (v_wr v) m ->
  opened s m na -> na_initialized_size na = f_init s m ->
  (na_nonresident na = false -> f_init s m = f_size s m) ->
  keeps (outside m (gap_floor (v_wr v) m (f_init s m)) offset) s s' /\ others_same m s s' /\
  (r = -1 /\ wr' = v_wr v \/ r = 0 /\ completed m offset length (v_wr v) s s' wr').
Proof.
  unfold complete_body. intros E Hvol Hv Hvet Ho Hl Hh Hop Hi Hres.
  pose proof (opened_size _ _ _ Hop) as Hsz. rewrite Hi, Hsz in E.
  set (i0 := f_init s m) in *. set (h := wr_hwm (v_wr v) m) in *.
  destruct (Z.leb_spec (f_size s m) offset) as [Hd|Hd].
  { injection E as <- <- <- <-. split; [apply keeps_refl|]. split; [apply others_same_refl|].
    right. split; [done|]. constructor; auto; lia. }
  set (target := if f_size s m <? offset + length then _ else _) in *.
  assert (target = Z.min (offset + length) (f_size s m)) as Ht by (unfold target; zcase; lia).
  replace (if i0 <? h then h else i0) with (gap_floor (v_wr v) m i0) in E
    by (unfold gap_floor; fold h; zcase; lia).
  set (fl := gap_floor (v_wr v) m i0) in *.
  assert (i0 <= fl /\ h <= fl) as [Hfl1 Hfl2] by (unfold fl, gap_floor; fold h; lia).
  match type of E with context [if na_nonresident na && (fl <? offset) then ?a else ?b] =>
    destruct (if na_nonresident na && (fl <? offset) then a else b) as [[err1 na1] s1] eqn:E1 end.
  destruct (complete_zero_spec v m na fl offset s err1 na1 s1 E1)
    as (K1 & O1 & Fi1 & Fs1 & Mr1 & Nr1 & Ni1 & Z1); [done..|lia|].
  destruct err1.
  { injection E as <- <- <- <-. split; [done|]. split; [done|]. by left. }
  destruct (Z1 eq_refl) as [Zk Zn]. rewrite Nr1, Ni1, Hi in E.
  assert (forall q, fl <= q < offset -> zero_or_hole s1 m q) as Hgap.
  { destruct (na_nonresident na) eqn:Hn; [by apply Zn|]. intros q Hq. specialize (Hres eq_refl). lia. }
  match type of E with context [if na_nonresident na && (i0 <? target) then ?a else ?b] =>
    destruct (if na_nonresident na && (i0 <? target) then a else b) as [[err2 na2] s2] eqn:E2 end.
  assert (stamped m s1 s2 /\ (err2 = false -> na_initialized_size na2 = Z.max i0 target /\
            f_init s2 m = Z.max i0 target)) as [St2 Hs2].
  { destruct (na_nonresident na && (i0 <? target)) eqn:Hc.
    - apply andb_true_iff in Hc as [_ Hlt]. zb.
      destruct (stamp_init na1 target s1) as [[z na3] s3] eqn:Es.
      destruct (stamp_init_spec vol m _ _ _ _ _ _ Es Mr1) as (St & _ & _ & Hz).
      injection E2 as <- <- <-. split; [done|]. intros Hzz.
      destruct Hz as [(-> & -> & ->)|(-> & _)]; [simpl; lia|done].
    - injection E2 as <- <- <-. split; [by apply same_obs_stamped; reflexivity|]. intros _.
      rewrite Ni1, Hi, Fi1. fold i0. apply andb_false_iff in Hc as [Hc|Hc]; zb; [|lia].
      specialize (Hres Hc). unfold i0 in *. lia. }
  assert (keeps (outside m fl offset) s s2 /\ others_same m s s2) as [K2 O2].
  { split; [eapply keeps_trans; [exact K1|by eapply stamped_keeps]|].
    eapply others_same_trans; [exact O1|by apply stamped_others]. }
  destruct err2.
  { injection E as <- <- <- <-. split; [done|]. split; [done|]. by left. }
  destruct (Hs2 eq_refl) as [N2 F2]. rewrite N2 in E.
  assert (forall wr2, (wr2 = v_wr v \/ wr2 = wr_drop (v_wr v) m /\ h <= Z.max i0 target) ->
    completed m offset length (v_wr v) s s2 wr2) as Hdone.
  { intros wr2 Hw. constructor.
    - by rewrite (sm_size _ _ _ St2).
    - lia.
    - intros _. by rewrite F2, Ht.
    - intros q Hq. eapply stamped_zero; [exact St2|]. by apply Zk.
    - intros _ q Hq. eapply stamped_zero; [exact St2|]. by apply Hgap.
    - rewrite F2. fold h. tauto. }
  destruct (Z.leb_spec h (Z.max i0 target)); injection E as <- <- <- <-;
    (split; [done|]); (split; [done|]); right; (split; [done|]); apply Hdone; auto.
Qed.

Lemma completed_same m offset length wr s s2 s3 s' wr' :
  same_obs s s2 -> same_obs s3 s' -> completed m offset length wr s2 s3 wr' ->
  completed m offset length wr s s' wr'.
Proof.
  intros O O' [C1 C2 C3 C4 C5 C6].
  pose proof (so_size _ _ O m) as E1. pose proof (so_init _ _ O m) as E2.
  pose proof (so_size _ _ O' m) as E3. pose proof (so_init _ _ O' m) as E4.
  constructor; rewrite ?E3, ?E4, <- ?E1, <- ?E2; auto.
  - intros q Hq. apply (zero_or_hole_same s3); [done|]. apply C4. by apply (zero_or_hole_same s).
  - intros Hlt q Hq. apply (zero_or_hole_same s3); [done|]. by apply C5.
Qed.

Lemma path_file_ok path (s : S) ni s1 :
  pathname_to_inode path s = (Some ni, s1) -> path_file path s = Some (nk_mref ni).
Proof. unfold path_file. by intros ->. Qed.

Lemma nk_complete_write_spec v path offset length s r v' s' :
  nk_complete_write (Some v) path offset length s = (r, v', s') ->
  v_vol v = vol -> vol_ok vol -> (forall m, 0 <= wr_hwm (v_wr v) m) ->
  (forall m, path_file path s = Some m -> gap_floor (v_wr v) m (f_init s m) < offset ->
     path_sound path s) ->
  exists v1 m, v' = Some v1 /\
    keeps (outside m (gap_floor (v_wr v) m (f_init s m)) offset) s s' /\ others_same m s s' /\
    (r = -1 \/ r = 0 /\ path_file path s = Some m /\ 0 <= offset /\ 0 < length /\
       exists wr', v1 = with_wr v wr' /\ completed m offset length (v_wr v) s s' wr').
Proof.
  unfold nk_complete_write. intros E Hvol Hv Hmk Hvet.
  assert (forall s1, same_obs s s1 -> exists v1 m, Some v = Some v1 /\
    keeps (outside m (gap_floor (v_wr v) m (f_init s m)) offset) s s1 /\ others_same m s s1 /\
    (-1 = -1 \/ -1 = 0 /\ path_file path s = Some m /\ 0 <= offset /\ 0 < length /\
       exists wr', v1 = with_wr v wr' /\ completed m offset length (v_wr v) s s1 wr')) as Hearly.
  { intros s1 O. exists v, 0. split; [done|]. split; [by apply same_obs_keeps|].
    split; [by apply same_obs_others|by left]. }
  destruct (window_bad offset length) eqn:Hw; [injection E as <- <- <-; by apply Hearly|].
  unfold window_bad in Hw. zb.
  pose proof (pathname_obs path s) as O1.
  destruct (pathname_to_inode path s) as [[ni|] s1] eqn:Ep; simpl in O1;
    [|injection E as <- <- <-; by apply Hearly].
  pose proof (path_file_ok _ _ _ _ Ep) as Epf.
  pose proof (open_obs ni s1) as O2. pose proof (open_opened ni s1) as Hop.
  specialize (Hvet _ Epf).
  assert (forall na s2, attr_open ni s1 = (Some na, s2) ->
    gap_floor (v_wr v) (nk_mref ni) (f_init s (nk_mref ni)) < offset -> maps_soundly na s2) as Hms
    by (intros na2 s2 Eo Hg; exact (Hvet Hg _ _ _ _ Ep Eo)).
  destruct (attr_open ni s1) as [[na|] s2]; simpl in O2.
  2:{ pose proof (iclose_obs ni s2) as O3. destruct (inode_close ni s2) as [e s3].
      injection E as <- <- <-. apply Hearly.
      etransitivity; [exact O1|]. etransitivity; [exact O2|exact O3]. }
  destruct (Hop na s2 eq_refl) as [Op2 Ni2]. specialize (Hms na s2 eq_refl).
  assert (same_obs s s2) as O by (etransitivity; [exact O1|exact O2]).
  set (m := nk_mref ni) in *. rewrite <- (so_init _ _ O) in Hms.
  destruct (complete_body v m offset length na s2) as [[[r1 na'] wr'] s3] eqn:Eb.
  destruct (complete_body_spec _ _ _ _ _ _ _ _ _ _ Eb Hvol Hv Hms) as (K3 & O3 & Hr);
    [lia|lia|apply Hmk|done|done|by apply opened_resident|].
  pose proof (sync_obs ni (attr_close na' s3)) as O4.
  destruct (inode_sync ni (attr_close na' s3)) as [e1 s4].
  pose proof (iclose_obs ni s4) as O5. destruct (inode_close ni s4) as [e2 s5]. simpl in O4, O5.
  assert (same_obs s3 s5) as Oz
    by (etransitivity; [apply aclose_obs|]; etransitivity; [exact O4|exact O5]).
  injection E as <- <- <-. rewrite (so_init _ _ O) in K3.
  exists (with_wr v wr'), m. split; [done|]. split; [|split].
  - eapply keeps_trans; [by apply same_obs_keeps|]. eapply keeps_trans; [exact K3|].
    by apply same_obs_keeps.
  - eapply others_same_trans; [by apply same_obs_others|]. eapply others_same_trans; [exact O3|].
    by apply same_obs_others.
  - destruct Hr as [[-> ->]|[-> Hc]]; [left; by destruct e1, e2|].
    destruct e1, e2; simpl; try (by left). right. split_and!; [done|done|lia|lia|].
    exists wr'. split; [done|]. by eapply completed_same.
Qed.

(** ** Abort *)

Record aborted (m offset length : Z) (wr : list nk_wr) (s s' : S) (wr' : list nk_wr) : Prop := {
  ab_size : f_size s' m = f_size s m;
  ab_init : f_init s' m = f_init s m;
  ab_zero : forall q, zero_or_hole s m q -> zero_or_hole s' m q;
  ab_case :
    (wr' = wr /\ wr_hwm wr m <= Z.max 0 offset) \/
    (wr' = wr /\ offset + length < wr_hwm wr m /\
       forall q, f_init s m <= q < f_size s m -> offset <= q < offset + length ->
         zero_or_hole s' m q) \/
    (offset < wr_hwm wr m <= offset + length /\
       (wr' = wr_store wr m offset \/ wr' = wr_drop (wr_store wr m offset) m) /\
       wr_find wr m <> None);
}.

Lemma abort_body_spec v m offset length na s r na' wr' s' :
  abort_body v m offset length (wr_hwm (v_wr v) m) (Some na) s = (r, na', wr', s') ->
  v_vol v = vol -> vol_ok vol ->
  (offset + length < wr_hwm (v_wr v) m -> maps_soundly na s) -> 0 <= offset -> 0 < length ->
  offset < wr_hwm (v_wr v) m -> wr_find (v_wr v) m <> None ->
  opened s m na -> na_initialized_size na = f_init s m ->
  (na_nonresident na = false -> f_init s m = f_size s m) ->
  keeps (outside m (Z.max offset (f_init s m)) (offset + length)) s s' /\ others_same m s s' /\
  (r = -1 \/ r = 0 /\ aborted m offset length (v_wr v) s s' wr').
Proof.
  unfold abort_body. intros E Hvol Hv Hvet Ho Hl Hlt Hf Hop Hi Hres.
  rewrite Hi in E. set (h := wr_hwm (v_wr v) m) in *.
  assert (forall wr1 na1, (0, Some na1, wr1, s) = (r, na', wr', s') ->
    aborted m offset length (v_wr v) s s wr1 ->
    keeps (outside m (Z.max offset (f_init s m)) (offset + length)) s s' /\ others_same m s s' /\
    (r = -1 \/ r = 0 /\ aborted m offset length (v_wr v) s s' wr')) as Hsame.
  { intros wr1 na1 [= <- <- <- <-] Ha. split; [apply keeps_refl|]. split; [apply others_same_refl|].
    by right. }
  destruct (Z.leb_spec h (offset + length)) as [Htop|Hlow].
  { eapply Hsame; [exact E|]. constructor; auto. right; right. fold h. split; [lia|]. split; [|done].
    destruct (offset <=? f_init s m); auto. }
  assert (forall q, f_init s m <= q < f_size s m -> offset <= q < offset + length ->
            na_nonresident na = false -> False) as Hnores.
  { intros q Hq _ Hn. specialize (Hres Hn). lia. }
  replace (if f_init s m <? offset then offset else f_init s m)
    with (Z.max offset (f_init s m)) in E by (zcase; lia).
  destruct (na_nonresident na) eqn:Hnr.
  2:{ eapply Hsame; [exact E|]. constructor; auto. right; left. fold h. split_and!; [done|done|].
      intros q Hq Hw. destruct (Hnores q Hq Hw eq_refl). }
  destruct (Z.ltb_spec (Z.max offset (f_init s m)) (offset + length)) as [Hne|Hempty].
  2:{ eapply Hsame; [exact E|]. constructor; auto. right; left. fold h. split_and!; [done|done|].
      intros q Hq Hw. lia. }
  pose proof (complete_zero_spec v m na (Z.max offset (f_init s m)) (offset + length) s) as Hzs.
  rewrite Hnr, (proj2 (Z.ltb_lt _ _) Hne) in Hzs. simpl in Hzs.
  destruct (attr_map_whole_runlist na s) as [[err na1] s1].
  assert (forall e s2 na2, keeps (outside m (Z.max offset (f_init s m)) (offset + length)) s s2 /\
    others_same m s s2 /\ f_init s2 m = f_init s m /\ f_size s2 m = f_size s m /\
    na_mref na2 = m /\ na_nonresident na2 = true /\
    na_initialized_size na2 = na_initialized_size na /\
    (e = false -> (forall q, zero_or_hole s m q -> zero_or_hole s2 m q) /\
      (true = true -> forall q, Z.max offset (f_init s m) <= q < offset + length ->
        zero_or_hole s2 m q)) ->
    (if e : bool then -1 else 0, Some na2, v_wr v, s2) = (r, na', wr', s') ->
    keeps (outside m (Z.max offset (f_init s m)) (offset + length)) s s' /\ others_same m s s' /\
    (r = -1 \/ r = 0 /\ aborted m offset length (v_wr v) s s' wr')) as Hend.
  { intros e s2 na2 (K & O & Fi & Fs & _ & _ & _ & Hz) [= <- <- <- <-].
    split; [done|]. split; [done|]. destruct e; [by left|]. right. split; [done|].
    destruct (Hz eq_refl) as [Zk Zn]. constructor; auto. right; left. fold h.
    split_and!; [done|done|]. intros q Hq Hw. apply Zn; [done|lia]. }
  destruct err.
  - eapply (Hend true); [|exact E]. apply Hzs; [done|done|done|intros _; apply Hvet; lia|done|lia].
  - destruct (zero_raw (v_vol v) na1 _ _ s1) as [z s2].
    eapply (Hend (negb (z =? 0))); [|by destruct (z =? 0)].
    apply Hzs; [done|done|done|intros _; apply Hvet; lia|done|lia].
Qed.

Lemma aborted_same m offset length wr s s2 s3 s' wr' :
  same_obs s s2 -> same_obs s3 s' -> aborted m offset length wr s2 s3 wr' ->
  aborted m offset length wr s s' wr'.
Proof.
  intros O O' [C1 C2 C3 C4].
  pose proof (so_size _ _ O m) as E1. pose proof (so_init _ _ O m) as E2.
  constructor.
  - by rewrite (so_size _ _ O' m), C1.
  - by rewrite (so_init _ _ O' m), C2.
  - intros q Hq. apply (zero_or_hole_same s3); [done|]. apply C3. by apply (zero_or_hole_same s).
  - rewrite <- E1, <- E2. destruct C4 as [?|[(? & ? & Hz)|?]]; [by left| |by right; right].
    right; left. split_and!; [done..|]. intros q Hq Hw. apply (zero_or_hole_same s3); [done|]. by apply Hz.
Qed.

(** The attribute of the named file can be opened. *)
Definition opens (path : list Z) (s : S) : Prop :=
  forall ni s1, pathname_to_inode path s = (Some ni, s1) -> fst (attr_open ni s1) <> None.

Lemma nk_abort_write_spec v path offset length s r v' s' :
  nk_abort_write (Some v) path offset length s = (r, v', s') ->
  v_vol v = vol -> vol_ok vol -> opens path s ->
  (forall m, path_file path s = Some m -> offset + length < wr_hwm (v_wr v) m ->
     path_sound path s) ->
  exists wr' m, v' = Some (with_wr v wr') /\
    keeps (outside m (Z.max offset (f_init s m)) (offset + length)) s s' /\ others_same m s s' /\
    (r = -1 \/ r = 0 /\ path_file path s = Some m /\ 0 <= offset /\ 0 < length /\
       aborted m offset length (v_wr v) s s' wr').
Proof.
  unfold nk_abort_write. intros E Hvol Hv Hopen Hvet.
  assert (forall s1, same_obs s s1 -> exists wr' m, Some v = Some (with_wr v wr') /\
    keeps (outside m (Z.max offset (f_init s m)) (offset + length)) s s1 /\ others_same m s s1 /\
    (-1 = -1 \/ -1 = 0 /\ path_file path s = Some m /\ 0 <= offset /\ 0 < length /\
       aborted m offset length (v_wr v) s s1 wr')) as Hearly.
  { intros s1 O. exists (v_wr v), 0. rewrite with_wr_same. split; [done|].
    split; [by apply same_obs_keeps|]. split; [by apply same_obs_others|by left]. }
  destruct (window_bad offset length) eqn:Hw; [injection E as <- <- <-; by apply Hearly|].
  unfold window_bad in Hw. zb.
  pose proof (pathname_obs path s) as O1.
  destruct (pathname_to_inode path s) as [[ni|] s1] eqn:Ep; simpl in O1;
    [|injection E as <- <- <-; by apply Hearly].
  specialize (Hopen ni s1 Ep). pose proof (path_file_ok _ _ _ _ Ep) as Epf.
  specialize (Hvet _ Epf). set (m := nk_mref ni) in *.
  pose proof (abort_entry_spec (v_wr v) m offset) as Hae.
  destruct (abort_entry (v_wr v) m offset) as [h|].
  2:{ pose proof (iclose_obs ni s1) as O2. destruct (inode_close ni s1) as [e s2].
      injection E as <- <- <-. exists (v_wr v), m. rewrite with_wr_same. split; [done|].
      assert (same_obs s s2) as O by (etransitivity; [exact O1|exact O2]).
      split; [by apply same_obs_keeps|]. split; [by apply same_obs_others|].
      right. split_and!; [done|done|lia|lia|].
      constructor; [apply (so_size _ _ O)|apply (so_init _ _ O)|by intros q; apply zero_or_hole_same|].
      left. split; [done|]. destruct Hae as [Hn|]; [|lia]. unfold wr_hwm. rewrite Hn. lia. }
  destruct Hae as (-> & Hlt & Hfind).
  pose proof (open_obs ni s1) as O2. pose proof (open_opened ni s1) as Hop.
  assert (forall na s2, attr_open ni s1 = (Some na, s2) ->
    offset + length < wr_hwm (v_wr v) m -> maps_soundly na s2) as Hms
    by (intros na2 s2 Eo Hg; exact (Hvet Hg _ _ _ _ Ep Eo)).
  destruct (attr_open ni s1) as [[na|] s2]; simpl in O2; [|done]. specialize (Hms na s2 eq_refl).
  destruct (Hop na s2 eq_refl) as [Op2 Ni2]. fold m in Op2, Ni2.
  assert (same_obs s s2) as O by (etransitivity; [exact O1|exact O2]).
  destruct (abort_body v m offset length _ (Some na) s2) as [[[r1 na'] wr'] s3] eqn:Eb.
  destruct (abort_body_spec _ _ _ _ _ _ _ _ _ _ Eb Hvol Hv Hms) as (K3 & O3 & Hr);
    [lia|lia|done|done|done|done|by apply opened_resident|].
  set (s4 := match na' with Some na => attr_close na s3 | None => s3 end) in *.
  assert (same_obs s3 s4) as O4 by (unfold s4; destruct na'; [apply aclose_obs|reflexivity]).
  pose proof (iclose_obs ni s4) as O5. destruct (inode_close ni s4) as [e s5]. simpl in O5.
  assert (same_obs s3 s5) as Oz by (etransitivity; [exact O4|exact O5]).
  injection E as <- <- <-. rewrite (so_init _ _ O) in K3.
  exists wr', m. split; [done|]. split; [|split].
  - eapply keeps_trans; [by apply same_obs_keeps|]. eapply keeps_trans; [exact K3|].
    by apply same_obs_keeps.
  - eapply others_same_trans; [by apply same_obs_others|]. eapply others_same_trans; [exact O3|].
    by apply same_obs_others.
  - destruct Hr as [->|[-> Hc]]; [by left|]. right. split_and!; [done|done|lia|lia|].
    by eapply aborted_same.
Qed.

(** ** Truncation *)

Lemma nk_truncate_spec v path size s v' s' :
  nk_truncate (Some v) path size s = (0, v', s') -> path_uncompressed path s ->
  exists wr' m, v' = Some (with_wr v wr') /\ path_file path s = Some m /\ others_same m s s' /\
    0 <= size /\ f_size s' m = size /\ Z.min (f_init s m) size <= f_init s' m /\
    (f_init s m = f_size s m \/
     forall q, q < Z.min size (f_size s m) -> zero_or_hole s m q -> zero_or_hole s' m q) /\
    ((wr' = v_wr v /\ wr_hwm (v_wr v) m <= Z.max 0 size) \/
     (wr' = wr_store (v_wr v) m size /\ size < wr_hwm (v_wr v) m /\ wr_find (v_wr v) m <> None)).
Proof.
  unfold nk_truncate. intros E Hunc.
  pose proof (pathname_obs path s) as O1.
  destruct (pathname_to_inode path s) as [[ni|] s1] eqn:Ep; simpl in O1; [|done].
  pose proof (path_file_ok _ _ _ _ Ep) as Epf. set (m := nk_mref ni) in *.
  pose proof (open_obs ni s1) as O2. pose proof (open_opened ni s1) as Hop.
  assert (forall na s2, attr_open ni s1 = (Some na, s2) -> na_compressed na = false) as Hnc
    by (intros na2 s2 Eo; exact (Hunc _ _ _ _ Ep Eo)).
  destruct (attr_open ni s1) as [[na|] s2]; simpl in O2.
  2:{ destruct (inode_close _ _) as [e s5]. by destruct e. }
  destruct (Hop na s2 eq_refl) as [Op2 Ni2]. fold m in Op2, Ni2. specialize (Hnc na s2 eq_refl).
  assert (same_obs s s2) as O by (etransitivity; [exact O1|exact O2]).
  destruct (attr_truncate na size s2) as [[err na'] s3] eqn:Et.
  destruct (truncate_law _ _ _ _ _ _ _ Et Op2) as [Lo Ls].
  set (s4 := inode_update_times ni (attr_close na' s3)) in *.
  pose proof (iclose_obs ni s4) as O5. destruct (inode_close ni s4) as [e s5]. simpl in O5.
  assert (same_obs s3 s5) as Oz.
  { etransitivity; [apply aclose_obs|]. etransitivity; [apply times_obs|exact O5]. }
  destruct err, e; simpl in E; try done. injection E as <- <-.
  destruct (Ls eq_refl) as (L1 & L2 & L3 & L4).
  rewrite (so_size _ _ O) in L4. rewrite (so_init _ _ O) in L3.
  exists (match abort_entry (v_wr v) m size with Some _ => wr_store (v_wr v) m size | None => v_wr v end), m.
  split; [done|]. split; [done|]. split.
  { eapply others_same_trans; [by apply same_obs_others|]. eapply others_same_trans; [exact Lo|].
    by apply same_obs_others. }
  split; [done|]. split; [by rewrite (so_size _ _ Oz)|]. split; [by rewrite (so_init _ _ Oz)|].
  split.
  - destruct (na_nonresident na) eqn:Hn.
    2:{ left. rewrite <- (so_init _ _ O), <- (so_size _ _ O). by eapply opened_resident. }
    right. intros q Hq Hz. apply (zero_or_hole_same s3); [done|].
    specialize (L4 eq_refl Hnc q Hq). apply (zero_or_hole_same s s2 m q O) in Hz.
    destruct (phys s2 m q) as [b|] eqn:Hb; [|done]. destruct L4 as [Hb' Hby]. intros a Ha.
    rewrite Hb' in Ha. injection Ha as <-. rewrite Hby. by apply Hz.
  - pose proof (abort_entry_spec (v_wr v) m size) as Hae.
    destruct (abort_entry (v_wr v) m size); [destruct Hae as (-> & ? & ?); by right|left]. split; [done|].
    destruct Hae as [Hn|]; [unfold wr_hwm; rewrite Hn|]; lia.
Qed.
End KoioInv.
