(* ===== verification/KoioSafety.v ===== *)
(** * The transition system of kernel-offloaded writes and its invariant

    A world is the engine state, the mounted volume with its table of marks, and
    the windows handed to the kernel for writing and not yet reported back.  The
    steps are the successful calls of the bridge and the kernel's writes into the
    windows it holds.  Three premises of the steps are about the file a call names:
    an abort opens its attribute; a completion that zeroes a gap and an abort below
    the mark map a runlist that passes [bad_runlist], which neither of them checks;
    a truncation is of an uncompressed file. *)

From S2P Require Import Prelude WriteMarks Runlist Engine Koio KoioFacts KoioInv.

(** Bytes [w_lo, w_hi) of file [w_file]. *)
Record window := mkWindow { w_file : Z; w_lo : Z; w_hi : Z }.

Definition in_window (w : window) (m p : Z) : Prop := w_file w = m /\ w_lo w <= p < w_hi w.

(** Byte [p] of [m] is in the kernel's hands. *)
Definition in_flight (fly : list window) (m p : Z) : Prop := Exists (fun w => in_window w m p) fly.

(** Where a list of extents that starts at [offset] ends. *)
Definition exts_end (offset : Z) (exts : list extent) : Z :=
  fold_left (fun _ e => e_log e + e_len e) exts offset.

Lemma tiles_exts_end a b es : tiles a b es -> exts_end a es = b.
Proof.
  unfold exts_end. induction 1 as [|a b e es He Hl Ht IH]; [done|]. simpl. by rewrite He.
Qed.

Section KoioSafety.

Context {S : Type} (vol : volume) `{EngineLaws S vol}.

Record world := mkWorld { w_eng : S; w_vol : nk_volume; w_fly : list window }.

(** A store of the kernel into the windows it holds. *)
Record kernel_write (fly : list window) (s s' : S) : Prop := {
  kw_phys : forall m p, phys s' m p = phys s m p;
  kw_init : forall m, f_init s' m = f_init s m;
  kw_size : forall m, f_size s' m = f_size s m;
  kw_byte : forall m p a, phys s m p = Some a -> ~ in_flight fly m p -> dbyte s' a = dbyte s a;
}.

Inductive koio_step : world -> world -> Prop :=
  | st_map_write ok path offset length blocksize cb s v fly s' v' exts m :
      nk_blockmap ok (Some v) path offset length true blocksize (Some cb) s = (0, Some v', s', exts) ->
      path_file path s = Some m ->
      koio_step (mkWorld s v fly)
        (mkWorld s' v' (mkWindow m offset (exts_end offset exts) :: fly))
  | st_map_read ok path offset length blocksize cb s v fly s' v' exts :
      nk_blockmap ok (Some v) path offset length false blocksize (Some cb) s = (0, Some v', s', exts) ->
      koio_step (mkWorld s v fly) (mkWorld s' v' fly)
  | st_kernel_write s v fly s' :
      kernel_write fly s s' -> koio_step (mkWorld s v fly) (mkWorld s' v fly)
  | st_complete path offset length s v l1 w l2 s' v' :
      nk_complete_write (Some v) path offset length s = (0, Some v', s') ->
      path_file path s = Some (w_file w) -> offset <= w_lo w -> w_hi w <= offset + length ->
      (gap_floor (v_wr v) (w_file w) (f_init s (w_file w)) < offset -> path_sound vol path s) ->
      koio_step (mkWorld s v (l1 ++ w :: l2)) (mkWorld s' v' (l1 ++ l2))
  | st_abort path offset length s v l1 w l2 s' v' :
      nk_abort_write (Some v) path offset length s = (0, Some v', s') -> opens path s ->
      path_file path s = Some (w_file w) -> offset <= w_lo w -> w_hi w <= offset + length ->
      (offset + length < wr_hwm (v_wr v) (w_file w) -> path_sound vol path s) ->
      koio_step (mkWorld s v (l1 ++ w :: l2)) (mkWorld s' v' (l1 ++ l2))
  | st_truncate path size s v fly s' v' :
      nk_truncate (Some v) path size s = (0, Some v', s') -> path_uncompressed path s ->
      koio_step (mkWorld s v fly) (mkWorld s' v' fly).

(** The invariant of [nk_blockmap]'s comment, with what it takes to keep it. *)
Record koio_inv (w : world) : Prop := {
  ki_vol : v_vol (w_vol w) = vol;
  ki_wr : wr_ok (v_wr (w_vol w));
  ki_mark : forall m, 0 <= wr_hwm (v_wr (w_vol w)) m;
  ki_size : forall m, wr_hwm (v_wr (w_vol w)) m <= Z.max 0 (f_size (w_eng w) m);
  ki_bytes : forall m p, 0 <= p -> f_init (w_eng w) m <= p < wr_hwm (v_wr (w_vol w)) m ->
    in_flight (w_fly w) m p \/ zero_or_hole (w_eng w) m p;
}.

Hypothesis Hvol : vol_ok vol.

Lemma in_flight_cons w fly m p : in_flight fly m p -> in_flight (w :: fly) m p.
Proof. intros Hf. by apply Exists_cons_tl. Qed.

Lemma in_flight_middle l1 w l2 m p :
  in_flight (l1 ++ w :: l2) m p <-> in_window w m p \/ in_flight (l1 ++ l2) m p.
Proof. unfold in_flight. rewrite !Exists_app, Exists_cons. tauto. Qed.

Lemma others_zero m s s' m' q :
  others_same m s s' -> m' <> m -> zero_or_hole s m' q -> zero_or_hole s' m' q.
Proof.
  intros [A1 A2 A3 A4] Hne Hz a. rewrite A1 by done. intros Ha. rewrite (A2 _ _ _ Hne Ha). by apply Hz.
Qed.

(** A step that acts on one file: the other files keep their part of the
    invariant, whatever windows they have. *)
Lemma koio_inv_one_file s v fly s' wr' fly' m :
  koio_inv (mkWorld s v fly) -> others_same m s s' -> wr_ok wr' ->
  (forall m', m' <> m -> wr_hwm wr' m' = wr_hwm (v_wr v) m') ->
  (forall m' p, m' <> m -> in_flight fly m' p -> in_flight fly' m' p) ->
  0 <= wr_hwm wr' m -> wr_hwm wr' m <= Z.max 0 (f_size s' m) ->
  (forall p, 0 <= p -> f_init s' m <= p < wr_hwm wr' m -> in_flight fly' m p \/ zero_or_hole s' m p) ->
  koio_inv (mkWorld s' (with_wr v wr') fly').
Proof.
  intros [I1 I2 I3 I4 I5] Ho Hok Hwr Hfly Hm Hs Hb. simpl in *.
  constructor; simpl; [done|done| | |].
  - intros m'. destruct (decide (m' = m)) as [->|Hne]; [done|]. by rewrite Hwr.
  - intros m'. destruct (decide (m' = m)) as [->|Hne]; [done|].
    rewrite Hwr, (os_size _ _ _ Ho) by done. apply I4.
  - intros m' p Hp. destruct (decide (m' = m)) as [->|Hne]; [by apply Hb|].
    rewrite Hwr, (os_init _ _ _ Ho) by done. intros Hpr.
    destruct (I5 m' p Hp Hpr) as [?|?]; [left; by apply Hfly|right; by eapply others_zero].
Qed.

Lemma quiet_others m b s s' : quiet m b s s' -> others_same m s s'.
Proof. by intros []. Qed.

(** The zeros and holes below the mark survive a mapping. *)
Lemma mapped_zero m s s' k nonres q :
  (nonres = false -> f_init s m = f_size s m) -> same_obs (k_eng k) s' ->
  (nonres = true -> forall q, q < f_size s m -> zero_or_hole s m q -> zero_or_hole (k_eng k) m q) ->
  f_init s m <= q < f_size s m -> zero_or_hole s m q -> zero_or_hole s' m q.
Proof.
  intros Hres O Hz Hq Hzq. apply (zero_or_hole_same (k_eng k)); [done|].
  destruct nonres; [apply Hz; [done|lia|done]|]. specialize (Hres eq_refl). lia.
Qed.

Lemma nk_blockmap_window ok v path offset length for_write blocksize cb s v' s' exts :
  nk_blockmap ok (Some v) path offset length for_write blocksize (Some cb) s = (0, v', s', exts) ->
  0 <= offset /\ 0 < length /\ offset + length <= INT64_MAX.
Proof.
  unfold nk_blockmap. destruct (window_bad offset length) eqn:Hw; [done|]. intros _.
  unfold window_bad in Hw. zb. lia.
Qed.

(** An extent of real clusters: the device offsets of all its bytes. *)
Definition real_extent (s : S) (m : Z) (e : extent) : Prop :=
  0 <= e_phys e /\
  forall q, e_log e <= q < e_log e + e_len e -> phys s m q = Some (e_phys e + (q - e_log e)).

(** A mapping for write hands out real clusters only. *)
Lemma write_extents cb offset length m na (s : S) :
  0 <= offset -> 0 < length -> offset + length <= INT64_MAX -> mapped vol m na s ->
  find_hole (cluster_size vol) offset length (live_runs (na_rl na)) = None ->
  let pk := pack_extents cb (cluster_size vol) offset length INT64_MAX (na_rl na) in
  tiles offset (pk_covered pk) (pk_out pk) /\ pk_covered pk <= offset + length /\
  (pk_full pk = true -> offset < pk_covered pk) /\
  Forall (real_extent s m) (pk_out pk).
Proof.
  intros Ho Hl Hw Hm Hn pk. pose proof Hm as [M1 M2 M3].
  destruct (pack_extents_spec cb vol offset length INT64_MAX Hvol Ho Hl Hw _ M1 M2)
    as ([P1 P2 P3 P4] & Hle & _). fold pk in P1, P2, P3, P4, Hle.
  split; [done|]. split; [done|]. split; [done|].
  rewrite Forall_forall in P2 |- *. intros e He.
  destruct (bad_runlist_ok _ _ Hvol M1) as [Hall Hc]. rewrite M2 in Hc.
  pose proof (tiles_inside _ _ _ _ P1 He) as (Hlo & Hhi & Hpos).
  assert (forall q, e_log e <= q < e_log e + e_len e ->
    0 <= e_phys e /\ phys s m q = Some (e_phys e + (q - e_log e))) as Hq.
  { intros q Hq. destruct (P2 e He q Hq) as [[_ Hno]|(H2 & H3 & H4)]; [|by rewrite <- M3].
    exfalso. unfold clamp in Hle.
    destruct (runs_cover vol (live_runs (na_rl na)) 0 q Hall Hc) as (r & Hin & Hr); [lia|].
    destruct Hno as [Hno|Hbig]; [|lia].
    pose proof (no_hole_phys vol m na s offset length r q Hvol Hm Hn Hin Hr ltac:(lia)) as Hreal.
    destruct (mapped_ok vol m na s r Hvol Hm Hin) as [Hok Hp].
    rewrite M3, Hp in Hno by done. unfold run_phys in Hno. pose proof (ro_lcn _ _ Hok).
    unfold LCN_HOLE in Hreal. destruct (Z.leb_spec 0 (rl_lcn r)); [done|lia]. }
  split; [apply (Hq (e_log e)); lia|]. intros q Hqq. by apply Hq.
Qed.

Lemma step_map_write ok path offset length blocksize cb s v fly s' v' exts m :
  koio_inv (mkWorld s v fly) ->
  nk_blockmap ok (Some v) path offset length true blocksize (Some cb) s = (0, Some v', s', exts) ->
  path_file path s = Some m ->
  koio_inv (mkWorld s' v' (mkWindow m offset (exts_end offset exts) :: fly)).
Proof.
  intros I E Hpf. pose proof I as [I1 I2 I3 I4 I5]. simpl in *.
  destruct (nk_blockmap_window _ _ _ _ _ _ _ _ _ _ _ _ E) as (Ho & Hl & Hmax).
  destruct (nk_blockmap_cases vol _ _ _ _ _ _ _ _ _ _ _ _ _ E I1 Hvol I3) as (v1 & Hv1 & C).
  injection Hv1 as <-.
  inversion C as [m0 r0 v0 s0 e0 Hr| m0 nonres k s0 wr mark pk e Hw Hpf0 W Hres Q O Hfull Hwr Hr
                 |m0 nonres k s0 ie mark pk Hw]; [lia|subst s0 v' exts|done].
  rewrite Hpf0 in Hpf. injection Hpf as ->. destruct W as [W1 W2 W3 W4 W5 W6 W7 W8 W9].
  fold mark in W5, W9. subst pk e. rewrite I1 in *.
  set (pk := pack_extents cb (cluster_size vol) offset length INT64_MAX (na_rl (k_na k))) in *.
  set (e := if pk_full pk then pk_covered pk else offset + length) in *.
  destruct (write_extents cb offset length m (k_na k) (k_eng k) Ho Hl Hmax W1 W2)
    as (T1 & T2 & T3 & T4). fold pk in T1, T2, T3, T4.
  rewrite (tiles_exts_end _ _ _ T1).
  assert (e = pk_covered pk) as He.
  { unfold e. destruct (pk_full pk) eqn:Hf; [done|]. specialize (Hfull eq_refl). lia. }
  rewrite He in Hwr. clear e He.
  assert (wr_ok wr /\ (forall m', m' <> m -> wr_hwm wr m' = wr_hwm (v_wr v) m') /\
          (wr_hwm wr m = pk_covered pk \/ wr_hwm wr m = mark)) as (Hok & Hoth & Hmk).
  { unfold new_wr in Hwr. destruct (_ && _); [|injection Hwr as ->; by auto].
    symmetry in Hwr. destruct (wr_set_map _ _ _ _ _ I2 Hwr) as [Hok' _].
    split; [done|]. split; [intros m' Hne|left]; rewrite (wr_hwm_set _ _ _ _ _ _ I2 Hwr).
    - by destruct (Z.eqb_spec m' m).
    - by rewrite Z.eqb_refl. }
  pose proof (I3 m) as I3m. pose proof (I4 m) as I4m. fold mark in I3m, I4m.
  pose proof (tiles_le _ _ _ T1) as Hle.
  apply (koio_inv_one_file s v fly s' wr _ m I); [by eapply quiet_others|done|done| | | |].
  - intros m' p _. apply in_flight_cons.
  - lia.
  - rewrite (so_size _ _ O). lia.
  - intros p Hp. rewrite (so_init _ _ O), W6, W5. intros Hpr.
    destruct (decide (offset <= p < pk_covered pk)) as [Hin|Hout].
    { left. apply Exists_cons. by left. }
    destruct (decide (p < mark)) as [Hlt|Hge].
    + destruct (I5 m p Hp) as [Hf|Hz]; [fold mark; revert Hpr; zcase; lia|left; by apply in_flight_cons|].
      right. apply (mapped_zero m s s' k nonres); try done. revert Hpr; zcase; lia.
    + right. apply (zero_or_hole_same (k_eng k)); [done|].
      apply W9; revert Hpr; zcase; lia.
Qed.

Lemma step_map_read ok path offset length blocksize cb s v fly s' v' exts :
  koio_inv (mkWorld s v fly) ->
  nk_blockmap ok (Some v) path offset length false blocksize (Some cb) s = (0, Some v', s', exts) ->
  koio_inv (mkWorld s' v' fly).
Proof.
  intros I E. pose proof I as [I1 I2 I3 I4 I5]. simpl in *.
  destruct (nk_blockmap_cases vol _ _ _ _ _ _ _ _ _ _ _ _ _ E I1 Hvol I3) as (v1 & Hv1 & C).
  injection Hv1 as <-.
  inversion C as [m0 r0 v0 s0 e0 Hr| m0 nonres k s0 wr mark pk e Hw
                 |m nonres k s0 ie mark pk Hw Hpf W Hres Q O]; [lia|done|subst s0 v'].
  destruct W as [W1 W2 W3 W4 W5 W6 W7 W8]. fold mark in W4.
  rewrite <- (with_wr_same v).
  pose proof (I3 m) as I3m. pose proof (I4 m) as I4m. fold mark in I3m, I4m.
  apply (koio_inv_one_file s v fly s' (v_wr v) fly m I); [by eapply quiet_others|done..| |]; fold mark.
  - rewrite (so_size _ _ O). lia.
  - intros p Hp. rewrite (so_init _ _ O). intros Hpr.
    destruct (I5 m p Hp) as [Hf|Hz]; [fold mark; lia|by left|]. right.
    apply (mapped_zero m s s' k nonres); try done. lia.
Qed.

Lemma step_kernel_write s v fly s' :
  koio_inv (mkWorld s v fly) -> kernel_write fly s s' -> koio_inv (mkWorld s' v fly).
Proof.
  intros [I1 I2 I3 I4 I5] [K1 K2 K3 K4]. simpl in *. constructor; simpl; try done.
  - intros m. by rewrite K3.
  - intros m p Hp. rewrite K2. intros Hpr.
    destruct (decide (Exists (fun w => w_file w = m /\ w_lo w <= p < w_hi w) fly)) as [Hf|Hnf]; [by left|].
    right. destruct (I5 m p Hp Hpr) as [Hf|Hz]; [done|].
    intros a Ha. rewrite K1 in Ha. rewrite (K4 m p a Ha Hnf). by apply Hz.
Qed.

(** Removing the window of file [m] from those in flight. *)
Lemma in_flight_other l1 w l2 m' p :
  m' <> w_file w -> in_flight (l1 ++ w :: l2) m' p -> in_flight (l1 ++ l2) m' p.
Proof. intros Hne. rewrite in_flight_middle. intros [[? _]|?]; [congruence|done]. Qed.

Lemma step_complete path offset length s v l1 w l2 s' v' :
  koio_inv (mkWorld s v (l1 ++ w :: l2)) ->
  nk_complete_write (Some v) path offset length s = (0, Some v', s') ->
  path_file path s = Some (w_file w) -> offset <= w_lo w -> w_hi w <= offset + length ->
  (gap_floor (v_wr v) (w_file w) (f_init s (w_file w)) < offset -> path_sound vol path s) ->
  koio_inv (mkWorld s' v' (l1 ++ l2)).
Proof.
  intros I E Hpf Hlo Hhi Hsnd. pose proof I as [I1 I2 I3 I4 I5]. simpl in *.
  destruct (nk_complete_write_spec vol _ _ _ _ _ _ _ _ E I1 Hvol I3)
    as (v1 & m & [= <-] & _ & Ho & [?|(_ & Hpf' & Hof & Hl & wr' & -> & C)]);
    [by intros m Hm; rewrite Hpf in Hm; injection Hm as <-|done|].
  rewrite Hpf' in Hpf. injection Hpf as Hm. destruct C as [C1 C2 C3 C4 C5 C6].
  pose proof (I3 m) as I3m. pose proof (I4 m) as I4m.
  assert (wr_ok wr' /\ (forall m', m' <> m -> wr_hwm wr' m' = wr_hwm (v_wr v) m') /\
          0 <= wr_hwm wr' m <= wr_hwm (v_wr v) m) as (Hok & Hoth & Hmk).
  { destruct C6 as [->|[-> _]]; [by auto|]. split; [by apply wr_drop_map|].
    split; [intros m' Hne|]; rewrite wr_hwm_drop by done; [by destruct (Z.eqb_spec m' m)|].
    rewrite Z.eqb_refl. lia. }
  apply (koio_inv_one_file s v _ s' wr' _ m I Ho); [done|done| |lia|rewrite C1; lia|].
  - intros m' p Hne. apply in_flight_other. congruence.
  - intros p Hp Hpr.
    assert (f_init s m <= f_init s' m) as Hmono
      by (destruct (Z.lt_ge_cases offset (f_size s m)); [rewrite C3 by done; lia|rewrite C2 by done; lia]).
    destruct (I5 m p Hp) as [Hf|Hz]; [lia| |right; by apply C4].
    apply in_flight_middle in Hf as [[_ Hw]|Hf]; [|by left]. exfalso.
    destruct (Z.lt_ge_cases offset (f_size s m)); [|lia]. rewrite C3 in Hpr by done. lia.
Qed.

Lemma wr_hwm_store wr m h m' :
  wr_ok wr -> wr_find wr m <> None ->
  wr_ok (wr_store wr m h) /\ wr_hwm (wr_store wr m h) m' = if m' =? m then h else wr_hwm wr m'.
Proof.
  intros Hok Hf. pose proof (wr_store_set wr m h Hf) as Hs.
  split; [by eapply wr_set_map|by eapply wr_hwm_set].
Qed.

Lemma step_abort path offset length s v l1 w l2 s' v' :
  koio_inv (mkWorld s v (l1 ++ w :: l2)) ->
  nk_abort_write (Some v) path offset length s = (0, Some v', s') -> opens path s ->
  path_file path s = Some (w_file w) -> offset <= w_lo w -> w_hi w <= offset + length ->
  (offset + length < wr_hwm (v_wr v) (w_file w) -> path_sound vol path s) ->
  koio_inv (mkWorld s' v' (l1 ++ l2)).
Proof.
  intros I E Hopen Hpf Hlo Hhi Hsnd. pose proof I as [I1 I2 I3 I4 I5]. simpl in *.
  destruct (nk_abort_write_spec vol _ _ _ _ _ _ _ _ E I1 Hvol Hopen)
    as (wr' & m & [= ->] & _ & Ho & [?|(_ & Hpf' & Hof & Hl & [C1 C2 C3 C4])]);
    [by intros m Hm; rewrite Hpf in Hm; injection Hm as <-|done|].
  rewrite Hpf' in Hpf. injection Hpf as Hm.
  pose proof (I3 m) as I3m. pose proof (I4 m) as I4m.
  assert (wr_ok wr' /\ (forall m', m' <> m -> wr_hwm wr' m' = wr_hwm (v_wr v) m') /\
          0 <= wr_hwm wr' m <= wr_hwm (v_wr v) m /\
          (wr_hwm wr' m <= offset \/ wr_hwm wr' m = wr_hwm (v_wr v) m)) as (Hok & Hoth & Hmk & Hmk').
  { destruct C4 as [[-> _]|[[-> _]|(Hr & [->| ->] & Hf)]]; [split_and!; (done || lia || by right)..| |].
    - split; [by apply wr_hwm_store|]. split; [intros m' Hne|];
        rewrite (fun x => proj2 (wr_hwm_store (v_wr v) m offset x I2 Hf)); [by destruct (Z.eqb_spec m' m)|].
      rewrite Z.eqb_refl. lia.
    - destruct (wr_hwm_store (v_wr v) m offset m I2 Hf) as [Hok' _].
      split; [by apply wr_drop_map|]. split; [intros m' Hne|]; rewrite wr_hwm_drop by done.
      + destruct (Z.eqb_spec m' m); [done|]. rewrite (proj2 (wr_hwm_store _ m offset m' I2 Hf)).
        by destruct (Z.eqb_spec m' m).
      + rewrite Z.eqb_refl. lia. }
  apply (koio_inv_one_file s v _ s' wr' _ m I Ho); [done|done| |lia|rewrite C1; lia|].
  - intros m' p Hne. apply in_flight_other. congruence.
  - intros p Hp. rewrite C2. intros Hpr.
    destruct (I5 m p Hp) as [Hf|Hz]; [lia| |right; by apply C3].
    apply in_flight_middle in Hf as [[_ Hw]|Hf]; [|by left]. right.
    destruct C4 as [[-> Hle]|[(-> & Hlow & Hz)|(Hr & [->| ->] & Hf)]].
    + lia.
    + apply Hz; lia.
    + rewrite (proj2 (wr_hwm_store _ m offset m I2 Hf)), Z.eqb_refl in Hpr. lia.
    + destruct (wr_hwm_store (v_wr v) m offset m I2 Hf) as [Hok' _].
      rewrite wr_hwm_drop, Z.eqb_refl in Hpr by done. lia.
Qed.

Lemma step_truncate path size s v fly s' v' :
  koio_inv (mkWorld s v fly) -> nk_truncate (Some v) path size s = (0, Some v', s') ->
  path_uncompressed path s -> koio_inv (mkWorld s' v' fly).
Proof.
  intros I E Hunc. pose proof I as [I1 I2 I3 I4 I5]. simpl in *.
  destruct (nk_truncate_spec vol _ _ _ _ _ _ E Hunc) as (wr' & m & [= ->] & _ & Ho & T1 & T2 & T3 & T4 & T5).
  pose proof (I3 m) as I3m. pose proof (I4 m) as I4m.
  assert (wr_ok wr' /\ (forall m', m' <> m -> wr_hwm wr' m' = wr_hwm (v_wr v) m') /\
          0 <= wr_hwm wr' m <= size /\ wr_hwm wr' m <= wr_hwm (v_wr v) m)
    as (Hok & Hoth & Hmk & Hmk').
  { destruct T5 as [[-> Hle]|(-> & Hlt & Hf)]; [split_and!; (done || lia)|].
    split; [by apply wr_hwm_store|]. split; [intros m' Hne|];
      rewrite (fun x => proj2 (wr_hwm_store (v_wr v) m size x I2 Hf)); [by destruct (Z.eqb_spec m' m)|].
    rewrite Z.eqb_refl. lia. }
  apply (koio_inv_one_file s v fly s' wr' fly m I Ho); [done|done|done|lia|lia|].
  intros p Hp Hpr. destruct (I5 m p Hp) as [Hf|Hz]; [lia|by left|]. right.
  destruct T4 as [Hr|T4]; [lia|]. apply T4; [lia|done].
Qed.

Lemma koio_step_inv w w' : koio_inv w -> koio_step w w' -> koio_inv w'.
Proof.
  intros I. destruct 1.
  - by eapply step_map_write.
  - by eapply step_map_read.
  - by eapply step_kernel_write.
  - by eapply step_complete.
  - by eapply step_abort.
  - by eapply step_truncate.
Qed.

(** A freshly mounted volume has no marks and nothing in flight. *)
Lemma koio_inv_mounted s v : v_vol v = vol -> v_wr v = [] -> koio_inv (mkWorld s v []).
Proof.
  intros Hv Hw. assert (forall m, wr_hwm (v_wr v) m = 0) as Hz by (by rewrite Hw).
  constructor; simpl; [done|by rewrite Hw; constructor|..]; intros m; rewrite Hz; lia.
Qed.

End KoioSafety.
