(* ===== verification/ToyEngine.v ===== *)
(** * An engine with one file

    A concrete instance of [Engine] that satisfies [EngineLaws]: one non-resident
    file of at most eight clusters of 512 bytes, each in a hole or at its place on
    the device.  It shows that the laws are consistent, and the theorems about the
    KOIO code are run on it. *)

From S2P Require Import Prelude WriteMarks Runlist Engine.

Definition toy_vol : volume := mkVol 512 100 false.

(** The file's inode and its reference; its clusters start at [TOY_LCN]. *)
Definition toy_ino : inode := mkInode 64 1.
Definition TOY : Z := Eval vm_compute in nk_mref toy_ino.
Definition TOY_LCN : Z := 10.
Definition TOY_CLUSTERS : Z := 8.

(** [t_map c]: cluster [c] of the file is allocated; [t_broken]: opening its
    attribute fails; [t_others]: the recorded sizes of files that have no data. *)
Record toy := mkToy {
  t_init : Z; t_size : Z; t_map : Z -> bool; t_disk : Z -> Z; t_broken : bool;
  t_others : Z -> Z }.

Definition toy_run (s : toy) (c : Z) : rle :=
  mkRle c (if t_map s c then TOY_LCN + c else -1) 1.

Definition toy_rl (s : toy) : list rle :=
  toy_run s <$> [0; 1; 2; 3; 4; 5; 6; 7].

Definition toy_attr (s : toy) (init : Z) (rl : list rle) : attr :=
  mkAttr TOY true false false (t_size s) init rl.

(** Allocate the clusters [sel] selects; what is new is zero. *)
Definition toy_alloc (sel : Z -> bool) (s : toy) : toy :=
  mkToy (t_init s) (t_size s) (fun c => t_map s c || sel c)
    (fun a => if t_map s (a / 512 - TOY_LCN) then t_disk s a else 0) (t_broken s) (t_others s).

Definition toy_store (from to : Z) (byte : Z -> Z) (s : toy) : toy :=
  mkToy (t_init s) (t_size s) (t_map s)
    (fun a => if (TOY_LCN * 512 + from <=? a) && (a <? TOY_LCN * 512 + to)
              then byte (a - TOY_LCN * 512) else t_disk s a) (t_broken s) (t_others s).

Definition toy_pwrite (na : attr) (pos : Z) (data : list Z) (s : toy) : Z * attr * toy :=
  let len := Z.of_nat (length data) in
  let fin := pos + len in
  if (pos <? 0) || (t_size s <? fin) || (TOY_CLUSTERS * 512 <? fin) then (-1, na, s) else
  let lo := Z.min (na_initialized_size na) pos in
  let s1 := toy_alloc (fun c => (c * 512 <? fin) && (pos <? (c + 1) * 512)) s in
  let s2 := toy_store lo pos (fun _ => 0) s1 in
  let s3 := toy_store pos fin (fun p => default 0 (data !! Z.to_nat (p - pos))) s2 in
  let init := if na_initialized_size na <? fin then fin else t_init s in
  (len, toy_attr s (Z.max (na_initialized_size na) fin) (na_rl na),
   mkToy init (t_size s) (t_map s3) (t_disk s3) (t_broken s3) (t_others s)).

Definition toy_solid (na : attr) (size : Z) (s : toy) : bool * attr * toy :=
  if (size <? t_size s) || (TOY_CLUSTERS * 512 <? size) then (true, na, s) else
  let s1 := toy_alloc (fun c => (t_size s <=? c * 512) && (c * 512 <? size)) s in
  let s2 := mkToy (t_init s1) size (t_map s1) (t_disk s1) (t_broken s1) (t_others s) in
  (false, toy_attr s2 (na_initialized_size na) (na_rl na), s2).

Definition toy_truncate (na : attr) (size : Z) (s : toy) : bool * attr * toy :=
  if (size <? 0) || (TOY_CLUSTERS * 512 <? size) then (true, na, s) else
  let s1 := mkToy (Z.min (t_init s) size) size (t_map s) (t_disk s) (t_broken s) (t_others s) in
  (false, toy_attr s1 (Z.min (t_init s) size) (na_rl na), s1).

#[export] Instance toy_engine : Engine toy := {
  pathname_to_inode path s :=
    (if decide (path = [47; 97]) then Some toy_ino else None, s);
  inode_sync _ s := (false, s);
  inode_close _ s := (false, s);
  inode_update_times _ s := s;
  attr_open ni s :=
    (if (nk_mref ni =? TOY) && negb (t_broken s) then Some (toy_attr s (t_init s) []) else None, s);
  attr_close _ s := s;
  attr_force_non_resident na s := (false, na, s);
  attr_truncate := toy_truncate;
  attr_truncate_solid := toy_solid;
  attr_map_whole_runlist na s := (false, toy_attr s (na_initialized_size na) (toy_rl s), s);
  attr_pwrite := toy_pwrite;
  dev_pwrite at_ data s :=
    (Z.of_nat (length data),
     toy_store (at_ - TOY_LCN * 512) (at_ - TOY_LCN * 512 + Z.of_nat (length data))
       (fun p => default 0 (data !! Z.to_nat (p + TOY_LCN * 512 - at_))) s);
  attr_get_search_ctx _ s := (true, s);
  attr_lookup _ s := (false, s);
  attr_put_search_ctx _ s := s;
  rec_set_initialized_size na v s :=
    if na_mref na =? TOY then mkToy v (t_size s) (t_map s) (t_disk s) (t_broken s) (t_others s)
    else mkToy (t_init s) (t_size s) (t_map s) (t_disk s) (t_broken s)
           (fun m => if m =? na_mref na then v else t_others s m);
  inode_mark_dirty _ s := s;
}.

Definition toy_phys (s : toy) (m p : Z) : option Z :=
  if (m =? TOY) && (0 <=? p) && (p <? TOY_CLUSTERS * 512) && t_map s (p / 512)
  then Some (TOY_LCN * 512 + p) else None.

#[export] Instance toy_view : EngineView toy := {
  phys := toy_phys;
  dbyte := t_disk;
  f_init s m := if m =? TOY then t_init s else t_others s m;
  f_size s m := if m =? TOY then t_size s else 0;
  opened s m na := m = TOY /\ na_mref na = TOY /\ na_nonresident na = true /\ na_data_size na = t_size s;
}.

Lemma toy_phys_Some s m p a :
  toy_phys s m p = Some a ->
  m = TOY /\ 0 <= p < TOY_CLUSTERS * 512 /\ t_map s (p / 512) = true /\ a = TOY_LCN * 512 + p.
Proof.
  unfold toy_phys. destruct (_ && _) eqn:E; [|done]. intros [= <-].
  apply andb_true_iff in E as [E E4]. zb. done.
Qed.

Lemma toy_phys_intro s p :
  0 <= p < TOY_CLUSTERS * 512 -> t_map s (p / 512) = true -> toy_phys s TOY p = Some (TOY_LCN * 512 + p).
Proof.
  intros Hp Hm. unfold toy_phys. rewrite Hm, Z.eqb_refl.
  rewrite (proj2 (Z.leb_le _ _)), (proj2 (Z.ltb_lt _ _)) by lia. done.
Qed.

Lemma toy_cluster p : (TOY_LCN * 512 + p) / 512 - TOY_LCN = p / 512.
Proof. unfold TOY_LCN. rewrite Z.div_add_l by lia. lia. Qed.

Lemma toy_alloc_keep sel s m p a :
  toy_phys s m p = Some a ->
  toy_phys (toy_alloc sel s) m p = Some a /\ t_disk (toy_alloc sel s) a = t_disk s a.
Proof.
  intros H. apply toy_phys_Some in H as (-> & Hp & Hm & ->). split.
  - apply toy_phys_intro; [done|]. simpl. by rewrite Hm.
  - cbn [toy_alloc t_disk]. by rewrite toy_cluster, Hm.
Qed.

Lemma toy_alloc_fresh sel s m p a :
  toy_phys s m p = None -> toy_phys (toy_alloc sel s) m p = Some a ->
  t_disk (toy_alloc sel s) a = 0 /\ sel (p / 512) = true.
Proof.
  intros Hn H. apply toy_phys_Some in H as (-> & Hp & Hm & ->). simpl in Hm.
  destruct (t_map s (p / 512)) eqn:E; [by rewrite (toy_phys_intro s p Hp E) in Hn|].
  cbn [toy_alloc t_disk]. by rewrite toy_cluster, E.
Qed.

Lemma toy_store_byte from to byte s p :
  t_disk (toy_store from to byte s) (TOY_LCN * 512 + p) =
  if (from <=? p) && (p <? to) then byte p else t_disk s (TOY_LCN * 512 + p).
Proof.
  cbn [toy_store t_disk]. replace (TOY_LCN * 512 + p - TOY_LCN * 512) with p by lia.
  repeat zcase; simpl; (done || lia).
Qed.

Lemma toy_rl_phys s p : rl_phys 512 (toy_rl s) p = toy_phys s TOY p.
Proof.
  unfold rl_phys, toy_rl, toy_phys, TOY_CLUSTERS. rewrite Z.eqb_refl. simpl.
  assert (forall c, in_run 512 (toy_run s c) p = true -> p / 512 = c) as Hc.
  { intros c Hc. unfold in_run, toy_run in Hc. simpl in Hc. zb.
    symmetry. apply (Z.div_unique p 512 c (p - 512 * c)); lia. }
  assert (forall c, run_phys 512 (toy_run s c) p =
            if (t_map s c) && (0 <=? TOY_LCN + c) then Some (TOY_LCN * 512 + p) else None) as Hr.
  { intros c. unfold run_phys, toy_run. simpl. destruct (t_map s c); [|done]. simpl.
    zcase; [|done]. f_equal. lia. }
  repeat match goal with |- context [if in_run 512 (toy_run s ?c) p then _ else _] =>
    let E := fresh in destruct (in_run 512 (toy_run s c) p) eqn:E;
      [pose proof (Hc c E); unfold in_run, toy_run in E; simpl in E; rewrite Hr;
       match goal with H : p / 512 = _ |- _ => rewrite H end; zb;
       rewrite (proj2 (Z.leb_le 0 p)), (proj2 (Z.ltb_lt p (8 * 512))) by lia; simpl;
       by destruct (t_map s _)|]
  end.
  unfold in_run, toy_run in *. simpl in *.
  destruct (Z.leb_spec 0 p), (Z.ltb_spec p (8 * 512)); simpl; try done.
  repeat match goal with H : _ && _ = false |- _ => apply andb_false_iff in H as [H|H] end; zb; lia.
Qed.

(** Only the one file can change. *)
Lemma toy_others s s' : t_others s' = t_others s -> others_same TOY s s'.
Proof.
  intros Ho. constructor; simpl.
  - intros m' p Hne. unfold toy_phys. by rewrite (proj2 (Z.eqb_neq _ _) Hne).
  - intros m' p a Hne Hp. by apply toy_phys_Some in Hp as [-> _].
  - intros m' Hne. by rewrite (proj2 (Z.eqb_neq _ _) Hne), Ho.
  - intros m' Hne. by rewrite (proj2 (Z.eqb_neq _ _) Hne).
Qed.

Section Pwrite.

Variables (s : toy) (na : attr) (pos : Z) (data : list Z).
Let fin := pos + Z.of_nat (length data).
Let lo := Z.min (na_initialized_size na) pos.
Let sel := fun c => (c * 512 <? fin) && (pos <? (c + 1) * 512).
Let s3 := toy_store pos fin (fun p => default 0 (data !! Z.to_nat (p - pos)))
            (toy_store lo pos (fun _ => 0) (toy_alloc sel s)).

Lemma toy_phys_s3 m p : toy_phys s3 m p = toy_phys (toy_alloc sel s) m p.
Proof. done. Qed.

Lemma toy_byte_s3 p :
  t_disk s3 (TOY_LCN * 512 + p) =
  if (pos <=? p) && (p <? fin) then default 0 (data !! Z.to_nat (p - pos))
  else if (lo <=? p) && (p <? pos) then 0 else t_disk (toy_alloc sel s) (TOY_LCN * 512 + p).
Proof. unfold s3. by rewrite !toy_store_byte. Qed.

Lemma toy_in_range p : pos <= p < fin -> sel (p / 512) = true.
Proof.
  intros Hp. unfold sel. pose proof (Z.div_mod p 512). pose proof (Z.mod_pos_bound p 512).
  apply andb_true_iff. rewrite !Z.ltb_lt. lia.
Qed.

Lemma toy_mapped_in p :
  0 <= pos -> fin <= TOY_CLUSTERS * 512 -> pos <= p < fin ->
  toy_phys s3 TOY p = Some (TOY_LCN * 512 + p).
Proof.
  intros H1 H2 Hp. rewrite toy_phys_s3. apply toy_phys_intro; [lia|].
  cbn [toy_alloc t_map]. rewrite toy_in_range by done. apply orb_true_r.
Qed.

Lemma toy_pwrite_facts :
  0 <= pos -> fin <= TOY_CLUSTERS * 512 ->
  (forall m' p a, toy_phys s m' p = Some a -> toy_phys s3 m' p = Some a) /\
  (forall m' p a, toy_phys s m' p = Some a -> m' <> TOY \/ p < lo \/ fin <= p ->
     t_disk s3 a = t_disk s a) /\
  (forall p, pos <= p < fin -> data !! Z.to_nat (p - pos) = Some (t_disk s3 (TOY_LCN * 512 + p))) /\
  (forall p a, lo <= p < pos -> toy_phys s3 TOY p = Some a -> t_disk s3 a = 0) /\
  (forall p a, toy_phys s TOY p = None -> p < pos \/ fin <= p -> toy_phys s3 TOY p = Some a ->
     t_disk s3 a = 0).
Proof.
  intros H1 H2. split_and!.
  - intros m' p a Ha. rewrite toy_phys_s3. by apply toy_alloc_keep.
  - intros m' p a Ha Hp. pose proof (toy_alloc_keep sel s m' p a Ha) as [_ Hb].
    apply toy_phys_Some in Ha as (-> & Hr & _ & ->). rewrite toy_byte_s3, Hb.
    destruct Hp as [?|Hp]; [done|]. repeat zcase; simpl; (done || unfold lo in *; lia).
  - intros p Hp. rewrite toy_byte_s3, (proj2 (Z.leb_le _ _)), (proj2 (Z.ltb_lt _ _)) by lia. simpl.
    destruct (lookup_lt_is_Some_2 data (Z.to_nat (p - pos))) as [x Hx]; [unfold fin in *; lia|].
    by rewrite Hx.
  - intros p a Hp Ha. apply toy_phys_Some in Ha as (_ & _ & _ & ->). rewrite toy_byte_s3.
    repeat zcase; simpl; (done || lia).
  - intros p a Hn Hp Ha. rewrite toy_phys_s3 in Ha. destruct (toy_alloc_fresh _ _ _ _ _ Hn Ha) as [Hz _].
    apply toy_phys_Some in Ha as (_ & _ & _ & ->). rewrite toy_byte_s3, Hz.
    repeat zcase; simpl; (done || lia).
Qed.

End Pwrite.

#[export] Instance toy_laws : EngineLaws toy toy_vol.
Proof.
  constructor; try (intros; reflexivity).
  - intros s m1 m2 p1 p2 a H1 H2. apply toy_phys_Some in H1 as (-> & _ & _ & ->).
    apply toy_phys_Some in H2 as (-> & _ & _ & ?). lia.
  - intros na v s m p. simpl. by destruct (_ =? _).
  - intros na v s m p a _. simpl. by destruct (_ =? _).
  - intros na v s m. simpl. by destruct (na_mref na =? TOY).
  - intros na v s m. simpl. destruct (Z.eqb_spec (na_mref na) TOY) as [->|Hne]; simpl.
    + by destruct (m =? TOY).
    + destruct (Z.eqb_spec m TOY) as [->|]; [|done].
      by rewrite (proj2 (Z.eqb_neq _ _) (not_eq_sym Hne)).
  - intros ni s na s'. simpl. destruct (Z.eqb_spec (nk_mref ni) TOY) as [Hm|]; [|done].
    destruct (t_broken s); [done|]. intros [= <- <-]. simpl. done.
  - intros s m na (-> & Hm & _). done.
  - intros s m na (-> & _ & _ & Hs). done.
  - intros s m na v (-> & Hm & Hn & Hs) _. done.
  - intros s m na (_ & _ & Hn & _). congruence.
  - intros s m na err na' s' _ (_ & _ & Hn & _). congruence.
  - intros s m na size err na' s' E (-> & Hm & Hn & Hs) _ Hlt. cbn in E. unfold toy_solid in E.
    destruct ((size <? t_size s) || _) eqn:Hc.
    { injection E as <- <- <-. split; [apply keeps_refl|]. split; [apply others_same_refl|]. done. }
    injection E as <- <- <-. split; [|split; [by apply toy_others|]].
    + intros m p a _ Ha. by apply (toy_alloc_keep (fun c => (t_size s <=? c * 512) && (c * 512 <? size))) in Ha.
    + split; [done|]. split; [done|]. split; [done|]. split; [done|]. intros _. split; [done|].
      intros p Hp Hp'. cbn [phys toy_view] in Hp, Hp'.
      destruct (toy_phys _ TOY p) as [a|] eqn:Ha in Hp'; [|done].
      destruct (toy_alloc_fresh (fun c => (t_size s <=? c * 512) && (c * 512 <? size)) s TOY p a Hp Ha) as [_ Hsel].
      simpl. zb. pose proof (Z.div_mod p 512). pose proof (Z.mod_pos_bound p 512). lia.
  - intros s m na err na' s' E (-> & Hm & Hn & Hs) _. simpl in E. injection E as <- <- <-.
    split; [reflexivity|]. split; [done|]. split; [done|]. split; [done|]. intros _.
    split; [done|]. intros p. apply toy_rl_phys.
  - intros s m na pos data n na' s' E (-> & Hm & Hn & Hs) _ Hp Hl Hfin. cbn in E. unfold toy_pwrite in E.
    set (fin := pos + Z.of_nat (length data)) in *. cbv zeta.
    destruct ((pos <? 0) || (t_size s <? fin) || (TOY_CLUSTERS * 512 <? fin)) eqn:Hc.
    { injection E as <- <- <-. split; [apply keeps_refl|]. split; [done|]. split; [apply others_same_refl|].
      split; [done|]. split; [done|]. split; [done|]. lia. }
    zb. destruct (toy_pwrite_facts s na pos data) as (F1 & F2 & F3 & F4 & F5); [lia|done|].
    injection E as <- <- <-.
    split; [|split; [exact F1|split; [by apply toy_others|]]].
    { intros m' p a HP Ha. split; [by apply F1|]. by apply (F2 m' p a). }
    split; [done|]. split; [done|]. split; [done|]. intros _.
    split; [done|]. split; [done|]. split; [|split].
    + intros p Hpr. exists (TOY_LCN * 512 + p). split; [by apply (toy_mapped_in s na pos data)|by apply F3].
    + intros p Hpr a Ha. apply (F4 p a); [lia|done].
    + intros p Hpn Hpr a Ha. by apply (F5 p a).
  - intros at_ data n s s' E. simpl in E. injection E as <- <-.
    split; [done|]. split; [done|]. split; [done|]. split; [|split; [|done]].
    + intros m p a Ha Hr. apply toy_phys_Some in Ha as (_ & _ & _ & ->). cbn [dbyte toy_view].
      rewrite toy_store_byte. repeat zcase; simpl; (done || lia).
    + intros _ m p a Ha Hr. apply toy_phys_Some in Ha as (_ & _ & _ & ->). cbn [dbyte toy_view].
      rewrite toy_store_byte, (proj2 (Z.leb_le _ _)), (proj2 (Z.ltb_lt _ _)) by lia. simpl.
      replace (p + TOY_LCN * 512 - at_) with (TOY_LCN * 512 + p - at_) by lia.
      destruct (lookup_lt_is_Some_2 data (Z.to_nat (TOY_LCN * 512 + p - at_))) as [x Hx]; [lia|].
      by rewrite Hx.
  - intros s m na size err na' s' E (-> & Hm & Hn & Hs). cbn in E. unfold toy_truncate in E.
    split; [apply toy_others; destruct (_ || _); by injection E as <- <- <-|]. intros ->.
    destruct (_ || _) eqn:Hc; [done|]. injection E as <- <-. zb. simpl.
    split; [done|]. split; [done|]. split; [done|]. intros _ _ p Hp.
    unfold zero_or_hole. cbn [phys toy_view toy_phys t_map].
    change (toy_phys (mkToy _ _ _ _ _ _) TOY p) with (toy_phys s TOY p).
    destruct (toy_phys s TOY p); [by split|done].
Qed.
