(* ===== verification/KoioTheorems.v ===== *)
(** * The theorems about kernel-offloaded I/O

    Safety of [nk_blockmap], [nk_complete_write] and [nk_abort_write] for every
    engine that satisfies [EngineLaws], with runs on the one-file engine of
    [ToyEngine]. *)

From stdpp Require Import relations.
From S2P Require Import Prelude WriteMarks Runlist Engine Koio KoioFacts KoioInv KoioSafety ToyEngine.

(** A file of 1000 bytes, 100 of them initialised, on clusters 0 and 1, with
    stale bytes (7) on the whole device. *)
Definition toy0 : toy :=
  mkToy 100 1000 (fun c => c <? 2) (fun _ => 7) false (fun _ => 0).
Definition toy_v : nk_volume := mkNkVolume toy_vol false [].
Definition toy_path : list Z := [47; 97].
Definition never_full : list extent -> extent -> bool := fun _ _ => false.

Lemma toy_path_found (s : toy) : pathname_to_inode toy_path s = (Some toy_ino, s).
Proof. unfold pathname_to_inode, toy_engine. by rewrite decide_True. Qed.

Lemma toy_vol_ok : vol_ok toy_vol.
Proof. unfold vol_ok, INT64_MAX. simpl. lia. Qed.

(** The runlist of the one file passes [bad_runlist] in every state. *)
Lemma toy_sound path (s : toy) : path_sound toy_vol path s.
Proof.
  intros ni s1 na s2 _ _ na1 s3 [= <- <-]. simpl. clear s s1. unfold toy_rl, toy_run. simpl.
  unfold bad_runlist, bad_run. simpl.
  destruct (t_map s2 0), (t_map s2 1), (t_map s2 2), (t_map s2 3), (t_map s2 4), (t_map s2 5),
    (t_map s2 6), (t_map s2 7); reflexivity.
Qed.

Lemma window_good offset length :
  0 <= offset -> 0 < length -> offset + length <= INT64_MAX -> window_bad offset length = false.
Proof. intros. unfold window_bad. repeat zcase; simpl; (done || lia). Qed.

(** The outcomes of a call, computed. *)
Definition run_map (v : nk_volume) (offset length : Z) (w : bool) (s : toy) :=
  nk_blockmap true (Some v) toy_path offset length w 512 (Some never_full) s.

(** [C2] No clobbering.  Whatever [nk_blockmap] answers, and wherever in its work
    it fails, the bytes of every file that are initialised or may be in flight
    (below [initialized_size] or below the mark) stay where they are on the device
    and keep their value; and at most one file is affected at all. *)
Theorem nk_blockmap_no_clobber : forall (S : Type) vol `{EngineLaws S vol} ok v path offset length
    for_write blocksize cb (s : S) r v' s' exts,
  nk_blockmap ok (Some v) path offset length for_write blocksize (Some cb) s = (r, v', s', exts) ->
  v_vol v = vol -> vol_ok vol -> (forall m, 0 <= wr_hwm (v_wr v) m) ->
  (forall m p a, phys s m p = Some a -> p < Z.max (f_init s m) (wr_hwm (v_wr v) m) ->
     phys s' m p = Some a /\ dbyte s' a = dbyte s a) /\
  (exists m, others_same m s s').
Proof.
  intros S vol E V L ok v path offset length w bs cb s r v' s' exts Hc Hvol Hv Hm.
  destruct (nk_blockmap_cases vol _ _ _ _ _ _ _ _ _ _ _ _ _ Hc Hvol Hv Hm) as (v1 & _ & C).
  assert (exists m, quiet m (Z.max (f_init s m) (wr_hwm (v_wr v) m)) s s') as [m [Q1 Q2]]
    by (destruct C; eauto).
  split; [|by exists m]. intros m' p a Ha Hp. apply (Q1 m' p a); [|done].
  destruct (decide (m' = m)) as [->|]; [by right|by left].
Qed.

Lemma nk_blockmap_no_clobber_witness :
  let '(r, v', s', _) := run_map toy_v 2048 512 true toy0 in
  r = 0 /\ dbyte s' (10 * 512 + 99) = 7 /\ dbyte s' (10 * 512 + 100) = 0 /\
  (phys s' TOY 99 = Some (10 * 512 + 99) /\ dbyte s' (10 * 512 + 99) = dbyte toy0 (10 * 512 + 99)).
Proof.
  destruct (run_map toy_v 2048 512 true toy0) as [[[r v'] s'] exts] eqn:E.
  pose proof (proj1 (nk_blockmap_no_clobber toy toy_vol true toy_v toy_path 2048 512 true 512
    never_full toy0 r v' s' exts E eq_refl toy_vol_ok (fun _ => Z.le_refl 0)) TOY 99 (10 * 512 + 99)
    eq_refl eq_refl) as Hk.
  vm_compute in E. injection E as <- <- <- <-. split; [reflexivity|]. split; [vm_compute; reflexivity|].
  split; [vm_compute; reflexivity|exact Hk].
Defined.



(** [C4] What a write map hands out.  When [nk_blockmap] answers 0 for a write, the
    extents cut a non-empty initial part of the window (the whole window for a
    packer that never fills up) into consecutive pieces of real clusters, each at
    the true device offset of its bytes; the file is at least that long; the part
    handed out is below the recorded mark or below [initialized_size]; and
    [initialized_size] has not moved past the start of the window. *)
Theorem nk_blockmap_write_extents : forall (S : Type) vol `{EngineLaws S vol} ok v path offset length
    blocksize cb (s : S) v' s' exts,
  nk_blockmap ok (Some v) path offset length true blocksize (Some cb) s = (0, v', s', exts) ->
  v_vol v = vol -> vol_ok vol -> wr_ok (v_wr v) -> (forall m, 0 <= wr_hwm (v_wr v) m) ->
  exists m v1, v' = Some v1 /\ path_file path s = Some m /\
    let e := exts_end offset exts in
    offset < e <= offset + length /\ tiles offset e exts /\
    Forall (real_extent s' m) exts /\
    ((forall l x, cb l x = false) -> e = offset + length) /\
    e <= f_size s' m /\
    (e <= wr_hwm (v_wr v1) m \/ e <= f_init s' m) /\
    f_init s m <= f_init s' m <= Z.max (f_init s m) offset.
Proof.
  intros S vol E V L ok v path offset length bs cb s v' s' exts Hc Hvol Hv Hok Hm.
  destruct (nk_blockmap_window _ _ _ _ _ _ _ _ _ _ _ _ Hc) as (Ho & Hl & Hmax).
  destruct (nk_blockmap_cases vol _ _ _ _ _ _ _ _ _ _ _ _ _ Hc Hvol Hv Hm) as (v1 & -> & C).
  inversion C as [m0 r0 v0 s0 e0 Hr| m nonres k s0 wr mark pk e Hw Hpf W Hres Q O Hfull Hwr Hr
                 |m0 nonres k s0 ie mark pk Hw]; [lia|subst s0 v1 exts|done].
  destruct W as [W1 W2 W3 W4 W5 W6 W7 W8 W9]. fold mark in W5, W9. subst pk e. rewrite Hvol in *.
  set (pk := pack_extents cb (cluster_size vol) offset length INT64_MAX (na_rl (k_na k))) in *.
  set (e := if pk_full pk then pk_covered pk else offset + length) in *.
  destruct (write_extents vol Hv cb offset length m (k_na k) (k_eng k) Ho Hl Hmax W1 W2)
    as (T1 & T2 & T3 & T4). fold pk in T1, T2, T3, T4.
  assert (e = pk_covered pk /\ offset < e /\ e <= offset + length) as (He & He1 & He2).
  { unfold e. destruct (pk_full pk) eqn:Hf; [specialize (T3 eq_refl)|specialize (Hfull eq_refl)]; lia. }
  exists m, (with_wr v wr). split; [done|]. split; [done|]. cbv zeta.
  rewrite (tiles_exts_end _ _ _ T1), <- He.
  split; [done|]. split; [by rewrite He|]. split_and!.
  - eapply Forall_impl; [exact T4|]. intros x [X1 X2]. split; [done|]. intros q Hq.
    rewrite (so_phys _ _ O). by apply X2.
  - intros Hcb. unfold e, pk, pack_extents. by rewrite pack_never_full.
  - rewrite (so_size _ _ O). lia.
  - rewrite (so_init _ _ O), W6. simpl. unfold new_wr in Hwr. fold mark in Hwr.
    destruct ((mark <? e) && (na_initialized_size (k_na k) <? e)) eqn:Hcond.
    + symmetry in Hwr. rewrite (wr_hwm_set _ _ _ _ _ _ Hok Hwr), Z.eqb_refl. left. lia.
    + injection Hwr as ->. fold mark. apply andb_false_iff in Hcond as [Hcond|Hcond]; zb; lia.
  - rewrite (so_init _ _ O), W6, W5. zcase; lia.
  - rewrite (so_init _ _ O), W6, W5. zcase; lia.
Qed.

Lemma nk_blockmap_write_extents_witness :
  let '(r, v', s', exts) := run_map toy_v 512 2048 true toy0 in
  r = 0 /\ exts = [mkExt 512 5632 512; mkExt 1024 6144 512; mkExt 1536 6656 512; mkExt 2048 7168 512] /\
  exists m v1, v' = Some v1 /\ path_file toy_path toy0 = Some m /\
    exts_end 512 exts <= f_size s' m.
Proof.
  destruct (run_map toy_v 512 2048 true toy0) as [[[r v'] s'] exts] eqn:E.
  assert (r = 0) as -> by (vm_compute in E; injection E as <- <- <- <-; reflexivity).
  destruct (nk_blockmap_write_extents toy toy_vol true toy_v toy_path 512 2048 512 never_full toy0 v' s'
    exts E eq_refl toy_vol_ok (NoDup_nil_2) (fun _ => Z.le_refl 0)) as (m & v1 & H1 & H2 & _ & _ & _ & _ & H3 & _).
  split; [reflexivity|]. split; [vm_compute in E; injection E as <- <- <-; reflexivity|].
  exists m, v1. auto.
Defined.

(** [C1] The KOIO invariant.  On a volume without cross-linked clusters, after any
    sequence of successful mappings (for read and for write), completions, aborts
    and truncations, interleaved with the kernel's writes into the windows it holds,
    on any number of files: no mark lies past the end of its file, and every byte
    between [initialized_size] and the mark is in a window the kernel still holds,
    or in a hole, or zero on the device.  The sequences are those of [koio_step]: an
    abort opens the attribute of its file (without that the invariant is lost); a
    completion that zeroes a gap, and an abort below the mark, are of a file whose
    mapped runlist passes [bad_runlist], which those two calls do not check; a
    truncated file is not compressed. *)
Theorem koio_reachable_inv : forall (S : Type) vol `{EngineLaws S vol} (s : S) v w,
  vol_ok vol -> v_vol v = vol -> v_wr v = [] ->
  rtc (koio_step vol) (mkWorld s v []) w ->
  forall m,
    wr_hwm (v_wr (w_vol w)) m <= Z.max 0 (f_size (w_eng w) m) /\
    forall p, 0 <= p -> f_init (w_eng w) m <= p < wr_hwm (v_wr (w_vol w)) m ->
      in_flight (w_fly w) m p \/ zero_or_hole (w_eng w) m p.
Proof.
  intros S vol E V L s v w Hv Hvol Hw Hr.
  assert (koio_inv vol w) as [_ _ _ I4 I5]; [|by auto].
  assert (koio_inv vol (mkWorld s v [])) as I by by apply koio_inv_mounted.
  revert I. induction Hr as [w|w1 w2 w3 Hs Hr IH]; [done|]. intros I.
  apply IH. by eapply koio_step_inv.
Qed.

(** Two windows are mapped, the upper one first, and it completes first. *)
Lemma koio_reachable_inv_witness :
  exists s2 v2 fly,
    rtc (koio_step toy_vol) (mkWorld toy0 toy_v []) (mkWorld s2 v2 fly) /\
    fly = [mkWindow TOY 1024 1536] /\ wr_hwm (v_wr v2) TOY = 0 /\
    f_init s2 TOY = 3072 /\
    wr_hwm (v_wr v2) TOY <= Z.max 0 (f_size s2 TOY).
Proof.
  destruct (run_map toy_v 2560 512 true toy0) as [[[r1 v1] s1] e1] eqn:E1.
  destruct v1 as [v1|]; [|vm_compute in E1; discriminate].
  assert (r1 = 0) as -> by (vm_compute in E1; injection E1 as <- <- <- <-; reflexivity).
  destruct (run_map v1 1024 512 true s1) as [[[r2 v2] s2] e2] eqn:E2.
  assert (exists v2' s3 v3, r2 = 0 /\ v2 = Some v2' /\ exts_end 2560 e1 = 3072 /\ exts_end 1024 e2 = 1536 /\
    nk_complete_write (Some v2') toy_path 2560 512 s2 = (0, Some v3, s3) /\
    wr_hwm (v_wr v3) TOY = 0 /\ f_init s3 TOY = 3072) as (v2' & s3 & v3 & -> & -> & He1 & He2 & E3 & Hw & Hi).
  { vm_compute in E1. injection E1 as <- <- <-. vm_compute in E2. injection E2 as <- <- <- <-.
    eexists _, _, _. do 4 (split; [reflexivity|]). split; [vm_compute; reflexivity|].
    split; vm_compute; reflexivity. }
  assert (rtc (koio_step toy_vol) (mkWorld toy0 toy_v []) (mkWorld s3 v3 [mkWindow TOY 1024 1536])) as Hr.
  { eapply rtc_l; [eapply (st_map_write toy_vol true toy_path); [exact E1|reflexivity]|].
    eapply rtc_l; [eapply (st_map_write toy_vol true toy_path); [exact E2|reflexivity]|].
    eapply rtc_l; [|apply rtc_refl]. rewrite He1, He2.
    apply (st_complete toy_vol toy_path 2560 512 s2 v2' [mkWindow TOY 1024 1536] (mkWindow TOY 2560 3072) [] s3 v3
             E3); [reflexivity|simpl; lia|simpl; lia|intros _; apply toy_sound]. }
  exists s3, v3, [mkWindow TOY 1024 1536]. split; [exact Hr|]. split; [reflexivity|].
  split; [exact Hw|]. split; [exact Hi|].
  apply (koio_reachable_inv toy toy_vol toy0 toy_v _ toy_vol_ok eq_refl eq_refl Hr TOY).
Defined.

(** [C3] What readers are shown.  In a world that satisfies the invariant, a
    successful map for read covers the whole window (unless the packer fills up)
    with consecutive extents.  Every byte it announces as data, below the end of the
    file, is initialised, or in a window the kernel is writing, or zero on the
    device, with one exception, which is a hole in the code's own contract: a byte
    at or above a mark that is above [initialized_size], not on a block boundary,
    and in the block where the initialised data end; the witness shows such a byte
    with old contents. *)
Theorem nk_blockmap_read_safe : forall (S : Type) vol `{EngineLaws S vol} ok v path offset length
    blocksize cb (s : S) v' s' exts fly,
  nk_blockmap ok (Some v) path offset length false blocksize (Some cb) s = (0, v', s', exts) ->
  vol_ok vol -> koio_inv vol (mkWorld s v fly) ->
  exists m, path_file path s = Some m /\
    (exists e, tiles offset e exts /\ offset < e <= offset + length /\
       ((forall l x, cb l x = false) -> e = offset + length)) /\
    forall e q, e ∈ exts -> 0 <= e_phys e -> e_log e <= q < e_log e + e_len e ->
      phys s' m q = Some (e_phys e + (q - e_log e)) /\
      (q < f_size s' m ->
         q < f_init s m \/ in_flight fly m q \/ zero_or_hole s' m q \/
         unpadded (f_init s m) (wr_hwm (v_wr v) m) (block_of blocksize) q).
Proof.
  intros S vol E V L ok v path offset length bs cb s v' s' exts fly Hc Hv I.
  pose proof I as [I1 I2 I3 I4 I5]. simpl in *.
  destruct (nk_blockmap_window _ _ _ _ _ _ _ _ _ _ _ _ Hc) as (Ho & Hl & Hmax).
  destruct (nk_blockmap_cases vol _ _ _ _ _ _ _ _ _ _ _ _ _ Hc I1 Hv I3) as (v1 & -> & C).
  inversion C as [m0 r0 v0 s0 e0 Hr| m0 nonres k s0 wr mark pk e Hw
                 |m nonres k s0 ie mark pk Hw Hpf W Hres Q O]; [lia|done|subst s0 v1 exts].
  destruct W as [[M1 M2 M3] W2 W3 W4 W5 W6 W7 W8]. fold mark in W4, W8. subst pk. rewrite I1 in *.
  set (pk := pack_extents cb (cluster_size vol) offset length ie (na_rl (k_na k))) in *.
  destruct (pack_extents_spec cb vol offset length ie Hv Ho Hl Hmax _ M1 M2)
    as ([P1 P2 P3 P4] & Hle & Hcov). fold pk in P1, P2, P3, P4, Hle, Hcov.
  exists m. split; [done|]. split.
  - pose proof (tiles_le _ _ _ P1) as Hge.
    destruct (negb (pk_full pk) && (pk_covered pk <? offset + length)) eqn:Hs.
    + exists (offset + length). zb. split; [|split; [lia|done]].
      eapply tiles_app; [exact P1|]. by apply tiles_one.
    + rewrite app_nil_r. exists (pk_covered pk). split; [done|]. apply andb_false_iff in Hs. zb.
      destruct (pk_full pk) eqn:Hf.
      * split; [specialize (P4 eq_refl); lia|]. intros Hcb. exfalso.
        unfold pk, pack_extents in Hf. by rewrite pack_never_full in Hf.
      * destruct Hs as [?|Hs]; [done|]. zb. split; [lia|]. intros _. lia.
  - intros e q He Hph Hq.
    assert (e ∈ pk_out pk) as Hin.
    { apply elem_of_app in He as [?|He]; [done|]. destruct (_ && _); [|by apply not_elem_of_nil in He].
      apply list_elem_of_singleton in He as ->. simpl in Hph. lia. }
    rewrite Forall_forall in P2. destruct (P2 e Hin q Hq) as [[? _]|(_ & Hqie & Hqp)]; [lia|].
    rewrite M3 in Hqp. split; [by rewrite (so_phys _ _ O)|]. intros Hqs.
    destruct (Z.lt_ge_cases q (f_init s m)) as [|Hqi]; [by left|]. right.
    pose proof (tiles_inside _ _ _ _ P1 Hin) as (Hlo & _).
    rewrite (so_size _ _ O) in Hqs.
    destruct (W8 q) as [Hqm|[Hz|Hu]]; [lia|done| | |].
    + destruct (I5 m q) as [Hf|Hz]; [lia|fold mark; lia|by left|]. right; left.
      pose proof (I4 m) as I4m. fold mark in I4m.
      apply (mapped_zero m s s' k nonres); try done. lia.
    + right; left. by apply (zero_or_hole_same (k_eng k)).
    + by right; right.
Qed.

(** A file of 1000 bytes, 600 of them initialised: bytes [600, 700) are mapped for
    write, then the block [512, 1024) for read. *)
Definition toy600 : toy := mkToy 600 1000 (fun c => c <? 2) (fun _ => 7) false (fun _ => 0).

Lemma nk_blockmap_read_safe_witness :
  let '(r1, v1, s1, exts1) := run_map toy_v 600 100 true toy600 in
  r1 = 0 /\ match v1 with None => False | Some v1 =>
  let '(r2, v2, s2, exts2) := run_map v1 512 512 false s1 in
  r2 = 0 /\ exts2 = [mkExt 512 5632 512] /\ dbyte s2 (5120 + 800) = 7 /\
  (800 < f_init s1 TOY \/ in_flight [mkWindow TOY 600 700] TOY 800 \/ zero_or_hole s2 TOY 800 \/
     unpadded (f_init s1 TOY) (wr_hwm (v_wr v1) TOY) 512 800) end.
Proof.
  destruct (run_map toy_v 600 100 true toy600) as [[[r1 v1] s1] exts1] eqn:E1.
  assert (r1 = 0 /\ exists v, v1 = Some v /\ exts_end 600 exts1 = 700 /\
    fst (fst (fst (run_map v 512 512 false s1))) = 0 /\
    snd (run_map v 512 512 false s1) = [mkExt 512 5632 512] /\
    dbyte (snd (fst (run_map v 512 512 false s1))) (5120 + 800) = 7 /\
    f_size (snd (fst (run_map v 512 512 false s1))) TOY = 1000 /\
    path_file toy_path s1 = Some TOY)
    as (-> & v & -> & He1 & H1 & H2 & H3 & H4 & Hpf).
  { vm_compute in E1. injection E1 as <- <- <- <-. split; [reflexivity|]. eexists. split; [reflexivity|].
    split; [reflexivity|]. split; [vm_compute; reflexivity|]. split; [vm_compute; reflexivity|].
    split; [vm_compute; reflexivity|]. split; [vm_compute; reflexivity|reflexivity]. }
  assert (koio_inv toy_vol (mkWorld s1 v [mkWindow TOY 600 700])) as I.
  { rewrite <- He1. eapply (koio_step_inv toy_vol); [exact toy_vol_ok| |
      eapply (st_map_write toy_vol true toy_path); [exact E1|reflexivity]].
    by apply koio_inv_mounted. }
  destruct (run_map v 512 512 false s1) as [[[r2 v2] s2] exts2] eqn:E2. simpl in H1, H2, H3, H4. subst r2.
  split; [reflexivity|]. split; [reflexivity|]. split; [exact H2|]. split; [exact H3|].
  destruct (nk_blockmap_read_safe toy toy_vol true v toy_path 512 512 512 never_full s1 v2 s2 exts2 _
    E2 toy_vol_ok I) as (m & Hm & _ & Hq).
  rewrite Hpf in Hm. injection Hm as <-.
  destruct (Hq (mkExt 512 5632 512) 800) as [_ Hx].
  - rewrite H2. left.
  - simpl. lia.
  - simpl. lia.
  - apply Hx. change (t_size s2 = 1000) in H4. change (800 < t_size s2). lia.
Defined.

(** [C5] Completion exposes nothing stale and destroys nothing.  In a world that
    satisfies the invariant, and for a file whose mapped runlist passes
    [bad_runlist] when the call zeroes a gap (it does not check that itself):
    whatever [nk_complete_write] answers, it changes only bytes of its file in the gap
    between what was initialised or handed out and its window.  When it answers 0,
    [initialized_size] never shrinks and
    never passes the end of the file, it covers the completed window, and every
    byte it newly declares initialised is in that window, or in another window the
    kernel holds, or in a hole, or zero. *)
Theorem nk_complete_write_safe : forall (S : Type) vol `{EngineLaws S vol} v path offset length
    (s : S) r v' s' fly,
  nk_complete_write (Some v) path offset length s = (r, v', s') ->
  vol_ok vol -> koio_inv vol (mkWorld s v fly) ->
  (forall m, path_file path s = Some m -> Z.max (f_init s m) (wr_hwm (v_wr v) m) < offset ->
     path_sound vol path s) ->
  (forall m p a, phys s m p = Some a ->
     ~ (Z.max (f_init s m) (wr_hwm (v_wr v) m) <= p < offset) ->
     phys s' m p = Some a /\ dbyte s' a = dbyte s a) /\
  (r = 0 -> exists m, path_file path s = Some m /\
     f_size s' m = f_size s m /\
     f_init s m <= f_init s' m <= Z.max (f_init s m) (f_size s m) /\
     (offset < f_size s m -> Z.min (offset + length) (f_size s m) <= f_init s' m) /\
     forall p, 0 <= p -> f_init s m <= p < f_init s' m ->
       offset <= p < offset + length \/ in_flight fly m p \/ zero_or_hole s' m p).
Proof.
  intros S vol E V L v path offset length s r v' s' fly Hc Hv I Hsnd.
  pose proof I as [I1 I2 I3 I4 I5]. simpl in *.
  destruct (nk_complete_write_spec vol _ _ _ _ _ _ _ _ Hc I1 Hv I3 Hsnd)
    as (v1 & m & -> & Hk & Ho & Hr).
  split.
  - intros m' p a Ha Hp. destruct (decide (m' = m)) as [->|Hne].
    + apply (Hk m p a); [right|done]. unfold gap_floor. lia.
    + apply (Hk m' p a); [by left|done].
  - intros ->. destruct Hr as [?|(_ & Hpf & Hof & Hl & wr' & -> & [C1 C2 C3 C4 C5 C6])]; [done|].
    exists m. split; [done|]. split; [done|].
    destruct (Z.lt_ge_cases offset (f_size s m)) as [Hlt|Hge].
    + rewrite C3 by done. split; [lia|]. split; [lia|]. intros p Hp Hpr.
      destruct (Z.lt_ge_cases p offset) as [Hpo|]; [|left; lia]. right.
      destruct (Z.lt_ge_cases p (wr_hwm (v_wr v) m)) as [Hpm|Hpm].
      * destruct (I5 m p Hp) as [Hf|Hz]; [lia|by left|right; by apply C4].
      * right. apply C5; [done|]. unfold gap_floor. lia.
    + rewrite C2 by done. split; [lia|]. split; [lia|]. intros p _. lia.
Qed.

Lemma nk_complete_write_safe_witness :
  let '(r, v', s') := nk_complete_write (Some toy_v) toy_path 600 100 toy0 in
  r = 0 /\ f_init s' TOY = 700 /\ dbyte s' (5120 + 599) = 0 /\ dbyte s' (5120 + 600) = 7 /\
  (300 <= 600 -> 600 <= 300 < 700 \/ in_flight [] TOY 300 \/ zero_or_hole s' TOY 300).
Proof.
  destruct (nk_complete_write (Some toy_v) toy_path 600 100 toy0) as [[r v'] s'] eqn:E.
  assert (r = 0 /\ f_init s' TOY = 700 /\ dbyte s' (5120 + 599) = 0 /\ dbyte s' (5120 + 600) = 7)
    as (Hr & Hi & H1 & H2)
    by (vm_compute in E; injection E as <- <- <-; split; [|split; [|split]]; reflexivity).
  split; [exact Hr|]. split; [exact Hi|]. split; [exact H1|]. split; [exact H2|]. intros _.
  destruct (nk_complete_write_safe toy toy_vol toy_v toy_path 600 100 toy0 r v' s' []
    E toy_vol_ok (koio_inv_mounted toy_vol toy0 toy_v eq_refl eq_refl)
    (fun _ _ _ => toy_sound toy_path toy0)) as [_ Hq].
  destruct (Hq Hr) as (m & Hm & _ & _ & _ & Hp). injection Hm as <-.
  apply Hp; [lia|]. change (nk_mref toy_ino) with TOY. rewrite Hi. simpl. lia.
Defined.

(** A world with two windows in flight, [512, 1024) and [1536, 2048), stale bytes
    on their clusters, and an engine that no longer opens the attribute. *)
Definition toy_broken : toy :=
  mkToy 512 2048 (fun c => c <? 4) (fun a => if (6144 <=? a) && (a <? 6656) then 0 else 7)
    true (fun _ => 0).
Definition toy_v2 : nk_volume := mkNkVolume toy_vol false [mkWr TOY 2048].

Lemma toy_v2_other m : m <> TOY -> wr_hwm [mkWr TOY 2048] m = 0.
Proof.
  intros Hne. unfold wr_hwm. cbn [wr_find wr_mref]. by rewrite (proj2 (Z.eqb_neq _ _) (not_eq_sym Hne)).
Qed.

(** [C7] The limit of [nk_abort_write].  When the file of an aborted window that
    ends below the mark is found but its attribute cannot be opened, the call
    answers 0 and has changed neither the file nor the table of marks: its bytes are
    not zeroed.  A byte of the window on a cluster with old contents, above
    [initialized_size] and in no window the kernel still holds, breaks the
    invariant. *)
Theorem nk_abort_write_unopened : forall (S : Type) vol `{EngineLaws S vol} v path offset length
    (s : S) ni s1 s2,
  pathname_to_inode path s = (Some ni, s1) -> attr_open ni s1 = (None, s2) ->
  0 <= offset -> 0 < length -> offset + length <= INT64_MAX ->
  let m := nk_mref ni in
  offset + length < wr_hwm (v_wr v) m ->
  exists s', nk_abort_write (Some v) path offset length s = (0, Some v, s') /\ same_obs s s' /\
    forall fly q a, phys s m q = Some a -> dbyte s a <> 0 ->
      f_init s m <= q -> offset <= q < offset + length -> ~ in_flight fly m q ->
      ~ koio_inv vol (mkWorld s' v fly).
Proof.
  intros S vol E V L v path offset length s ni s1 s2 Hp Hn Ho Hl Hmax m Hlow.
  pose proof (pathname_obs path s) as O1. pose proof (open_obs ni s1) as O2.
  rewrite Hp in O1. rewrite Hn in O2. simpl in O1, O2.
  pose proof (iclose_obs ni s2) as O3. destruct (inode_close ni s2) as [e s3] eqn:Ec. simpl in O3.
  assert (same_obs s s3) as O by (etransitivity; [exact O1|]; etransitivity; [exact O2|exact O3]).
  exists s3. split; [|split; [exact O|]].
  - unfold nk_abort_write. rewrite window_good by done. rewrite Hp. fold m.
    pose proof (abort_entry_spec (v_wr v) m offset) as Hae.
    destruct (abort_entry (v_wr v) m offset) as [h|].
    2:{ destruct Hae as [Hf|Hf]; [|lia]. unfold wr_hwm in Hlow. rewrite Hf in Hlow. lia. }
    destruct Hae as (-> & _ & _). rewrite Hn. unfold abort_body.
    rewrite (proj2 (Z.leb_gt _ _) Hlow), Ec. by rewrite with_wr_same.
  - intros fly q a Ha Hb Hi Hq Hf [_ _ _ _ I5]. simpl in I5.
    destruct (I5 m q) as [?|Hz]; [lia|rewrite (so_init _ _ O); lia|done|].
    apply Hb. rewrite <- (so_byte _ _ O _ _ _ Ha). apply Hz. by rewrite (so_phys _ _ O).
Qed.

(** The invariant holds while both windows are in flight, and no longer once the
    lower one is aborted. *)
Lemma toy_broken_inv :
  koio_inv toy_vol (mkWorld toy_broken toy_v2 [mkWindow TOY 512 1024; mkWindow TOY 1536 2048]).
Proof.
  constructor; simpl; try done.
  - apply NoDup_singleton.
  - intros m. destruct (decide (m = TOY)) as [->|Hne]; [vm_compute; congruence|].
    rewrite toy_v2_other by done. lia.
  - intros m. destruct (decide (m = TOY)) as [->|Hne]; [vm_compute; congruence|].
    rewrite toy_v2_other by done. lia.
  - intros m p Hp Hpr. destruct (decide (m = TOY)) as [->|Hne].
    2:{ rewrite toy_v2_other in Hpr by done. lia. }
    change (512 <= p < 2048) in Hpr.
    destruct (decide (1024 <= p < 1536)) as [Hz|Hf].
    + right. intros a Ha. apply toy_phys_Some in Ha as (_ & _ & _ & ->). unfold TOY_LCN.
      cbn [dbyte toy_view toy_broken t_disk]. rewrite (proj2 (Z.leb_le _ _)), (proj2 (Z.ltb_lt _ _)) by lia. done.
    + left. unfold in_flight, in_window. rewrite !Exists_cons. simpl. lia.
Qed.

Lemma nk_abort_write_unopened_witness :
  koio_inv toy_vol (mkWorld toy_broken toy_v2 [mkWindow TOY 512 1024; mkWindow TOY 1536 2048]) /\
  exists s', nk_abort_write (Some toy_v2) toy_path 512 512 toy_broken = (0, Some toy_v2, s') /\
    ~ koio_inv toy_vol (mkWorld s' toy_v2 [mkWindow TOY 1536 2048]).
Proof.
  split; [exact toy_broken_inv|].
  destruct (nk_abort_write_unopened toy toy_vol toy_v2 toy_path 512 512 toy_broken toy_ino
    toy_broken toy_broken (toy_path_found _) eq_refl) as (s' & Hr & _ & Hb);
    [lia|lia|unfold INT64_MAX; lia|change (1024 < 2048); lia|].
  exists s'. split; [exact Hr|]. apply (Hb _ 512 5632).
  - reflexivity.
  - vm_compute. discriminate.
  - change (512 <= 512). lia.
  - lia.
  - unfold in_flight, in_window. rewrite Exists_cons, Exists_nil. simpl. lia.
Defined.
