(* ===== verification/Crc64.v ===== *)
(** * The checksum of the upper-case table

    Models [crc64] of src/NTFSModule/bridge/mkntfs/mkntfs.c: one function with two
    uses, as in the code: a call with [data == NULL] fills the static table, a call
    with data runs the table-driven loop.  The static [table] is the state. *)

From S2P Require Import Prelude.

Definition polynomial : Z := 0x9a6c9329ac4bc9b5.
Definition xorout : Z := 0xffffffffffffffff.

(** The body of the inner loop of the table's generation. *)
Definition crc_step (c : Z) : Z :=
  if Z.testbit c 0 then Z.lxor polynomial (Z.shiftr c 1) else Z.shiftr c 1.

(** [c = i; for (j = 0; j < 8; j++) ...] *)
Definition table_entry (i : Z) : Z := Nat.iter 8 crc_step i.

Definition make_table : list Z := table_entry <$> seqZ 0 256.

(** [table[k]] of the static array, zero before the first call. *)
Definition table_at (table : list Z) (k : Z) : Z := default 0 (table !! Z.to_nat k).

(** [while (size)]: [size] bytes of [data]. *)
Fixpoint crc_loop (table : list Z) (crc : Z) (data : list Z) : Z :=
  match data with
  | [] => crc
  | b :: data =>
      crc_loop table
        (Z.lxor (table_at table (Z.land (Z.lxor crc b) 0xff)) (Z.shiftr crc 8)) data
  end.

(** The result and the table; [None] for the data is [NULL]. *)
Definition crc64 (table : list Z) (crc : Z) (data : option (list Z)) : Z * list Z :=
  let crc := Z.lxor crc xorout in
  match data with
  | None => (Z.lxor crc xorout, make_table)
  | Some data => (Z.lxor (crc_loop table crc data) xorout, table)
  end.

(** ** The reference: one bit at a time *)

Definition crc_byte (crc b : Z) : Z := Nat.iter 8 crc_step (Z.lxor crc b).

Definition crc64_ref (crc : Z) (data : list Z) : Z :=
  Z.lxor (foldl crc_byte (Z.lxor crc xorout) data) xorout.

(** ** [crc_step] is linear over the bits, and shifts out zeros *)

Lemma crc_step_lxor a b : crc_step (Z.lxor a b) = Z.lxor (crc_step a) (crc_step b).
Proof.
  unfold crc_step. rewrite Z.lxor_spec, Z.shiftr_lxor.
  destruct (Z.testbit a 0), (Z.testbit b 0); simpl;
    apply Z.bits_inj'; intros n Hn; rewrite ?Z.lxor_spec;
    destruct (Z.testbit polynomial n), (Z.testbit (Z.shiftr a 1) n), (Z.testbit (Z.shiftr b 1) n); done.
Qed.

Lemma iter_step_lxor n a b :
  Nat.iter n crc_step (Z.lxor a b) = Z.lxor (Nat.iter n crc_step a) (Nat.iter n crc_step b).
Proof. induction n as [|n IH]; simpl; [done|]. by rewrite IH, crc_step_lxor. Qed.

Lemma crc_step_even z : crc_step (Z.shiftl z 1) = z.
Proof.
  unfold crc_step. rewrite Z.shiftl_spec_low by lia.
  rewrite Z.shiftr_shiftl_l by lia. apply Z.shiftl_0_r.
Qed.

Lemma iter_step_shiftl n z : Nat.iter n crc_step (Z.shiftl z (Z.of_nat n)) = z.
Proof.
  revert z. induction n as [|n IH]; intros z; [apply Z.shiftl_0_r|].
  rewrite Nat.iter_succ. replace (Z.of_nat (S n)) with (1 + Z.of_nat n) by lia.
  rewrite <- Z.shiftl_shiftl by lia. by rewrite IH, crc_step_even.
Qed.

Lemma split_low x : x = Z.lxor (Z.land x 0xff) (Z.shiftl (Z.shiftr x 8) 8).
Proof.
  apply Z.bits_inj'. intros n Hn. rewrite Z.lxor_spec, Z.land_spec.
  change 255 with (Z.ones 8). destruct (Z.lt_ge_cases n 8).
  - rewrite Z.ones_spec_low, Z.shiftl_spec_low by lia. by destruct (Z.testbit x n).
  - rewrite Z.ones_spec_high, Z.shiftl_spec, Z.shiftr_spec by lia.
    replace (n - 8 + 8) with n by lia. by destruct (Z.testbit x n).
Qed.

(** Eight steps at once are one look-up and one shift. *)
Lemma eight_steps x :
  Nat.iter 8 crc_step x = Z.lxor (table_entry (Z.land x 0xff)) (Z.shiftr x 8).
Proof.
  rewrite (split_low x) at 1. rewrite iter_step_lxor.
  change 8 with (Z.of_nat 8) at 2. by rewrite iter_step_shiftl.
Qed.

Lemma make_table_at k : 0 <= k < 256 -> table_at make_table k = table_entry k.
Proof.
  intros Hk. unfold table_at, make_table. rewrite list_lookup_fmap, lookup_seqZ_lt by lia.
  simpl. f_equal. lia.
Qed.

Definition is_byte (b : Z) : Prop := fits_u 8 b.

Lemma land_ff_range x : 0 <= Z.land x 0xff < 256.
Proof. change 255 with (Z.ones 8). rewrite Z.land_ones by lia. apply Z.mod_pos_bound. lia. Qed.

Lemma byte_shiftr b : is_byte b -> Z.shiftr b 8 = 0.
Proof. unfold is_byte, fits_u. intros H. rewrite Z.shiftr_div_pow2 by lia. apply Z.div_small. lia. Qed.

Lemma crc_byte_table crc b :
  is_byte b ->
  Z.lxor (table_at make_table (Z.land (Z.lxor crc b) 0xff)) (Z.shiftr crc 8) = crc_byte crc b.
Proof.
  intros Hb. unfold crc_byte. rewrite eight_steps, make_table_at by apply land_ff_range.
  by rewrite Z.shiftr_lxor, (byte_shiftr b Hb), Z.lxor_0_r.
Qed.

Lemma crc_loop_ref data : forall crc,
  Forall is_byte data -> crc_loop make_table crc data = foldl crc_byte crc data.
Proof.
  induction data as [|b data IH]; intros crc Hd; simpl; [done|].
  apply Forall_cons_1 in Hd as [Hb Hd]. by rewrite crc_byte_table, IH.
Qed.

(** ** A step loses nothing on 64 bits *)

Lemma shiftr1_range c : fits_u 64 c -> 0 <= Z.shiftr c 1 < 2 ^ 63.
Proof.
  unfold fits_u. intros Hc. rewrite Z.shiftr_div_pow2 by lia. change (2 ^ 1) with 2.
  split; [apply Z.div_pos; lia|]. apply Z.div_lt_upper_bound; lia.
Qed.

Lemma high_bit c n : 0 <= c < 2 ^ n -> 0 <= n -> Z.testbit c n = false.
Proof.
  intros Hc Hn. destruct (Z.eq_dec c 0) as [->|]; [apply Z.bits_0|].
  apply Z.bits_above_log2; [lia|]. apply Z.log2_lt_pow2; lia.
Qed.

Lemma lxor_range a b n : 0 <= n -> 0 <= a < 2 ^ n -> 0 <= b < 2 ^ n -> 0 <= Z.lxor a b < 2 ^ n.
Proof.
  intros Hn Ha Hb. split; [apply Z.lxor_nonneg; lia|].
  destruct (Z.eq_dec (Z.lxor a b) 0) as [->|Hne]; [lia|].
  assert (0 < Z.lxor a b) by (assert (0 <= Z.lxor a b) by (apply Z.lxor_nonneg; lia); lia).
  apply Z.log2_lt_pow2; [done|].
  destruct (Z.eq_dec n 0) as [->|]; [assert (a = 0) as -> by lia; assert (b = 0) as -> by lia; done|].
  assert (forall x, 0 <= x < 2 ^ n -> Z.log2 x < n) as Hl.
  { intros x Hx. destruct (Z.eq_dec x 0) as [->|]; [simpl; lia|]. apply Z.log2_lt_pow2; lia. }
  pose proof (Z.log2_lxor a b). pose proof (Hl a Ha). pose proof (Hl b Hb). lia.
Qed.

Lemma crc_step_range c : fits_u 64 c -> fits_u 64 (crc_step c).
Proof.
  intros Hc. pose proof (shiftr1_range c Hc). unfold crc_step, fits_u.
  destruct (Z.testbit c 0); [|lia]. apply lxor_range; [lia|unfold polynomial; lia|lia].
Qed.

(** The polynomial has its top bit, so the bit shifted out can be read back. *)
Lemma crc_step_top c : fits_u 64 c -> Z.testbit (crc_step c) 63 = Z.testbit c 0.
Proof.
  intros Hc. pose proof (high_bit _ 63 (shiftr1_range c Hc) ltac:(lia)) as Hs.
  unfold crc_step. destruct (Z.testbit c 0); [|done]. rewrite Z.lxor_spec, Hs. reflexivity.
Qed.

Lemma crc_step_inj a b : fits_u 64 a -> fits_u 64 b -> crc_step a = crc_step b -> a = b.
Proof.
  intros Ha Hb E. pose proof (crc_step_top a Ha) as Ta. pose proof (crc_step_top b Hb) as Tb.
  rewrite E, Tb in Ta. unfold crc_step in E. rewrite <- Ta in E.
  assert (Z.shiftr a 1 = Z.shiftr b 1) as Es.
  { destruct (Z.testbit b 0); [|done].
    apply (f_equal (Z.lxor polynomial)) in E.
    by rewrite <- !Z.lxor_assoc, Z.lxor_nilpotent, !Z.lxor_0_l in E. }
  apply Z.bits_inj'. intros n Hn. destruct (Z.eq_dec n 0) as [->|]; [done|].
  apply (f_equal (fun x => Z.testbit x (n - 1))) in Es.
  rewrite !Z.shiftr_spec in Es by lia. by replace (n - 1 + 1) with n in Es by lia.
Qed.

Lemma iter_step_range n c : fits_u 64 c -> fits_u 64 (Nat.iter n crc_step c).
Proof. intros Hc. induction n as [|n IH]; simpl; [done|]. by apply crc_step_range. Qed.

Lemma iter_step_inj n a b :
  fits_u 64 a -> fits_u 64 b -> Nat.iter n crc_step a = Nat.iter n crc_step b -> a = b.
Proof.
  intros Ha Hb. induction n as [|n IH]; simpl; [done|]. intros E. apply IH.
  by apply crc_step_inj in E; [|apply iter_step_range..].
Qed.

Lemma is_byte_u64 b : is_byte b -> fits_u 64 b.
Proof. unfold is_byte, fits_u. lia. Qed.

Lemma lxor_u64 a b : fits_u 64 a -> fits_u 64 b -> fits_u 64 (Z.lxor a b).
Proof. intros. by apply lxor_range. Qed.

Lemma lxor_inj_l a b c : Z.lxor a b = Z.lxor a c -> b = c.
Proof.
  intros E. apply (f_equal (Z.lxor a)) in E.
  by rewrite <- !Z.lxor_assoc, Z.lxor_nilpotent, !Z.lxor_0_l in E.
Qed.

Lemma lxor_inj_r a b c : Z.lxor a c = Z.lxor b c -> a = b.
Proof. rewrite (Z.lxor_comm a), (Z.lxor_comm b). apply lxor_inj_l. Qed.

Lemma crc_byte_inj_r c x y :
  fits_u 64 c -> is_byte x -> is_byte y -> crc_byte c x = crc_byte c y -> x = y.
Proof.
  unfold crc_byte. intros Hc Hx Hy E.
  apply iter_step_inj in E; [|by apply lxor_u64, is_byte_u64..]. by apply lxor_inj_l in E.
Qed.

Lemma crc_byte_range crc b : fits_u 64 crc -> is_byte b -> fits_u 64 (crc_byte crc b).
Proof. intros Hc Hb. apply iter_step_range, lxor_u64; [done|by apply is_byte_u64]. Qed.

Lemma foldl_range data : forall crc,
  fits_u 64 crc -> Forall is_byte data -> fits_u 64 (foldl crc_byte crc data).
Proof.
  induction data as [|b data IH]; intros crc Hc Hd; simpl; [done|].
  apply Forall_cons_1 in Hd as [Hb Hd]. apply IH; [by apply crc_byte_range|done].
Qed.

Lemma foldl_inj data : forall c1 c2,
  fits_u 64 c1 -> fits_u 64 c2 -> Forall is_byte data ->
  foldl crc_byte c1 data = foldl crc_byte c2 data -> c1 = c2.
Proof.
  induction data as [|b data IH]; intros c1 c2 H1 H2 Hd; simpl; [done|].
  apply Forall_cons_1 in Hd as [Hb Hd]. intros E.
  apply IH in E; [|by apply crc_byte_range..|done].
  unfold crc_byte in E. apply iter_step_inj in E; [|by apply lxor_u64, is_byte_u64..].
  by apply lxor_inj_r in E.
Qed.

Lemma crc64_ref_eq table crc data :
  table = make_table -> Forall is_byte data ->
  crc64 table crc (Some data) = (crc64_ref crc data, make_table).
Proof. intros -> Hd. unfold crc64, crc64_ref. by rewrite crc_loop_ref. Qed.

(** [C23] The table-driven [crc64] is the bit-serial CRC of the polynomial: after
    the initialising call with no data, the checksum of any bytes from any start
    value is the one computed one bit at a time, and a long buffer may be fed in
    pieces, the checksum of a piece being the start value of the next. *)
Theorem crc64_correct : forall table0 c0 crc data1 data2,
  Forall is_byte data1 -> Forall is_byte data2 ->
  let table := snd (crc64 table0 c0 None) in
  crc64 table crc (Some data1) = (crc64_ref crc data1, table) /\
  fst (crc64 table (fst (crc64 table crc (Some data1))) (Some data2)) =
  fst (crc64 table crc (Some (data1 ++ data2))).
Proof.
  intros table0 c0 crc d1 d2 H1 H2 table.
  assert (table = make_table) as Ht by reflexivity. clearbody table.
  rewrite (crc64_ref_eq table crc d1 Ht H1), Ht. split; [reflexivity|]. cbn [fst].
  rewrite !crc64_ref_eq by (reflexivity || assumption || (apply Forall_app; split; assumption)).
  cbn [fst]. unfold crc64_ref.
  by rewrite Z.lxor_assoc, Z.lxor_nilpotent, Z.lxor_0_r, foldl_app.
Qed.

(** The bytes of "123456789". *)
Definition check_input : list Z := [49; 50; 51; 52; 53; 54; 55; 56; 57].

Lemma crc64_correct_witness :
  Forall is_byte check_input /\
  crc64_ref 0 check_input = 0xae8b14860a799888 /\
  fst (crc64 (snd (crc64 [] 0 None)) 0 (Some check_input)) = crc64_ref 0 check_input.
Proof.
  assert (Forall is_byte check_input) as H.
  { unfold check_input, is_byte, fits_u. repeat constructor; lia. }
  split; [exact H|]. split; [vm_compute; reflexivity|].
  rewrite (proj1 (crc64_correct [] 0 0 check_input [] H (Forall_nil_2 _))). reflexivity.
Defined.

(** [crc64] detects every change of a single byte: two buffers that differ in
    one byte at most and have the same checksum are equal.  The checksum is a
    64-bit value. *)
Theorem crc64_detects_byte : forall table0 c0 crc pre x y post,
  fits_u 64 crc -> Forall is_byte pre -> Forall is_byte post -> is_byte x -> is_byte y ->
  let table := snd (crc64 table0 c0 None) in
  fits_u 64 (fst (crc64 table crc (Some (pre ++ x :: post)))) /\
  (fst (crc64 table crc (Some (pre ++ x :: post))) = fst (crc64 table crc (Some (pre ++ y :: post))) ->
   x = y).
Proof.
  intros table0 c0 crc pre x y post Hc Hpre Hpost Hx Hy table.
  assert (forall z, is_byte z -> Forall is_byte (pre ++ z :: post)) as Hall
    by (intros z Hz; apply Forall_app; split; [done|by constructor]).
  assert (table = make_table) as Ht by reflexivity. clearbody table.
  rewrite !(crc64_ref_eq table) by (exact Ht || auto). cbn [fst]. unfold crc64_ref.
  assert (fits_u 64 xorout) as Hxo by (unfold fits_u, xorout; lia).
  assert (fits_u 64 (foldl crc_byte (Z.lxor crc xorout) pre)) as Hp
    by (apply foldl_range; [by apply lxor_u64|done]).
  split; [apply lxor_u64; [|done]; apply foldl_range; [by apply lxor_u64|auto]|].
  intros E. apply lxor_inj_r in E. rewrite !foldl_app in E. cbn [foldl] in E.
  apply foldl_inj in E; [|by apply crc_byte_range..|done].
  by apply crc_byte_inj_r in E.
Qed.

Lemma crc64_detects_byte_witness :
  let table := snd (crc64 [] 0 None) in
  fits_u 64 (fst (crc64 table 0 (Some ([1] ++ 2 :: [3])))) /\
  (fst (crc64 table 0 (Some ([1] ++ 2 :: [3]))) = fst (crc64 table 0 (Some ([1] ++ 5 :: [3]))) ->
   2 = 5).
Proof.
  apply (crc64_detects_byte [] 0 0 [1] 2 5 [3]); unfold is_byte, fits_u; repeat constructor; lia.
Defined.
