(* ===== verification/Device.v ===== *)
(** * The callback-backed block devices

    Models the [nkdev_*] operations of src/NTFSModule/bridge/ntfs_bridge.c (the
    device libntfs-3g mounts), the [bfio_*] and [bdedev_*] operations of
    src/NTFSModule/bridge/nk_bde.c (the encrypted stream below libbde and the
    decrypted device above it), and the recognition of BitLocker and ReFS boot
    sectors.

    The callbacks of [nk_io] belong to the host: they are parameters, acting on a
    medium [D].  [libbde_volume_read_buffer_at_offset] is a parameter too.  An
    operation answers its C result, the [errno] it sets, and the new state. *)

From S2P Require Import Prelude.

(** [nk_io]: [pread] answers the count and the bytes it stored in the buffer. *)
Record nk_io (D : Type) := mkIo {
  io_size : Z;
  io_pread : Z -> Z -> D -> Z * list Z * D;
  io_pwrite : list Z -> Z -> D -> Z * D }.
Arguments mkIo {D}. Arguments io_size {D}. Arguments io_pread {D}. Arguments io_pwrite {D}.

Inductive whence := SEEK_SET | SEEK_CUR | SEEK_END.

(** The state of a [struct ntfs_device] with its private data: the flags the
    operations test, the position, and what lies below. *)
Record device (D : Type) := mkDev {
  d_readonly : bool; d_open : bool; d_dirty : bool; d_pos : Z; d_medium : D }.
Arguments mkDev {D}. Arguments d_readonly {D}. Arguments d_open {D}. Arguments d_dirty {D}.
Arguments d_pos {D}. Arguments d_medium {D}.

Definition with_pos {D} (pos : Z) (d : device D) : device D :=
  mkDev (d_readonly d) (d_open d) (d_dirty d) pos (d_medium d).

(** ** [nkdev] *)

Section Nkdev.

Context {D : Type} (io : nk_io D).

Definition nkdev_open (rdonly : bool) (d : device D) : Z * device D :=
  (0, mkDev (rdonly || d_readonly d) true (d_dirty d) (d_pos d) (d_medium d)).

Definition nkdev_close (d : device D) : Z * device D :=
  (0, mkDev (d_readonly d) false (d_dirty d) (d_pos d) (d_medium d)).

Definition nkdev_seek (offset : Z) (w : whence) (d : device D) : Z * option errno_t * device D :=
  let base := match w with SEEK_SET => 0 | SEEK_CUR => d_pos d | SEEK_END => io_size io end in
  if base + offset <? 0 then (-1, Some EINVAL, d)
  else (base + offset, None, with_pos (base + offset) d).

Definition nkdev_pread (count offset : Z) (d : device D) : Z * option errno_t * list Z * device D :=
  let '(n, buf, m) := io_pread io count offset (d_medium d) in
  let d' := mkDev (d_readonly d) (d_open d) (d_dirty d) (d_pos d) m in
  if n <? 0 then (-1, Some EIO, [], d') else (n, None, buf, d').

Definition nkdev_pwrite (buf : list Z) (offset : Z) (d : device D) : Z * option errno_t * device D :=
  if d_readonly d then (-1, Some EROFS, d) else
  let '(n, m) := io_pwrite io buf offset (d_medium d) in
  if n <? 0 then (-1, Some EIO, mkDev (d_readonly d) (d_open d) (d_dirty d) (d_pos d) m)
  else (n, None, mkDev (d_readonly d) (d_open d) true (d_pos d) m).

Definition nkdev_read (count : Z) (d : device D) : Z * option errno_t * list Z * device D :=
  let '(n, e, buf, d') := nkdev_pread count (d_pos d) d in
  (n, e, buf, if 0 <? n then with_pos (d_pos d' + n) d' else d').

Definition nkdev_write (buf : list Z) (d : device D) : Z * option errno_t * device D :=
  let '(n, e, d') := nkdev_pwrite buf (d_pos d) d in
  (n, e, if 0 <? n then with_pos (d_pos d' + n) d' else d').

Definition nkdev_sync (d : device D) : Z * device D :=
  (0, mkDev (d_readonly d) (d_open d) false (d_pos d) (d_medium d)).

(** [st_mode] and [st_size]. *)
Definition S_IFREG : Z := 0x8000.
Definition nkdev_stat (d : device D) : Z * Z * Z := (0, Z.lor S_IFREG 0x180, io_size io).

Definition nkdev_ioctl : Z * option errno_t := (-1, Some ENOTSUP).

End Nkdev.

(** ** [bfio]: the encrypted stream, read only *)

Record bde_bfio_ctx (D : Type) := mkBfio { bf_pos : Z; bf_open : Z; bf_medium : D }.
Arguments mkBfio {D}. Arguments bf_pos {D}. Arguments bf_open {D}. Arguments bf_medium {D}.

Section Bfio.

Context {D : Type} (io : nk_io D).

Definition bfio_open (c : bde_bfio_ctx D) : Z * bde_bfio_ctx D := (1, mkBfio (bf_pos c) 1 (bf_medium c)).
Definition bfio_close (c : bde_bfio_ctx D) : Z * bde_bfio_ctx D := (0, mkBfio (bf_pos c) 0 (bf_medium c)).
Definition bfio_is_open (c : bde_bfio_ctx D) : Z := bf_open c.

Definition bfio_read (size : Z) (c : bde_bfio_ctx D) : Z * list Z * bde_bfio_ctx D :=
  let '(n, buf, m) := io_pread io size (bf_pos c) (bf_medium c) in
  if n <? 0 then (-1, [], mkBfio (bf_pos c) (bf_open c) m)
  else (n, buf, mkBfio (bf_pos c + n) (bf_open c) m).

Definition bfio_write (buf : list Z) (c : bde_bfio_ctx D) : Z * option errno_t * bde_bfio_ctx D :=
  (-1, Some EROFS, c).

Definition bfio_seek (off : Z) (w : whence) (c : bde_bfio_ctx D) : Z * bde_bfio_ctx D :=
  let base := match w with SEEK_SET => 0 | SEEK_CUR => bf_pos c | SEEK_END => io_size io end in
  if base + off <? 0 then (-1, c) else (base + off, mkBfio (base + off) (bf_open c) (bf_medium c)).

Definition bfio_get_size : Z * Z := (1, io_size io).

(** [NULL] when [calloc] fails. *)
Definition bfio_clone (calloc_ok : bool) (c : bde_bfio_ctx D) : Z * option (bde_bfio_ctx D) :=
  if calloc_ok then (1, Some c) else (-1, None).

End Bfio.

(** ** [bdedev]: the decrypted device, read only *)

Section Bdedev.

Context {D : Type} (size : Z).

(** [libbde_volume_read_buffer_at_offset] *)
Variable bde_read : Z -> Z -> D -> Z * list Z * D.

Definition bdedev_open (d : device D) : Z * device D :=
  (0, mkDev true true (d_dirty d) (d_pos d) (d_medium d)).

Definition bdedev_close (d : device D) : Z * device D :=
  (0, mkDev (d_readonly d) false (d_dirty d) (d_pos d) (d_medium d)).

Definition bdedev_seek (offset : Z) (w : whence) (d : device D) : Z * option errno_t * device D :=
  let base := match w with SEEK_SET => 0 | SEEK_CUR => d_pos d | SEEK_END => size end in
  if base + offset <? 0 then (-1, Some EINVAL, d)
  else (base + offset, None, with_pos (base + offset) d).

Definition bdedev_pread (count offset : Z) (d : device D) : Z * option errno_t * list Z * device D :=
  let '(n, buf, m) := bde_read count offset (d_medium d) in
  let d' := mkDev (d_readonly d) (d_open d) (d_dirty d) (d_pos d) m in
  if n <? 0 then (-1, Some EIO, [], d') else (n, None, buf, d').

Definition bdedev_pwrite (buf : list Z) (offset : Z) (d : device D) : Z * option errno_t * device D :=
  (-1, Some EROFS, d).

Definition bdedev_read (count : Z) (d : device D) : Z * option errno_t * list Z * device D :=
  let '(n, e, buf, d') := bdedev_pread count (d_pos d) d in
  (n, e, buf, if 0 <? n then with_pos (d_pos d' + n) d' else d').

Definition bdedev_write (buf : list Z) (d : device D) : Z * option errno_t * device D :=
  (-1, Some EROFS, d).

Definition bdedev_sync (d : device D) : Z * device D := (0, d).
Definition bdedev_stat (d : device D) : Z * Z * Z := (0, Z.lor S_IFREG 0x100, size).
Definition bdedev_ioctl : Z * option errno_t := (-1, Some ENOTSUP).

End Bdedev.

(** ** Recognition *)

(** [memcmp(p + off, pat, strlen(pat)) == 0] on a boot sector. *)
Definition bytes_at (boot : list Z) (off : nat) (pat : list Z) : bool :=
  bool_decide (take (length pat) (drop off boot) = pat).

(** "-FVE-FS-", "ReFS", "FSRS" *)
Definition FVE_MAGIC : list Z := [0x2d; 0x46; 0x56; 0x45; 0x2d; 0x46; 0x53; 0x2d].
Definition REFS_MAGIC : list Z := [0x52; 0x65; 0x46; 0x53].
Definition FSRS_MAGIC : list Z := [0x46; 0x53; 0x52; 0x53].

Definition nk_is_bitlocker (boot : list Z) : bool := bytes_at boot 3 FVE_MAGIC.
Definition nk_is_refs (boot : list Z) : bool := bytes_at boot 3 REFS_MAGIC && bytes_at boot 0x50 FSRS_MAGIC.

(** ** Sessions: any sequence of calls *)

Inductive dev_call :=
  | Cseek (offset : Z) (w : whence)
  | Cread (count : Z) | Cwrite (buf : list Z)
  | Cpread (count offset : Z) | Cpwrite (buf : list Z) (offset : Z)
  | Csync | Copen (rdonly : bool) | Cclose.

Section Sessions.

Context {D : Type} (io : nk_io D).

Definition nkdev_call (c : dev_call) (d : device D) : device D :=
  match c with
  | Cseek o w => snd (nkdev_seek io o w d)
  | Cread n => snd (nkdev_read io n d)
  | Cwrite b => snd (nkdev_write io b d)
  | Cpread n o => snd (nkdev_pread io n o d)
  | Cpwrite b o => snd (nkdev_pwrite io b o d)
  | Csync => snd (nkdev_sync d)
  | Copen ro => snd (nkdev_open ro d)
  | Cclose => snd (nkdev_close d)
  end.

Definition bdedev_call (size : Z) (bde_read : Z -> Z -> D -> Z * list Z * D) (c : dev_call)
    (d : device D) : device D :=
  match c with
  | Cseek o w => snd (bdedev_seek size o w d)
  | Cread n => snd (bdedev_read bde_read n d)
  | Cwrite b => snd (bdedev_write b d)
  | Cpread n o => snd (bdedev_pread bde_read n o d)
  | Cpwrite b o => snd (bdedev_pwrite b o d)
  | Csync => snd (bdedev_sync d)
  | Copen _ => snd (bdedev_open d)
  | Cclose => snd (bdedev_close d)
  end.

End Sessions.

(** ** Positions *)

Lemma nkdev_pos_nonneg {D} (io : nk_io D) c d : 0 <= d_pos d -> 0 <= d_pos (nkdev_call io c d).
Proof.
  intros Hp. destruct c; simpl; try done.
  - unfold nkdev_seek. cbv zeta. destruct w; zcase; simpl; lia.
  - unfold nkdev_read, nkdev_pread. destruct (io_pread io count (d_pos d) (d_medium d)) as [[n b] m].
    destruct (Z.ltb_spec n 0); simpl; [done|]. zcase; simpl; lia.
  - unfold nkdev_write, nkdev_pwrite. destruct (d_readonly d); [done|].
    destruct (io_pwrite io buf (d_pos d) (d_medium d)) as [n m].
    destruct (Z.ltb_spec n 0); simpl; [done|]. zcase; simpl; lia.
  - unfold nkdev_pread. destruct (io_pread io count offset (d_medium d)) as [[n b] m].
    by destruct (Z.ltb_spec n 0).
  - unfold nkdev_pwrite. destruct (d_readonly d); [done|].
    destruct (io_pwrite io buf offset (d_medium d)) as [n m]. by destruct (Z.ltb_spec n 0).
Qed.

(** A medium is only read by [pread]. *)
Definition pread_pure {D} (io : nk_io D) : Prop := forall n o m, snd (io_pread io n o m) = m.

Lemma nkdev_readonly_call {D} (io : nk_io D) c d :
  pread_pure io -> d_readonly d = true ->
  d_readonly (nkdev_call io c d) = true /\ d_medium (nkdev_call io c d) = d_medium d.
Proof.
  intros Hpure Hro. destruct c; simpl.
  - unfold nkdev_seek. cbv zeta. destruct w; by zcase.
  - unfold nkdev_read, nkdev_pread. pose proof (Hpure count (d_pos d) (d_medium d)) as Hm.
    destruct (io_pread io count (d_pos d) (d_medium d)) as [[n b] m]. simpl in Hm. subst m.
    destruct (Z.ltb_spec n 0); simpl; [done|]. by zcase.
  - unfold nkdev_write, nkdev_pwrite. by rewrite Hro.
  - unfold nkdev_pread. pose proof (Hpure count offset (d_medium d)) as Hm.
    destruct (io_pread io count offset (d_medium d)) as [[n b] m]. simpl in Hm. subst m.
    by destruct (Z.ltb_spec n 0).
  - unfold nkdev_pwrite. by rewrite Hro.
  - done.
  - by rewrite Hro, orb_true_r.
  - done.
Qed.

Lemma bdedev_call_medium {D} size (bde_read : Z -> Z -> D -> Z * list Z * D) c d :
  (forall n o m, snd (bde_read n o m) = m) ->
  d_medium (bdedev_call size bde_read c d) = d_medium d.
Proof.
  intros Hpure. destruct c; simpl; try done.
  - unfold bdedev_seek. cbv zeta. destruct w; by zcase.
  - unfold bdedev_read, bdedev_pread. pose proof (Hpure count (d_pos d) (d_medium d)) as Hm.
    destruct (bde_read count (d_pos d) (d_medium d)) as [[n b] m]. simpl in Hm. subst m.
    destruct (Z.ltb_spec n 0); simpl; [done|]. by zcase.
  - unfold bdedev_pread. pose proof (Hpure count offset (d_medium d)) as Hm.
    destruct (bde_read count offset (d_medium d)) as [[n b] m]. simpl in Hm. subst m.
    by destruct (Z.ltb_spec n 0).
Qed.

Definition nkdev_session {D} (io : nk_io D) (cs : list dev_call) (d : device D) : device D :=
  foldl (fun d c => nkdev_call io c d) d cs.
Definition bdedev_session {D} size (bde_read : Z -> Z -> D -> Z * list Z * D) (cs : list dev_call)
    (d : device D) : device D :=
  foldl (fun d c => bdedev_call size bde_read c d) d cs.

(** A read-only mount never reaches the medium.  Once a device is read only (a
    volume opened with [O_RDONLY]; the decrypted BitLocker device always), no
    sequence of calls whatever changes the medium, and the device stays read only;
    and no call moves the position below zero. *)
Theorem readonly_never_writes : forall (D : Type) (io : nk_io D) size
    (bde_read : Z -> Z -> D -> Z * list Z * D) cs d,
  pread_pure io -> (forall n o m, snd (bde_read n o m) = m) ->
  (d_readonly d = true ->
     d_readonly (nkdev_session io cs d) = true /\
     d_medium (nkdev_session io cs d) = d_medium d) /\
  d_medium (bdedev_session size bde_read cs d) = d_medium d /\
  (0 <= d_pos d -> 0 <= d_pos (nkdev_session io cs d)).
Proof.
  intros D io size bde_read cs d Hio Hbde. split; [|split].
  - revert d. induction cs as [|c cs IH]; intros d Hro; [done|]. simpl.
    destruct (nkdev_readonly_call io c d Hio Hro) as [Hro' Hm].
    destruct (IH _ Hro') as [H1 H2]. split; [done|congruence].
  - revert d. induction cs as [|c cs IH]; intros d; [done|]. simpl.
    etransitivity; [apply IH|]. by apply bdedev_call_medium.
  - revert d. induction cs as [|c cs IH]; intros d Hp; [done|]. simpl. apply IH.
    by apply nkdev_pos_nonneg.
Qed.

(** A medium that is an array of bytes. *)
Definition mem_io : nk_io (list Z) := mkIo 8
  (fun n o m => let b := take (Z.to_nat n) (drop (Z.to_nat o) m) in (Z.of_nat (length b), b, m))
  (fun b o m => (Z.of_nat (length b),
     take (Z.to_nat o) m ++ b ++ drop (Z.to_nat o + length b) m)).

Lemma readonly_never_writes_witness :
  let d := mkDev true true false 0 [1; 2; 3; 4; 5; 6; 7; 8] in
  let d' := nkdev_session mem_io [Cseek 2 SEEK_SET; Cwrite [9]; Cpwrite [9; 9] 0; Cread 3] d in
  d_pos d' = 5 /\ d_medium d' = [1; 2; 3; 4; 5; 6; 7; 8].
Proof.
  split; [reflexivity|].
  apply (readonly_never_writes (list Z) mem_io 8 (io_pread mem_io)
           [Cseek 2 SEEK_SET; Cwrite [9]; Cpwrite [9; 9] 0; Cread 3]
           (mkDev true true false 0 [1; 2; 3; 4; 5; 6; 7; 8])); intros ? ? ?; reflexivity.
Defined.

(** Positioned and sequential access agree.  Seeking and then reading or
    writing sequentially has the result, the [errno] and the effect on the medium
    of the positioned call, and leaves the position at the end of what was
    transferred; a failed transfer leaves the position where it was; a seek before
    the start fails with [EINVAL] and changes nothing. *)
Theorem nkdev_positions : forall (D : Type) (io : nk_io D) (d : device D) off count buf,
  (0 <= off ->
   let d1 := snd (nkdev_seek io off SEEK_SET d) in
   (let '(n, e, b, d2) := nkdev_read io count d1 in
    let '(n', e', b', d2') := nkdev_pread io count off d1 in
    n = n' /\ e = e' /\ b = b' /\ d_medium d2 = d_medium d2' /\ d_pos d2 = off + Z.max 0 n) /\
   (let '(n, e, d2) := nkdev_write io buf d1 in
    let '(n', e', d2') := nkdev_pwrite io buf off d1 in
    n = n' /\ e = e' /\ d_medium d2 = d_medium d2' /\ d_pos d2 = off + Z.max 0 n /\
    (n < 0 <-> e <> None) /\ (e = Some EROFS <-> d_readonly d = true))) /\
  (off < 0 -> nkdev_seek io off SEEK_SET d = (-1, Some EINVAL, d)).
Proof.
  intros D io d off count buf. split.
  - intros Ho. unfold nkdev_seek. rewrite Z.add_0_l. rewrite (proj2 (Z.ltb_ge off 0)) by lia. simpl.
    split.
    + unfold nkdev_read, nkdev_pread. simpl.
      destruct (io_pread io count off (d_medium d)) as [[n b] m].
      destruct (Z.ltb_spec n 0); simpl; [split_and!; done || lia|].
      destruct (Z.ltb_spec 0 n); simpl; split_and!; done || lia.
    + unfold nkdev_write, nkdev_pwrite. simpl. destruct (d_readonly d); simpl; [split_and!; done || lia|].
      destruct (io_pwrite io buf off (d_medium d)) as [n m].
      destruct (Z.ltb_spec n 0); simpl; [split_and!; try done; lia|].
      destruct (Z.ltb_spec 0 n); simpl; split_and!; try done; try lia; split; (done || lia).
  - intros Ho. unfold nkdev_seek. rewrite Z.add_0_l. by rewrite (proj2 (Z.ltb_lt off 0)).
Qed.

Lemma nkdev_positions_witness :
  nkdev_seek mem_io (-1) SEEK_SET (mkDev false true false 3 [1; 2]) =
  (-1, Some EINVAL, mkDev false true false 3 [1; 2]).
Proof. apply (nkdev_positions (list Z) mem_io (mkDev false true false 3 [1; 2]) (-1) 0 []). lia. Defined.

(** A boot sector is never taken for both BitLocker and ReFS, and the plain NTFS
    OEM id ("NTFS" and four blanks) for neither: what one call recognises depends
    on bytes 3 to 10 and 0x50 to 0x53 only. *)
Theorem boot_magic_exclusive : forall boot,
  (nk_is_bitlocker boot = true -> nk_is_refs boot = false) /\
  (bytes_at boot 3 [0x4e; 0x54; 0x46; 0x53; 0x20; 0x20; 0x20; 0x20] = true ->
     nk_is_bitlocker boot = false /\ nk_is_refs boot = false) /\
  (forall boot', take 8 (drop 3 boot') = take 8 (drop 3 boot) ->
     take 4 (drop 0x50 boot') = take 4 (drop 0x50 boot) ->
     nk_is_bitlocker boot' = nk_is_bitlocker boot /\ nk_is_refs boot' = nk_is_refs boot).
Proof.
  intros boot. unfold nk_is_bitlocker, nk_is_refs, bytes_at.
  change (length FVE_MAGIC) with 8%nat. change (length REFS_MAGIC) with 4%nat.
  change (length FSRS_MAGIC) with 4%nat.
  assert (forall l : list Z, take 4 l = take 4 (take 8 l)) as H4 by (intros l; by rewrite take_take).
  split; [|split].
  - intros H%bool_decide_eq_true. rewrite H4, H. reflexivity.
  - intros H%bool_decide_eq_true. simpl length in H. rewrite (H4 (drop 3 boot)), H. done.
  - intros boot' E1 E2. rewrite (H4 (drop 3 boot')), E1, E2, <- H4. done.
Qed.

Lemma boot_magic_exclusive_witness :
  let boot := [0xeb; 0x58; 0x90] ++ FVE_MAGIC ++ repeat 0 501 in
  nk_is_bitlocker boot = true /\ nk_is_refs boot = false.
Proof.
  split; [reflexivity|].
  exact (proj1 (boot_magic_exclusive ([0xeb; 0x58; 0x90] ++ FVE_MAGIC ++ repeat 0 501)) eq_refl).
Defined.
