(* ===== verification/MkWrite.v ===== *)
(** * Writing runlists to the device

    Models [mkntfs_write], [mkntfs_bitmap_write], [mkntfs_logfile_write] and
    [ntfs_rlwrite] of src/NTFSModule/bridge/mkntfs/mkntfs.c, over an interface of
    the two device operations they call; [Device]'s callback device implements the
    interface. *)

From S2P Require Import Prelude ClusterAlloc Runlist Device.

(** [dev->d_ops->seek(dev, off, SEEK_SET)] (whether it succeeds) and
    [dev->d_ops->write(dev, buf, count)]. *)
Class BlockDev (S : Type) := {
  dev_seek : Z -> S -> bool * S;
  dev_write : list Z -> S -> Z * S;
}.

(** What the writers rely on: the device has a position and cells; a write answers
    -1, or stores a prefix of the bytes at the position and moves past it; nothing
    outside the bytes to write changes. *)
Class BlockDevLaws (S : Type) `{BlockDev S} := {
  dpos : S -> Z;
  dcell : S -> Z -> Z;
  seek_law : forall off s s', 0 <= off -> dev_seek off s = (true, s') ->
    dpos s' = off /\ forall a, dcell s' a = dcell s a;
  seek_frame : forall off s ok s', dev_seek off s = (ok, s') -> forall a, dcell s' a = dcell s a;
  write_law : forall buf s n s', dev_write buf s = (n, s') -> n <> -1 ->
    0 <= n <= Z.of_nat (length buf) /\ dpos s' = dpos s + n /\
    forall k, (Z.of_nat k < n) -> buf !! k = Some (dcell s' (dpos s + Z.of_nat k));
  write_frame : forall buf s n s', dev_write buf s = (n, s') ->
    forall a, ~ (dpos s <= a < dpos s + (if n =? -1 then Z.of_nat (length buf) else n)) ->
      dcell s' a = dcell s a;
}.

Inductive WRITE_TYPE := WRITE_STANDARD | WRITE_BITMAP | WRITE_LOGFILE.

Section MkWrite.

Context {S : Type} `{BlockDev S}.

(** [opts.no_action], [g_vol->cluster_size], and the allocations [g_allocation]. *)
Variables (no_action : bool) (csize : Z) (g_allocation : list run).

(** ** [mkntfs_write] *)

(** The do-while loop: [count] bytes of [b] are still to be written; the pointer
    [b] stays where it is. *)
Fixpoint write_loop (fuel : nat) (b : list Z) (count total retry : Z) (s : S) : option (Z * S) :=
  match fuel with
  | O => None
  | Datatypes.S fuel =>
      let '(n, s1) := dev_write (take (Z.to_nat count) b) s in
      if n =? -1 then Some (-1, s1) else
      let '(retry, count, total) :=
        if n =? 0 then (retry + 1, count, total) else (retry, count - n, total + n) in
      if negb (count =? 0) && (retry <? 3) then write_loop fuel b count total retry s1
      else Some (total, s1)
  end.

Definition mkntfs_write (b : list Z) (count : Z) (s : S) : option (Z * S) :=
  if no_action then Some (count, s)
  else write_loop (Z.to_nat count + 4) b count 0 0 s.

(** ** The buffered writers

    [g_dynamic_buf] is part of the state. *)

Definition partial_of (buf : list Z) (length : Z) : Z :=
  if Z.of_nat (List.length buf) <? length then Z.of_nat (List.length buf) else length.

Definition mkntfs_bitmap_write (offset length : Z) (buf : list Z) (s : S) : Z * list Z * S :=
  let partial := partial_of buf length in
  let buf' := bitmap_build buf (Z.shiftl offset 3) (Z.shiftl partial 3) g_allocation in
  let '(n, s1) := dev_write (take (Z.to_nat partial) buf') s in
  (n, buf', s1).

Definition mkntfs_logfile_write (offset length : Z) (buf : list Z) (s : S) : Z * list Z * S :=
  let partial := partial_of buf length in
  let buf' := repeat 255 (Z.to_nat partial) ++ drop (Z.to_nat partial) buf in
  let '(n, s1) := dev_write (take (Z.to_nat partial) buf') s in
  (n, buf', s1).

(** ** [ntfs_rlwrite] *)

(** The locals of the loop over the runs. *)
Record rlw := mkRlw { rw_total : Z; rw_delta : Z; rw_inited : Z; rw_buf : list Z; rw_dev : S }.

(** The [switch (write_type)]. *)
Definition write_chunk (wt : WRITE_TYPE) (val : list Z) (total length : Z) (buf : list Z) (s : S)
  : Z * list Z * S :=
  match wt with
  | WRITE_BITMAP => mkntfs_bitmap_write total length buf s
  | WRITE_LOGFILE => mkntfs_logfile_write total length buf s
  | WRITE_STANDARD =>
      let '(n, s1) := dev_write (take (Z.to_nat length) (drop (Z.to_nat total) val)) s in (n, buf, s1)
  end.

(** [do ... while (length && retry < 3)] for one run; [inr] is [return -1].  The
    result is what is left of [length]. *)
Fixpoint run_loop (fuel : nat) (wt : WRITE_TYPE) (val : list Z) (length retry : Z) (w : rlw)
  : option (Z * rlw + S) :=
  match fuel with
  | O => None
  | Datatypes.S fuel =>
      let '(n, buf, s1) := write_chunk wt val (rw_total w) length (rw_buf w) (rw_dev w) in
      if n =? -1 then Some (inr s1) else
      let '(length, retry, w1) :=
        if n =? 0 then (length, retry + 1, mkRlw (rw_total w) (rw_delta w) (rw_inited w) buf s1)
        else (length - n, retry, mkRlw (rw_total w + n) (rw_delta w) (rw_inited w + n) buf s1) in
      if negb (length =? 0) && (retry <? 3) then run_loop fuel wt val length retry w1
      else Some (inl (length, w1))
  end.

(** The loop over the runs: [inr] is a return from inside it. *)
Fixpoint rlwrite_runs (rl : list rle) (wt : WRITE_TYPE) (val : list Z) (val_len : Z) (w : rlw)
  : option (rlw + Z * S) :=
  match rl with
  | [] => Some (inl w)
  | r :: rl =>
      let length := rl_length r * csize in
      if rl_lcn r =? -1 then
        rlwrite_runs rl wt val val_len
          (mkRlw (rw_total w + length) (rw_delta w) (rw_inited w) (rw_buf w) (rw_dev w))
      else
        let '(length, delta) :=
          if val_len <? rw_total w + length
          then (val_len - rw_total w, length - (val_len - rw_total w))
          else (length, rw_delta w) in
        let '(ok, s1) := dev_seek (rl_lcn r * csize) (rw_dev w) in
        if negb ok then Some (inr (-1, s1)) else
        match run_loop (Z.to_nat length + 4) wt val length 0
                (mkRlw (rw_total w) delta (rw_inited w) (rw_buf w) s1) with
        | None => None
        | Some (inr s2) => Some (inr (-1, s2))
        | Some (inl (rest, w2)) =>
            if negb (rest =? 0) then Some (inr (rw_total w2, rw_dev w2))
            else rlwrite_runs rl wt val val_len w2
        end
  end.

(** [calloc_ok]: the padding can be allocated. *)
Definition ntfs_rlwrite (calloc_ok : bool) (rl : list rle) (val : list Z) (val_len : Z)
    (wt : WRITE_TYPE) (buf : list Z) (s : S) : option (Z * S) :=
  if no_action then Some (val_len, s) else
  match rlwrite_runs (live_runs rl) wt val val_len (mkRlw 0 0 0 buf s) with
  | None => None
  | Some (inr res) => Some res
  | Some (inl w) =>
      if rw_delta w =? 0 then Some (rw_total w, rw_dev w) else
      if negb calloc_ok then Some (-1, rw_dev w) else
      match mkntfs_write (repeat 0 (Z.to_nat (rw_delta w))) (rw_delta w) (rw_dev w) with
      | None => None
      | Some (n, s1) => Some (if n =? -1 then -1 else rw_total w, s1)
      end
  end.

(** ** Specification *)

(** What cell value belongs at byte [i] of the data of a write. *)
Definition holds (wt : WRITE_TYPE) (val : list Z) (i c : Z) : Prop :=
  match wt with
  | WRITE_STANDARD => val !! Z.to_nat i = Some c
  | WRITE_BITMAP => forall j, 0 <= j < 8 -> Z.testbit c j = bool_decide (allocated g_allocation (8 * i + j))
  | WRITE_LOGFILE => c = 255
  end.

Context `{!BlockDevLaws S}.

(** Exactly the bytes at [P] to [P + n) are written, with what belongs there. *)
Record wrote (wt : WRITE_TYPE) (val : list Z) (total P n : Z) (s s' : S) : Prop := {
  wt_pos : dpos s' = P + n;
  wt_data : forall k, 0 <= k < n -> holds wt val (total + k) (dcell s' (P + k));
  wt_frame : forall a, ~ (P <= a < P + n) -> dcell s' a = dcell s a;
}.

Lemma partial_of_spec buf length :
  0 <= length -> 0 <= partial_of buf length <= length /\
  partial_of buf length <= Z.of_nat (List.length buf).
Proof. unfold partial_of. intros. zcase; lia. Qed.

(** A write of a list all of whose bytes are the right ones. *)
Lemma dev_write_wrote wt val total data s n s1 :
  dev_write data s = (n, s1) -> 0 <= total ->
  (forall k c, data !! k = Some c -> holds wt val (total + Z.of_nat k) c) ->
  (n = -1 /\ forall a, ~ (dpos s <= a < dpos s + Z.of_nat (List.length data)) -> dcell s1 a = dcell s a) \/
  (0 <= n <= Z.of_nat (List.length data) /\ wrote wt val total (dpos s) n s s1).
Proof.
  intros E Ht Hd. pose proof (write_frame _ _ _ _ E) as Hf.
  destruct (Z.eqb_spec n (-1)) as [->|Hne]; [by left|]. right.
  destruct (write_law _ _ _ _ E Hne) as (Hn & Hp & Hk). split; [done|].
  constructor; [done| |done]. intros k Hkn.
  specialize (Hk (Z.to_nat k) ltac:(lia)). apply Hd in Hk.
  by replace (Z.of_nat (Z.to_nat k)) with k in Hk by lia.
Qed.

Lemma bitmap_byte buf total partial k c :
  0 <= total -> 0 <= partial <= Z.of_nat (List.length buf) -> Z.of_nat k < partial ->
  bitmap_build buf (Z.shiftl total 3) (Z.shiftl partial 3) g_allocation !! k = Some c ->
  forall j, 0 <= j < 8 -> Z.testbit c j = bool_decide (allocated g_allocation (8 * (total + Z.of_nat k) + j)).
Proof.
  intros Ht Hp Hk Hl j Hj. rewrite !Z.shiftl_mul_pow2 in Hl by lia. change (2 ^ 3) with 8 in Hl.
  pose proof (bitmap_build_bits buf (total * 8) (partial * 8) g_allocation (8 * Z.of_nat k + j)) as Hb.
  unfold bit_of in Hb.
  replace ((8 * Z.of_nat k + j) / 8) with (Z.of_nat k) in Hb
    by (rewrite Z.mul_comm, Z.div_add_l by lia; rewrite (Z.div_small j 8); lia).
  replace ((8 * Z.of_nat k + j) mod 8) with j in Hb
    by (rewrite Z.add_comm, Z.mul_comm, Z_mod_plus_full, Z.mod_small; lia).
  unfold byte_at in Hb. rewrite Nat2Z.id, Hl in Hb. simpl in Hb. rewrite Hb by lia.
  replace (total * 8 + (8 * Z.of_nat k + j)) with (8 * (total + Z.of_nat k) + j) by lia. done.
Qed.

Lemma write_chunk_spec wt val total length buf s n buf' s1 :
  write_chunk wt val total length buf s = (n, buf', s1) ->
  0 <= total -> 0 <= length -> (0 < List.length buf)%nat ->
  (wt = WRITE_STANDARD -> total + length <= Z.of_nat (List.length val)) ->
  (0 < List.length buf')%nat /\
  ((n = -1 /\ forall a, ~ (dpos s <= a < dpos s + length) -> dcell s1 a = dcell s a) \/
   (0 <= n <= length /\ wrote wt val total (dpos s) n s s1)).
Proof.
  intros E Ht Hl Hbuf Hval. destruct (partial_of_spec buf length Hl) as [Hp1 Hp2].
  destruct wt; simpl in E.
  - destruct (dev_write _ s) as [n0 s0] eqn:Ew. injection E as <- <- <-. split; [done|].
    assert (Z.of_nat (List.length (take (Z.to_nat length) (drop (Z.to_nat total) val))) = length) as Hlen.
    { rewrite length_take, length_drop. specialize (Hval eq_refl). lia. }
    destruct (dev_write_wrote WRITE_STANDARD val total _ _ _ _ Ew Ht) as [[-> Hf]|[Hn Hw]].
    + intros k c Hk. simpl. apply lookup_take_Some in Hk as [Hk _]. rewrite lookup_drop in Hk.
      by replace (Z.to_nat (total + Z.of_nat k)) with (Z.to_nat total + k)%nat by lia.
    + left. by rewrite Hlen in Hf.
    + right. rewrite Hlen in Hn. done.
  - unfold mkntfs_bitmap_write in E. set (p := partial_of buf length) in *.
    set (b := bitmap_build _ _ _ _) in *.
    assert (List.length b = List.length buf) as Hbl.
    { apply bitmap_build_length. rewrite Z.shiftl_mul_pow2 by lia. lia. }
    destruct (dev_write _ s) as [n0 s0] eqn:Ew. injection E as <- <- <-. split; [lia|].
    assert (Z.of_nat (List.length (take (Z.to_nat p) b)) = p) as Hlen by (rewrite length_take; lia).
    destruct (dev_write_wrote WRITE_BITMAP val total _ _ _ _ Ew Ht) as [[-> Hf]|[Hn Hw]].
    + intros k c Hk. simpl. apply lookup_take_Some in Hk as [Hk Hkp].
      apply (bitmap_byte buf total p k c); [done|lia|lia|done].
    + left. split; [done|]. intros a Ha. apply Hf. lia.
    + right. split; [lia|done].
  - unfold mkntfs_logfile_write in E. set (p := partial_of buf length) in *.
    set (b := repeat 255 _ ++ _) in *.
    assert (List.length b = List.length buf) as Hbl.
    { unfold b. rewrite length_app, repeat_length, length_drop. lia. }
    destruct (dev_write _ s) as [n0 s0] eqn:Ew. injection E as <- <- <-. split; [lia|].
    assert (Z.of_nat (List.length (take (Z.to_nat p) b)) = p) as Hlen by (rewrite length_take; lia).
    destruct (dev_write_wrote WRITE_LOGFILE val total _ _ _ _ Ew Ht) as [[-> Hf]|[Hn Hw]].
    + intros k c Hk. simpl. apply lookup_take_Some in Hk as [Hk Hkp].
      unfold b in Hk. rewrite lookup_app_l in Hk by (rewrite repeat_length; lia).
      assert (c ∈ repeat 255 (Z.to_nat p)) as Hin by (by eapply list_elem_of_lookup_2).
      apply list_elem_of_In, repeat_spec in Hin. done.
    + left. split; [done|]. intros a Ha. apply Hf. lia.
    + right. split; [lia|done].
Qed.

Lemma wrote_trans wt val total P n1 n2 s1 s2 s3 :
  0 <= n1 -> 0 <= n2 -> wrote wt val total P n1 s1 s2 -> wrote wt val (total + n1) (P + n1) n2 s2 s3 ->
  wrote wt val total P (n1 + n2) s1 s3.
Proof.
  intros H1 H2 [A1 A2 A3] [B1 B2 B3]. constructor.
  - lia.
  - intros k Hk. destruct (Z.lt_ge_cases k n1).
    + rewrite B3 by lia. apply A2. lia.
    + specialize (B2 (k - n1) ltac:(lia)).
      replace (total + n1 + (k - n1)) with (total + k) in B2 by lia.
      by replace (P + n1 + (k - n1)) with (P + k) in B2 by lia.
  - intros a Ha. rewrite B3, A3 by lia. done.
Qed.

(** The loop over one run: it ends, and either everything offered was written, or
    the device failed or stalled. *)
Lemma run_loop_spec wt val fuel : forall length retry w,
  0 <= rw_total w -> 0 <= length -> 0 <= retry < 3 -> (0 < List.length (rw_buf w))%nat ->
  (wt = WRITE_STANDARD -> rw_total w + length <= Z.of_nat (List.length val)) ->
  length + (3 - retry) < Z.of_nat fuel ->
  let P := dpos (rw_dev w) in
  (exists s2, run_loop fuel wt val length retry w = Some (inr s2) /\
     forall a, ~ (P <= a < P + length) -> dcell s2 a = dcell (rw_dev w) a) \/
  (exists rest w2, run_loop fuel wt val length retry w = Some (inl (rest, w2)) /\
     0 <= rest <= length /\ rw_total w2 = rw_total w + (length - rest) /\
     rw_delta w2 = rw_delta w /\ (0 < List.length (rw_buf w2))%nat /\
     wrote wt val (rw_total w) P (length - rest) (rw_dev w) (rw_dev w2)).
Proof.
  induction fuel as [|fuel IH]; intros length retry w Ht Hl Hr Hb Hval Hfuel; [lia|]. intros P.
  cbn [run_loop].
  destruct (write_chunk wt val (rw_total w) length (rw_buf w) (rw_dev w)) as [[n buf'] s1] eqn:Ec.
  destruct (write_chunk_spec _ _ _ _ _ _ _ _ _ Ec Ht Hl Hb Hval) as [Hb' [[-> Hf]|[Hn Hw]]].
  { left. exists s1. split; [done|]. done. }
  rewrite (proj2 (Z.eqb_neq n (-1))) by lia.
  assert (forall x total', 0 <= x -> wrote wt val (rw_total w) P n (rw_dev w) s1 ->
    x = length - n -> total' = rw_total w + n -> n = 0 \/ 0 < n -> forall retry' i,
    0 <= retry' -> x + (3 - retry') < Z.of_nat fuel \/ x = 0 \/ 3 <= retry' ->
    let res := if negb (x =? 0) && (retry' <? 3)
      then run_loop fuel wt val x retry' (mkRlw total' (rw_delta w) i buf' s1)
      else Some (inl (x, mkRlw total' (rw_delta w) i buf' s1)) in
    (exists s2, res = Some (inr s2) /\
       forall a, ~ (P <= a < P + length) -> dcell s2 a = dcell (rw_dev w) a) \/
    (exists rest w2, res = Some (inl (rest, w2)) /\ 0 <= rest <= length /\
       rw_total w2 = rw_total w + (length - rest) /\ rw_delta w2 = rw_delta w /\
       (0 < List.length (rw_buf w2))%nat /\
       wrote wt val (rw_total w) P (length - rest) (rw_dev w) (rw_dev w2))) as Hgo.
  { intros x total' Hx Hw' Ex Et Hnn retry' i Hr' Hfu res. unfold res.
    pose proof Hw' as [W1 W2 W3].
    destruct (negb (x =? 0) && (retry' <? 3)) eqn:Hcond; zb.
    - destruct (IH x retry' (mkRlw total' (rw_delta w) i buf' s1))
        as [(s2 & -> & Hf)|(rest & w2 & -> & R1 & R2 & R3 & R4 & R5)]; simpl in *; try lia; try done.
      + intros Hwt. specialize (Hval Hwt). lia.
      + left. exists s2. split; [done|]. intros a Ha. rewrite Hf, W3 by lia. done.
      + right. exists rest, w2. split; [done|]. split; [lia|]. split; [lia|]. split; [done|].
        split; [done|]. replace (length - rest) with (n + (x - rest)) by lia.
        apply (wrote_trans _ _ _ _ _ _ _ s1); [lia|lia|done|]. rewrite <- W1, <- Et. done.
    - right. exists x, (mkRlw total' (rw_delta w) i buf' s1). split; [done|]. simpl.
      split; [lia|]. split; [lia|]. split; [done|]. split; [done|].
      replace (length - x) with n by lia. done. }
  destruct (Z.eqb_spec n 0) as [->|Hne].
  - apply Hgo; (done || lia).
  - apply Hgo; (done || lia).
Qed.

(** ** The loop over the runs *)

(** [a] is a device byte of the run. *)
Definition run_addr (r : rle) (a : Z) : Prop :=
  0 <= rl_lcn r /\ rl_lcn r * csize <= a < (rl_lcn r + rl_length r) * csize.

Fixpoint disjoint_runs (rl : list rle) : Prop :=
  match rl with
  | [] => True
  | r :: rl => (forall r' a, r' ∈ rl -> run_addr r a -> ~ run_addr r' a) /\ disjoint_runs rl
  end.

(** The data ends inside the last run. *)
Fixpoint ends_in_last (val_len : Z) (rl : list rle) : Prop :=
  match rl with
  | [] => True
  | r :: rl =>
      rl_vcn r * csize <= val_len /\
      (rl <> [] -> (rl_vcn r + rl_length r) * csize <= val_len) /\ ends_in_last val_len rl
  end.

Lemma disjoint_apart rl r r' a :
  disjoint_runs rl -> r ∈ rl -> r' ∈ rl -> r <> r' -> run_addr r a -> run_addr r' a -> False.
Proof.
  induction rl as [|r0 rl IH]; intros Hd Hr Hr' Hne Ha Ha'; [by apply not_elem_of_nil in Hr|].
  destruct Hd as [Hd1 Hd2].
  apply elem_of_cons in Hr as [->|Hr]; apply elem_of_cons in Hr' as [->|Hr'].
  - done.
  - by apply (Hd1 r' a).
  - by apply (Hd1 r a).
  - by apply IH.
Qed.

Record rl_wf (v val_len : Z) (rl : list rle) : Prop := {
  rf_runs : Forall (fun r => 0 < rl_length r /\ -1 <= rl_lcn r) rl;
  rf_contiguous : contiguous v rl;
  rf_disjoint : disjoint_runs rl;
  rf_ends : ends_in_last val_len rl;
}.

(** Device byte of byte [p] of the data, for a run that holds it. *)
Definition addr_of (r : rle) (p : Z) : Z := rl_lcn r * csize + (p - rl_vcn r * csize).

(** [p] lies in [r], which has clusters. *)
Definition in_real_run (r : rle) (p : Z) : Prop :=
  0 <= rl_lcn r /\ rl_vcn r * csize <= p < (rl_vcn r + rl_length r) * csize.

Record runs_done (wt : WRITE_TYPE) (val : list Z) (val_len v : Z) (rl : list rle) (s : S) (w : rlw)
  : Prop := {
  rd_frame : forall a, (forall r, r ∈ rl -> ~ run_addr r a) -> dcell (rw_dev w) a = dcell s a;
  rd_data : forall r p, r ∈ rl -> in_real_run r p -> p < val_len ->
    holds wt val p (dcell (rw_dev w) (addr_of r p));
  rd_total : val_len <= runs_end v rl * csize -> val_len <= rw_total w;
  rd_pad : forall r p, r ∈ rl -> in_real_run r p -> val_len <= p ->
    rw_delta w = (rl_vcn r + rl_length r) * csize - val_len /\ dpos (rw_dev w) = addr_of r val_len;
  rd_delta : rw_delta w = 0 \/ exists r, r ∈ rl /\ in_real_run r val_len /\
    rw_delta w = (rl_vcn r + rl_length r) * csize - val_len /\ dpos (rw_dev w) = addr_of r val_len;
}.

(** One run with clusters: how much of it the data fills, and the padding. *)
Lemma run_split val_len total len :
  total <= val_len -> 0 < len ->
  (if val_len <? total + len then (val_len - total, len - (val_len - total)) else (len, 0)) =
  (Z.min len (val_len - total), Z.max 0 (total + len - val_len)).
Proof. intros. zcase; f_equal; lia. Qed.

Lemma rlwrite_runs_spec wt val val_len : 0 < csize ->
  (wt = WRITE_STANDARD -> val_len <= Z.of_nat (List.length val)) ->
  forall rl v w,
  rl_wf v val_len rl -> 0 <= v -> rw_total w = v * csize -> rw_delta w = 0 ->
  (0 < List.length (rw_buf w))%nat ->
  (exists r s', rlwrite_runs rl wt val val_len w = Some (inr (r, s')) /\ -1 <= r /\
     (r < val_len \/ r = -1) /\ forall a, (forall r, r ∈ rl -> ~ run_addr r a) -> dcell s' a = dcell (rw_dev w) a) \/
  (exists w', rlwrite_runs rl wt val val_len w = Some (inl w') /\
     runs_done wt val val_len v rl (rw_dev w) w').
Proof.
  intros Hcs Hval. induction rl as [|r rl IH]; intros v w [Hr Hc Hd He] Hv Ht Hdl Hb.
  { right. exists w. split; [done|]. constructor; simpl; try done.
    - intros r p Hin. by apply not_elem_of_nil in Hin.
    - lia.
    - intros r p Hin. by apply not_elem_of_nil in Hin.
    - by left. }
  apply Forall_cons_1 in Hr as [[Hlen Hlcn] Hr]. destruct Hc as [Hvcn Hc]. destruct Hd as [Hd1 Hd].
  destruct He as (He1 & He2 & He3). cbn [rlwrite_runs].
  assert (rl_wf (v + rl_length r) val_len rl) as Hwf by by constructor.
  assert (0 < rl_length r * csize) by nia.
  destruct (Z.eqb_spec (rl_lcn r) (-1)) as [Hh|Hh].
  - destruct (IH (v + rl_length r) (mkRlw (rw_total w + rl_length r * csize) (rw_delta w) (rw_inited w)
      (rw_buf w) (rw_dev w)) Hwf) as [(r1 & s' & -> & H1 & H2 & H3)|(w' & -> & [D1 D2 D3 D4 D5])];
      simpl; [lia|lia|done|done| |].
    + left. exists r1, s'. split_and!; try done. intros a Ha. apply H3. intros r' Hin. apply Ha. by right.
    + right. exists w'. split; [done|]. constructor.
      * intros a Ha. apply D1. intros r' Hin. apply Ha. by right.
      * intros r' p Hin. apply elem_of_cons in Hin as [->|Hin]; [intros [? _]; lia|by apply D2].
      * done.
      * intros r' p Hin. apply elem_of_cons in Hin as [->|Hin]; [intros [? _]; lia|by apply D4].
      * destruct D5 as [?|(r' & Hin & Hx)]; [by left|]. right. exists r'. split; [by right|done].
  - assert (0 <= rl_lcn r) as Hl0 by lia. assert (0 <= rl_lcn r * csize) as Hl1 by nia.
    rewrite Hdl, Ht, <- Hvcn. rewrite run_split by lia.
    set (len := Z.min _ _). set (delta := Z.max 0 _).
    destruct (dev_seek (rl_lcn r * csize) (rw_dev w)) as [ok s1] eqn:Es.
    pose proof (seek_frame _ _ _ _ Es) as Hsf. destruct ok; simpl.
    2:{ left. exists (-1), s1. split; [done|]. split; [lia|]. split; [by right|]. intros a _. apply Hsf. }
    destruct (seek_law _ _ _ Hl1 Es) as [Hpos _].
    set (w1 := mkRlw _ _ _ _ s1).
    destruct (run_loop_spec wt val (Z.to_nat len + 4) len 0 w1)
      as [(s2 & -> & Hf)|(rest & w2 & -> & R1 & R2 & R3 & R4 & [W1 W2 W3])]; simpl in *;
      [nia|lia|lia|done|intros Hwt; specialize (Hval Hwt); lia|lia| |].
    + left. exists (-1), s2. split; [done|]. split; [lia|]. split; [by right|].
      intros a Ha. rewrite Hf, Hsf; [done|]. intros Hin. apply (Ha r); [left|].
      split; [lia|]. rewrite Hpos in Hin. nia.
    + rewrite Hpos in *.
      assert (forall a, ~ run_addr r a -> dcell (rw_dev w2) a = dcell (rw_dev w) a) as Hfr.
      { intros a Ha. rewrite W3, Hsf; [done|]. intros Hin. apply Ha. split; [lia|]. nia. }
      destruct (Z.eqb_spec rest 0) as [->|Hrest]; simpl.
      2:{ left. exists (rw_total w2), (rw_dev w2). split; [done|]. split; [nia|]. split; [lia|].
          intros a Ha. apply Hfr. apply Ha. left. }
      rewrite Z.sub_0_r in *.
      assert (forall p, in_real_run r p -> p < val_len ->
        holds wt val p (dcell (rw_dev w2) (addr_of r p))) as Hdata.
      { intros p [_ Hp] Hpv. specialize (W2 (p - rl_vcn r * csize)).
        replace (rl_vcn r * csize + (p - rl_vcn r * csize)) with p in W2 by lia.
        apply W2. unfold len. nia. }
      destruct rl as [|r2 rl].
      * right. exists w2. split; [done|]. constructor.
        -- intros a Ha. apply Hfr, Ha. left.
        -- intros r' p Hin. apply list_elem_of_singleton in Hin as ->. apply Hdata.
        -- simpl. nia.
        -- intros r' p Hin. apply list_elem_of_singleton in Hin as ->. intros [_ Hp] Hpv.
           rewrite R3, W1. unfold addr_of. split; [unfold delta; nia|unfold len; nia].
        -- destruct (Z.eq_dec delta 0) as [Hz|Hnz]; [left; congruence|]. right. exists r.
           split; [left|]. unfold in_real_run, addr_of. rewrite R3, W1.
           split_and!; unfold delta, len in *; nia.
      * assert ((rl_vcn r + rl_length r) * csize <= val_len) as Hfull by by apply He2.
        assert (len = rl_length r * csize /\ delta = 0) as [Elen Edel] by (unfold len, delta; nia).
        destruct (IH (v + rl_length r) w2 Hwf) as [(r1 & s' & -> & H1 & H2 & H3)|(w' & -> & [D1 D2 D3 D4 D5])];
          [lia|nia|congruence|done| |].
        -- left. exists r1, s'. split_and!; try done. intros a Ha.
           rewrite H3, Hfr; [done|apply Ha; left|]. intros r' Hin. apply Ha. by right.
        -- right. exists w'. split; [done|]. constructor.
           ++ intros a Ha. rewrite D1, Hfr; [done|apply Ha; left|]. intros r' Hin. apply Ha. by right.
           ++ intros r' p Hin Hp Hpv. apply elem_of_cons in Hin as [->|Hin]; [|by apply D2].
              rewrite D1; [by apply Hdata|]. intros r' Hin. apply Hd1; [done|].
              destruct Hp as [Hp1 Hp2]. split; [done|]. unfold addr_of. nia.
           ++ simpl. rewrite Hvcn. done.
           ++ intros r' p Hin Hp Hpv. apply elem_of_cons in Hin as [->|Hin]; [|by apply (D4 r' p)].
              destruct Hp as [_ Hp]. lia.
           ++ destruct D5 as [?|(r' & Hin & Hx)]; [by left|]. right. exists r'. split; [by right|done].
Qed.

(** ** The padding *)

(** The device never stalls: a write of some bytes never answers 0. *)
Definition progresses : Prop := forall buf s, buf <> [] -> fst (dev_write buf s) <> 0.

Lemma take_repeat_zero (N : nat) count :
  count <= Z.of_nat N -> take (Z.to_nat count) (repeat 0 N) = repeat 0 (Z.to_nat count).
Proof.
  intros H1. replace N with (Z.to_nat count + (N - Z.to_nat count))%nat by lia.
  rewrite repeat_app, take_app_length'; [done|]. by rewrite repeat_length.
Qed.

Lemma write_loop_zeros N fuel : forall count total retry s,
  0 <= count <= Z.of_nat N -> 0 <= retry < 3 -> 0 <= total -> count + (3 - retry) < Z.of_nat fuel ->
  exists n s', write_loop fuel (repeat 0 N) count total retry s = Some (n, s') /\
    (n = -1 \/ total <= n <= total + count) /\
    (forall a, ~ (dpos s <= a < dpos s + count) -> dcell s' a = dcell s a) /\
    (n = total + count -> forall a, dpos s <= a < dpos s + count -> dcell s' a = 0) /\
    (progresses -> n = -1 \/ n = total + count) /\
    (n <> -1 -> dpos s' = dpos s + (n - total)).
Proof.
  induction fuel as [|fuel IH]; intros count total retry s Hc Hr Ht Hf; [lia|]. cbn [write_loop].
  rewrite take_repeat_zero by lia.
  destruct (dev_write (repeat 0 (Z.to_nat count)) s) as [n s1] eqn:Ew.
  assert (Z.of_nat (List.length (repeat 0 (Z.to_nat count))) = count) as Hlen by (rewrite repeat_length; lia).
  pose proof (write_frame _ _ _ _ Ew) as Hfr. rewrite Hlen in Hfr.
  destruct (Z.eqb_spec n (-1)) as [->|Hne].
  { exists (-1), s1. split; [done|]. split; [by left|]. split; [done|]. split; [lia|].
    split; [intros _; by left | done]. }
  destruct (write_law _ _ _ _ Ew Hne) as (Hn & Hp & Hk). rewrite Hlen in Hn.
  assert (forall a, dpos s <= a < dpos s + n -> dcell s1 a = 0) as Hz.
  { intros a Ha. specialize (Hk (Z.to_nat (a - dpos s)) ltac:(lia)).
    replace (dpos s + Z.of_nat (Z.to_nat (a - dpos s))) with a in Hk by lia.
    assert (dcell s1 a ∈ repeat 0 (Z.to_nat count)) as Hin by (by eapply list_elem_of_lookup_2).
    apply list_elem_of_In, repeat_spec in Hin. done. }
  assert (progresses -> n = 0 -> count = 0) as Hprog.
  { intros Hpr ->. destruct (Z.eq_dec count 0); [done|]. exfalso. apply (Hpr (repeat 0 (Z.to_nat count)) s).
    - replace (Z.to_nat count) with (Datatypes.S (Z.to_nat count - 1)) by lia. done.
    - by rewrite Ew. }
  set (st := if n =? 0 then (retry + 1, count, total) else (retry, count - n, total + n)).
  assert (exists r' , st = (r', count - n, total + n) /\ 0 <= r' /\
    count - n + (3 - r') < count + (3 - retry) /\ (n <> 0 -> r' = retry)) as (r' & -> & Hr0 & Hr1 & Hr2).
  { unfold st. destruct (Z.eqb_spec n 0) as [->|]; [exists (retry + 1)|exists retry];
      (split; [by rewrite ?Z.sub_0_r, ?Z.add_0_r|lia]). }
  destruct (negb (count - n =? 0) && (r' <? 3)) eqn:Hcond; zb.
  - destruct (IH (count - n) (total + n) r' s1) as (n2 & s2 & -> & I1 & I2 & I3 & I4 & I5); [lia..|].
    exists n2, s2. split; [done|]. split; [lia|]. split; [|split; [|split]].
    + intros a Ha. rewrite I2, Hfr; (done || lia).
    + intros Hn2 a Ha. destruct (Z.lt_ge_cases a (dpos s + n)).
      * rewrite I2 by lia. apply Hz. lia.
      * apply I3; lia.
    + intros Hpr. destruct (I4 Hpr); lia.
    + intros Hn2. rewrite (I5 Hn2). lia.
  - exists (total + n), s1. split; [done|]. split; [lia|]. split; [|split; [|split]].
    + intros a Ha. apply Hfr. lia.
    + intros Hn2 a Ha. apply Hz. lia.
    + intros Hpr. right. destruct (Z.eq_dec n 0) as [Hn0|]; [specialize (Hprog Hpr Hn0); lia|].
      apply andb_false_iff in Hcond as [Hcond|Hcond]; zb; lia.
    + intros _. lia.
Qed.

Lemma in_real_run_addr r p : in_real_run r p -> run_addr r (addr_of r p).
Proof. intros [Hl Hp]. split; [done|]. unfold addr_of. lia. Qed.

Lemma rlwrite_spec calloc_ok wt val val_len buf s rl :
  no_action = false -> 0 < csize -> (0 < List.length buf)%nat -> 0 <= val_len ->
  (wt = WRITE_STANDARD -> val_len <= Z.of_nat (List.length val)) ->
  rl_wf 0 val_len (live_runs rl) -> val_len <= runs_end 0 (live_runs rl) * csize ->
  exists r s', ntfs_rlwrite calloc_ok rl val val_len wt buf s = Some (r, s') /\ -1 <= r /\
    (forall a, (forall x, x ∈ live_runs rl -> ~ run_addr x a) -> dcell s' a = dcell s a) /\
    (val_len <= r -> r <> -1 -> forall x p, x ∈ live_runs rl -> in_real_run x p ->
       (p < val_len -> holds wt val p (dcell s' (addr_of x p))) /\
       (progresses -> val_len <= p -> dcell s' (addr_of x p) = 0)).
Proof.
  intros Hna Hcs Hbuf Hvl Hval Hwf Hcov. unfold ntfs_rlwrite. rewrite Hna.
  destruct (rlwrite_runs_spec wt val val_len Hcs Hval (live_runs rl) 0 (mkRlw 0 0 0 buf s) Hwf)
    as [(r & s' & -> & H1 & H2 & H3)|(w & -> & [D1 D2 D3 D4 D5])]; try done.
  { exists r, s'. split_and!; try done. lia. }
  specialize (D3 Hcov). simpl in D1.
  destruct (Z.eqb_spec (rw_delta w) 0) as [Hz|Hnz].
  { exists (rw_total w), (rw_dev w). split; [done|]. split; [|split; [done|]].
    - lia.
    - intros _ _ x p Hin Hp. split; [by apply D2|]. intros _ Hpv.
      destruct (D4 x p Hin Hp Hpv) as [Hd _]. destruct Hp as [_ Hp]. lia. }
  destruct D5 as [?|(x & Hin & Hx & Hdel & Hpos)]; [done|].
  assert (0 < rw_delta w) as Hdp by (destruct Hx as [_ Hx]; lia).
  assert (forall a, dpos (rw_dev w) <= a < dpos (rw_dev w) + rw_delta w ->
    exists p, a = addr_of x p /\ val_len <= p /\ in_real_run x p) as Hpad.
  { intros a Ha. exists (a - addr_of x val_len + val_len). rewrite Hpos in Ha.
    unfold in_real_run, addr_of in *. destruct Hx as [Hx0 Hx]. split_and!; lia. }
  destruct calloc_ok; simpl.
  2:{ exists (-1), (rw_dev w). split_and!; try done; lia. }
  unfold mkntfs_write. rewrite Hna.
  destruct (write_loop_zeros (Z.to_nat (rw_delta w)) (Z.to_nat (rw_delta w) + 4) (rw_delta w) 0 0 (rw_dev w))
    as (n & s' & -> & W1 & W2 & W3 & W4 & _); [lia..|].
  exists (if n =? -1 then -1 else rw_total w), s'. split; [done|]. split; [zcase; lia|]. split.
  - intros a Ha. rewrite W2, D1; [done|done|]. intros Hr.
    destruct (Hpad a Hr) as (p & -> & _ & Hp). apply (Ha x Hin). by apply in_real_run_addr.
  - intros _ Hne y p Hin' Hp. split.
    + intros Hpv. rewrite W2; [by apply D2|]. intros Hr.
      destruct (Hpad _ Hr) as (p' & Ea & Hp'v & Hp').
      destruct (D4 x p' Hin Hp' Hp'v) as [Ed _].
      rewrite Hpos in Hr. destruct (decide (y = x)) as [->|Hyx].
      * unfold addr_of in Hr. lia.
      * pose proof (in_real_run_addr y p Hp) as Hy. pose proof (in_real_run_addr x p' Hp') as Hxa.
        rewrite <- Ea in Hxa. by eapply (disjoint_apart (live_runs rl) y x); [apply Hwf|..].
    + intros Hpr Hpv. destruct (W4 Hpr) as [->|Hn]; [done|]. apply W3; [done|].
      destruct (D4 y p Hin' Hp Hpv) as [E1 E2]. rewrite E2. unfold addr_of in *.
      destruct Hp as [_ Hp]. lia.
Qed.

End MkWrite.

(** ** The callback device implements the interface *)

(** A medium of cells whose write callback stores a prefix of what it is given. *)
Record medium_io {D : Type} (io : nk_io D) (cell : D -> Z -> Z) : Prop := {
  mi_write : forall b o m n m', io_pwrite io b o m = (n, m') -> 0 <= n ->
    n <= Z.of_nat (length b) /\
    (forall k, Z.of_nat k < n -> b !! k = Some (cell m' (o + Z.of_nat k))) /\
    (forall a, ~ (o <= a < o + n) -> cell m' a = cell m a);
  mi_fail : forall b o m n m' a, io_pwrite io b o m = (n, m') -> n < 0 ->
    ~ (o <= a < o + Z.of_nat (length b)) -> cell m' a = cell m a;
}.

Definition nkdev_block {D} (io : nk_io D) : BlockDev (device D) := {|
  dev_seek off d := let '(n, _, d') := nkdev_seek io off SEEK_SET d in (negb (n =? -1), d');
  dev_write buf d := let '(n, _, d') := nkdev_write io buf d in (n, d') |}.

Lemma nkdev_write_cases {D} (io : nk_io D) buf d :
  let '(n, _, d') := nkdev_write io buf d in
  (d_readonly d = true /\ n = -1 /\ d' = d) \/
  exists n0 m0, io_pwrite io buf (d_pos d) (d_medium d) = (n0, m0) /\ d_medium d' = m0 /\
    ((n0 < 0 /\ n = -1 /\ d_pos d' = d_pos d) \/ (0 <= n0 /\ n = n0 /\ d_pos d' = d_pos d + n0)).
Proof.
  unfold nkdev_write, nkdev_pwrite. destruct (d_readonly d); [by left|].
  destruct (io_pwrite io buf (d_pos d) (d_medium d)) as [n m].
  destruct (Z.ltb_spec n 0); simpl; [right; exists n, m; split_and!; [done|done|left; lia]|].
  destruct (Z.ltb_spec 0 n); simpl; right; exists n, m; (split_and!; [done|done|right; simpl; lia]).
Qed.

#[export] Instance nkdev_block_laws {D} (io : nk_io D) cell (L : medium_io io cell) :
  @BlockDevLaws (device D) (nkdev_block io).
Proof.
  unshelve refine {| dpos := d_pos; dcell d := cell (d_medium d) |}.
  - intros off s s' Ho. simpl. unfold nkdev_seek. rewrite Z.add_0_l, (proj2 (Z.ltb_ge off 0)) by lia.
    by intros [= _ <-].
  - intros off s ok s'. simpl. unfold nkdev_seek. zcase; by intros [= _ <-].
  - intros buf s n s' E Hn. simpl in E. pose proof (nkdev_write_cases io buf s) as Hc.
    destruct (nkdev_write io buf s) as [[n1 e] d']. injection E as -> ->.
    destruct Hc as [(_ & ? & _)|(n0 & m0 & Ew & Hm & [(? & ? & _)|(H1 & -> & Hp)])]; [done|done|].
    destruct (mi_write _ _ L _ _ _ _ _ Ew H1) as (H2 & H3 & _). rewrite Hm. split; [lia|]. done.
  - intros buf s n s' E a Ha. simpl in E. pose proof (nkdev_write_cases io buf s) as Hc.
    destruct (nkdev_write io buf s) as [[n1 e] d']. injection E as -> ->.
    destruct Hc as [(_ & _ & ->)|(n0 & m0 & Ew & Hm & [(H1 & -> & _)|(H1 & -> & Hp)])]; [done|..].
    + rewrite Hm. by apply (mi_fail _ _ L _ _ _ _ _ a Ew H1).
    + rewrite Hm. rewrite (proj2 (Z.eqb_neq n0 (-1))) in Ha by lia.
      by apply (mi_write _ _ L _ _ _ _ _ Ew H1).
Defined.

(** A medium that takes at most [lim] bytes per call. *)
Definition cell_io (lim : Z) : nk_io (Z -> Z) := mkIo 65536
  (fun n o m => (n, m <$> seqZ o n, m))
  (fun b o m => let n := Z.min lim (Z.of_nat (length b)) in
     (n, fun a => if (o <=? a) && (a <? o + n) then default 0 (b !! Z.to_nat (a - o)) else m a)).

Lemma cell_io_laws lim : 0 <= lim -> medium_io (cell_io lim) (fun m a => m a).
Proof.
  intros Hlim. constructor.
  - intros b o m n m' [= <- <-] Hn. split; [lia|]. split.
    + intros k Hk. rewrite (proj2 (Z.leb_le _ _)), (proj2 (Z.ltb_lt _ _)) by lia. simpl.
      replace (Z.to_nat (o + Z.of_nat k - o)) with k by lia.
      destruct (lookup_lt_is_Some_2 b k) as [x Hx]; [lia|]. by rewrite Hx.
    + intros a Ha. repeat zcase; simpl; (done || lia).
  - intros b o m n m' a [= <- <-] Hn. lia.
Qed.

(** [C22] [ntfs_rlwrite] puts every byte where the runlist says.  For any device that
    behaves as the interface promises, a gap-free runlist whose runs with clusters
    are disjoint and whose last run holds the end of the data: the call ends; it
    changes no device byte outside the runs; and when it answers at least
    [val_len], every byte of the data in a run with clusters is on the device at
    the place the runlist gives (the buffer's byte, the bitmap's eight clusters,
    or 0xff for the log file, whatever the size of the bounce buffer and however
    the device splits the writes), and, if the device never stalls, the rest of
    the last run is zero. *)
Theorem ntfs_rlwrite_correct : forall (S : Type) `{BlockDevLaws S} csize g_allocation calloc_ok
    wt val val_len buf (s : S) rl,
  0 < csize -> (0 < length buf)%nat -> 0 <= val_len ->
  (wt = WRITE_STANDARD -> val_len <= Z.of_nat (length val)) ->
  rl_wf csize 0 val_len (live_runs rl) -> val_len <= runs_end 0 (live_runs rl) * csize ->
  exists r s', ntfs_rlwrite false csize g_allocation calloc_ok rl val val_len wt buf s = Some (r, s') /\
    -1 <= r /\
    (forall a, (forall x, x ∈ live_runs rl -> ~ run_addr csize x a) -> dcell s' a = dcell s a) /\
    (val_len <= r -> r <> -1 -> forall x p, x ∈ live_runs rl -> in_real_run csize x p ->
       (p < val_len -> holds g_allocation wt val p (dcell s' (addr_of csize x p))) /\
       (progresses -> val_len <= p -> dcell s' (addr_of csize x p) = 0)).
Proof. intros. by apply rlwrite_spec. Qed.

(** Two scattered runs of two-byte clusters, seven bytes of data, a device that takes
    three bytes at a time. *)
Definition sample_rl : list rle := [mkRle 0 10 1; mkRle 1 4 3; mkRle 4 0 0].
Definition sample_dev : device (Z -> Z) := mkDev false true false 0 (fun _ => 9).

Lemma ntfs_rlwrite_correct_witness :
  exists r s',
    @ntfs_rlwrite _ (nkdev_block (cell_io 3)) false 2 [] true sample_rl [1; 2; 3; 4; 5; 6; 7] 7
      WRITE_STANDARD [0] sample_dev = Some (r, s') /\ r = 7 /\
    d_medium s' <$> seqZ 8 14 = [3; 4; 5; 6; 7; 0; 9; 9; 9; 9; 9; 9; 1; 2] /\
    holds [] WRITE_STANDARD [1; 2; 3; 4; 5; 6; 7] 2 (d_medium s' 8).
Proof.
  assert (rl_wf 2 0 7 (live_runs sample_rl)) as Hwf.
  { constructor; cbn.
    - repeat constructor; cbn; lia.
    - lia.
    - split; [|split; [|done]]; [|by intros r' a ?%not_elem_of_nil].
      intros r' a Hin. apply list_elem_of_singleton in Hin as ->. unfold run_addr. cbn. lia.
    - repeat split; intros; cbn in *; first [lia | congruence]. }
  destruct (@ntfs_rlwrite_correct _ (nkdev_block (cell_io 3)) (nkdev_block_laws _ _ (cell_io_laws 3 ltac:(lia)))
    2 [] true WRITE_STANDARD [1; 2; 3; 4; 5; 6; 7] 7 [0] sample_dev sample_rl)
    as (r & s' & E & _ & _ & Hd).
  - lia.
  - cbn. lia.
  - lia.
  - intros _. cbn. lia.
  - exact Hwf.
  - cbn. lia.
  - exists r, s'. pose proof E as E'. vm_compute in E'. injection E' as <- <-.
    split; [exact E|]. split; [reflexivity|]. split; [vm_compute; reflexivity|].
    destruct (Hd ltac:(lia) ltac:(lia) (mkRle 1 4 3) 2) as [Hx _].
    + right. left.
    + unfold in_real_run. cbn. lia.
    + exact (Hx ltac:(lia)).
Defined.

(** A short write corrupts.  [mkntfs_write] does not advance its pointer: on a
    device that takes two bytes at a time, writing 1 2 3 4 reports success (4
    bytes written) and leaves 1 2 1 2 on the device. *)
Theorem mkntfs_write_repeats :
  exists s', @mkntfs_write _ (nkdev_block (cell_io 2)) false [1; 2; 3; 4] 4 sample_dev = Some (4, s') /\
    d_medium s' <$> seqZ 0 5 = [1; 2; 1; 2; 9].
Proof. eexists. split; vm_compute; reflexivity. Qed.
