(* ===== verification/Options.v ===== *)
(** * Options of mkntfs and number parsing

    Models [struct mkntfs_options], [mkntfs_parse_long], [mkntfs_parse_llong],
    [mkntfs_init_options] and [mkntfs_parse_options] of
    src/NTFSModule/bridge/mkntfs/mkntfs.c, [utils_parse_size] and
    [utils_parse_range] of src/NTFSModule/bridge/mkntfs/utils.c, and the command
    line [nk_format] of src/NTFSModule/bridge/ntfs_bridge.c builds.

    [strtol] and [strtoll] are the C library's (both 64 bits wide, base 0);
    [getopt_long] is represented by the sequence of its results.  A C string is a
    [string]; the terminating zero is the end of the string. *)

From Stdlib Require Import String Ascii.
From S2P Require Import Prelude.

Local Open Scope string_scope.
Local Open Scope Z_scope.

(** ** [strtol(string, &end, 0)] *)

Definition code (c : ascii) : Z := Z.of_nat (nat_of_ascii c).

Definition is_space (c : ascii) : bool := (code c =? 32) || ((9 <=? code c) && (code c <=? 13)).

(** The value of a character as a digit. *)
Definition digit_val (c : ascii) : option Z :=
  if (48 <=? code c) && (code c <=? 57) then Some (code c - 48)
  else if (97 <=? code c) && (code c <=? 122) then Some (code c - 87)
  else if (65 <=? code c) && (code c <=? 90) then Some (code c - 55)
  else None.

Definition digit_in (base : Z) (c : ascii) : option Z :=
  match digit_val c with
  | Some d => if d <? base then Some d else None
  | None => None
  end.

(** The longest prefix of digits: its value, and what follows. *)
Fixpoint read_digits (base acc : Z) (s : string) : Z * string :=
  match s with
  | String c s' =>
      match digit_in base c with
      | Some d => read_digits base (acc * base + d) s'
      | None => (acc, s)
      end
  | EmptyString => (acc, s)
  end.

Fixpoint skip_space (s : string) : string :=
  match s with
  | String c s' => if is_space c then skip_space s' else s
  | EmptyString => s
  end.

Definition read_sign (s : string) : bool * string :=
  match s with
  | String "-" s' => (true, s')
  | String "+" s' => (false, s')
  | _ => (false, s)
  end.

(** The magnitude in base 0: 0x prefix, 0 prefix or decimal; [None] when there is
    no digit at all. *)
Definition read_number (s : string) : option (Z * string) :=
  match s with
  | String "0" (String x (String h s')) =>
      match (if (code x =? 120) || (code x =? 88) then digit_in 16 h else None) with
      | Some d => Some (read_digits 16 d s')
      | None => Some (read_digits 8 0 s)
      end
  | String "0" _ => Some (read_digits 8 0 s)
  | String c _ => match digit_in 10 c with Some _ => Some (read_digits 10 0 s) | None => None end
  | EmptyString => None
  end.

(** The result, [*end], and whether [errno] is set to [ERANGE]. *)
Definition strtol (s : string) : Z * string * bool :=
  let '(neg, s1) := read_sign (skip_space s) in
  match read_number s1 with
  | None => (0, s, false)
  | Some (v, rest) =>
      let v := if (neg : bool) then - v else v in
      if INT64_MAX <? v then (INT64_MAX, rest, true)
      else if v <? INT64_MIN then (INT64_MIN, rest, true)
      else (v, rest, false)
  end.

(** ** The options *)

Record mkntfs_options := mkOpts {
  dev_name : option string;
  enable_compression : bool;
  quick_format : bool;
  force : bool;
  heads : Z;
  disable_indexing : bool;
  no_action : bool;
  part_start_sect : Z;
  sector_size : Z;
  sectors_per_track : Z;
  use_epoch_time : bool;
  mft_zone_multiplier : Z;
  num_sectors : Z;
  o_cluster_size : Z;
  with_uuid : bool;
  label : option string
}.

(** [mkntfs_parse_long] for a number whose value is [num]: the new value, or
    [FALSE].  [mkntfs_parse_llong] is the same function at the type [long long]. *)
Definition mkntfs_parse_long (str : string) (num : Z) : option Z :=
  if 0 <=? num then None else
  let '(tmp, end_, _) := strtol str in
  match end_ with
  | EmptyString => Some tmp
  | _ => None
  end.

Definition mkntfs_parse_llong (str : string) (num : Z) : option Z :=
  if 0 <=? num then None else
  let '(tmp, end_, _) := strtol str in
  match end_ with
  | EmptyString => Some tmp
  | _ => None
  end.

Definition mkntfs_init_options : mkntfs_options :=
  {| dev_name := None; enable_compression := false; quick_format := false; force := false;
     heads := -1; disable_indexing := false; no_action := false; part_start_sect := -1;
     sector_size := -1; sectors_per_track := -1; use_epoch_time := false;
     mft_zone_multiplier := -1; num_sectors := -1; o_cluster_size := -1; with_uuid := false;
     label := None |}.

(** Assignments to the fields. *)
Definition set_dev_name (v : option string) (o : mkntfs_options) : mkntfs_options :=
  mkOpts v (enable_compression o) (quick_format o) (force o) (heads o) (disable_indexing
    o) (no_action o) (part_start_sect o) (sector_size o) (sectors_per_track o)
    (use_epoch_time o) (mft_zone_multiplier o) (num_sectors o) (o_cluster_size o)
    (with_uuid o) (label o).
Definition set_enable_compression (v : bool) (o : mkntfs_options) : mkntfs_options :=
  mkOpts (dev_name o) v (quick_format o) (force o) (heads o) (disable_indexing o)
    (no_action o) (part_start_sect o) (sector_size o) (sectors_per_track o)
    (use_epoch_time o) (mft_zone_multiplier o) (num_sectors o) (o_cluster_size o)
    (with_uuid o) (label o).
Definition set_quick_format (v : bool) (o : mkntfs_options) : mkntfs_options :=
  mkOpts (dev_name o) (enable_compression o) v (force o) (heads o) (disable_indexing o)
    (no_action o) (part_start_sect o) (sector_size o) (sectors_per_track o)
    (use_epoch_time o) (mft_zone_multiplier o) (num_sectors o) (o_cluster_size o)
    (with_uuid o) (label o).
Definition set_force (v : bool) (o : mkntfs_options) : mkntfs_options :=
  mkOpts (dev_name o) (enable_compression o) (quick_format o) v (heads o)
    (disable_indexing o) (no_action o) (part_start_sect o) (sector_size o)
    (sectors_per_track o) (use_epoch_time o) (mft_zone_multiplier o) (num_sectors o)
    (o_cluster_size o) (with_uuid o) (label o).
Definition set_heads (v : Z) (o : mkntfs_options) : mkntfs_options :=
  mkOpts (dev_name o) (enable_compression o) (quick_format o) (force o) v
    (disable_indexing o) (no_action o) (part_start_sect o) (sector_size o)
    (sectors_per_track o) (use_epoch_time o) (mft_zone_multiplier o) (num_sectors o)
    (o_cluster_size o) (with_uuid o) (label o).
Definition set_disable_indexing (v : bool) (o : mkntfs_options) : mkntfs_options :=
  mkOpts (dev_name o) (enable_compression o) (quick_format o) (force o) (heads o) v
    (no_action o) (part_start_sect o) (sector_size o) (sectors_per_track o)
    (use_epoch_time o) (mft_zone_multiplier o) (num_sectors o) (o_cluster_size o)
    (with_uuid o) (label o).
Definition set_no_action (v : bool) (o : mkntfs_options) : mkntfs_options :=
  mkOpts (dev_name o) (enable_compression o) (quick_format o) (force o) (heads o)
    (disable_indexing o) v (part_start_sect o) (sector_size o) (sectors_per_track o)
    (use_epoch_time o) (mft_zone_multiplier o) (num_sectors o) (o_cluster_size o)
    (with_uuid o) (label o).
Definition set_part_start_sect (v : Z) (o : mkntfs_options) : mkntfs_options :=
  mkOpts (dev_name o) (enable_compression o) (quick_format o) (force o) (heads o)
    (disable_indexing o) (no_action o) v (sector_size o) (sectors_per_track o)
    (use_epoch_time o) (mft_zone_multiplier o) (num_sectors o) (o_cluster_size o)
    (with_uuid o) (label o).
Definition set_sector_size (v : Z) (o : mkntfs_options) : mkntfs_options :=
  mkOpts (dev_name o) (enable_compression o) (quick_format o) (force o) (heads o)
    (disable_indexing o) (no_action o) (part_start_sect o) v (sectors_per_track o)
    (use_epoch_time o) (mft_zone_multiplier o) (num_sectors o) (o_cluster_size o)
    (with_uuid o) (label o).
Definition set_sectors_per_track (v : Z) (o : mkntfs_options) : mkntfs_options :=
  mkOpts (dev_name o) (enable_compression o) (quick_format o) (force o) (heads o)
    (disable_indexing o) (no_action o) (part_start_sect o) (sector_size o) v
    (use_epoch_time o) (mft_zone_multiplier o) (num_sectors o) (o_cluster_size o)
    (with_uuid o) (label o).
Definition set_use_epoch_time (v : bool) (o : mkntfs_options) : mkntfs_options :=
  mkOpts (dev_name o) (enable_compression o) (quick_format o) (force o) (heads o)
    (disable_indexing o) (no_action o) (part_start_sect o) (sector_size o)
    (sectors_per_track o) v (mft_zone_multiplier o) (num_sectors o) (o_cluster_size o)
    (with_uuid o) (label o).
Definition set_mft_zone_multiplier (v : Z) (o : mkntfs_options) : mkntfs_options :=
  mkOpts (dev_name o) (enable_compression o) (quick_format o) (force o) (heads o)
    (disable_indexing o) (no_action o) (part_start_sect o) (sector_size o)
    (sectors_per_track o) (use_epoch_time o) v (num_sectors o) (o_cluster_size o)
    (with_uuid o) (label o).
Definition set_num_sectors (v : Z) (o : mkntfs_options) : mkntfs_options :=
  mkOpts (dev_name o) (enable_compression o) (quick_format o) (force o) (heads o)
    (disable_indexing o) (no_action o) (part_start_sect o) (sector_size o)
    (sectors_per_track o) (use_epoch_time o) (mft_zone_multiplier o) v (o_cluster_size o)
    (with_uuid o) (label o).
Definition set_o_cluster_size (v : Z) (o : mkntfs_options) : mkntfs_options :=
  mkOpts (dev_name o) (enable_compression o) (quick_format o) (force o) (heads o)
    (disable_indexing o) (no_action o) (part_start_sect o) (sector_size o)
    (sectors_per_track o) (use_epoch_time o) (mft_zone_multiplier o) (num_sectors o) v
    (with_uuid o) (label o).
Definition set_with_uuid (v : bool) (o : mkntfs_options) : mkntfs_options :=
  mkOpts (dev_name o) (enable_compression o) (quick_format o) (force o) (heads o)
    (disable_indexing o) (no_action o) (part_start_sect o) (sector_size o)
    (sectors_per_track o) (use_epoch_time o) (mft_zone_multiplier o) (num_sectors o)
    (o_cluster_size o) v (label o).
Definition set_label (v : option string) (o : mkntfs_options) : mkntfs_options :=
  mkOpts (dev_name o) (enable_compression o) (quick_format o) (force o) (heads o)
    (disable_indexing o) (no_action o) (part_start_sect o) (sector_size o)
    (sectors_per_track o) (use_epoch_time o) (mft_zone_multiplier o) (num_sectors o)
    (o_cluster_size o) (with_uuid o) v.

(** One result of [getopt_long]: the value [c] returned, [optarg], [argv[optind-1]]
    and [optopt]. *)
Record getopt_result := mkGetopt {
  go_c : ascii;
  go_optarg : option string;
  go_argv : string;
  go_optopt : ascii
}.

(** The locals of [mkntfs_parse_options] and [opts2]. *)
Record pstate := mkPstate {
  p_opts : mkntfs_options;
  p_err : Z;
  p_help : Z;
  p_ver : Z;
  p_lic : Z
}.

Definition p_set (o : mkntfs_options) (p : pstate) : pstate :=
  mkPstate o (p_err p) (p_help p) (p_ver p) (p_lic p).
Definition p_fail (p : pstate) : pstate :=
  mkPstate (p_opts p) (p_err p + 1) (p_help p) (p_ver p) (p_lic p).

(** [if (!mkntfs_parse_long(optarg, ..., &field)) err++]; a NULL [optarg] is
    refused by [mkntfs_parse_long]. *)
Definition parse_into (parse : string -> Z -> option Z) (arg : option string)
    (get : mkntfs_options -> Z) (set : Z -> mkntfs_options -> mkntfs_options) (p : pstate) : pstate :=
  match arg with
  | None => p_fail p
  | Some str =>
      match parse str (get (p_opts p)) with
      | Some v => p_set (set v (p_opts p)) p
      | None => p_fail p
      end
  end.

Section ParseOptions.

(** [ntfs_log_parse_option] of libntfs-3g. *)
Variable ntfs_log_parse_option : string -> bool.

(** The body of the loop: [switch (c)].  The options that only set log levels
    ('q', 'v', 'Z') leave the state alone. *)
Definition handle_option (g : getopt_result) (p : pstate) : pstate :=
  let o := p_opts p in
  let c := Ascii.eqb (go_c g) in
  if c "001"%char then
    match dev_name o with
    | None => p_set (set_dev_name (Some (go_argv g)) o) p
    | Some _ => parse_into mkntfs_parse_llong (go_optarg g) num_sectors set_num_sectors p
    end
  else if c "C"%char then p_set (set_enable_compression true o) p
  else if c "c"%char then
    parse_into mkntfs_parse_long (go_optarg g) o_cluster_size set_o_cluster_size p
  else if c "F"%char then p_set (set_force true o) p
  else if c "f"%char || c "Q"%char then p_set (set_quick_format true o) p
  else if c "H"%char then parse_into mkntfs_parse_long (go_optarg g) heads set_heads p
  else if c "h"%char then mkPstate o (p_err p) (p_help p + 1) (p_ver p) (p_lic p)
  else if c "I"%char then p_set (set_disable_indexing true o) p
  else if c "L"%char then
    match label o with
    | None => p_set (set_label (go_optarg g) o) p
    | Some _ => p_fail p
    end
  else if c "l"%char then mkPstate o (p_err p) (p_help p) (p_ver p) (p_lic p + 1)
  else if c "n"%char then p_set (set_no_action true o) p
  else if c "p"%char then
    parse_into mkntfs_parse_llong (go_optarg g) part_start_sect set_part_start_sect p
  else if c "q"%char || c "v"%char || c "Z"%char then p
  else if c "s"%char then
    parse_into mkntfs_parse_long (go_optarg g) sector_size set_sector_size p
  else if c "S"%char then
    parse_into mkntfs_parse_long (go_optarg g) sectors_per_track set_sectors_per_track p
  else if c "T"%char then p_set (set_use_epoch_time true o) p
  else if c "U"%char then p_set (set_with_uuid true o) p
  else if c "V"%char then mkPstate o (p_err p) (p_help p) (p_ver p + 1) (p_lic p)
  else if c "z"%char then
    parse_into mkntfs_parse_long (go_optarg g) mft_zone_multiplier set_mft_zone_multiplier p
  else if ntfs_log_parse_option (go_argv g) then p else p_fail p.

(** 0: done, 1: error, -1: proceed. *)
Definition mkntfs_parse_options (gs : list getopt_result) (opts2 : mkntfs_options)
  : Z * mkntfs_options :=
  let p := fold_left (fun p g => handle_option g p) gs (mkPstate opts2 0 0 0 0) in
  let p :=
    if (p_err p =? 0) && (p_help p =? 0) && (p_ver p =? 0) && (p_lic p =? 0)
    then match dev_name (p_opts p) with None => p_fail p | Some _ => p end
    else p in
  (if negb (p_err p =? 0) then 1
   else if negb (p_help p =? 0) || negb (p_ver p =? 0) || negb (p_lic p =? 0) then 0 else -1,
   p_opts p).

End ParseOptions.

(** What [getopt_long] makes of the command line of [nk_format]:
    mkntfs --force -F -Q -L label fskit-format. *)
Definition nk_format_args (lbl : option string) : list getopt_result :=
  let str := match lbl with Some (String a l) => String a l | _ => "NTFS"%string end in
  [ mkGetopt "F" None "--force" "?"; mkGetopt "F" None "-F" "?"; mkGetopt "Q" None "-Q" "?";
    mkGetopt "L" (Some str) str "?";
    mkGetopt "001" (Some "fskit-format"%string) "fskit-format" "?" ].

(** ** [utils_parse_size], [utils_parse_range] *)

Definition LONG_MAX : Z := INT64_MAX.

(** The multiplications of the [switch], which fall through; [None] is the
    [default] case. *)
Definition scale_suffix (suffix : string) (result : Z) : option Z :=
  let k n := to_s 64 (result * n) in
  match suffix with
  | EmptyString | String "-" _ => Some result
  | String "t" _ | String "T" _ => Some (k (1000 * 1000 * 1000 * 1000))
  | String "g" _ | String "G" _ => Some (k (1000 * 1000 * 1000))
  | String "m" _ | String "M" _ => Some (k (1000 * 1000))
  | String "k" _ | String "K" _ => Some (k 1000)
  | _ => None
  end.

(** [erange] is whether [errno] is [ERANGE]; it is not reset before the call of
    [strtoll].  The result is what is stored in [*size], or 0. *)
Definition utils_parse_size (erange : bool) (value : string) (scale : bool) : option Z * bool :=
  let '(result, suffix, overflow) := strtol value in
  let erange := erange || overflow in
  if (result <? 0) || erange then (None, erange) else
  if scale then (scale_suffix suffix result, erange)
  else match suffix with
       | EmptyString | String "-" _ => (Some result, erange)
       | _ => (None, erange)
       end.

(** [strchr(string, '-')] *)
Fixpoint strchr_dash (s : string) : option string :=
  match s with
  | EmptyString => None
  | String "-" _ => Some s
  | String _ s' => strchr_dash s'
  end.

Definition utils_parse_range (erange : bool) (str : string) (scale : bool)
  : option (Z * Z) * bool :=
  let middle := strchr_dash str in
  let '(a, erange) :=
    match str with
    | String "-" _ => (Some 0, erange)
    | _ => utils_parse_size erange str scale
    end in
  match a with
  | None => (None, erange)
  | Some a =>
      match middle with
      | Some (String _ EmptyString) => (Some (a, LONG_MAX), erange)
      | Some (String _ s) =>
          match utils_parse_size erange s scale with
          | (Some b, erange) => (Some (a, b), erange)
          | (None, erange) => (None, erange)
          end
      | Some EmptyString | None => (Some (a, a), erange)
      end
  end.

(** ** Examples *)

Example parse_decimal : mkntfs_parse_long "4096" (-1) = Some 4096.
Proof. reflexivity. Qed.

Example parse_hex : strtol " +0x1Fk" = (31, "k"%string, false).
Proof. reflexivity. Qed.

Example parse_bare_prefix : strtol "0xg" = (0, "xg"%string, false).
Proof. reflexivity. Qed.

Example parse_twice : mkntfs_parse_long "4096" 512 = None.
Proof. reflexivity. Qed.

Example parse_range_kilo : utils_parse_range false "1k-2M" true = (Some (1000, 2000000), false).
Proof. reflexivity. Qed.

(** ** The command line *)

(** The results of [getopt_long] for the option [c]. *)
Definition uses (c : ascii) (gs : list getopt_result) : list getopt_result :=
  List.filter (fun g => Ascii.eqb (go_c g) c) gs.

Definition seen (c : ascii) (gs : list getopt_result) : bool :=
  existsb (fun g => Ascii.eqb (go_c g) c) gs.

(** The value of a numeric option after its uses: each was parsed to its end, and
    each but the last gave a negative number, which counts as unset. *)
Inductive given : list getopt_result -> Z -> Prop :=
  | given_unset : given [] (-1)
  | given_more l v g str v' e :
      given l v -> v < 0 -> go_optarg g = Some str -> strtol str = (v', ""%string, e) ->
      given (l ++ [g])%list v'.

(** What the loop has established while it saw no error. *)
Record options_ok (gs : list getopt_result) (p : pstate) : Prop := {
  ok_dev : dev_name (p_opts p) = head (map go_argv (uses "001" gs));
  ok_num : given (tail (uses "001" gs)) (num_sectors (p_opts p));
  ok_label : label (p_opts p) = head (uses "L" gs) ≫= go_optarg;
  ok_has : uses "L" gs <> [] -> is_Some (label (p_opts p));
  ok_once : (List.length (uses "L" gs) <= 1)%nat;
  ok_cluster : given (uses "c" gs) (o_cluster_size (p_opts p));
  ok_sector : given (uses "s" gs) (sector_size (p_opts p));
  ok_start : given (uses "p" gs) (part_start_sect (p_opts p));
  ok_force : force (p_opts p) = seen "F" gs;
  ok_quick : quick_format (p_opts p) = seen "f" gs || seen "Q" gs;
  ok_dry : no_action (p_opts p) = seen "n" gs;
  ok_help : p_help p = Z.of_nat (List.length (uses "h" gs));
  ok_ver : p_ver p = Z.of_nat (List.length (uses "V" gs));
  ok_lic : p_lic p = Z.of_nat (List.length (uses "l" gs))
}.

Lemma uses_snoc c gs g :
  uses c (gs ++ [g])%list = (uses c gs ++ (if Ascii.eqb (go_c g) c then [g] else []))%list.
Proof. unfold uses. rewrite List.filter_app. simpl. by destruct (Ascii.eqb (go_c g) c). Qed.

Lemma parse_long_given (parse := mkntfs_parse_long) l g v str v' :
  given l v -> go_optarg g = Some str -> parse str v = Some v' -> given (l ++ [g])%list v'.
Proof.
  intros Hl Hg. unfold parse, mkntfs_parse_long.
  destruct (Z.leb_spec 0 v) as [|Hv]; [done|].
  destruct (strtol str) as [[t e] b] eqn:E. destruct e; [|done]. intros [= <-].
  by eapply given_more.
Qed.


Section CommandLine.

Variable ntfs_log_parse_option : string -> bool.

(** [getopt_long] gives an argument to the options that require one. *)
Definition label_has_arg (g : getopt_result) : Prop :=
  go_c g = "L"%char -> is_Some (go_optarg g).

Lemma parse_into_err parse arg get set p :
  p_err p <= p_err (parse_into parse arg get set p).
Proof.
  unfold parse_into. destruct arg as [str|]; [|simpl; lia].
  destruct (parse str (get (p_opts p))); simpl; lia.
Qed.

Lemma handle_option_err g p : p_err p <= p_err (handle_option ntfs_log_parse_option g p).
Proof.
  unfold handle_option.
  repeat match goal with
  | |- context [if ?b then _ else _] => destruct b
  | |- context [match ?x with Some _ => _ | None => _ end] => destruct x
  end; simpl; auto using parse_into_err with lia.
Qed.

Lemma loop_err gs p :
  p_err p <= p_err (fold_left (fun p g => handle_option ntfs_log_parse_option g p) gs p).
Proof.
  revert p; induction gs as [|g gs IH]; simpl; intros p; [lia|].
  etrans; [apply (handle_option_err g)|apply IH].
Qed.

(** A successful [parse_into] assigns a given value. *)
Lemma parse_into_ok (parse := mkntfs_parse_long) arg get set p :
  0 <= p_err p -> p_err (parse_into parse arg get set p) = 0 ->
  exists str v, arg = Some str /\ parse str (get (p_opts p)) = Some v /\
    parse_into parse arg get set p = p_set (set v (p_opts p)) p.
Proof.
  intros Hp. unfold parse_into. destruct arg as [str|]; [|simpl; lia].
  destruct (parse str (get (p_opts p))) as [v|] eqn:E; [|simpl; lia]. eauto.
Qed.

Lemma head_snoc {A} (l : list A) x : l <> [] -> head (l ++ [x])%list = head l.
Proof. by destruct l. Qed.
Lemma tail_snoc {A} (l : list A) x : l <> [] -> tail (l ++ [x])%list = (tail l ++ [x])%list.
Proof. by destruct l. Qed.

Lemma seen_snoc c gs g : seen c (gs ++ [g])%list = seen c gs || Ascii.eqb (go_c g) c.
Proof. unfold seen. rewrite existsb_app. simpl. by rewrite orb_false_r. Qed.

(** Every field of [options_ok] after one more option, where the option does not
    concern the field. *)
Ltac next_option :=
  rewrite ?uses_snoc, ?seen_snoc;
  repeat match goal with
  | Hc : go_c ?g = _ |- _ => rewrite Hc; clear Hc
  | Hc : Ascii.eqb (go_c ?g) _ = false |- _ => rewrite Hc; clear Hc
  end;
  cbn [Ascii.eqb Bool.eqb]; rewrite ?app_nil_r, ?orb_true_r, ?orb_false_r, ?length_app;
  cbn [List.length]; try done; try lia.

(** ... and where it is a number. *)
Ltac next_number :=
  match goal with
  | He : p_err (parse_into _ _ _ _ _) = 0, Hp : p_err _ = 0 |- _ =>
      apply parse_into_ok in He as (str & v & Harg & Hv & ->); [|lia];
      constructor; simpl; next_option; by eapply parse_long_given
  end.

Lemma handle_option_ok gs g p :
  label_has_arg g -> p_err p = 0 -> options_ok gs p ->
  p_err (handle_option ntfs_log_parse_option g p) = 0 ->
  options_ok (gs ++ [g])%list (handle_option ntfs_log_parse_option g p).
Proof.
  intros HL Hp [] He. revert He. unfold handle_option.
  repeat match goal with
  | |- context [Ascii.eqb (go_c g) ?c] =>
      let Hc := fresh "Hc" in
      destruct (Ascii.eqb (go_c g) c) eqn:Hc;
      [apply Ascii.eqb_eq in Hc; repeat match goal with H : _ = false |- _ => clear H end|];
      simpl orb; cbv iota
  end.
  all: try solve [intros He; constructor; simpl; next_option].
  all: try change mkntfs_parse_llong with mkntfs_parse_long.
  all: try solve [intros He; next_number].
  - destruct (dev_name (p_opts p)) as [d|] eqn:Hd; intros He.
    + assert (uses "001" gs <> []) as Hne by (intros E; by rewrite E in ok_dev0).
      apply parse_into_ok in He as (str & v & Harg & Hv & ->); [|lia].
      constructor; simpl; next_option.
      * rewrite map_app; cbn [map]; rewrite head_snoc; [by rewrite Hd|].
        by intros E%map_eq_nil.
      * rewrite tail_snoc by done. by eapply parse_long_given.
    + assert (uses "001" gs = []) as E by (by destruct (uses "001" gs)).
      constructor; simpl; next_option; rewrite E in *; [done|exact ok_num0].
  - destruct (label (p_opts p)) as [l|] eqn:Hl; intros He; [simpl in He; lia|].
    match goal with Hc : go_c g = _ |- _ => specialize (HL Hc) as [s Hs] end.
    assert (uses "L" gs = []) as E.
    { destruct (uses "L" gs) as [|g' l']; [done|].
      by destruct ok_has0 as [x [=]]. }
    constructor; simpl; next_option; rewrite E in *; simpl; first [by rewrite Hs | by eauto | lia].
  - destruct (ntfs_log_parse_option (go_argv g)); [|simpl; lia].
    intros He. constructor; simpl; next_option.
Qed.

Lemma options_ok_init : options_ok [] (mkPstate mkntfs_init_options 0 0 0 0).
Proof. constructor; simpl; try done; try constructor; lia. Qed.

Lemma loop_ok gs (run := fun gs => fold_left (fun p g => handle_option ntfs_log_parse_option g p) gs
                                    (mkPstate mkntfs_init_options 0 0 0 0)) :
  Forall label_has_arg gs -> p_err (run gs) = 0 -> options_ok gs (run gs).
Proof.
  induction gs as [|g gs IH] using rev_ind; [intros; apply options_ok_init|].
  intros [Hgs Hg]%Forall_app. apply Forall_cons_1 in Hg as [Hg _]. unfold run in *. rewrite fold_left_app. simpl.
  intros He.
  assert (p_err (fold_left (fun p g => handle_option ntfs_log_parse_option g p) gs
            (mkPstate mkntfs_init_options 0 0 0 0)) = 0) as He'.
  { pose proof (handle_option_err g (fold_left (fun p g => handle_option ntfs_log_parse_option g p) gs
      (mkPstate mkntfs_init_options 0 0 0 0))).
    pose proof (loop_err gs (mkPstate mkntfs_init_options 0 0 0 0)). simpl in *. lia. }
  apply handle_option_ok; [exact Hg|exact He'|by apply IH|exact He].
Qed.

(** When [mkntfs_parse_options] says to proceed, no option was in error and
    none asks for help, version or license; the device is the first argument that
    is no option, the number of sectors the others, the label the only -L option,
    each flag tells whether its option was seen, and each number was parsed to its
    end, by an option used once (negative numbers, which count as unset, apart). *)
Theorem mkntfs_parse_options_proceed gs o :
  Forall label_has_arg gs ->
  mkntfs_parse_options ntfs_log_parse_option gs mkntfs_init_options = (-1, o) ->
  (exists g rest, uses "001" gs = g :: rest /\ dev_name o = Some (go_argv g) /\
    given rest (num_sectors o)) /\
  (List.length (uses "L" gs) <= 1)%nat /\ label o = head (uses "L" gs) ≫= go_optarg /\
  given (uses "c" gs) (o_cluster_size o) /\ given (uses "s" gs) (sector_size o) /\
  given (uses "p" gs) (part_start_sect o) /\
  force o = seen "F" gs /\ quick_format o = seen "f" gs || seen "Q" gs /\
  no_action o = seen "n" gs /\
  uses "h" gs = [] /\ uses "V" gs = [] /\ uses "l" gs = [].
Proof.
  intros HL. unfold mkntfs_parse_options.
  pose proof (loop_ok gs HL) as Hok. simpl in Hok.
  destruct (fold_left _ gs _) as [o' e h v l]. simpl in *.
  destruct (Z.eqb_spec e 0) as [->|He]; simpl; [|by destruct (Z.eqb_spec e 0)].
  specialize (Hok eq_refl). destruct Hok. simpl in *.
  subst h v l. intros E. revert E.
  destruct (Z.eqb_spec (Z.of_nat (List.length (uses "h" gs))) 0) as [e|],
    (Z.eqb_spec (Z.of_nat (List.length (uses "V" gs))) 0) as [e0|],
    (Z.eqb_spec (Z.of_nat (List.length (uses "l" gs))) 0) as [e1|];
    simpl; rewrite ?e, ?e0, ?e1; simpl; try done;
    try by rewrite ?(proj2 (Z.eqb_neq _ _)) by done.
  destruct (dev_name o') as [d|] eqn:Hd; simpl; [|done].
  intros E%(f_equal snd). simpl in E. subst o'. split_and!; auto; try (apply length_zero_iff_nil; lia).
  destruct (uses "001" gs) as [|g rest]; [done|]. simpl in ok_dev0.
  exists g, rest. split_and!; [done|congruence|done].
Qed.

End CommandLine.

Lemma mkntfs_parse_options_proceed_witness :
  let gs := [mkGetopt "c" (Some "0x200"%string) "0x200" "?"; mkGetopt "001" (Some "disk"%string) "disk" "?";
             mkGetopt "001" (Some "4096"%string) "4096" "?"] in
  exists o, mkntfs_parse_options (fun _ => false) gs mkntfs_init_options = (-1, o) /\
    (exists g rest, uses "001" gs = g :: rest /\ dev_name o = Some (go_argv g) /\
      given rest (num_sectors o)) /\ o_cluster_size o = 512.
Proof.
  intros gs. eexists. split; [reflexivity|]. split; [|reflexivity].
  refine (proj1 (mkntfs_parse_options_proceed (fun _ => false) gs _ _ eq_refl)).
  repeat constructor; by intros.
Defined.

(** ** Printing and parsing of ranges *)

Definition digit_char (d : Z) : ascii := ascii_of_nat (Z.to_nat (48 + d)).

(** The decimal digits of [n], followed by [rest]. *)
Fixpoint show_go (fuel : nat) (n : Z) (rest : string) : string :=
  match fuel with
  | O => rest
  | S fuel =>
      let s := String (digit_char (n mod 10)) rest in
      if n / 10 =? 0 then s else show_go fuel (n / 10) s
  end.

Definition show (n : Z) (rest : string) : string := show_go (S (Z.to_nat (Z.log2 n))) n rest.

(** A property of the ten digits. *)
Ltac ten_digits d :=
  let H := fresh in
  assert (d = 0 \/ d = 1 \/ d = 2 \/ d = 3 \/ d = 4 \/ d = 5 \/ d = 6 \/ d = 7 \/ d = 8 \/ d = 9)
    as H by lia;
  repeat destruct H as [H|H]; subst d; try reflexivity.

Lemma digit_in_digit d : 0 <= d < 10 -> digit_in 10 (digit_char d) = Some d.
Proof. intros Hd. ten_digits d. Qed.

Definition no_digit (rest : string) : Prop :=
  match rest with
  | String c _ => digit_val c = None
  | EmptyString => True
  end.

Lemma read_digits_no_digit base acc rest : no_digit rest -> read_digits base acc rest = (acc, rest).
Proof. destruct rest as [|c rest]; simpl; [done|]. unfold digit_in. by intros ->. Qed.

Lemma read_show_go fuel n rest :
  0 <= n < 2 ^ Z.of_nat fuel ->
  read_digits 10 0 (show_go fuel n rest) = read_digits 10 n rest.
Proof.
  revert n rest; induction fuel as [|fuel IH]; intros n rest Hn.
  { simpl in Hn. by replace n with 0 by lia. }
  rewrite Nat2Z.inj_succ, Z.pow_succ_r in Hn by lia. simpl.
  pose proof (Z.div_mod n 10 ltac:(lia)) as E. pose proof (Z.mod_pos_bound n 10 ltac:(lia)).
  destruct (Z.eqb_spec (n / 10) 0) as [H0|H0].
  - simpl. rewrite digit_in_digit by lia. f_equal. lia.
  - rewrite IH by lia. simpl. rewrite digit_in_digit by lia. f_equal. lia.
Qed.

(** The printed number starts with a digit, which is 0 only for the number 0. *)
Lemma show_go_head fuel n rest :
  0 <= n < 2 ^ Z.of_nat fuel -> (0 < fuel)%nat ->
  exists d s, show_go fuel n rest = String (digit_char d) s /\ 0 <= d < 10 /\
    (n = 0 /\ d = 0 /\ s = rest \/ 0 < n /\ 0 < d).
Proof.
  revert n rest; induction fuel as [|fuel IH]; intros n rest Hn Hf; [lia|].
  rewrite Nat2Z.inj_succ, Z.pow_succ_r in Hn by lia. simpl.
  pose proof (Z.div_mod n 10 ltac:(lia)) as E. pose proof (Z.mod_pos_bound n 10 ltac:(lia)).
  destruct (Z.eqb_spec (n / 10) 0) as [H0|H0].
  - exists (n mod 10), rest. split_and!; [done|lia|lia|].
    destruct (decide (n = 0)) as [->|]; [by left|right; lia].
  - destruct fuel as [|fuel]; [simpl in *; lia|].
    destruct (IH (n / 10) (String (digit_char (n mod 10)) rest)) as (d & s & -> & Hd & Hc); [lia..|].
    exists d, s. split_and!; [done|lia|lia|]. right. lia.
Qed.

Lemma show_bound n : 0 <= n -> n < 2 ^ Z.of_nat (S (Z.to_nat (Z.log2 n))).
Proof.
  intros Hn. rewrite Nat2Z.inj_succ, Z2Nat.id by apply Z.log2_nonneg.
  destruct (decide (n = 0)) as [->|]; [done|]. apply Z.log2_spec. lia.
Qed.

Lemma not_hex_prefix x : digit_val x = None -> (code x =? 120) || (code x =? 88) = false.
Proof.
  unfold digit_val. intros H. apply not_true_iff_false. intros [E%Z.eqb_eq|E%Z.eqb_eq]%orb_true_iff;
    by rewrite E in H.
Qed.

Lemma read_number_zero rest : no_digit rest -> read_number (String "0" rest) = Some (0, rest).
Proof.
  destruct rest as [|x [|h rest]]; [done| |]; intros Hx.
  - simpl in Hx. simpl. unfold digit_in. by rewrite Hx.
  - unfold read_number. rewrite not_hex_prefix by done. simpl in Hx. simpl.
    unfold digit_in. by rewrite Hx.
Qed.

Lemma strtol_show n rest :
  0 <= n <= LONG_MAX -> no_digit rest -> strtol (show n rest) = (n, rest, false).
Proof.
  intros Hn Hr. unfold show.
  pose proof (show_bound n ltac:(lia)) as Hb. set (fuel := S (Z.to_nat (Z.log2 n))) in *.
  pose proof (read_show_go fuel n rest ltac:(lia)) as Hread.
  destruct (show_go_head fuel n rest) as (d & s & E & Hd & Hc); [lia|lia|].
  assert (read_number (show_go fuel n rest) = Some (n, rest)) as Hnum.
  { destruct Hc as [(-> & -> & ->)|[Hpos Hd0]].
    - rewrite E. by apply read_number_zero.
    - rewrite (read_digits_no_digit 10 n rest Hr) in Hread. rewrite E in *.
      rewrite <- Hread. clear -Hd Hd0. ten_digits d; lia. }
  unfold strtol.
  replace (skip_space (show_go fuel n rest)) with (show_go fuel n rest)
    by (rewrite E; clear -Hd; by ten_digits d).
  replace (read_sign (show_go fuel n rest)) with (false, show_go fuel n rest)
    by (rewrite E; clear -Hd; by ten_digits d).
  rewrite Hnum. unfold LONG_MAX in *.
  rewrite (proj2 (Z.ltb_ge _ _)) by lia. rewrite (proj2 (Z.ltb_ge _ _)); [done|].
  unfold INT64_MIN. lia.
Qed.

Lemma strchr_dash_show fuel n r : 0 <= n -> strchr_dash (show_go fuel n r) = strchr_dash r.
Proof.
  revert n r; induction fuel as [|fuel IH]; intros n r Hn; simpl; [done|].
  assert (strchr_dash (String (digit_char (n mod 10)) r) = strchr_dash r) as Hd.
  { pose proof (Z.mod_pos_bound n 10 ltac:(lia)). set (d := n mod 10) in *. clearbody d.
    ten_digits d. }
  destruct (n / 10 =? 0); [done|]. rewrite IH; [done|]. apply Z.div_pos; lia.
Qed.

Lemma show_not_dash n rest : 0 <= n ->
  exists d s, show n rest = String (digit_char d) s /\ 0 <= d < 10.
Proof.
  intros Hn. destruct (show_go_head (S (Z.to_nat (Z.log2 n))) n rest) as (d & s & E & ? & _);
    [split; [lia|by apply show_bound]|lia|eauto].
Qed.

Lemma utils_parse_size_show n rest scale :
  0 <= n <= LONG_MAX -> rest = ""%string \/ (exists s, rest = String "-" s) ->
  utils_parse_size false (show n rest) scale = (Some n, false).
Proof.
  intros Hn Hr. unfold utils_parse_size.
  rewrite strtol_show; [|done|by destruct Hr as [->|[s ->]]].
  rewrite (proj2 (Z.ltb_ge _ _)) by lia.
  by destruct Hr as [->|[s ->]], scale.
Qed.

(** Printing a range of numbers and parsing it with [utils_parse_range] gives
    the range back, whether or not size suffixes are allowed: n-m, n- (up to
    [LONG_MAX]), -m (from 0) and n (the one number). *)
Theorem utils_parse_range_show a b scale :
  0 <= a <= LONG_MAX -> 0 <= b <= LONG_MAX ->
  utils_parse_range false (show a (String "-" (show b ""))) scale = (Some (a, b), false) /\
  utils_parse_range false (show a "-") scale = (Some (a, LONG_MAX), false) /\
  utils_parse_range false (String "-" (show b "")) scale = (Some (0, b), false) /\
  utils_parse_range false (show a "") scale = (Some (a, a), false).
Proof.
  intros Ha Hb. unfold utils_parse_range.
  assert (forall rest x, match show a rest with String "-" _ => x | _ => utils_parse_size false (show a rest) scale end
            = utils_parse_size false (show a rest) scale) as Hnd.
  { intros rest x. destruct (show_not_dash a rest) as (d & s & -> & Hd); [lia|].
    ten_digits d. }
  destruct (show_not_dash b "") as (d & s & E & _); [lia|].
  split_and!.
  - rewrite Hnd, utils_parse_size_show by eauto.
    unfold show at 1. rewrite strchr_dash_show by lia. cbn [strchr_dash].
    rewrite E. cbv beta iota. rewrite <- E. by rewrite utils_parse_size_show by auto.
  - rewrite Hnd, utils_parse_size_show by eauto.
    unfold show at 1. by rewrite strchr_dash_show by lia.
  - cbn [strchr_dash]. rewrite E. cbv beta iota. rewrite <- E. by rewrite utils_parse_size_show by auto.
  - rewrite Hnd, utils_parse_size_show by auto.
    unfold show at 1. by rewrite strchr_dash_show by lia.
Qed.

Lemma utils_parse_range_show_witness :
  utils_parse_range false "2048-4096" true = (Some (2048, 4096), false).
Proof.
  refine (proj1 (utils_parse_range_show 2048 4096 true _ _)); unfold LONG_MAX, INT64_MAX; lia.
Defined.
