(* ===== verification/Layout.v ===== *)
(** * Volume parameters and the layout of a new volume

    Models [mkntfs_get_page_size], [mkntfs_override_vol_params],
    [mkntfs_initialize_bitmaps], [mkntfs_initialize_rl_mft],
    [mkntfs_initialize_rl_logfile], [mkntfs_initialize_rl_boot] and
    [mkntfs_initialize_rl_bad] of src/NTFSModule/bridge/mkntfs/mkntfs.c, and the
    part of [mkntfs_redirect] that calls them: the geometry of the volume, and the
    clusters of the system files that have a fixed place.

    What libntfs-3g and the system answer about the device is a record of numbers;
    [ffs] is the C library's; messages are not modelled. *)

From Stdlib Require Import String.
From S2P Require Import Prelude ClusterAlloc Options.

Local Open Scope Z_scope.

(** ** The system *)

(** One plus the index of the least significant bit set, 0 for 0. *)
Fixpoint ffs_pos (p : positive) : Z :=
  match p with
  | xO p => 1 + ffs_pos p
  | _ => 1
  end.

Definition ffs (z : Z) : Z :=
  match z with
  | Z0 => 0
  | Zpos p | Zneg p => ffs_pos p
  end.

(** The answers of [ntfs_device_sector_size_get], [ntfs_device_size_get] (for a
    block size), [ntfs_device_partition_start_sector_get],
    [ntfs_device_sectors_per_track_get], [ntfs_device_heads_get] and [sysconf]. *)
Record devinfo := mkDevinfo {
  d_sector_size : Z;
  d_size : Z -> Z;
  d_part_start : Z;
  d_sectors_per_track : Z;
  d_heads : Z;
  sysconf_pagesize : Z
}.

Definition mkntfs_get_page_size (d : devinfo) : Z :=
  if sysconf_pagesize d <? 0 then 4096 else sysconf_pagesize d.

(** The fields of [ntfs_volume] mkntfs decides. *)
Record mkvol := mkVol {
  cluster_size : Z;
  cluster_size_bits : Z;
  nr_clusters : Z;
  mft_record_size : Z;
  mft_record_size_bits : Z;
  indx_record_size : Z;
  indx_record_size_bits : Z
}.

(** ** [mkntfs_override_vol_params] *)

Section Params.

(** [NTFS_MAX_CLUSTER_SIZE] of libntfs-3g. *)
Variable NTFS_MAX_CLUSTER_SIZE : Z.
Variable d : devinfo.

(** The sector size and the number of sectors, less the reserved ones. *)
Definition override_sectors (o : mkntfs_options) : option mkntfs_options :=
  let o :=
    if sector_size o <? 0 then
      set_sector_size (if d_sector_size d <? 0 then 512 else d_sector_size d) o
    else o in
  if negb (Z.land (sector_size o - 1) (sector_size o) =? 0) then None else
  if (sector_size o <? 256) || (4096 <? sector_size o) then None else
  match
    (if num_sectors o <? 0 then
       if d_size d (sector_size o) <=? 0 then None
       else Some (set_num_sectors (d_size d (sector_size o)) o)
     else Some o)
  with
  | None => None
  | Some o =>
      let i := if sector_size o <? 512 then 512 / sector_size o else 1 in
      Some (set_num_sectors (num_sectors o - i) o)
  end.

(** One of the three values only Windows boot loaders use: the option's value
    [v], else the device's, else 0; the second result is [winboot], and [too_big]
    is the range check. *)
Definition boot_param (v dev : Z) (too_big : Z -> bool) (winboot : bool) : option (Z * bool) :=
  if v <? 0 then
    if dev <? 0 then Some (0, false)
    else if too_big dev then Some (0, false)
    else Some (dev, winboot)
  else if too_big v then None
  else Some (v, winboot).

Definition override_geometry (o : mkntfs_options) : option (mkntfs_options * bool) :=
  match boot_param (part_start_sect o) (d_part_start d) (fun v => negb (Z.shiftr v 32 =? 0)) true with
  | None => None
  | Some (start, winboot) =>
  match boot_param (sectors_per_track o) (d_sectors_per_track d) (fun v => 65535 <? v) winboot with
  | None => None
  | Some (spt, winboot) =>
  match boot_param (heads o) (d_heads d) (fun v => 65535 <? v) winboot with
  | None => None
  | Some (hd, winboot) =>
      Some (set_heads hd (set_sectors_per_track spt (set_part_start_sect start o)), winboot)
  end end end.

(** [while (volume_size >> (ffs(vol->cluster_size) - 1 + 32))]; the inner [None] is
    [return FALSE]. *)
Fixpoint grow_cluster (fuel : nat) (volume_size cs : Z) : option (option Z) :=
  match fuel with
  | O => None
  | S fuel =>
      if Z.shiftr volume_size (ffs cs - 1 + 32) =? 0 then Some (Some cs) else
      let cs := to_u 32 (Z.shiftl cs 1) in
      if NTFS_MAX_CLUSTER_SIZE <=? cs then Some None
      else grow_cluster fuel volume_size cs
  end.

(** The cluster size, determined and validated: [cs] is [vol->cluster_size], 0 when
    the user gave none. *)
Definition override_cluster_size (o : mkntfs_options) (volume_size cs : Z) : option Z :=
  let chosen :=
    if cs =? 0 then
      match grow_cluster 64 volume_size
              (if 4096 <? sector_size o then sector_size o else 4096) with
      | Some r => r
      | None => None
      end
    else Some cs in
  match chosen with
  | None => None
  | Some cs =>
      if negb (Z.land cs (cs - 1) =? 0) then None else
      if cs <? sector_size o then None else
      if 4096 * sector_size o <? cs then None else
      if NTFS_MAX_CLUSTER_SIZE <? cs then None else Some cs
  end.

(** [if (vol->cluster_size > 4096)]: compression. *)
Definition override_compression (cs : Z) (o : mkntfs_options) : option mkntfs_options :=
  if (4096 <? cs) && enable_compression o then
    if negb (force o) then None else Some (set_enable_compression false o)
  else Some o.

(** The size of the records kept in [vol]: at least a sector. *)
Definition record_size (dflt : Z) (o : mkntfs_options) : Z :=
  if dflt <? sector_size o then sector_size o else dflt.

(** [num_sectors * sector_size] is a product of 64-bit integers: it wraps here.
    The result also tells whether the volume is bootable by Windows. *)
Definition mkntfs_override_vol_params (o : mkntfs_options) (cs : Z)
  : option (mkntfs_options * mkvol * bool) :=
  match override_sectors o with
  | None => None
  | Some o =>
  match override_geometry o with
  | None => None
  | Some (o, winboot) =>
  let volume_size := to_s 64 (num_sectors o * sector_size o) in
  if volume_size <? Z.shiftl 1 20 then None else
  match override_cluster_size o volume_size cs with
  | None => None
  | Some cs =>
  match override_compression cs o with
  | None => None
  | Some o =>
  let nr := volume_size / cs in
  if negb (nr =? to_s 64 (num_sectors o * sector_size o) / cs) ||
     negb (volume_size / sector_size o =? num_sectors o) ||
     negb (volume_size / cs =? nr) then None else
  if negb (Z.shiftr nr 32 =? 0) then None else
  let rec := record_size 1024 o in
  let indx := record_size 4096 o in
  Some (o, mkVol cs (ffs cs - 1) nr rec (ffs rec - 1) indx (ffs indx - 1), winboot)
  end end end end.

End Params.

(** ** The fixed system files *)

(** The globals the layout functions set. *)
Record globals := mkGlobals {
  g_lcn_bitmap_byte_size : Z;
  g_dynamic_buf_size : Z;
  g_mft_size : Z;
  g_mft_bitmap_byte_size : Z;
  g_mft_lcn : Z;
  g_mftmirr_lcn : Z;
  g_logfile_lcn : Z;
  g_logfile_size : Z;
  g_mft_zone_end : Z;
  g_rl_mft : list rle;
  g_rl_mft_bmp : list rle;
  g_rl_mftmirr : list rle;
  g_rl_logfile : list rle;
  g_rl_boot : list rle;
  g_rl_bad : list rle;
  g_alloc : astate
}.

(** The statics as the program starts. *)
Definition globals0 : globals :=
  mkGlobals 0 0 0 0 0 0 0 0 0 [] [] [] [] [] [] (mkAstate [] 0).

(** A runlist of one run, and the element that ends it. *)
Definition one_run (lcn j : Z) : list rle := [mkRle 0 lcn j; mkRle j (-1) 0].

(** [(n + size - 1) / size], and [(n + size - 1) & ~(size - 1)]. *)
Definition div_up (n size : Z) : Z := (n + size - 1) / size.
Definition round_up_to (n size : Z) : Z := Z.land (n + size - 1) (Z.lnot (size - 1)).

Section LayoutDefs.

Variable malloc_ok : nat -> bool.

(** [ntfs_malloc], [ntfs_calloc]. *)
Definition ntfs_malloc (a : astate) : bool * astate :=
  (malloc_ok (mallocs a), mkAstate (g_allocation a) (S (mallocs a))).

Variables (page_size : Z) (vol : mkvol).

(** [None] is [return FALSE], at every step below. *)
Definition mkntfs_initialize_bitmaps (g : globals) : option globals :=
  let bytes := Z.land (Z.shiftr (nr_clusters vol + 7) 3 + 7) (Z.lnot 7) in
  let '(ok, a) := ntfs_malloc (g_alloc g) in
  if negb ok then None else
  let '(ok, a) := bitmap_allocate malloc_ok (nr_clusters vol)
                    (Z.shiftl bytes 3 - nr_clusters vol) a in
  if negb ok then None else
  let mft := 27 * mft_record_size vol in
  let mft := if mft <? cluster_size vol then cluster_size vol else mft in
  let mft_bitmap_size := mft / mft_record_size vol in
  let mft_bytes := Z.land (Z.shiftr (mft_bitmap_size + 7) 3 + 7) (Z.lnot 7) in
  let '(ok, a) := ntfs_malloc a in
  if negb ok then None else
  let '(ok, a) := ntfs_malloc a in
  if negb ok then None else
  let i := div_up 8192 (cluster_size vol) in
  let '(ok, a) := bitmap_allocate malloc_ok i 1 a in
  if negb ok then None else
  Some (mkGlobals bytes page_size mft mft_bytes (g_mft_lcn g) (g_mftmirr_lcn g) (g_logfile_lcn g)
          (g_logfile_size g) (g_mft_zone_end g) (g_rl_mft g) (one_run i 1) (g_rl_mftmirr g)
          (g_rl_logfile g) (g_rl_boot g) (g_rl_bad g) a).

(** The end of the MFT zone, less the position of the MFT. *)
Definition zone_size (multiplier : Z) : Z :=
  if multiplier =? 4 then Z.shiftr (nr_clusters vol) 1
  else if multiplier =? 3 then Z.shiftr (nr_clusters vol * 3) 3
  else if multiplier =? 2 then Z.shiftr (nr_clusters vol) 2
  else Z.shiftr (nr_clusters vol) 3.

(** The place of the MFT when none is set: after the MFT bitmap, at 16 KiB at
    least. *)
Definition default_mft_lcn (rl_mft_bmp : list rle) : Z :=
  match rl_mft_bmp with
  | r :: _ =>
      let lcn := rl_lcn r + rl_length r in
      if lcn * cluster_size vol <? 16 * 1024 then div_up (16 * 1024) (cluster_size vol) else lcn
  | [] => 0
  end.

(** The result of the [bitmap_allocate] for the MFT is not looked at. *)
Definition mkntfs_initialize_rl_mft (o : mkntfs_options) (g : globals) : option globals :=
  let mft_lcn :=
    if g_mft_lcn g =? 0 then default_mft_lcn (g_rl_mft_bmp g) else g_mft_lcn g in
  let zone_end := zone_size (mft_zone_multiplier o) + mft_lcn in
  let '(ok, a) := ntfs_malloc (g_alloc g) in
  if negb ok then None else
  let j := div_up (g_mft_size g) (cluster_size vol) in
  let '(_, a) := bitmap_allocate malloc_ok mft_lcn j a in
  let mftmirr_lcn := Z.shiftr (num_sectors o * sector_size o) 1 / cluster_size vol in
  let '(ok, a) := ntfs_malloc a in
  if negb ok then None else
  let jm := div_up (4 * mft_record_size vol) (cluster_size vol) in
  let '(done, a) := bitmap_allocate malloc_ok mftmirr_lcn jm a in
  if negb done then None else
  Some (mkGlobals (g_lcn_bitmap_byte_size g) (g_dynamic_buf_size g) (g_mft_size g)
          (g_mft_bitmap_byte_size g) mft_lcn mftmirr_lcn (mftmirr_lcn + jm) (g_logfile_size g)
          zone_end (one_run mft_lcn j) (g_rl_mft_bmp g) (one_run mftmirr_lcn jm)
          (g_rl_logfile g) (g_rl_boot g) (g_rl_bad g) a).

(** The standard size of the log file for a volume. *)
Definition logfile_size_for (volume_size : Z) : Z :=
  if volume_size <? 2048 * 1024 then 256 * 1024
  else if volume_size <? 4000000 then 512 * 1024
  else if volume_size <=? 200 * 1024 * 1024 then 2048 * 1024
  else if Z.shiftl 12 30 <=? volume_size then Z.shiftl 64 20
  else Z.land (volume_size / 200) (Z.lnot (cluster_size vol - 1)).

(** [while (g_rl_logfile[0].lcn + j >= g_vol->nr_clusters)]: halve the log file
    until it fits; [None] when the fuel is used up. *)
Fixpoint shrink_logfile (fuel : nat) (lcn size : Z) : option Z :=
  match fuel with
  | O => None
  | S fuel =>
      if nr_clusters vol <=? lcn + size / cluster_size vol
      then shrink_logfile fuel lcn (Z.shiftr size 1)
      else Some size
  end.

(** The outer [None] is a loop that did not end within the fuel. *)
Definition mkntfs_initialize_rl_logfile (fuel : nat) (g : globals) : option (option globals) :=
  let '(ok, a) := ntfs_malloc (g_alloc g) in
  if negb ok then Some None else
  let volume_size := Z.shiftl (nr_clusters vol) (cluster_size_bits vol) in
  match shrink_logfile fuel (g_logfile_lcn g) (logfile_size_for volume_size) with
  | None => None
  | Some size =>
      let j := size / cluster_size vol in
      let size := round_up_to size (cluster_size vol) in
      if size <? Z.shiftl 256 10 then Some None else
      let '(ok, a) := bitmap_allocate malloc_ok (g_logfile_lcn g) j a in
      if negb ok then Some None else
      Some (Some (mkGlobals (g_lcn_bitmap_byte_size g) (g_dynamic_buf_size g) (g_mft_size g)
              (g_mft_bitmap_byte_size g) (g_mft_lcn g) (g_mftmirr_lcn g) (g_logfile_lcn g) size
              (g_mft_zone_end g) (g_rl_mft g) (g_rl_mft_bmp g) (g_rl_mftmirr g)
              (one_run (g_logfile_lcn g) j) (g_rl_boot g) (g_rl_bad g) a))
  end.

Definition mkntfs_initialize_rl_boot (g : globals) : option globals :=
  let '(ok, a) := ntfs_malloc (g_alloc g) in
  if negb ok then None else
  let j := div_up 8192 (cluster_size vol) in
  let '(ok, a) := bitmap_allocate malloc_ok 0 j a in
  if negb ok then None else
  Some (mkGlobals (g_lcn_bitmap_byte_size g) (g_dynamic_buf_size g) (g_mft_size g)
          (g_mft_bitmap_byte_size g) (g_mft_lcn g) (g_mftmirr_lcn g) (g_logfile_lcn g)
          (g_logfile_size g) (g_mft_zone_end g) (g_rl_mft g) (g_rl_mft_bmp g) (g_rl_mftmirr g)
          (g_rl_logfile g) (one_run 0 j) (g_rl_bad g) a).

Definition mkntfs_initialize_rl_bad (g : globals) : option globals :=
  let '(ok, a) := ntfs_malloc (g_alloc g) in
  if negb ok then None else
  Some (mkGlobals (g_lcn_bitmap_byte_size g) (g_dynamic_buf_size g) (g_mft_size g)
          (g_mft_bitmap_byte_size g) (g_mft_lcn g) (g_mftmirr_lcn g) (g_logfile_lcn g)
          (g_logfile_size g) (g_mft_zone_end g) (g_rl_mft g) (g_rl_mft_bmp g) (g_rl_mftmirr g)
          (g_rl_logfile g) (g_rl_boot g) (one_run (-1) (nr_clusters vol)) a).

(** The calls of [mkntfs_redirect], [g_buf]'s allocation included. *)
Definition mkntfs_layout (fuel : nat) (o : mkntfs_options) (g : globals) : option (option globals) :=
  match mkntfs_initialize_bitmaps g with
  | None => Some None
  | Some g =>
  match mkntfs_initialize_rl_mft o g with
  | None => Some None
  | Some g =>
  match mkntfs_initialize_rl_logfile fuel g with
  | None => None
  | Some None => Some None
  | Some (Some g) =>
  match mkntfs_initialize_rl_boot g with
  | None => Some None
  | Some g =>
  let '(ok, a) := ntfs_malloc (g_alloc g) in
  if negb ok then Some None else
  Some (mkntfs_initialize_rl_bad
    (mkGlobals (g_lcn_bitmap_byte_size g) (g_dynamic_buf_size g) (g_mft_size g)
          (g_mft_bitmap_byte_size g) (g_mft_lcn g) (g_mftmirr_lcn g) (g_logfile_lcn g)
          (g_logfile_size g) (g_mft_zone_end g) (g_rl_mft g) (g_rl_mft_bmp g) (g_rl_mftmirr g)
          (g_rl_logfile g) (g_rl_boot g) (g_rl_bad g) a))
  end end end end.

End LayoutDefs.

(** [opts.cluster_size], as it is stored in [vol]. *)
Definition vol_cluster_size (o : mkntfs_options) : Z :=
  if 0 <=? o_cluster_size o then to_u 32 (o_cluster_size o) else 0.

(** The parameters and the layout of one run of mkntfs. *)
Definition mkntfs_plan (malloc_ok : nat -> bool) (max_cs : Z) (d : devinfo) (fuel : nat)
    (o : mkntfs_options) (g : globals) : option (option (mkntfs_options * mkvol * globals)) :=
  match mkntfs_override_vol_params max_cs d o (vol_cluster_size o) with
  | None => Some None
  | Some (o, vol, _) =>
      match mkntfs_layout malloc_ok (mkntfs_get_page_size d) vol fuel o g with
      | None => None
      | Some None => Some None
      | Some (Some g) => Some (Some (o, vol, g))
      end
  end.

(** What [mkntfs_cleanup] resets: the runlists and the allocations, not the
    numbers. *)
Definition mkntfs_cleanup (g : globals) : globals :=
  mkGlobals (g_lcn_bitmap_byte_size g) (g_dynamic_buf_size g) (g_mft_size g)
    (g_mft_bitmap_byte_size g) (g_mft_lcn g) (g_mftmirr_lcn g) (g_logfile_lcn g)
    (g_logfile_size g) (g_mft_zone_end g) [] [] [] [] [] [] (mkAstate [] (mallocs (g_alloc g))).
