(* ===== verification/LayoutArith.v ===== *)
(** * Arithmetic of the layout

    Powers of two and [ffs]; the masks of the code as divisions; and the facts
    about the places and sizes of the system files, proved cluster size by cluster
    size. *)

From S2P Require Import Prelude ClusterAlloc Options Layout.

(** ** Powers of two *)

Lemma ffs_double z : 0 < z -> ffs (2 * z) = 1 + ffs z.
Proof. by destruct z as [|p|p]. Qed.

Lemma ffs_pow2 k : 0 <= k -> ffs (2 ^ k) = k + 1.
Proof.
  revert k. apply natlike_ind; [done|]. intros k Hk IH.
  rewrite Z.pow_succ_r, ffs_double by lia. lia.
Qed.

(** The test of the code for a power of two. *)
Lemma land_pow2 z : 0 < z -> Z.land z (z - 1) = 0 -> z = 2 ^ Z.log2 z.
Proof.
  intros Hz Hl. pose proof (Z.log2_spec z Hz) as [Hlo Hhi].
  destruct (decide (z = 2 ^ Z.log2 z)) as [|Hne]; [done|]. exfalso.
  assert (Z.testbit (Z.land z (z - 1)) (Z.log2 z) = true) as Hb; [|by rewrite Hl, Z.bits_0 in Hb].
  assert (Z.log2 (z - 1) = Z.log2 z) as E
    by (apply Z.log2_unique; [apply Z.log2_nonneg|rewrite Z.pow_succ_r in Hhi; [|apply Z.log2_nonneg];
        rewrite Z.pow_succ_r by apply Z.log2_nonneg; lia]).
  rewrite Z.land_spec, Z.bit_log2 by done. rewrite <- E at 1. apply Z.bit_log2.
  pose proof (Z.pow_pos_nonneg 2 (Z.log2 z) ltac:(lia) (Z.log2_nonneg z)). lia.
Qed.

Lemma pow2_land k : 0 <= k -> Z.land (2 ^ k) (2 ^ k - 1) = 0.
Proof.
  intros Hk. rewrite Z.sub_1_r, <- Z.ones_equiv, Z.land_ones by done.
  apply Z.mod_same. by apply Z.pow_nonzero.
Qed.

Lemma land_lnot_pow2 n k : 0 <= k -> Z.land n (Z.lnot (2 ^ k - 1)) = n / 2 ^ k * 2 ^ k.
Proof.
  intros Hk. rewrite Z.sub_1_r, <- Z.ones_equiv, <- Z.ldiff_land, Z.ldiff_ones_r by done.
  by rewrite Z.shiftr_div_pow2, Z.shiftl_mul_pow2 by done.
Qed.

(** ** The geometry *)

(** The cluster sizes up to 2 MiB. *)
Definition cluster_sizes : list Z :=
  [256; 512; 1024; 2048; 4096; 8192; 16384; 32768; 65536; 131072; 262144; 524288; 1048576; 2097152].

Lemma cluster_size_cases k : 256 <= 2 ^ k <= 2097152 -> 2 ^ k ∈ cluster_sizes.
Proof.
  intros Hk. assert (8 <= k <= 21) as H.
  { assert (0 <= k) by (destruct (Z.neg_nonneg_cases k); [rewrite Z.pow_neg_r in Hk; lia|done]).
    change 256 with (2 ^ 8) in Hk. change 2097152 with (2 ^ 21) in Hk.
    split; apply (Z.pow_le_mono_r_iff 2); lia. }
  assert (In k (seqZ 8 14)) as Hin by (apply list_elem_of_In, elem_of_seqZ; lia).
  simpl in Hin. repeat destruct Hin as [<-|Hin]; try done;
    apply list_elem_of_In; simpl; tauto.
Qed.

(** The sizes and places [mkntfs_initialize_bitmaps] and
    [mkntfs_initialize_rl_mft] compute, for a cluster size, a record size and a
    volume size. *)
Definition boot_clusters (cs : Z) : Z := div_up 8192 cs.
Definition mft_bytes (cs rec : Z) : Z := if 27 * rec <? cs then cs else 27 * rec.
Definition mft_place (cs : Z) : Z :=
  let lcn := div_up 8192 cs + 1 in
  if lcn * cs <? 16 * 1024 then div_up (16 * 1024) cs else lcn.
Definition mft_clusters (cs rec : Z) : Z := div_up (mft_bytes cs rec) cs.
Definition mirr_place (cs vs : Z) : Z := vs / 2 / cs.
Definition mirr_clusters (cs rec : Z) : Z := div_up (4 * rec) cs.
Definition log_place (cs rec vs : Z) : Z := mirr_place cs vs + mirr_clusters cs rec.
Definition log_bytes (cs vs : Z) : Z :=
  if vs <? 2048 * 1024 then 256 * 1024
  else if vs <? 4000000 then 512 * 1024
  else if vs <=? 200 * 1024 * 1024 then 2048 * 1024
  else if 12884901888 <=? vs then 67108864
  else vs / 200 / cs * cs.

(** Everything about them that the layout relies on. *)
Record places_ok (cs rec vs : Z) : Prop := {
  pl_boot : 1 <= boot_clusters cs;
  pl_mft_after : boot_clusters cs + 1 <= mft_place cs;
  pl_mft_some : 1 <= mft_clusters cs rec;
  pl_mirr_some : 1 <= mirr_clusters cs rec;
  pl_mft_in : mft_place cs + mft_clusters cs rec <= vs / cs;
  pl_mirr_in : log_place cs rec vs <= vs / cs;
  pl_log_in : mft_place cs + mft_clusters cs rec <= mirr_place cs vs ->
    log_place cs rec vs < vs / cs /\
    let size := log_bytes cs (vs / cs * cs) in
    (log_place cs rec vs + size / cs < vs / cs /\ (cs <= 65536 -> 262144 <= size) /\ size mod cs = 0 \/
     vs / cs <= log_place cs rec vs + size / cs /\ log_place cs rec vs + size / 2 / cs < vs / cs /\
     262144 <= size / 2 /\ (size / 2) mod cs = 0);
  pl_mirr_clash : mirr_place cs vs < mft_place cs + mft_clusters cs rec ->
    mirr_place cs vs <= boot_clusters cs < log_place cs rec vs \/ mft_place cs <= mirr_place cs vs;
  pl_small : cs <= 65536 -> mft_place cs + mft_clusters cs rec <= mirr_place cs vs
}.

(** Closed subterms are evaluated. *)
Ltac eval_places :=
  repeat match goal with
  | |- context [div_up ?a ?b] => let v := eval vm_compute in (div_up a b) in change (div_up a b) with v
  | |- context [mft_place ?a] =>
      let v := eval vm_compute in (mft_place a) in change (mft_place a) with v
  | |- context [mft_clusters ?a ?b] =>
      let v := eval vm_compute in (mft_clusters a b) in change (mft_clusters a b) with v
  end.

Ltac div_lia := Z.to_euclidean_division_equations; lia.

Lemma places_are_ok cs rec vs :
  cs ∈ cluster_sizes -> rec = 1024 \/ rec = 2048 \/ rec = 4096 -> rec <= Z.max cs 1024 ->
  1048576 <= vs -> 3 <= vs / cs -> places_ok cs rec vs.
Proof.
  unfold cluster_sizes. intros Hcs Hrec Hle Hvs.
  repeat (apply elem_of_cons in Hcs; destruct Hcs as [Hcs|Hcs]; [subst cs|]); [..|by apply not_elem_of_nil in Hcs].
  all: destruct Hrec as [Hrec|[Hrec|Hrec]]; subst rec; try lia.
  all: intros Hnr; constructor.
  all: unfold boot_clusters, log_place, mirr_clusters, mirr_place, log_bytes; eval_places.
  all: try lia; try div_lia.
  all: intros; cbv zeta; split; [div_lia|]; repeat case_match; zb; div_lia.
Qed.
