(* ===== verification/LayoutTheorems.v ===== *)
(** * Theorems about the parameters and the layout of a new volume

    What [mkntfs_override_vol_params] accepts, where [mkntfs_layout] puts the fixed
    system files, when it succeeds, and the runs on which it goes wrong. *)

From Stdlib Require Import String.
From S2P Require Import Prelude ClusterAlloc Options Layout LayoutArith.

Local Open Scope Z_scope.

(** ** The parameters *)

(** A volume mkntfs is ready to lay out. *)
Record params_ok (max_cs : Z) (o : mkntfs_options) (vol : mkvol) : Prop := {
  po_sector : exists k, 8 <= k <= 12 /\ sector_size o = 2 ^ k;
  po_bits : 0 <= cluster_size_bits vol /\ cluster_size vol = 2 ^ cluster_size_bits vol;
  po_cluster : sector_size o <= cluster_size vol <= 4096 * sector_size o /\
    cluster_size vol <= max_cs;
  po_volume : 2 ^ 20 <= num_sectors o * sector_size o <= INT64_MAX;
  po_clusters : nr_clusters vol = num_sectors o * sector_size o / cluster_size vol /\
    0 <= nr_clusters vol < 2 ^ 32;
  po_records : mft_record_size vol = Z.max 1024 (sector_size o) /\
    indx_record_size vol = Z.max 4096 (sector_size o) /\
    mft_record_size vol = 2 ^ mft_record_size_bits vol /\
    indx_record_size vol = 2 ^ indx_record_size_bits vol;
  po_boot : 0 <= part_start_sect o < 2 ^ 32 /\ 0 <= sectors_per_track o <= 65535 /\
    0 <= heads o <= 65535
}.

Lemma pow2_range_256_4096 s :
  Z.land (s - 1) s = 0 -> 256 <= s <= 4096 -> exists k, 8 <= k <= 12 /\ s = 2 ^ k.
Proof.
  intros Hl Hs. rewrite Z.land_comm in Hl. apply land_pow2 in Hl; [|lia].
  exists (Z.log2 s). split; [|done].
  change 8 with (Z.log2 256). change 12 with (Z.log2 4096). split; apply Z.log2_le_mono; lia.
Qed.

Lemma override_sectors_spec d o o' :
  override_sectors d o = Some o' ->
  (exists k, 8 <= k <= 12 /\ sector_size o' = 2 ^ k) /\
  part_start_sect o' = part_start_sect o /\ sectors_per_track o' = sectors_per_track o /\
  heads o' = heads o.
Proof.
  unfold override_sectors.
  set (o1 := if sector_size o <? 0 then _ else o).
  assert (part_start_sect o1 = part_start_sect o /\ sectors_per_track o1 = sectors_per_track o /\
    heads o1 = heads o) as Ho1 by (unfold o1; by destruct (sector_size o <? 0)).
  destruct (Z.eqb_spec (Z.land (sector_size o1 - 1) (sector_size o1)) 0) as [Hl|]; simpl; [|done].
  destruct (Z.ltb_spec (sector_size o1) 256), (Z.ltb_spec 4096 (sector_size o1)); simpl; try done.
  assert (exists k, 8 <= k <= 12 /\ sector_size o1 = 2 ^ k) as Hk by (apply pow2_range_256_4096; lia).
  destruct (num_sectors o1 <? 0); [destruct (d_size d (sector_size o1) <=? 0); [done|]|];
    intros [= <-]; simpl; tauto.
Qed.

Lemma boot_param_spec v dev big w r w' (lim : Z) :
  boot_param v dev big w = Some (r, w') -> 0 <= lim ->
  (forall x, 0 <= x -> big x = false -> x <= lim) -> 0 <= r <= lim.
Proof.
  unfold boot_param. intros H Hlim Hbig.
  destruct (Z.ltb_spec v 0); [destruct (Z.ltb_spec dev 0); [|destruct (big dev) eqn:E]|
    destruct (big v) eqn:E]; simplify_eq; eauto with lia.
Qed.

Lemma override_geometry_spec d o o' w :
  override_geometry d o = Some (o', w) ->
  sector_size o' = sector_size o /\ num_sectors o' = num_sectors o /\
  0 <= part_start_sect o' < 2 ^ 32 /\ 0 <= sectors_per_track o' <= 65535 /\ 0 <= heads o' <= 65535.
Proof.
  unfold override_geometry.
  destruct (boot_param (part_start_sect o) _ _ _) as [[st w1]|] eqn:E1; [|done].
  destruct (boot_param (sectors_per_track o) _ _ _) as [[sp w2]|] eqn:E2; [|done].
  destruct (boot_param (heads o) _ _ _) as [[hd w3]|] eqn:E3; [|done].
  intros [= <- <-]. simpl.
  apply (boot_param_spec _ _ _ _ _ _ (2 ^ 32 - 1)) in E1; [|lia|].
  - apply (boot_param_spec _ _ _ _ _ _ 65535) in E2; [|lia|intros x ? Hx%Z.ltb_ge; lia].
    apply (boot_param_spec _ _ _ _ _ _ 65535) in E3; [|lia|intros x ? Hx%Z.ltb_ge; lia].
    lia.
  - intros x Hx0 Hx. apply negb_false_iff, Z.eqb_eq in Hx.
    rewrite Z.shiftr_div_pow2 in Hx by lia. apply Z.div_small_iff in Hx; lia.
Qed.

Lemma override_cluster_size_spec max_cs o vs cs0 cs :
  override_cluster_size max_cs o vs cs0 = Some cs -> 0 < sector_size o ->
  cs = 2 ^ Z.log2 cs /\ sector_size o <= cs <= 4096 * sector_size o /\ cs <= max_cs.
Proof.
  unfold override_cluster_size. intros H Hs.
  destruct (if cs0 =? 0 then _ else _) as [c|]; [|done].
  destruct (Z.eqb_spec (Z.land c (c - 1)) 0) as [Hl|]; simpl in H; [|done].
  destruct (Z.ltb_spec c (sector_size o)), (Z.ltb_spec (4096 * sector_size o) c),
    (Z.ltb_spec max_cs c); try done.
  injection H as <-. split_and!; [apply land_pow2; lia|lia..].
Qed.

(** The consistency check of the code refuses a volume size that wrapped. *)
Lemma volume_size_exact ns ss vs :
  1 <= ss <= 4096 -> vs = to_s 64 (ns * ss) -> 0 < vs -> vs / ss = ns -> vs = ns * ss.
Proof.
  intros Hss -> Hpos Hdiv.
  assert (to_s 64 (ns * ss) = ns * ss - 2 ^ 64 * ((ns * ss + 2 ^ 63) / 2 ^ 64)) as E.
  { unfold to_s. change (64 - 1) with 63.
    pose proof (Z.div_mod (ns * ss + 2 ^ 63) (2 ^ 64) ltac:(lia)). lia. }
  set (q := (ns * ss + 2 ^ 63) / 2 ^ 64) in *.
  pose proof (Z.div_mod (to_s 64 (ns * ss)) ss ltac:(lia)) as Hm.
  pose proof (Z.mod_pos_bound (to_s 64 (ns * ss)) ss ltac:(lia)) as Hb.
  rewrite Hdiv in Hm. rewrite E in *. assert (2 ^ 64 = 18446744073709551616) as E64 by done. nia.
Qed.

Lemma record_size_pow2 dflt k o : dflt = 2 ^ k -> 0 <= k ->
  (exists j, 8 <= j <= 12 /\ sector_size o = 2 ^ j) ->
  record_size dflt o = Z.max dflt (sector_size o) /\
  record_size dflt o = 2 ^ (ffs (record_size dflt o) - 1).
Proof.
  intros Hd Hk (j & Hj & Hs). unfold record_size.
  destruct (Z.ltb_spec dflt (sector_size o)).
  - split; [lia|]. rewrite Hs, ffs_pow2 by lia. f_equal. lia.
  - split; [lia|]. rewrite Hd, ffs_pow2 by lia. f_equal. lia.
Qed.

Lemma override_params_spec max_cs d o cs o' vol w :
  mkntfs_override_vol_params max_cs d o cs = Some (o', vol, w) -> params_ok max_cs o' vol.
Proof.
  unfold mkntfs_override_vol_params.
  destruct (override_sectors d o) as [o1|] eqn:E1; [|done].
  destruct (override_geometry d o1) as [[o2 w2]|] eqn:E2; [|done].
  apply override_sectors_spec in E1 as (Hss & _).
  apply override_geometry_spec in E2 as (Hs2 & _ & Hboot).
  rewrite <- Hs2 in Hss. clear Hs2 o1.
  assert (256 <= sector_size o2 <= 4096) as Hsr.
  { destruct Hss as (k & Hk & ->). change 256 with (2 ^ 8). change 4096 with (2 ^ 12).
    split; apply Z.pow_le_mono_r; lia. }
  remember (to_s 64 (num_sectors o2 * sector_size o2)) as vs eqn:Hvs.
  destruct (Z.ltb_spec vs (Z.shiftl 1 20)) as [|Hmin]; [done|]. change (Z.shiftl 1 20) with (2 ^ 20) in Hmin.
  destruct (override_cluster_size max_cs o2 vs cs) as [c|] eqn:E3; [|done].
  apply override_cluster_size_spec in E3 as (Hc & Hcr & Hcm); [|lia].
  destruct (override_compression c o2) as [o3|] eqn:E4; [|done].
  assert (sector_size o3 = sector_size o2 /\ num_sectors o3 = num_sectors o2 /\
    part_start_sect o3 = part_start_sect o2 /\ sectors_per_track o3 = sectors_per_track o2 /\
    heads o3 = heads o2) as (E5 & E6 & E7 & E8 & E9).
  { unfold override_compression in E4.
    destruct ((4096 <? c) && enable_compression o2); [destruct (negb (force o2)); [done|]|];
      by injection E4 as <-. }
  rewrite E5, E6, <- Hvs, !Z.eqb_refl, orb_false_r. cbn [negb orb].
  destruct (Z.eqb_spec (vs / sector_size o2) (num_sectors o2)) as [Hd|]; cbn [negb]; [|done].
  destruct (Z.eqb_spec (Z.shiftr (vs / c) 32) 0) as [H32|]; cbn [negb]; [|done].
  intros [= <- <- _].
  assert (vs = num_sectors o2 * sector_size o2) as Hex by (eapply volume_size_exact; eauto; lia).
  assert (fits_s 64 vs) as Hfit by (rewrite Hvs; apply to_s_range; lia). unfold fits_s in Hfit. change (64 - 1) with 63 in Hfit.
  rewrite Z.shiftr_div_pow2 in H32 by lia. apply Z.div_small_iff in H32; [|lia].
  assert (exists j, 8 <= j <= 12 /\ sector_size o3 = 2 ^ j) as Hss3 by (by rewrite E5).
  destruct (record_size_pow2 1024 10 o3 eq_refl ltac:(lia) Hss3) as [Hr1 Hr2].
  destruct (record_size_pow2 4096 12 o3 eq_refl ltac:(lia) Hss3) as [Hi1 Hi2].
  pose proof (Z.log2_nonneg c).
  constructor; cbn [cluster_size cluster_size_bits nr_clusters mft_record_size mft_record_size_bits
    indx_record_size indx_record_size_bits]; rewrite ?E5, ?E6, ?E7, ?E8, ?E9; try done.
  - assert (ffs c = Z.log2 c + 1) as -> by (rewrite Hc at 1; by apply ffs_pow2).
    split; [lia|]. by replace (Z.log2 c + 1 - 1) with (Z.log2 c) by lia.
  - rewrite <- Hex. unfold INT64_MAX. lia.
  - rewrite <- Hex. lia.
  - by rewrite <- E5.
Qed.

(** ** The cluster size chosen by default *)

(** The loop stops at the first cluster size with which the clusters can be counted
    in 32 bits, or at the maximum. *)
Lemma grow_cluster_spec max_cs fuel vs k :
  0 <= vs < 2 ^ 63 -> 0 <= k <= 31 -> (Z.to_nat (31 - k) < fuel)%nat ->
  (exists m, grow_cluster max_cs fuel vs (2 ^ k) = Some (Some (2 ^ m)) /\ k <= m <= 31 /\
     vs < 2 ^ (m + 32) /\ (k < m -> 2 ^ (m + 31) <= vs)) \/
  (exists m, grow_cluster max_cs fuel vs (2 ^ k) = Some None /\ k < m <= 31 /\
     max_cs <= 2 ^ m /\ 2 ^ (m + 31) <= vs).
Proof.
  intros Hvs. revert k; induction fuel as [|fuel IH]; intros k Hk Hf; [lia|].
  cbn [grow_cluster]. rewrite ffs_pow2 by lia. replace (k + 1 - 1 + 32) with (k + 32) by lia.
  rewrite Z.shiftr_div_pow2 by lia.
  pose proof (Z.pow_pos_nonneg 2 (k + 32) ltac:(lia) ltac:(lia)) as Hp.
  destruct (Z.eqb_spec (vs / 2 ^ (k + 32)) 0) as [H0|H0].
  - left. exists k. apply Z.div_small_iff in H0; [|lia].
    split_and!; (done || lia).
  - assert (2 ^ (k + 32) <= vs) as Hge.
    { destruct (Z.le_gt_cases (2 ^ (k + 32)) vs); [done|]. by rewrite Z.div_small in H0 by lia. }
    assert (k + 32 < 63) as Hk31 by (apply (Z.pow_lt_mono_r_iff 2); [lia|lia|]; eapply Z.le_lt_trans; [exact Hge|lia]).
    replace (to_u 32 (Z.shiftl (2 ^ k) 1)) with (2 ^ (k + 1)).
    2:{ rewrite Z.shiftl_mul_pow2, <- Z.pow_add_r by lia. symmetry. apply to_u_small.
        split; [apply Z.pow_nonneg; lia|apply Z.pow_lt_mono_r; lia]. }
    destruct (Z.leb_spec max_cs (2 ^ (k + 1))).
    + right. exists (k + 1). replace (k + 1 + 31) with (k + 32) by lia. split_and!; (done || lia).
    + destruct (IH (k + 1)) as [(m & E & Hm & Hlt & Hge')|(m & E & Hm & Hmax & Hge')]; [lia|lia|left|right];
        exists m; rewrite E; split_and!; try (done || lia).
       intros _. destruct (decide (k + 1 < m)); [by apply Hge'|].
        replace (m + 31) with (k + 32) by lia. done.
Qed.

(** ** Steps of the layout *)

(** The allocator is well formed and [P] are the clusters allocated. *)
Definition holds (a : astate) (P : Z -> Prop) : Prop :=
  wf_alloc (ClusterAlloc.g_allocation a) /\ forall x, allocated (ClusterAlloc.g_allocation a) x <-> P x.

Section Steps.

Variable malloc_ok : nat -> bool.
Hypothesis malloc_never_fails : forall k, malloc_ok k = true.

Lemma malloc_step a P : holds a P ->
  exists a', ntfs_malloc malloc_ok a = (true, a') /\ holds a' P.
Proof. intros [Hw Ha]. unfold ntfs_malloc. rewrite malloc_never_fails. eexists. split; [done|by split]. Qed.

Lemma alloc_free a P lcn len : holds a P -> 0 <= lcn -> 0 <= len ->
  (forall x, lcn <= x < lcn + len -> ~ P x) ->
  exists a', bitmap_allocate malloc_ok lcn len a = (true, a') /\
    holds a' (fun x => P x \/ lcn <= x < lcn + len).
Proof.
  intros [Hw Ha] Hl Hn Hfree.
  assert (fst (bitmap_allocate malloc_ok lcn len a) = true) as Hok.
  { destruct (decide (len = 0)) as [->|]; [done|].
    apply bitmap_allocate_ok; [done..|lia|]. intros x Hx Hin. by apply (Hfree x), Ha. }
  pose proof (bitmap_allocate_wf malloc_ok malloc_never_fails lcn len a Hw Hl Hn Hok) as Hw'.
  pose proof (bitmap_allocate_denote malloc_ok malloc_never_fails lcn len a
    (wf_alloc_nonneg _ Hw) Hn) as Hd.
  destruct (bitmap_allocate malloc_ok lcn len a) as [ok a']. simpl in *. subst ok.
  exists a'. split; [done|]. split; [done|]. intros x. by rewrite Hd, Ha.
Qed.

Lemma alloc_clash a P lcn len x : holds a P -> 0 < len -> lcn <= x < lcn + len -> P x ->
  exists a', bitmap_allocate malloc_ok lcn len a = (false, a').
Proof.
  intros [Hw Ha] Hn Hx HP.
  destruct (bitmap_allocate malloc_ok lcn len a) as [[] a'] eqn:E; [exfalso|by eauto].
  assert (fst (bitmap_allocate malloc_ok lcn len a) = true) as Hok by (by rewrite E).
  rewrite bitmap_allocate_ok in Hok by done. by apply (Hok x), Ha.
Qed.

End Steps.

(** ** The layout *)

(** Where a runlist of one run puts its file. *)
Definition region (rl : list rle) : Z * Z :=
  match rl with
  | r :: _ => (rl_lcn r, rl_length r)
  | [] => (0, 0)
  end.

Definition in_region (p : Z * Z) (x : Z) : Prop := p.1 <= x < p.1 + p.2.

Definition apart (p q : Z * Z) : Prop := p.1 + p.2 <= q.1 \/ q.1 + q.2 <= p.1.

Definition regions (g : globals) : list (Z * Z) :=
  region <$> [g_rl_boot g; g_rl_mft_bmp g; g_rl_mft g; g_rl_mftmirr g; g_rl_logfile g].

(** A good layout: every file has its clusters, in the volume and apart from the
    others; they are large enough for what is written there; and the allocator
    knows them, and the bits of the bitmap after the end of the volume. *)
Record laid_out (vol : mkvol) (g : globals) : Prop := {
  lo_runs : Forall (fun rl => exists lcn j, rl = one_run lcn j)
    [g_rl_boot g; g_rl_mft_bmp g; g_rl_mft g; g_rl_mftmirr g; g_rl_logfile g];
  lo_in : Forall (fun p => 0 <= p.1 /\ 0 < p.2 /\ p.1 + p.2 <= nr_clusters vol) (regions g);
  lo_apart : ForallOrdPairs apart (regions g);
  lo_alloc : holds (g_alloc g) (fun x =>
    Exists (fun p => in_region p x) (regions g) \/ nr_clusters vol <= x < 8 * g_lcn_bitmap_byte_size g);
  lo_bitmap : nr_clusters vol <= 8 * g_lcn_bitmap_byte_size g /\ g_lcn_bitmap_byte_size g mod 8 = 0;
  lo_boot : (region (g_rl_boot g)).1 = 0 /\ 8192 <= (region (g_rl_boot g)).2 * cluster_size vol;
  lo_mft : (region (g_rl_mft g)).1 = g_mft_lcn g /\ 27 * mft_record_size vol <= g_mft_size g /\
    g_mft_size g <= (region (g_rl_mft g)).2 * cluster_size vol /\
    g_mft_size g / mft_record_size vol <= 8 * g_mft_bitmap_byte_size g;
  lo_mirr : (region (g_rl_mftmirr g)).1 = g_mftmirr_lcn g /\
    4 * mft_record_size vol <= (region (g_rl_mftmirr g)).2 * cluster_size vol;
  lo_log : (region (g_rl_logfile g)).1 = g_logfile_lcn g /\ 256 * 1024 <= g_logfile_size g /\
    (region (g_rl_logfile g)).2 * cluster_size vol = g_logfile_size g;
  lo_bad : g_rl_bad g = one_run (-1) (nr_clusters vol)
}.

Section Layout.

Variable malloc_ok : nat -> bool.
Hypothesis malloc_never_fails : forall k, malloc_ok k = true.
Variables (max_cs ps : Z) (o : mkntfs_options) (vol : mkvol).
Hypothesis max_cs_2MiB : max_cs <= 2 ^ 21.
Hypothesis params : params_ok max_cs o vol.

Local Abbreviation cs := (cluster_size vol).
Local Abbreviation rec := (mft_record_size vol).
Local Abbreviation vs := (num_sectors o * sector_size o).
Local Abbreviation nr := (nr_clusters vol).

Lemma sector_size_cases : 256 <= sector_size o <= 4096 /\
  (rec = 1024 \/ rec = 2048 \/ rec = 4096).
Proof.
  destruct (po_sector _ _ _ params) as (k & Hk & E).
  destruct (po_records _ _ _ params) as (-> & _). rewrite E.
  assert (k = 8 \/ k = 9 \/ k = 10 \/ k = 11 \/ k = 12) as H by lia.
  destruct H as [->|[->|[->|[->| ->]]]]; simpl; lia.
Qed.

Lemma geometry : cs ∈ cluster_sizes /\ (rec = 1024 \/ rec = 2048 \/ rec = 4096) /\
  rec <= Z.max cs 1024 /\ 1048576 <= vs /\ nr = vs / cs.
Proof.
  destruct sector_size_cases as [Hs Hr].
  destruct (po_bits _ _ _ params) as [_ E]. destruct (po_cluster _ _ _ params) as [Hc Hm].
  destruct (po_records _ _ _ params) as (Er & _). destruct (po_volume _ _ _ params) as [Hv _].
  destruct (po_clusters _ _ _ params) as [En _].
  split_and!; try (done || lia). rewrite E. apply cluster_size_cases. rewrite <- E. lia.
Qed.

Lemma round8_spec n : 0 <= n ->
  let b := Z.land (Z.shiftr (n + 7) 3 + 7) (Z.lnot 7) in n <= 8 * b /\ b mod 8 = 0 /\ b = ((n + 7) / 8 + 7) / 8 * 8.
Proof.
  intros Hn b. assert (b = ((n + 7) / 8 + 7) / 8 * 8) as ->.
  { unfold b. change 7 with (2 ^ 3 - 1) at 3. rewrite land_lnot_pow2 by lia.
    by rewrite Z.shiftr_div_pow2 by lia. }
  split_and!; [div_lia| |done]. by apply Z.mod_mul.
Qed.

Lemma div_up_covers n : 0 <= n -> n <= div_up n cs * cs.
Proof.
  intros Hn. assert (0 < cs) by (destruct sector_size_cases; destruct (po_cluster _ _ _ params); lia).
  unfold div_up. pose proof (Z.div_mod (n + cs - 1) cs ltac:(lia)).
  pose proof (Z.mod_pos_bound (n + cs - 1) cs ltac:(lia)). lia.
Qed.

(** The allocated clusters after each step. *)
Definition tail_clusters (bytes x : Z) : Prop := nr <= x < 8 * bytes.
Definition at_ (lcn len x : Z) : Prop := lcn <= x < lcn + len.

Lemma bitmaps_eval g :
  holds (g_alloc g) (fun _ => False) -> 0 <= nr -> 0 <= boot_clusters cs < nr ->
  exists bytes mb a,
    mkntfs_initialize_bitmaps malloc_ok ps vol g =
      Some (mkGlobals bytes ps (mft_bytes cs rec) mb (g_mft_lcn g) (g_mftmirr_lcn g)
        (g_logfile_lcn g) (g_logfile_size g) (g_mft_zone_end g) (g_rl_mft g)
        (one_run (boot_clusters cs) 1) (g_rl_mftmirr g) (g_rl_logfile g) (g_rl_boot g)
        (g_rl_bad g) a) /\
    nr <= 8 * bytes /\ bytes mod 8 = 0 /\ mft_bytes cs rec / rec <= 8 * mb /\
    holds a (fun x => (False \/ at_ nr (8 * bytes - nr) x) \/ at_ (boot_clusters cs) 1 x).
Proof.
  intros H Hnr Hb. unfold mkntfs_initialize_bitmaps.
  destruct (round8_spec nr Hnr) as (Hb8 & Hm8 & _).
  set (bytes := Z.land (Z.shiftr (nr + 7) 3 + 7) (Z.lnot 7)) in *.
  assert (0 <= mft_bytes cs rec / rec) as Hq.
  { destruct sector_size_cases as [_ Hr]. unfold mft_bytes. apply Z.div_pos; [|lia].
    destruct (po_cluster _ _ _ params), sector_size_cases. zcase; lia. }
  destruct (round8_spec _ Hq) as (Hq8 & _ & _).
  destruct (malloc_step _ malloc_never_fails _ _ H) as (a1 & -> & H1). cbn [negb].
  replace (Z.shiftl bytes 3 - nr) with (8 * bytes - nr) by (rewrite Z.shiftl_mul_pow2; lia).
  destruct (alloc_free _ malloc_never_fails a1 _ nr (8 * bytes - nr) H1) as (a2 & -> & H2); [lia..|tauto|].
  cbn [negb].
  destruct (malloc_step _ malloc_never_fails _ _ H2) as (a3 & -> & H3). cbn [negb].
  destruct (malloc_step _ malloc_never_fails _ _ H3) as (a4 & -> & H4). cbn [negb].
  destruct (alloc_free _ malloc_never_fails a4 _ (div_up 8192 cs) 1 H4) as (a5 & -> & H5);
    [unfold boot_clusters in *; lia..| |].
  { intros x Hx. fold (boot_clusters cs) in Hx. lia. }
  cbn [negb]. by do 3 eexists.
Qed.

Lemma default_place : default_mft_lcn vol (one_run (boot_clusters cs) 1) = mft_place cs.
Proof. reflexivity. Qed.

Lemma mirr_place_eq : Z.shiftr vs 1 / cs = mirr_place cs vs.
Proof. unfold mirr_place. by rewrite Z.shiftr_div_pow2 by lia. Qed.

Lemma log_bytes_eq : logfile_size_for vol (Z.shiftl nr (cluster_size_bits vol)) = log_bytes cs (nr * cs).
Proof.
  destruct (po_bits _ _ _ params) as [Hb E]. unfold logfile_size_for, log_bytes.
  rewrite Z.shiftl_mul_pow2, <- E by done.
  change (Z.shiftl 12 30) with 12884901888. change (Z.shiftl 64 20) with 67108864.
  replace (Z.land (nr * cs / 200) (Z.lnot (cs - 1))) with (nr * cs / 200 / cs * cs); [done|].
  rewrite E. by rewrite land_lnot_pow2 by done.
Qed.

Lemma round_up_multiple size : size mod cs = 0 -> round_up_to size cs = size.
Proof.
  intros Hm. destruct (po_bits _ _ _ params) as [Hb E].
  assert (0 < cs) by (rewrite E; apply Z.pow_pos_nonneg; lia).
  unfold round_up_to. rewrite E at 2. rewrite land_lnot_pow2 by done. rewrite <- E.
  pose proof (Z.div_mod size cs ltac:(lia)) as Hd. rewrite Hm in Hd.
  replace (size + cs - 1) with (cs - 1 + (size / cs) * cs) by lia.
  rewrite Z.div_add, Z.div_small by lia. lia.
Qed.

(** The log file is halved once at most. *)
Lemma shrink_eval fuel lcn size : (2 <= fuel)%nat ->
  lcn + size / cs < nr \/ lcn + size / 2 / cs < nr ->
  shrink_logfile vol fuel lcn size = Some (if nr <=? lcn + size / cs then size / 2 else size).
Proof.
  destruct fuel as [|[|fuel]]; [lia..|]. intros _ H. cbn [shrink_logfile].
  destruct (Z.leb_spec nr (lcn + size / cs)); [|done].
  rewrite Z.shiftr_div_pow2 by lia. change (2 ^ 1) with 2.
  by rewrite (proj2 (Z.leb_gt _ _)) by lia.
Qed.

(** What the log file ends up with. *)
Definition final_log : Z :=
  let size := log_bytes cs (nr * cs) in
  if nr <=? log_place cs rec vs + size / cs then size / 2 else size.

Lemma rl_mft_eval g P :
  places_ok cs rec vs -> nr = vs / cs -> holds (g_alloc g) P -> g_mft_lcn g = 0 ->
  g_rl_mft_bmp g = one_run (boot_clusters cs) 1 -> g_mft_size g = mft_bytes cs rec ->
  (forall x, P x <-> nr <= x < 8 * g_lcn_bitmap_byte_size g \/ x = boot_clusters cs) ->
  (mirr_place cs vs < mft_place cs + mft_clusters cs rec /\ mkntfs_initialize_rl_mft malloc_ok vol o g = None) \/
  (mft_place cs + mft_clusters cs rec <= mirr_place cs vs /\
   exists zone a,
    mkntfs_initialize_rl_mft malloc_ok vol o g =
      Some (mkGlobals (g_lcn_bitmap_byte_size g) (g_dynamic_buf_size g) (g_mft_size g)
        (g_mft_bitmap_byte_size g) (mft_place cs) (mirr_place cs vs) (log_place cs rec vs)
        (g_logfile_size g) zone (one_run (mft_place cs) (mft_clusters cs rec)) (g_rl_mft_bmp g)
        (one_run (mirr_place cs vs) (mirr_clusters cs rec)) (g_rl_logfile g) (g_rl_boot g)
        (g_rl_bad g) a) /\
    holds a (fun x => (P x \/ at_ (mft_place cs) (mft_clusters cs rec) x) \/
                      at_ (mirr_place cs vs) (mirr_clusters cs rec) x)).
Proof.
  intros [Hb Hmb Hj Hjm Hmin Hmi _ Hclash _] Hnr H Hlcn Hbmp Hsz HP.
  unfold log_place in *. unfold mkntfs_initialize_rl_mft.
  rewrite Hlcn, Z.eqb_refl, Hbmp, default_place, Hsz, mirr_place_eq.
  fold (mft_clusters cs rec) (mirr_clusters cs rec).
  destruct (malloc_step _ malloc_never_fails _ _ H) as (a1 & -> & H1). cbn [negb].
  assert (forall x, at_ (mft_place cs) (mft_clusters cs rec) x -> ~ P x) as Hfree
    by (intros x Hx; rewrite HP; unfold at_ in Hx; lia).
  destruct (alloc_free _ malloc_never_fails a1 _ (mft_place cs) (mft_clusters cs rec) H1 ltac:(lia) ltac:(lia) Hfree)
    as (a2 & -> & H2).
  destruct (malloc_step _ malloc_never_fails _ _ H2) as (a3 & -> & H3). cbn [negb].
  assert (0 <= mirr_place cs vs) as Hm0.
  { destruct geometry as (_ & _ & _ & Hv & _). destruct sector_size_cases.
    destruct (po_cluster _ _ _ params). unfold mirr_place. apply Z.div_pos; [|lia]. apply Z.div_pos; lia. }
  destruct (Z.lt_ge_cases (mirr_place cs vs) (mft_place cs + mft_clusters cs rec)) as [Hlt|Hge]; [left|right];
    (split; [done|]).
  - destruct (Hclash Hlt) as [Hx|Hx].
    + destruct (alloc_clash _ malloc_never_fails a3 _ (mirr_place cs vs) (mirr_clusters cs rec) (boot_clusters cs) H3)
        as (a4 & ->); [lia|lia|rewrite HP; tauto|done].
    + destruct (alloc_clash _ malloc_never_fails a3 _ (mirr_place cs vs) (mirr_clusters cs rec) (mirr_place cs vs) H3)
        as (a4 & ->); [lia|lia| |done]. right. lia.
  - assert (forall x, at_ (mirr_place cs vs) (mirr_clusters cs rec) x ->
      ~ (P x \/ at_ (mft_place cs) (mft_clusters cs rec) x)) as Hfree2
      by (intros x Hx; rewrite HP; unfold at_ in *; lia).
    destruct (alloc_free _ malloc_never_fails a3 _ _ (mirr_clusters cs rec) H3 Hm0 ltac:(lia) Hfree2) as (a4 & -> & H4).
    cbn [negb]. by do 2 eexists.
Qed.

Lemma rl_logfile_eval fuel g P :
  places_ok cs rec vs -> nr = vs / cs -> (2 <= fuel)%nat -> holds (g_alloc g) P ->
  g_logfile_lcn g = log_place cs rec vs ->
  mft_place cs + mft_clusters cs rec <= mirr_place cs vs ->
  (forall x, log_place cs rec vs <= x < nr -> ~ P x) ->
  (final_log < 262144 /\ mkntfs_initialize_rl_logfile malloc_ok vol fuel g = Some None) \/
  (262144 <= final_log /\ final_log mod cs = 0 /\ log_place cs rec vs + final_log / cs < nr /\
   exists a,
    mkntfs_initialize_rl_logfile malloc_ok vol fuel g =
      Some (Some (mkGlobals (g_lcn_bitmap_byte_size g) (g_dynamic_buf_size g) (g_mft_size g)
        (g_mft_bitmap_byte_size g) (g_mft_lcn g) (g_mftmirr_lcn g) (g_logfile_lcn g)
        final_log (g_mft_zone_end g) (g_rl_mft g) (g_rl_mft_bmp g) (g_rl_mftmirr g)
        (one_run (g_logfile_lcn g) (final_log / cs)) (g_rl_boot g) (g_rl_bad g) a)) /\
    holds a (fun x => P x \/ at_ (log_place cs rec vs) (final_log / cs) x)).
Proof.
  intros [Hb Hmb Hj Hjm Hmin Hmi Hlog _ _] Hnr Hf H Hlcn Hge HP. unfold mkntfs_initialize_rl_logfile.
  destruct (Hlog Hge) as [Hlt Hfit]. cbv zeta in Hfit. rewrite <- Hnr in Hfit.
  destruct (malloc_step _ malloc_never_fails _ _ H) as (a1 & -> & H1). cbn [negb].
  rewrite log_bytes_eq, Hlcn, shrink_eval by (done || lia). fold final_log.
  assert (final_log mod cs = 0 /\ log_place cs rec vs + final_log / cs < nr) as [Hm Hin].
  { unfold final_log. destruct (Z.leb_spec nr (log_place cs rec vs + log_bytes cs (nr * cs) / cs)); lia. }
  rewrite round_up_multiple by done. change (Z.shiftl 256 10) with 262144.
  destruct (Z.ltb_spec final_log 262144); [by left|right]. split_and!; [done..|].
  assert (0 < cs) by (destruct sector_size_cases; destruct (po_cluster _ _ _ params); lia).
  assert (0 <= final_log / cs) by (apply Z.div_pos; lia).
  assert (forall x, at_ (log_place cs rec vs) (final_log / cs) x -> ~ P x) as Hfree
    by (intros x Hx; apply HP; unfold at_ in Hx; lia).
  destruct (alloc_free _ malloc_never_fails a1 _ (log_place cs rec vs) (final_log / cs) H1) as (a2 & -> & Ha2);
    [unfold log_place; lia|lia|exact Hfree|].
  cbn [negb]. by eexists.
Qed.

Lemma log_bytes_nonneg v : 0 <= v -> 0 <= log_bytes cs v.
Proof.
  intros Hv. assert (0 < cs) by (destruct sector_size_cases; destruct (po_cluster _ _ _ params); lia).
  unfold log_bytes. repeat case_match; try lia.
  apply Z.mul_nonneg_nonneg; [|lia]. apply Z.div_pos; [|lia]. apply Z.div_pos; lia.
Qed.

Lemma empty_alloc a : holds a (fun _ => False) -> ClusterAlloc.g_allocation a = [].
Proof.
  intros [Hw Ha]. destruct (ClusterAlloc.g_allocation a) as [|r l] eqn:E; [done|]. exfalso.
  apply (Ha (r_lcn r)). apply allocated_cons. left. unfold wf_alloc in Hw. simpl in Hw.
  unfold in_run, r_end. lia.
Qed.

(** The allocations of a volume of two large clusters. *)
Lemma tiny_allocs n :
  let alloc := bitmap_allocate malloc_ok in
  alloc 2 62 (mkAstate [] n) = (true, mkAstate [mkRun 2 62] (S n)) /\
  alloc 1 1 (mkAstate [mkRun 2 62] n) = (true, mkAstate [mkRun 1 1; mkRun 2 62] (S n)) /\
  alloc 2 1 (mkAstate [mkRun 1 1; mkRun 2 62] n) =
    (false, mkAstate [mkRun 1 1; mkRun 2 62; mkRun 2 1] (S n)) /\
  alloc 1 1 (mkAstate [mkRun 1 1; mkRun 2 62; mkRun 2 1] n) =
    (false, mkAstate [mkRun 1 1; mkRun 1 1; mkRun 2 62; mkRun 2 1] (S n)).
Proof. cbv zeta. unfold bitmap_allocate. cbn. by rewrite malloc_never_fails. Qed.

(** A volume of one or two clusters has no room. *)
Lemma layout_tiny fuel g :
  holds (g_alloc g) (fun _ => False) -> g_mft_lcn g = 0 -> nr = 1 \/ nr = 2 ->
  mkntfs_layout malloc_ok ps vol fuel o g = Some None.
Proof.
  intros Ha Hlcn Hnr. pose proof (empty_alloc _ Ha) as Hnil.
  destruct geometry as (Hcs & Hrec & Hle & Hvs & En).
  assert (cs = 524288 \/ cs = 1048576 \/ cs = 2097152) as Hbig.
  { rewrite En in Hnr. clear -Hnr Hcs Hvs. unfold cluster_sizes in Hcs.
    repeat (apply elem_of_cons in Hcs; destruct Hcs as [Hcs|Hcs]; [rewrite Hcs in *; try tauto; div_lia|]).
    by apply not_elem_of_nil in Hcs. }
  assert (boot_clusters cs = 1 /\ mft_place cs = 2 /\ mft_clusters cs rec = 1 /\ mirr_clusters cs rec = 1)
    as (E1 & E2 & E3 & E4).
  { clear -Hbig Hrec. destruct Hbig as [Hb|[Hb|Hb]], Hrec as [Hr|[Hr|Hr]];
      rewrite Hb, Hr; by vm_compute. }
  unfold mkntfs_layout. destruct Hnr as [Hnr|Hnr].
  - unfold mkntfs_initialize_bitmaps. fold (boot_clusters cs). rewrite E1, Hnr.
    change (Z.shiftl (Z.land (Z.shiftr (1 + 7) 3 + 7) (Z.lnot 7)) 3 - 1) with 63.
    destruct (malloc_step _ malloc_never_fails _ _ Ha) as (a1 & -> & H1). cbn [negb].
    destruct (alloc_free _ malloc_never_fails a1 _ 1 63 H1) as (a2 & -> & H2); [lia..|tauto|]. cbn [negb].
    destruct (malloc_step _ malloc_never_fails _ _ H2) as (a3 & -> & H3). cbn [negb].
    destruct (malloc_step _ malloc_never_fails _ _ H3) as (a4 & -> & H4). cbn [negb].
    by destruct (alloc_clash _ malloc_never_fails a4 _ 1 1 1 H4) as (a5 & ->); [lia|lia|lia|].
  - assert (exists bytes mb n, mkntfs_initialize_bitmaps malloc_ok ps vol g =
      Some (mkGlobals bytes ps (mft_bytes cs rec) mb (g_mft_lcn g) (g_mftmirr_lcn g)
        (g_logfile_lcn g) (g_logfile_size g) (g_mft_zone_end g) (g_rl_mft g)
        (one_run 1 1) (g_rl_mftmirr g) (g_rl_logfile g) (g_rl_boot g)
        (g_rl_bad g) (mkAstate [mkRun 1 1; mkRun 2 62] n))) as (bytes & mb & n & ->).
    { unfold mkntfs_initialize_bitmaps. fold (boot_clusters cs). rewrite E1, Hnr.
      change (Z.shiftl (Z.land (Z.shiftr (2 + 7) 3 + 7) (Z.lnot 7)) 3 - 2) with 62.
      unfold ntfs_malloc. rewrite malloc_never_fails, Hnil. cbn [negb].
      rewrite (proj1 (tiny_allocs _)). rewrite !malloc_never_fails.
      cbn [negb ClusterAlloc.g_allocation mallocs].
      rewrite (proj1 (proj2 (tiny_allocs _))). cbn [negb]. by do 3 eexists. }
    unfold mkntfs_initialize_rl_mft.
    cbn [g_mft_lcn g_rl_mft_bmp g_alloc g_mft_size]. rewrite Hlcn, Z.eqb_refl.
    replace (default_mft_lcn vol (one_run 1 1)) with (mft_place cs) by (by rewrite <- default_place, E1).
    fold (mft_clusters cs rec) (mirr_clusters cs rec).
    rewrite mirr_place_eq, E2, E3, E4.
    assert (mirr_place cs vs = 1) as ->.
    { rewrite En in Hnr. unfold mirr_place. clear -Hnr Hbig Hvs.
      destruct Hbig as [Hb|[Hb|Hb]]; rewrite Hb in *; div_lia. }
    unfold ntfs_malloc. rewrite !malloc_never_fails. cbn [negb ClusterAlloc.g_allocation mallocs].
    rewrite (proj1 (proj2 (proj2 (tiny_allocs _)))). rewrite !malloc_never_fails. cbn [negb ClusterAlloc.g_allocation mallocs].
    by rewrite (proj2 (proj2 (proj2 (tiny_allocs _)))).
Qed.

(** The layout of a volume of at least one cluster always ends, and is good when it
    succeeds; it succeeds when the MFT is in the first half and the log file does
    not get too small. *)
Lemma layout_spec fuel g :
  holds (g_alloc g) (fun _ => False) -> g_mft_lcn g = 0 -> 1 <= nr -> (2 <= fuel)%nat ->
  (mkntfs_layout malloc_ok ps vol fuel o g = Some None /\
   ~ (3 <= nr /\ mft_place cs + mft_clusters cs rec <= mirr_place cs vs /\ 262144 <= final_log)) \/
  exists g', mkntfs_layout malloc_ok ps vol fuel o g = Some (Some g') /\ laid_out vol g'.
Proof.
  intros Ha Hlcn Hnr Hf. destruct geometry as (Hcs & Hrec & Hle & Hvs & En).
  destruct (Z.lt_ge_cases nr 3) as [H3|H3].
  { left. split; [|lia]. apply layout_tiny; [done|done|lia]. }
  assert (places_ok cs rec vs) as Hpl by (apply places_are_ok; [done..|lia]).
  pose proof Hpl as [Hb Hmb Hj Hjm Hmin Hmi _ _ _]. rewrite <- En in Hmin, Hmi.
  unfold mkntfs_layout.
  destruct (bitmaps_eval g Ha ltac:(lia) ltac:(lia)) as (bytes & mb & a1 & -> & Hb8 & Hm8 & Hmb8 & H1).
  match goal with |- context [mkntfs_initialize_rl_mft _ _ _ ?x] => set (g1 := x) end.
  destruct (rl_mft_eval g1 _ Hpl En H1 Hlcn eq_refl eq_refl) as [[Hlt ->]|(Hge & zone & a2 & -> & H2)].
  { intros x. unfold at_. simpl. lia. }
  { left. split; [done|lia]. }
  match goal with |- context [mkntfs_initialize_rl_logfile _ _ _ ?x] => set (g2 := x) end.
  destruct (rl_logfile_eval fuel g2 _ Hpl En Hf H2 eq_refl Hge) as [[Hlt ->]|(Hlog & Hlm & Hlin & a3 & -> & H3')].
  { intros x. unfold at_, log_place in *. lia. }
  { left. split; [done|lia]. }
  right. unfold mkntfs_initialize_rl_boot. fold (boot_clusters cs). cbn [g_alloc].
  destruct (malloc_step _ malloc_never_fails _ _ H3') as (a4 & -> & H4). cbn [negb].
  assert (0 < cs) by (destruct sector_size_cases; destruct (po_cluster _ _ _ params); lia).
  assert (0 <= final_log / cs) by (apply Z.div_pos; lia).
  destruct (alloc_free _ malloc_never_fails a4 _ 0 (boot_clusters cs) H4) as (a5 & -> & H5); [lia|lia| |].
  { intros x. unfold at_, log_place in *. lia. }
  cbn [negb g_alloc].
  destruct (malloc_step _ malloc_never_fails _ _ H5) as (a6 & -> & H6). cbn [negb].
  unfold mkntfs_initialize_rl_bad. cbn [g_alloc].
  destruct (malloc_step _ malloc_never_fails _ _ H6) as (a7 & -> & H7). cbn [negb].
  eexists. split; [done|].
  pose proof (Z.div_mod final_log cs ltac:(lia)) as Hld. rewrite Hlm in Hld.
  assert (0 < final_log / cs) as Hlpos by nia.
  pose proof (div_up_covers 8192 ltac:(lia)) as Hc1.
  pose proof (div_up_covers (4 * rec) ltac:(lia)) as Hc2.
  assert (27 * rec <= mft_bytes cs rec) as Hmft by (unfold mft_bytes; zcase; lia).
  pose proof (div_up_covers (mft_bytes cs rec) ltac:(lia)) as Hc3.
  fold (boot_clusters cs) in Hc1. fold (mirr_clusters cs rec) in Hc2. fold (mft_clusters cs rec) in Hc3.
  unfold log_place in *.
  constructor; unfold regions, region; cbn -[Z.mul Z.add].
  - repeat constructor; by do 2 eexists.
  - repeat constructor; cbn -[Z.mul Z.add]; lia.
  - repeat constructor; unfold apart; cbn -[Z.mul Z.add]; lia.
  - destruct H7 as [Hw7 Ha7]. split; [done|]. intros x. rewrite Ha7. unfold at_, in_region.
    rewrite !Exists_cons, Exists_nil. cbn -[Z.mul Z.add].
    replace (nr + (8 * bytes - nr)) with (8 * bytes) by lia.
    replace (boot_clusters cs + 1) with (1 + boot_clusters cs) by lia. intuition lia.
  - lia.
  - lia.
  - lia.
  - lia.
  - lia.
  - done.
Qed.

(** With the MFT in the first half and a log file of at least 256 KiB there is a
    layout; both hold for clusters of up to 64 KiB. *)
Lemma layout_small_clusters fuel g :
  holds (g_alloc g) (fun _ => False) -> g_mft_lcn g = 0 -> cs <= 65536 -> (2 <= fuel)%nat ->
  exists g', mkntfs_layout malloc_ok ps vol fuel o g = Some (Some g') /\ laid_out vol g'.
Proof.
  intros Ha Hlcn Hcs Hf. destruct geometry as (Hin & Hrec & Hle & Hvs & En).
  assert (3 <= nr) as H3.
  { rewrite En. apply Z.div_le_lower_bound; [|lia].
    destruct sector_size_cases; destruct (po_cluster _ _ _ params); lia. }
  assert (places_ok cs rec vs) as Hpl by (apply places_are_ok; [done..|lia]).
  destruct (layout_spec fuel g Ha Hlcn ltac:(lia) Hf) as [[_ Hno]|]; [exfalso|done].
  apply Hno. destruct Hpl as [_ _ _ _ _ _ Hlog _ Hsmall]. specialize (Hsmall Hcs).
  destruct (Hlog Hsmall) as [_ Hfit]. cbv zeta in Hfit. rewrite <- En in Hfit.
  split_and!; [done|done|]. unfold final_log.
  destruct (Z.leb_spec nr (log_place cs rec vs + log_bytes cs (nr * cs) / cs)); lia.
Qed.

End Layout.

(** ** From the options *)

Lemma start_cluster_pow2 o : (exists k, 8 <= k <= 12 /\ sector_size o = 2 ^ k) ->
  (if 4096 <? sector_size o then sector_size o else 4096) = 2 ^ 12.
Proof.
  intros (k & Hk & E). rewrite (proj2 (Z.ltb_ge _ _)); [done|]. rewrite E.
  change 4096 with (2 ^ 12). apply Z.pow_le_mono_r; lia.
Qed.

(** The guards that answer [None] were not taken. *)
Ltac pass_guards H :=
  repeat match type of H with (if ?b then None else _) = Some _ => destruct b; [done|] end.

(** The cluster size is the user's, or the default one. *)
Lemma override_chosen max_cs d o cs0 o' vol w :
  mkntfs_override_vol_params max_cs d o cs0 = Some (o', vol, w) ->
  cluster_size vol = cs0 \/
  cs0 = 0 /\ exists m, cluster_size vol = 2 ^ m /\ 12 <= m <= 31 /\
    num_sectors o' * sector_size o' < 2 ^ (m + 32) /\
    (12 < m -> 2 ^ (m + 31) <= num_sectors o' * sector_size o').
Proof.
  intros H. pose proof (override_params_spec _ _ _ _ _ _ _ H) as Hok. revert H.
  unfold mkntfs_override_vol_params.
  destruct (override_sectors d o) as [o1|] eqn:E1; [|done].
  destruct (override_geometry d o1) as [[o2 w2]|] eqn:E2; [|done].
  apply override_sectors_spec in E1 as (Hss & _).
  apply override_geometry_spec in E2 as (Hs2 & _ & _). rewrite <- Hs2 in Hss.
  destruct (to_s 64 (num_sectors o2 * sector_size o2) <? Z.shiftl 1 20); [done|].
  destruct (override_cluster_size max_cs o2 _ cs0) as [c|] eqn:E3; [|done].
  destruct (override_compression c o2) as [o3|] eqn:E4; [|done].
  destruct (_ || _); [done|]. destruct (negb _); [done|]. intros [= <- <- _]. simpl.
  assert (num_sectors o3 * sector_size o3 = num_sectors o2 * sector_size o2) as Ev.
  { unfold override_compression in E4.
    destruct ((4096 <? c) && enable_compression o2); [destruct (negb (force o2)); [done|]|];
      by injection E4 as <-. }
  destruct (po_volume _ _ _ Hok) as [Hv1 Hv2]. rewrite Ev in *.
  rewrite to_s_small in E3 by (unfold fits_s, INT64_MAX in *; simpl; lia).
  revert E3. unfold override_cluster_size.
  destruct (Z.eqb_spec cs0 0) as [->|Hne].
  - rewrite (start_cluster_pow2 o2 Hss).
    destruct (grow_cluster_spec max_cs 64 (num_sectors o2 * sector_size o2) 12)
      as [(m & -> & Hm & Hlt & Hge)|(m & -> & _)]; [unfold INT64_MAX in *; lia|lia|lia| |done].
    intros E3. pass_guards E3. injection E3 as <-. right. split; [done|]. exists m.
    split_and!; [done|lia..|done].
  - intros E3. pass_guards E3. injection E3 as <-. by left.
Qed.

Lemma chosen_fits max_cs d o cs0 o' vol w :
  mkntfs_override_vol_params max_cs d o cs0 = Some (o', vol, w) -> cs0 <= 2 ^ 20 ->
  1 <= nr_clusters vol.
Proof.
  intros H Hcs. pose proof (override_params_spec _ _ _ _ _ _ _ H) as Hok.
  destruct (po_clusters _ _ _ Hok) as [-> _]. destruct (po_volume _ _ _ Hok) as [Hv _].
  destruct (po_bits _ _ _ Hok) as [Hb E].
  assert (0 < cluster_size vol) by (rewrite E; apply Z.pow_pos_nonneg; lia).
  apply Z.div_le_lower_bound; [done|].
  destruct (override_chosen _ _ _ _ _ _ _ H) as [Hc|(_ & m & -> & Hm & Hlt & Hge)]; [lia|].
  destruct (decide (12 < m)) as [Hm12|]; [|assert (m = 12) as -> by lia; lia].
  specialize (Hge Hm12). assert (2 ^ m <= 2 ^ (m + 31)) by (apply Z.pow_le_mono_r; lia). lia.
Qed.

(** The statics of a first run, whatever was allocated by [ntfs_malloc] before. *)
Definition fresh (g : globals) : Prop := g_mft_lcn g = 0 /\ ClusterAlloc.g_allocation (g_alloc g) = [].

Lemma fresh_holds g : fresh g -> holds (g_alloc g) (fun _ => False).
Proof. intros [_ E]. unfold holds. rewrite E. split; [done|]. apply allocated_nil. Qed.

(** [C17] [mkntfs_override_vol_params] only lets a sound geometry through: a sector
    size that is a power of two from 256 to 4096; a volume of at least 1 MiB whose
    size in bytes is exact, the 64-bit product having not wrapped; a cluster size
    that is a power of two, from one sector to 4096 sectors and at most the
    maximum; fewer than 2^32 clusters; MFT and index records of at least a sector,
    with their exact logarithms; and boot parameters in range. *)
Theorem override_vol_params_sound max_cs d o cs o' vol w :
  mkntfs_override_vol_params max_cs d o cs = Some (o', vol, w) -> params_ok max_cs o' vol.
Proof. apply override_params_spec. Qed.

(** A disk of [n] sectors of 512 bytes. *)
Definition disk512 (n : Z) : devinfo := mkDevinfo 512 (fun bs => n * 512 / bs) 63 63 255 4096.

Lemma override_vol_params_sound_witness :
  exists o' vol w,
    mkntfs_override_vol_params (2 ^ 21) (disk512 204800) mkntfs_init_options 0 = Some (o', vol, w) /\
    nr_clusters vol = 25599 /\ params_ok (2 ^ 21) o' vol.
Proof.
  destruct (mkntfs_override_vol_params (2 ^ 21) (disk512 204800) mkntfs_init_options 0)
    as [[[o' vol] w]|] eqn:E; [|by vm_compute in E].
  exists o', vol, w. split; [done|]. split.
  - vm_compute in E. by injection E as <- <- <-.
  - by apply (override_vol_params_sound (2 ^ 21) (disk512 204800) mkntfs_init_options 0 o' vol w).
Defined.

(** Every outcome of choosing the parameters and laying the volume out. *)
Lemma mkntfs_plan_spec malloc_ok max_cs d fuel o g :
  (forall k, malloc_ok k = true) -> max_cs <= 2 ^ 21 -> vol_cluster_size o <= 2 ^ 20 ->
  fresh g -> (2 <= fuel)%nat ->
  exists r, mkntfs_plan malloc_ok max_cs d fuel o g = Some r /\
    forall o' vol g', r = Some (o', vol, g') -> params_ok max_cs o' vol /\ laid_out vol g'.
Proof.
  intros Hm Hmax Hcs Hg Hf. unfold mkntfs_plan.
  destruct (mkntfs_override_vol_params max_cs d o (vol_cluster_size o)) as [[[o' vol] w]|] eqn:E;
    [|by exists None].
  pose proof (override_params_spec _ _ _ _ _ _ _ E) as Hok.
  pose proof (chosen_fits _ _ _ _ _ _ _ E Hcs) as Hnr.
  destruct (layout_spec malloc_ok Hm max_cs (mkntfs_get_page_size d) o' vol Hmax Hok fuel g)
    as [[-> _]|(g' & -> & Hl)]; [by apply fresh_holds|apply Hg|done|done|by exists None|].
  eexists. split; [done|]. by intros ? ? ? [= <- <- <-].
Qed.

(** [C14] A layout that is found is sound, and the search for it ends.  For a first run
    of mkntfs (nothing allocated yet) whose cluster size, if given, is at most 1 MiB,
    and with memory available (without these the loop need not end and the files may
    overlap, see [oversized_cluster_hangs] and [second_run_overlaps]): choosing
    the parameters and laying the volume out ends (the log file is halved once at
    most), either with a refusal or with the places of $Boot, the MFT bitmap, $MFT,
    $MFTMirr and $LogFile, which are inside the volume and pairwise disjoint, large
    enough for the data written there, and exactly the clusters the allocator has,
    with the bits of $Bitmap beyond the end of the volume. *)
Theorem mkntfs_plan_sound malloc_ok max_cs d fuel o g :
  (forall k, malloc_ok k = true) -> max_cs <= 2 ^ 21 -> vol_cluster_size o <= 2 ^ 20 ->
  fresh g -> (2 <= fuel)%nat ->
  exists r, mkntfs_plan malloc_ok max_cs d fuel o g = Some r /\
    forall o' vol g', r = Some (o', vol, g') -> params_ok max_cs o' vol /\ laid_out vol g'.
Proof. intros. by apply mkntfs_plan_spec. Qed.

Lemma fresh_globals0 : fresh globals0.
Proof. by split. Qed.

Lemma mkntfs_plan_sound_witness :
  let o := set_o_cluster_size 1024 mkntfs_init_options in
  exists o' vol g',
    mkntfs_plan (fun _ => true) (2 ^ 21) (disk512 204800) 2 o globals0 = Some (Some (o', vol, g')) /\
    regions g' = [(0, 8); (8, 1); (16, 27); (51199, 4); (51203, 2048)] /\ laid_out vol g'.
Proof.
  intros o.
  destruct (mkntfs_plan_sound (fun _ => true) (2 ^ 21) (disk512 204800) 2 o globals0)
    as (r & E & Hr); [done|done|done|exact fresh_globals0|lia|].
  destruct r as [[[o' vol] g']|]; [|by vm_compute in E].
  exists o', vol, g'. split; [done|]. split; [|by apply (Hr o' vol g')].
  vm_compute in E. by injection E as <- <- <-.
Defined.

(** The options of [nk_format], and the sectors it leaves to the volume. *)
Definition nk_format_options (lbl : option string) : mkntfs_options :=
  snd (mkntfs_parse_options (fun _ => false) (nk_format_args lbl) mkntfs_init_options).

Definition sector_size_of (d : devinfo) : Z := if d_sector_size d <? 0 then 512 else d_sector_size d.

Definition usable_sectors (d : devinfo) : Z :=
  d_size d (sector_size_of d) -
  (if sector_size_of d <? 512 then 512 / sector_size_of d else 1).

Lemma nk_format_options_eq lbl : exists str,
  nk_format_options lbl = set_label (Some str) (set_quick_format true (set_force true
    (set_dev_name (Some "fskit-format"%string) mkntfs_init_options))).
Proof. unfold nk_format_options, nk_format_args. destruct lbl as [[|a l]|]; by eexists. Qed.

(** With no geometry given, none is refused. *)
Lemma override_geometry_unset d o :
  part_start_sect o = -1 -> sectors_per_track o = -1 -> heads o = -1 ->
  exists o' w, override_geometry d o = Some (o', w) /\ sector_size o' = sector_size o /\
    num_sectors o' = num_sectors o /\ enable_compression o' = enable_compression o.
Proof.
  intros E1 E2 E3. unfold override_geometry. rewrite E1, E2, E3.
  assert (forall dev big w, exists r w', boot_param (-1) dev big w = Some (r, w')) as Hb.
  { intros dev big w. unfold boot_param. simpl. destruct (dev <? 0); [|destruct (big dev)]; eauto. }
  destruct (Hb (d_part_start d) (fun v => negb (Z.shiftr v 32 =? 0)) true) as (r1 & w1 & ->).
  destruct (Hb (d_sectors_per_track d) (fun v => 65535 <? v) w1) as (r2 & w2 & ->).
  destruct (Hb (d_heads d) (fun v => 65535 <? v) w2) as (r3 & w3 & ->). by do 2 eexists.
Qed.

(** The parameters chosen when nothing is given. *)
Lemma override_default max_cs d o ss n :
  sector_size o = -1 -> num_sectors o = -1 -> part_start_sect o = -1 -> sectors_per_track o = -1 ->
  heads o = -1 -> enable_compression o = false ->
  ss = sector_size_of d -> n = usable_sectors d ->
  (exists k, 8 <= k <= 12 /\ ss = 2 ^ k) -> 2 ^ 16 < max_cs -> 2 ^ 20 <= n * ss < 2 ^ 48 ->
  exists o' vol w, mkntfs_override_vol_params max_cs d o 0 = Some (o', vol, w) /\
    num_sectors o' = n /\ sector_size o' = ss /\ cluster_size vol <= 65536.
Proof.
  intros E1 E2 E3 E4 E5 E6 -> -> Hk Hmax Hv. unfold usable_sectors in *.
  set (ss := sector_size_of d) in *.
  destruct Hk as (k & Hk & Ek).
  assert (256 <= ss <= 4096) as Hss.
  { rewrite Ek. change 256 with (2 ^ 8). change 4096 with (2 ^ 12). split; apply Z.pow_le_mono_r; lia. }
  set (i := if ss <? 512 then 512 / ss else 1) in *.
  assert (1 <= i) as Hi by (unfold i; destruct (Z.ltb_spec ss 512); [apply Z.div_le_lower_bound; lia|lia]).
  assert (override_sectors d o = Some (set_num_sectors (d_size d ss - i) (set_num_sectors (d_size d ss)
    (set_sector_size ss o)))) as Es.
  { unfold override_sectors. rewrite E1. cbn [Z.ltb Z.compare]. fold (sector_size_of d). fold ss.
    cbn [sector_size num_sectors set_sector_size set_num_sectors]. rewrite E2. cbn [Z.ltb Z.compare].
    rewrite Z.land_comm, Ek, pow2_land by lia. rewrite <- Ek. cbn [Z.eqb negb].
    rewrite (proj2 (Z.ltb_ge ss 256)), (proj2 (Z.ltb_ge 4096 ss)) by lia. cbn [orb].
    by rewrite (proj2 (Z.leb_gt _ _)) by nia. }
  unfold mkntfs_override_vol_params. rewrite Es.
  match goal with |- context [override_geometry d ?x] => set (o1 := x) end.
  destruct (override_geometry_unset d o1) as (o2 & w & -> & Hs2 & Hn2 & Hc2); [done..|].
  rewrite Hs2, Hn2. change (sector_size o1) with ss. change (num_sectors o1) with (d_size d ss - i).
  set (n := d_size d ss - i) in *.
  rewrite to_s_small by (unfold fits_s; simpl; lia).
  rewrite (proj2 (Z.ltb_ge (n * ss) (Z.shiftl 1 20))) by (change (Z.shiftl 1 20) with (2 ^ 20); lia).
  unfold override_cluster_size. cbn [Z.eqb].
  rewrite (start_cluster_pow2 o2) by (rewrite Hs2; by exists k).
  destruct (grow_cluster_spec max_cs 64 (n * ss) 12) as [(m & -> & Hm & Hlt & Hge)|(m & _ & Hm & Hm' & Hge)];
    [lia|lia|lia| |].
  2:{ exfalso. assert (2 ^ 48 <= 2 ^ (m + 31)); [|lia]. apply Z.pow_le_mono_r; [lia|].
      assert (16 < m); [|lia]. apply (Z.pow_lt_mono_r_iff 2); lia. }
  assert (m <= 16) as Hm16.
  { destruct (decide (12 < m)); [|lia]. specialize (Hge ltac:(done)).
    assert (m + 31 < 48); [|lia]. apply (Z.pow_lt_mono_r_iff 2); lia. }
  assert (4096 <= 2 ^ m <= 65536) as Hcm.
  { change 4096 with (2 ^ 12). change 65536 with (2 ^ 16). split; apply Z.pow_le_mono_r; lia. }
  rewrite pow2_land by lia. cbn [Z.eqb negb]. rewrite Hs2. change (sector_size o1) with ss.
  rewrite (proj2 (Z.ltb_ge (2 ^ m) ss)), (proj2 (Z.ltb_ge (4096 * ss) (2 ^ m))),
    (proj2 (Z.ltb_ge max_cs (2 ^ m))) by lia.
  unfold override_compression. rewrite Hc2. change (enable_compression o1) with (enable_compression o).
  rewrite E6, andb_false_r, Hs2, Hn2. change (sector_size o1) with ss. change (num_sectors o1) with n.
  rewrite to_s_small by (unfold fits_s; simpl; lia).
  rewrite !Z.eqb_refl, Z.div_mul, Z.eqb_refl by lia. cbn [negb orb].
  rewrite Z.shiftr_div_pow2, (Z.div_small (n * ss / 2 ^ m)) by
    (lia || (split; [apply Z.div_pos; lia|apply Z.div_lt_upper_bound; [lia|]; rewrite <- Z.pow_add_r; lia])).
  cbn [Z.eqb negb]. do 3 eexists. split; [done|]. rewrite Hs2, Hn2. cbn. split_and!; [done|done|lia].
Qed.

(** [C18] [nk_format] is not refused a layout on a device whose sectors are a power
    of two from 256 to 4096 bytes (512 if unknown) and whose usable size, that is,
    the size less the last sector (less 512 bytes for smaller sectors), is at least
    1 MiB and less than 256 TiB: the options it passes to mkntfs lead, with
    memory available and on a first run, to a good layout with clusters of at most
    64 KiB. *)
Theorem nk_format_lays_out malloc_ok max_cs d fuel lbl g :
  (forall k, malloc_ok k = true) -> 2 ^ 16 < max_cs <= 2 ^ 21 ->
  (exists k, 8 <= k <= 12 /\ sector_size_of d = 2 ^ k) ->
  2 ^ 20 <= usable_sectors d * sector_size_of d < 2 ^ 48 -> fresh g -> (2 <= fuel)%nat ->
  exists o' vol g',
    mkntfs_plan malloc_ok max_cs d fuel (nk_format_options lbl) g = Some (Some (o', vol, g')) /\
    params_ok max_cs o' vol /\ laid_out vol g' /\ cluster_size vol <= 65536 /\
    num_sectors o' = usable_sectors d.
Proof.
  intros Hm Hmax Hk Hv Hg Hf. unfold mkntfs_plan.
  destruct (nk_format_options_eq lbl) as [str ->].
  match goal with |- context [mkntfs_override_vol_params max_cs d ?x _] => set (o := x) end.
  change (vol_cluster_size o) with 0.
  destruct (override_default max_cs d o (sector_size_of d) (usable_sectors d))
    as (o' & vol & w & E & Hn & Hs & Hc); [done..|lia|done|].
  rewrite E. pose proof (override_params_spec _ _ _ _ _ _ _ E) as Hok.
  destruct (layout_small_clusters malloc_ok Hm max_cs (mkntfs_get_page_size d) o' vol ltac:(lia) Hok fuel g)
    as (g' & -> & Hl); [by apply fresh_holds|apply Hg|done|done|].
  by exists o', vol, g'.
Qed.

Lemma nk_format_lays_out_witness :
  exists o' vol g',
    mkntfs_plan (fun _ => true) (2 ^ 21) (disk512 204800) 2 (nk_format_options (Some "DATA"%string)) globals0 =
      Some (Some (o', vol, g')) /\
    params_ok (2 ^ 21) o' vol /\ laid_out vol g' /\ cluster_size vol <= 65536 /\ num_sectors o' = 204799.
Proof.
  apply (nk_format_lays_out (fun _ => true) (2 ^ 21) (disk512 204800) 2 (Some "DATA"%string) globals0);
    [done|lia|exists 9; split; [lia|done]|vm_compute; split; congruence|exact fresh_globals0|lia].
Defined.

(** ** What goes wrong *)

(** The loop cannot end when even an empty log file does not fit. *)
Lemma shrink_never vol fuel lcn size :
  0 < cluster_size vol -> 0 <= size -> nr_clusters vol <= lcn ->
  shrink_logfile vol fuel lcn size = None.
Proof.
  intros Hcs. revert size; induction fuel as [|fuel IH]; intros size Hs Hn; [done|]. simpl.
  assert (0 <= size / cluster_size vol) by (apply Z.div_pos; lia).
  rewrite (proj2 (Z.leb_le _ _)) by lia. apply IH; [|done]. by apply Z.shiftr_nonneg.
Qed.

(** A cluster size larger than the volume is not refused and mkntfs does not
    end: on a disk of 3000 sectors of 512 bytes, with the (valid) cluster size of
    2 MiB, the volume has no cluster at all, every check passes, and the loop that
    makes the log file smaller goes on for ever. *)
Theorem oversized_cluster_hangs fuel :
  mkntfs_plan (fun _ => true) (2 ^ 21) (disk512 3000) fuel
    (set_o_cluster_size 2097152 mkntfs_init_options) globals0 = None.
Proof.
  unfold mkntfs_plan.
  destruct (mkntfs_override_vol_params _ _ _ _) as [[[o vol] w]|] eqn:E; [|by vm_compute in E].
  vm_compute in E. injection E as <- <- <-.
  unfold mkntfs_layout.
  destruct (mkntfs_initialize_bitmaps _ _ _ _) as [g1|] eqn:E1; [|by vm_compute in E1].
  vm_compute in E1. injection E1 as <-.
  destruct (mkntfs_initialize_rl_mft _ _ _ _) as [g2|] eqn:E2; [|by vm_compute in E2].
  vm_compute in E2. injection E2 as <-.
  unfold mkntfs_initialize_rl_logfile, ntfs_malloc. cbn [negb].
  by rewrite shrink_never.
Qed.

(** A second run in the same process may put $MFT over the MFT bitmap.
    [mkntfs_cleanup] leaves [g_mft_lcn] set and [mkntfs_initialize_rl_mft] does not
    look at what the allocator answers: after a volume with clusters of 64 KiB, a
    default volume on the same disk gets, and reports success with, $MFT at cluster
    2, where its MFT bitmap is. *)
Theorem second_run_overlaps :
  exists o1 vol1 g1 o2 vol2 g2,
    let d := disk512 204800 in
    mkntfs_plan (fun _ => true) (2 ^ 21) d 2 (set_o_cluster_size 65536 mkntfs_init_options) globals0 =
      Some (Some (o1, vol1, g1)) /\
    mkntfs_plan (fun _ => true) (2 ^ 21) d 2 (nk_format_options None) (mkntfs_cleanup g1) =
      Some (Some (o2, vol2, g2)) /\
    in_region (region (g_rl_mft g2)) 2 /\ in_region (region (g_rl_mft_bmp g2)) 2.
Proof.
  destruct (mkntfs_plan (fun _ => true) (2 ^ 21) (disk512 204800) 2
    (set_o_cluster_size 65536 mkntfs_init_options) globals0) as [[[[o1 vol1] g1]|]|] eqn:E1;
    [|by vm_compute in E1..].
  destruct (mkntfs_plan (fun _ => true) (2 ^ 21) (disk512 204800) 2 (nk_format_options None)
    (mkntfs_cleanup g1)) as [[[[o2 vol2] g2]|]|] eqn:E2;
    [|vm_compute in E1; injection E1 as <- <- <-; by vm_compute in E2..].
  exists o1, vol1, g1, o2, vol2, g2. split; [done|]. split; [done|].
  vm_compute in E1. injection E1 as <- <- <-. vm_compute in E2. injection E2 as <- <- <-.
  split; split; vm_compute; congruence.
Qed.
