(* ===== verification/Calls.v ===== *)
(** * Programs over the engine's calls

    The operations of src/NTFSModule/bridge/ntfs_bridge.c (the ones outside KOIO)
    and src/NTFSModule/bridge/nk_bde.c are sequences of calls to libntfs-3g, libbde
    and libbfio, to the allocator and to the front end's callbacks, and of tests of
    the answers.  This file holds their syntax: the calls, each with the type of its
    answer, and programs as trees of calls.  What a call answers is not defined
    here: the ledger of [Ledger] lets every call answer anything, and [Names]
    assumes laws of the calls that change the namespace.

    A pointer is a [handle]; [None] is NULL. *)

From Stdlib Require Import String.
From S2P Require Import Prelude.

Abbreviation handle := nat.

(** One entry [ntfs_readdir] reports: name in UTF-16 units, name type, MFT reference
    and [NTFS_DT_DIR]. *)
Record rd_entry := mkRd { rd_name : list Z; rd_type : Z; rd_mref : Z; rd_dir : bool }.

(** [nk_dirent] *)
Record nk_dirent := mkDirent { de_name : string; de_is_dir : bool; de_size : Z; de_inode : Z }.

(** Fields the code reads. *)
Inductive vol_field :=
  | vf_free_space | vf_nr_clusters | vf_free_clusters | vf_cluster_size | vf_flags | vf_readonly.
Inductive ni_field :=
  | nf_mrec_flags | nf_flags | nf_mft_no | nf_mref | nf_link_count
  | nf_atime | nf_mtime | nf_ctime | nf_btime.
Inductive na_field :=
  | af_data_size | af_allocated_size | af_initialized_size | af_data_flags | af_non_resident.
Inductive time_field := tf_atime | tf_mtime | tf_btime.

(** [NTFS_MNT_RDONLY], [NTFS_MNT_RECOVER] *)
Inductive mnt_flags := MNT_RDONLY | MNT_RECOVER.

(** [NULL] / the unnamed stream, or a stream name. *)
Abbreviation stream := (option handle).

Inductive call : Type -> Type :=
  (* memory *)
  | c_alloc : call (option handle)
  | c_free (h : option handle) : call unit
  (* device and volume *)
  | c_device_alloc (priv : handle) : call (option handle)
  | c_device_free (d : handle) : call unit
  | c_device_mount (d : handle) (fl : mnt_flags) : call (option handle)
  | c_mount (path : string) (fl : mnt_flags) : call (option handle)
  | c_umount (v : handle) : call bool
  | c_errno : call errno_t
  | c_mkntfs (d : handle) : call (Z * bool)
  | c_vol (v : handle) (f : vol_field) : call Z
  | c_vol_name (v : handle) : call (option string)
  | c_volume_rename (v : handle) (ucs : handle) (len : Z) : call bool
  | c_write_flags (v : handle) (fl : Z) : call bool
  | c_device_sync (v : handle) : call bool
  (* names *)
  | c_mbstoucs (s : string) : call (Z * option handle)
  | c_ucstombs (name : list Z) : call (Z * option (handle * string))
  (* inodes *)
  | c_path (v : handle) (path : string) : call (option handle)
  | c_inode_open (v : handle) (mref : Z) : call (option handle)
  | c_inode_close (i : handle) : call bool
  | c_ni (i : handle) (f : ni_field) : call Z
  | c_set_time (i : handle) (f : time_field) (t : Z) : call unit
  | c_mark_dirty (i : handle) : call unit
  | c_update_times (i : handle) : call unit
  | c_lookup_by_name (dir : handle) (ucs : handle) (len : Z) : call Z
  | c_create (dir ucs : handle) (len : Z) (is_dir : bool) : call (option handle)
  | c_create_symlink (dir ucs : handle) (len : Z) (target : handle) (tlen : Z) : call (option handle)
  | c_link (i dir ucs : handle) (len : Z) : call bool
  | c_delete (v i dir ucs : handle) (len : Z) : call bool
  | c_readdir (dir : handle) : call (list rd_entry * bool)
  | c_make_symlink (i : handle) : call (option (handle * string))
  (* attributes *)
  | c_attr_open (i : handle) (name : stream) (len : Z) : call (option handle)
  | c_attr_close (a : handle) : call unit
  | c_na (a : handle) (f : na_field) : call Z
  | c_pread (a : handle) (off count : Z) : call (Z * list Z)
  | c_pwrite (a : handle) (off count : Z) (buf : list Z) : call Z
  | c_truncate (a : handle) (size : Z) : call bool
  | c_attr_add (i ucs : handle) (len : Z) (buf : list Z) (size : Z) : call bool
  | c_attr_rm (a : handle) : call bool
  | c_search_ctx (i : handle) : call (option (handle * list (list Z)))
  | c_put_ctx (c : handle) : call unit
  (* BitLocker *)
  | c_bfio_init (ctx : handle) : call (option handle)
  | c_bfio_free (b : handle) : call unit
  | c_bdevol_init : call (option handle)
  | c_bdevol_open (b bfio : handle) : call bool
  | c_bdevol_free (b : handle) : call unit
  | c_bde_password (b : handle) (recovery : bool) (cred : string) : call unit
  | c_bde_unlock (b : handle) : call bool
  | c_bde_is_locked (b : handle) : call Z
  | c_bde_size (b : handle) : call Z
  (* the front end *)
  | c_dirent_cb (e : nk_dirent) : call bool
  | c_name_cb (name : string) : call bool.

(** The boolean answers tell whether the call succeeded (returned 0, or 1 for libbde
    and libbfio), except for the callbacks, where [true] asks to stop, and
    [c_readdir]. *)

Inductive prog (A : Type) : Type :=
  | Ret (a : A)
  | Call {X : Type} (c : call X) (k : X -> prog A).
Arguments Ret {A} a.
Arguments Call {A X} c k.

Fixpoint bind {A B} (p : prog A) (k : A -> prog B) : prog B :=
  match p with
  | Ret a => k a
  | Call c f => Call c (fun x => bind (f x) k)
  end.

Declare Scope prog_scope.
Delimit Scope prog_scope with prog.
Notation "'call!' x := c 'in' k" := (Call c (fun x => k%prog))
  (at level 10, x pattern, c at level 99, k at level 200) : prog_scope.
Notation "'run!' c ; k" := (Call c (fun _ => k%prog))
  (at level 10, c at level 99, k at level 200) : prog_scope.
Notation "'let!' x := p 'in' k" := (bind p%prog (fun x => k%prog))
  (at level 10, x pattern, p at level 99, k at level 200) : prog_scope.
