(* ===== verification/Bridge.v ===== *)
(** * The operations of the bridge

    Models the operations of src/NTFSModule/bridge/ntfs_bridge.c other than KOIO:
    mounting and unmounting, statistics, listing, reading and writing, creating,
    deleting and renaming, times, symbolic links, the label, extended attributes,
    checking and formatting; and [nk_bde_open], [nk_bde_free] of
    src/NTFSModule/bridge/nk_bde.c.  Each is a program over the calls of [Calls].

    [ntfs2timespec] and [timespec2ntfs] are part of the calls that read and set
    times, which are in seconds. *)

From Stdlib Require Import String Ascii.
From S2P Require Import Prelude WriteMarks Calls.

Local Open Scope prog_scope.

(** Constants of libntfs-3g. *)
Record libconsts := mkConsts {
  MFT_RECORD_IS_DIRECTORY : Z;
  FILE_ATTR_REPARSE_POINT : Z;
  FILE_ATTR_SYSTEM : Z;
  ATTR_COMPRESSED_OR_ENCRYPTED : Z;
  INTX_SYMBOLIC_LINK : list Z;
  FILE_NAME_DOS : Z;
  FILE_first_user : Z;
  VOLUME_IS_DIRTY : Z
}.

(** [struct nk_bde], [struct nk_volume]: handles of what they point to.  The handle
    of the structure itself comes first. *)
Record nk_bde := mkBde {
  bde_self : handle;
  bde_bfio : option handle;
  bde_bctx : option handle;
  bde_vol : option handle;
  bde_dev : option handle
}.

Record nk_volume := mkNkVol {
  nv_self : handle;
  nv_vol : option handle;
  nv_devctx : option handle;
  nv_bde : option nk_bde;
  nv_wr_buf : option handle;
  nv_wr : list nk_wr
}.

Section Bridge.

Variable K : libconsts.

Definition has (flags mask : Z) : bool := negb (Z.land flags mask =? 0).

(** ** BitLocker *)

(** [goto fail] of [nk_bde_open]. *)
Definition bde_fail (b : nk_bde) : prog (option (nk_bde * handle)) :=
  let rest :=
    run! c_free (bde_bctx b);
    run! c_free (Some (bde_self b));
    Ret None in
  let rest := match bde_bfio b with Some h => run! c_bfio_free h; rest | None => rest end in
  match bde_vol b with Some h => run! c_bdevol_free h; rest | None => rest end.

Definition nk_bde_open (cred : string) (recovery : bool) : prog (option (nk_bde * handle)) :=
  call! b := c_alloc in
  call! bctx := c_alloc in
  match b, bctx with
  | Some b, Some bctx =>
      call! bfio := c_bfio_init bctx in
      match bfio with
      | None => run! c_free (Some bctx); run! c_free (Some b); Ret None
      | Some bfio =>
          call! vol := c_bdevol_init in
          match vol with
          | None => bde_fail (mkBde b (Some bfio) (Some bctx) None None)
          | Some vol =>
              let bde := mkBde b (Some bfio) (Some bctx) (Some vol) None in
              call! opened := c_bdevol_open vol bfio in
              if negb opened then bde_fail bde else
              run! c_bde_password vol recovery cred;
              call! unlocked := c_bde_unlock vol in
              if negb unlocked then bde_fail bde else
              call! locked := c_bde_is_locked vol in
              if negb (locked =? 0) then bde_fail bde else
              call! d := c_alloc in
              match d with
              | None => bde_fail bde
              | Some d =>
                  call! _ := c_bde_size vol in
                  call! dev := c_device_alloc d in
                  match dev with
                  | None => run! c_free (Some d); bde_fail bde
                  | Some dev => Ret (Some (mkBde b (Some bfio) (Some bctx) (Some vol) (Some d), dev))
                  end
              end
          end
      end
  | _, _ => run! c_free b; run! c_free bctx; Ret None
  end.

Definition nk_bde_free (b : nk_bde) : prog unit :=
  let rest :=
    run! c_free (bde_bctx b);
    run! c_free (bde_dev b);
    run! c_free (Some (bde_self b));
    Ret tt in
  let rest := match bde_bfio b with Some h => run! c_bfio_free h; rest | None => rest end in
  match bde_vol b with Some h => run! c_bdevol_free h; rest | None => rest end.

(** ** Mounting *)

Definition nk_mount_io (readonly : bool) : prog (option nk_volume) :=
  call! c := c_alloc in
  match c with
  | None => Ret None
  | Some c =>
      call! dev := c_device_alloc c in
      match dev with
      | None => run! c_free (Some c); Ret None
      | Some dev =>
          call! vol := c_device_mount dev (if readonly then MNT_RDONLY else MNT_RECOVER) in
          match vol with
          | None => run! c_device_free dev; run! c_free (Some c); Ret None
          | Some vol =>
              call! v := c_alloc in
              match v with
              | None => call! _ := c_umount vol in run! c_free (Some c); Ret None
              | Some v => Ret (Some (mkNkVol v (Some vol) (Some c) None None []))
              end
          end
      end
  end.

Definition nk_mount (path : string) (readonly : bool) : prog (option nk_volume) :=
  call! vol := c_mount path (if readonly then MNT_RDONLY else MNT_RECOVER) in
  match vol with
  | None => Ret None
  | Some vol =>
      call! v := c_alloc in
      match v with
      | None => call! _ := c_umount vol in Ret None
      | Some v => Ret (Some (mkNkVol v (Some vol) None None None []))
      end
  end.

Definition nk_umount (v : option nk_volume) : prog Z :=
  match v with
  | None => Ret (-1)
  | Some v =>
      let rest (r : Z) :=
        run! c_free (nv_devctx v);
        let! _ := match nv_bde v with Some b => nk_bde_free b | None => Ret tt end in
        run! c_free (nv_wr_buf v);
        run! c_free (Some (nv_self v));
        Ret r in
      match nv_vol v with
      | Some vol => call! ok := c_umount vol in rest (if ok then 0 else -1)
      | None => rest 0
      end
  end.

Definition nk_mount_bitlocker (cred : option string) (recovery : bool) : prog (option nk_volume) :=
  match cred with
  | None => Ret None
  | Some cred =>
      let! opened := nk_bde_open cred recovery in
      match opened with
      | None => Ret None
      | Some (bde, dev) =>
          call! vol := c_device_mount dev MNT_RDONLY in
          match vol with
          | None => run! c_device_free dev; let! _ := nk_bde_free bde in Ret None
          | Some vol =>
              call! v := c_alloc in
              match v with
              | None => call! _ := c_umount vol in let! _ := nk_bde_free bde in Ret None
              | Some v => Ret (Some (mkNkVol v (Some vol) None (Some bde) None []))
              end
          end
      end
  end.

(** ** On a mounted volume *)

(** [if (!v) return fail;], and [v->vol], which a mounted volume always has. *)
Definition on_volume {A} (v : option nk_volume) (fail : A) (k : nk_volume -> handle -> prog A) : prog A :=
  match v with
  | None => Ret fail
  | Some v => match nv_vol v with Some vol => k v vol | None => Ret fail end
  end.

(** [total_bytes], [free_bytes], [cluster_size] *)
Definition nk_statvfs (v : option nk_volume) : prog (Z * option (Z * Z * Z)) :=
  on_volume v (-1, None) (fun _ vol =>
    call! r := c_vol vol vf_free_space in
    if r <? 0 then Ret (-1, None) else
    call! nr := c_vol vol vf_nr_clusters in
    call! cs := c_vol vol vf_cluster_size in
    call! free := c_vol vol vf_free_clusters in
    Ret (0, Some (to_s 64 (nr * cs), to_s 64 (free * cs), to_s 32 cs))).

(** [snprintf(buf, buflen, "%s", s)] *)
Definition snprintf (buflen : Z) (s : string) : string := String.substring 0 (Z.to_nat (buflen - 1)) s.

Definition nk_label (v : option nk_volume) (buflen : Z) : prog (Z * string) :=
  on_volume v (-1, EmptyString) (fun _ vol =>
    if buflen =? 0 then Ret (-1, EmptyString) else
    call! name := c_vol_name vol in
    Ret (0, snprintf buflen (match name with Some n => n | None => EmptyString end))).

Definition is_intx_symlink (na : option handle) : prog bool :=
  match na with
  | None => Ret false
  | Some na =>
      call! size := c_na na af_data_size in
      if (size <? 10) || (4096 + 8 <? size) then Ret false else
      call! (n, magic) := c_pread na 0 8 in
      if negb (n =? 8) then Ret false else Ret (bool_decide (magic = INTX_SYMBOLIC_LINK K))
  end.

Record nk_stat := mkStat {
  st_is_dir : bool;
  st_size : Z;
  st_alloc_size : Z;
  st_inode : Z;
  st_atime : Z;
  st_mtime : Z;
  st_ctime : Z;
  st_btime : Z;
  st_is_symlink : bool;
  st_koio_ok : bool;
  st_is_resident : bool
}.

Definition fill_stat (ni : handle) (na : option handle) : prog nk_stat :=
  call! mflags := c_ni ni nf_mrec_flags in
  call! mft_no := c_ni ni nf_mft_no in
  call! flags := c_ni ni nf_flags in
  let is_reparse := has flags (FILE_ATTR_REPARSE_POINT K) in
  let! is_symlink :=
    if negb is_reparse && has flags (FILE_ATTR_SYSTEM K)
    then is_intx_symlink na
    else Ret is_reparse in
  let times (size alloc : Z) (resident koio : bool) : prog nk_stat :=
    call! at_ := c_ni ni nf_atime in
    call! mt := c_ni ni nf_mtime in
    call! ct := c_ni ni nf_ctime in
    call! bt := c_ni ni nf_btime in
    Ret (mkStat (has mflags (MFT_RECORD_IS_DIRECTORY K)) size alloc mft_no at_ mt ct bt is_symlink
           koio resident) in
  match na with
  | None => times 0 0 false false
  | Some na =>
      call! size := c_na na af_data_size in
      call! alloc := c_na na af_allocated_size in
      call! nonres := c_na na af_non_resident in
      call! dflags := c_na na af_data_flags in
      times size alloc (nonres =? 0)
        (negb (has dflags (ATTR_COMPRESSED_OR_ENCRYPTED K)) && negb is_symlink)
  end.

Definition nk_stat_path (v : option nk_volume) (path : string) : prog (Z * option nk_stat) :=
  on_volume v (-1, None) (fun v vol =>
    call! ni := c_path vol path in
    match ni with
    | None => Ret (-1, None)
    | Some ni =>
        call! mflags := c_ni ni nf_mrec_flags in
        let! na :=
          if has mflags (MFT_RECORD_IS_DIRECTORY K) then Ret None
          else call! na := c_attr_open ni None 0 in Ret na in
        let! st := fill_stat ni na in
        let! raw_ok :=
          match nv_bde v, na with
          | Some _, _ => Ret false
          | None, None => Ret true
          | None, Some na =>
              call! ro := c_vol vol vf_readonly in
              if ro =? 0 then Ret true else
              call! nonres := c_na na af_non_resident in
              if nonres =? 0 then Ret true else
              call! init := c_na na af_initialized_size in
              call! size := c_na na af_data_size in
              Ret (negb (init <? size))
          end in
        let st := mkStat (st_is_dir st) (st_size st) (st_alloc_size st) (st_inode st) (st_atime st)
                    (st_mtime st) (st_ctime st) (st_btime st) (st_is_symlink st)
                    (if raw_ok : bool then st_koio_ok st else false) (st_is_resident st) in
        let! _ := match na with Some na => run! c_attr_close na; Ret tt | None => Ret tt end in
        call! _ := c_inode_close ni in
        Ret (0, Some st)
    end).

(** The name is "." or "..". *)
Definition is_dot (s : string) : bool := String.eqb s "." || String.eqb s "..".

(** [nk_filldir] for one entry; the result is [lc->stop]. *)
Definition nk_filldir (vol : handle) (stop : bool) (e : rd_entry) : prog bool :=
  if stop then Ret true else
  if rd_type e =? FILE_NAME_DOS K then Ret false else
  if MREF (rd_mref e) <? FILE_first_user K then Ret false else
  call! (n, utf8) := c_ucstombs (rd_name e) in
  match utf8 with
  | None => Ret false
  | Some (h, utf8) =>
      if n <? 0 then Ret false else
      if is_dot utf8 then run! c_free (Some h); Ret false else
      let! size :=
        if rd_dir e then Ret 0 else
        call! ni := c_inode_open vol (rd_mref e) in
        match ni with
        | None => Ret 0
        | Some ni =>
            call! na := c_attr_open ni None 0 in
            match na with
            | None => call! _ := c_inode_close ni in Ret 0
            | Some na =>
                call! size := c_na na af_data_size in
                run! c_attr_close na;
                call! _ := c_inode_close ni in
                Ret size
            end
        end in
      call! stop := c_dirent_cb (mkDirent utf8 (rd_dir e) size (MREF (rd_mref e))) in
      run! c_free (Some h);
      Ret stop
  end.

(** The calls of [nk_filldir] by [ntfs_readdir], which always answers 0. *)
Fixpoint filldir_all (vol : handle) (stop : bool) (es : list rd_entry) : prog unit :=
  match es with
  | [] => Ret tt
  | e :: es => let! stop := nk_filldir vol stop e in filldir_all vol stop es
  end.

Definition nk_list (v : option nk_volume) (dir_path : string) : prog Z :=
  on_volume v (-1) (fun v vol =>
    call! dir := c_path vol dir_path in
    match dir with
    | None => Ret (-1)
    | Some dir =>
        call! (entries, ok) := c_readdir dir in
        let! _ := filldir_all vol false entries in
        call! _ := c_inode_close dir in
        Ret (if (ok : bool) then 0 else -1)
    end).

(** Open a stream of the file, apply [k], close it; [n] when it cannot be opened. *)
Definition nk_read (v : option nk_volume) (path : string) (offset count : Z) : prog (Z * list Z) :=
  on_volume v (-1, []) (fun v vol =>
    call! ni := c_path vol path in
    match ni with
    | None => Ret (-1, [])
    | Some ni =>
        call! na := c_attr_open ni None 0 in
        let! r :=
          match na with
          | None => Ret (-1, [])
          | Some na => call! r := c_pread na offset count in run! c_attr_close na; Ret r
          end in
        call! _ := c_inode_close ni in
        Ret r
    end).

Definition nk_write (v : option nk_volume) (path : string) (offset count : Z) (buf : list Z) : prog Z :=
  on_volume v (-1) (fun v vol =>
    call! ni := c_path vol path in
    match ni with
    | None => Ret (-1)
    | Some ni =>
        call! na := c_attr_open ni None 0 in
        let! n :=
          match na with
          | None => Ret (-1)
          | Some na => call! n := c_pwrite na offset count buf in run! c_attr_close na; Ret n
          end in
        run! c_update_times ni;
        call! ok := c_inode_close ni in
        Ret (if negb ok && (0 <=? n) then -1 else n)
    end).

(** ** Creating, deleting, renaming *)

(** NTFS names have 1 to 255 units. *)
Definition name_ok (len : Z) (ucs : option handle) : bool :=
  negb (len <=? 0) && negb (255 <? len) && bool_decide (is_Some ucs).

Definition create_node (v : option nk_volume) (dir_path name : string) (is_dir : bool) : prog Z :=
  on_volume v (-1) (fun v vol =>
    call! dir := c_path vol dir_path in
    match dir with
    | None => Ret (-1)
    | Some dir =>
        call! (len, ucs) := c_mbstoucs name in
        match name_ok len ucs, ucs with
        | true, Some u =>
            call! ni := c_create dir u len is_dir in
            run! c_free ucs;
            let! r :=
              match ni with
              | None => Ret (-1)
              | Some ni => call! ok := c_inode_close ni in Ret (if ok then 0 else -1)
              end in
            call! ok := c_inode_close dir in
            Ret (if ok : bool then r else -1)
        | _, _ => run! c_free ucs; call! _ := c_inode_close dir in Ret (-1)
        end
    end).

Definition nk_create (v : option nk_volume) (dir_path name : string) : prog Z :=
  create_node v dir_path name false.
Definition nk_mkdir (v : option nk_volume) (dir_path name : string) : prog Z :=
  create_node v dir_path name true.

(** What is before and after the last '/' ([strrchr]). *)
Fixpoint strrchr_slash (path : string) : option (string * string) :=
  match path with
  | EmptyString => None
  | String c rest =>
      match strrchr_slash rest with
      | Some (before, after) => Some (String c before, after)
      | None => if Ascii.eqb c "/" then Some (EmptyString, rest) else None
      end
  end.

(** The parent and the leaf; [plen_max] is the size of the buffer for the parent. *)
Definition split_path (path : string) (plen_max : Z) : option (string * string) :=
  match strrchr_slash path with
  | None => None
  | Some (before, leaf) =>
      let plen := Z.of_nat (String.length before) in
      if plen =? 0 then Some ("/"%string, leaf)
      else if plen_max <=? plen then None
      else Some (before, leaf)
  end.

(** The result is 0 / -1 and the table of write marks. *)
Definition nk_delete (v : option nk_volume) (path : string) : prog (Z * list nk_wr) :=
  on_volume v (-1, []) (fun v vol =>
    let wr := nv_wr v in
    let psize := Z.of_nat (String.length path) + 2 in
    call! parent := c_alloc in
    let split := match parent with Some _ => split_path path psize | None => None end in
    let! ni :=
      match split with
      | Some _ => call! ni := c_path vol path in Ret ni
      | None => Ret None
      end in
    let! dir :=
      match ni, split with
      | Some _, Some (parent_path, _) => call! dir := c_path vol parent_path in Ret dir
      | _, _ => Ret None
      end in
    run! c_free parent;
    match dir, ni, split with
    | Some dir, Some ni, Some (_, leaf) =>
        call! (len, ucs) := c_mbstoucs leaf in
        match name_ok len ucs, ucs with
        | true, Some u =>
            call! links := c_ni ni nf_link_count in
            let! mref := if links <=? 1 then (call! m := c_ni ni nf_mref in Ret m) else Ret 0 in
            call! ok := c_delete vol ni dir u len in
            run! c_free ucs;
            Ret (if ok then 0 else -1,
                 if ok && negb (mref =? 0) then wr_drop wr mref else wr)
        | _, _ =>
            run! c_free ucs;
            call! _ := c_inode_close dir in
            call! _ := c_inode_close ni in
            Ret (-1, wr)
        end
    | _, Some ni, _ => call! _ := c_inode_close ni in Ret (-1, wr)
    | _, None, _ => Ret (-1, wr)
    end).

(** [(u64)-1] *)
Definition no_mref : Z := 2 ^ 64 - 1.

(** The new link is rolled back by MFT reference. *)
Definition rename_rollback (vol u : handle) (len nref dref : Z) : prog unit :=
  call! nni := c_inode_open vol nref in
  call! ndir := c_inode_open vol dref in
  match nni, ndir with
  | Some nni, Some ndir => call! _ := c_delete vol nni ndir u len in Ret tt
  | Some i, None | None, Some i => call! _ := c_inode_close i in Ret tt
  | None, None => Ret tt
  end.

(** The new link, then the old name deleted. *)
Definition rename_link (v : nk_volume) (vol : handle) (old_path : string) (ni dir u : handle) (len : Z)
  : prog (Z * list nk_wr) :=
  call! nref := c_ni ni nf_mref in
  call! dref := c_ni dir nf_mref in
  call! linked := c_link ni dir u len in
  call! _ := c_inode_close dir in
  call! _ := c_inode_close ni in
  if negb linked then run! c_free (Some u); Ret (-1, nv_wr v) else
  let! (r, wr) := nk_delete (Some v) old_path in
  if r =? 0 then run! c_free (Some u); Ret (0, wr) else
  let! _ := rename_rollback vol u len nref dref in
  run! c_free (Some u);
  Ret (-1, wr).

Definition nk_rename (v : option nk_volume) (old_path new_dir new_name : string)
  : prog (Z * list nk_wr) :=
  on_volume v (-1, []) (fun v vol =>
    let wr := nv_wr v in
    call! ni := c_path vol old_path in
    match ni with
    | None => Ret (-1, wr)
    | Some ni =>
    call! dir := c_path vol new_dir in
    match dir with
    | None => call! _ := c_inode_close ni in Ret (-1, wr)
    | Some dir =>
    call! (len, ucs) := c_mbstoucs new_name in
    match name_ok len ucs, ucs with
    | true, Some u =>
        call! ex := c_lookup_by_name dir u len in
        call! mft_no := c_ni ni nf_mft_no in
        if negb (ex =? no_mref) && (MREF ex =? mft_no) then
          run! c_free ucs;
          call! _ := c_inode_close dir in
          call! _ := c_inode_close ni in
          Ret (0, wr)
        else rename_link v vol old_path ni dir u len
    | _, _ =>
        run! c_free ucs;
        call! _ := c_inode_close dir in
        call! _ := c_inode_close ni in
        Ret (-1, wr)
    end end end).

(** ** Syncing, times, symbolic links, the label *)

Definition nk_sync (v : option nk_volume) : prog Z :=
  on_volume v (-1) (fun _ vol => call! ok := c_device_sync vol in Ret (if ok then 0 else -1)).

(** [if (t >= 0) field = t] *)
Definition set_time (ni : handle) (f : time_field) (t : Z) (rest : prog Z) : prog Z :=
  if 0 <=? t then run! c_set_time ni f t; rest else rest.

Definition nk_set_times (v : option nk_volume) (path : string) (atime mtime btime : Z) : prog Z :=
  on_volume v (-1) (fun _ vol =>
    call! ni := c_path vol path in
    match ni with
    | None => Ret (-1)
    | Some ni =>
        set_time ni tf_atime atime (set_time ni tf_mtime mtime (set_time ni tf_btime btime (
          run! c_mark_dirty ni;
          call! ok := c_inode_close ni in
          Ret (if ok then 0 else -1))))
    end).

(** The bytes of a buffer as UTF-16 units. *)
Fixpoint utf16_units (bytes : list Z) : list Z :=
  match bytes with
  | lo :: hi :: bytes => lo + 256 * hi :: utf16_units bytes
  | _ => []
  end.

(** [if (strlen(s) < buflen) { strcpy(buf, s); r = 0; }] *)
Definition copy_out (s : string) (buflen : Z) : Z * option string :=
  if Z.of_nat (String.length s) <? buflen then (0, Some s) else (-1, None).

Definition nk_readlink (v : option nk_volume) (path : string) (buflen : Z) : prog (Z * option string) :=
  on_volume v (-1, None) (fun _ vol =>
    if buflen =? 0 then Ret (-1, None) else
    call! ni := c_path vol path in
    match ni with
    | None => Ret (-1, None)
    | Some ni =>
        call! flags := c_ni ni nf_flags in
        let! r :=
          if has flags (FILE_ATTR_REPARSE_POINT K) then
            call! target := c_make_symlink ni in
            match target with
            | None => Ret (-1, None)
            | Some (h, target) => run! c_free (Some h); Ret (copy_out target buflen)
            end
          else
            call! na := c_attr_open ni None 0 in
            let! intx := is_intx_symlink na in
            match na, intx with
            | Some na, true =>
                call! size := c_na na af_data_size in
                let tlen := size - 8 in
                call! ucs := c_alloc in
                let! r :=
                  match ucs with
                  | None => Ret (-1, None)
                  | Some _ =>
                      call! (n, bytes) := c_pread na 8 tlen in
                      if negb (n =? tlen) then Ret (-1, None) else
                      call! (m, utf8) := c_ucstombs (utf16_units bytes) in
                      match utf8 with
                      | None => Ret (-1, None)
                      | Some (h, s) =>
                          if m <? 0 then Ret (-1, None)
                          else run! c_free (Some h); Ret (copy_out s buflen)
                      end
                  end in
                run! c_free ucs;
                run! c_attr_close na;
                Ret r
            | Some na, false => run! c_attr_close na; Ret (-1, None)
            | None, _ => Ret (-1, None)
            end in
        call! _ := c_inode_close ni in
        Ret r
    end).

(** A positive length comes with a buffer. *)
Definition nk_create_symlink (v : option nk_volume) (dir_path name target : string) : prog Z :=
  on_volume v (-1) (fun _ vol =>
    call! dir := c_path vol dir_path in
    match dir with
    | None => Ret (-1)
    | Some dir =>
        call! (nlen, uname) := c_mbstoucs name in
        call! (tlen, utarget) := c_mbstoucs target in
        let! r :=
          match (0 <? nlen) && (nlen <=? 255) && (0 <? tlen), uname, utarget with
          | true, Some un, Some ut =>
              call! ni := c_create_symlink dir un nlen ut tlen in
              match ni with
              | None => Ret (-1)
              | Some ni => call! _ := c_inode_close ni in Ret 0
              end
          | _, _, _ => Ret (-1)
          end in
        run! c_free uname;
        run! c_free utarget;
        call! _ := c_inode_close dir in
        Ret r
    end).

Definition nk_is_dirty (v : option nk_volume) : prog Z :=
  on_volume v (-1) (fun _ vol =>
    call! fl := c_vol vol vf_flags in Ret (if has fl (VOLUME_IS_DIRTY K) then 1 else 0)).

Definition nk_set_label (v : option nk_volume) (label : string) : prog Z :=
  on_volume v (-1) (fun _ vol =>
    call! (len, ucs) := c_mbstoucs label in
    match ucs with
    | None => run! c_free ucs; Ret (-1)
    | Some u =>
        if (len <? 0) || (128 <? len) then run! c_free ucs; Ret (-1) else
        call! ok := c_volume_rename vol u len in
        run! c_free ucs;
        Ret (if ok then 0 else -1)
    end).

(** ** Extended attributes *)

(** [xattr_ucs]: the name as a stream name, and its length. *)
Definition xattr_ucs (name : string) : prog (option (handle * Z)) :=
  call! (len, ucs) := c_mbstoucs name in
  match name_ok len ucs, ucs with
  | true, Some u => Ret (Some (u, len))
  | _, _ => run! c_free ucs; Ret None
  end.

(** The loop over the $DATA attributes found by [ntfs_attr_lookup], given by their
    names. *)
Fixpoint xattr_names (attrs : list (list Z)) : prog unit :=
  match attrs with
  | [] => Ret tt
  | [] :: attrs => xattr_names attrs
  | name :: attrs =>
      call! (n, utf8) := c_ucstombs name in
      match utf8 with
      | None => xattr_names attrs
      | Some (h, s) =>
          if n <? 0 then xattr_names attrs else
          call! stop := c_name_cb s in
          run! c_free (Some h);
          if stop : bool then Ret tt else xattr_names attrs
      end
  end.

Definition nk_xattr_list (v : option nk_volume) (path : string) : prog Z :=
  on_volume v (-1) (fun _ vol =>
    call! ni := c_path vol path in
    match ni with
    | None => Ret (-1)
    | Some ni =>
        call! ctx := c_search_ctx ni in
        match ctx with
        | None => call! _ := c_inode_close ni in Ret (-1)
        | Some (ctx, attrs) =>
            let! _ := xattr_names attrs in
            run! c_put_ctx ctx;
            call! _ := c_inode_close ni in
            Ret 0
        end
    end).

(** The name converted, the file and the stream opened; [k] gets the inode and the
    stream. *)
Definition on_xattr {A} (v : option nk_volume) (path name : string) (fail : A)
    (k : handle -> handle -> Z -> option handle -> prog A) : prog A :=
  on_volume v fail (fun _ vol =>
    let! ucs := xattr_ucs name in
    match ucs with
    | None => Ret fail
    | Some (ucs, nlen) =>
        call! ni := c_path vol path in
        match ni with
        | None => run! c_free (Some ucs); Ret fail
        | Some ni => call! na := c_attr_open ni (Some ucs) nlen in k ni ucs nlen na
        end
    end).

(** [bufsize] is 0 also for a NULL buffer. *)
Definition nk_xattr_get (v : option nk_volume) (path name : string) (bufsize : Z)
  : prog (Z * list Z) :=
  on_xattr v path name (-1, []) (fun ni ucs nlen na =>
    let! r :=
      match na with
      | None => Ret (-1, [])
      | Some na =>
          call! size := c_na na af_data_size in
          let! r :=
            if bufsize =? 0 then Ret (size, [])
            else if bufsize <? size then Ret (-1, [])
            else call! r := c_pread na 0 size in Ret r in
          run! c_attr_close na;
          Ret r
      end in
    call! _ := c_inode_close ni in
    run! c_free (Some ucs);
    Ret r).

Definition nk_xattr_set (v : option nk_volume) (path name : string) (buf : list Z) (size : Z) : prog Z :=
  if size <? 0 then Ret (-1) else
  on_xattr v path name (-1) (fun ni ucs nlen na =>
    let! r :=
      match na with
      | Some na =>
          let! written :=
            if size =? 0 then Ret true
            else call! n := c_pwrite na 0 size buf in Ret (n =? size) in
          let! r :=
            if negb written then Ret (-1)
            else call! ok := c_truncate na size in Ret (if ok then 0 else -1) in
          run! c_attr_close na;
          Ret r
      | None => call! ok := c_attr_add ni ucs nlen buf size in Ret (if ok then 0 else -1)
      end in
    run! c_mark_dirty ni;
    call! ok := c_inode_close ni in
    run! c_free (Some ucs);
    Ret (if ok : bool then r else -1)).

Definition nk_xattr_remove (v : option nk_volume) (path name : string) : prog Z :=
  on_xattr v path name (-1) (fun ni ucs nlen na =>
    let! r :=
      match na with
      | None => Ret (-1)
      | Some na => call! ok := c_attr_rm na in run! c_attr_close na; Ret (if ok then 0 else -1)
      end in
    run! c_mark_dirty ni;
    call! ok := c_inode_close ni in
    run! c_free (Some ucs);
    Ret (if ok : bool then r else -1)).

(** ** Checking and formatting *)

Definition nk_fsck (repair : bool) : prog Z :=
  call! c := c_alloc in
  match c with
  | None => Ret (-1)
  | Some c =>
      call! dev := c_device_alloc c in
      match dev with
      | None => run! c_free (Some c); Ret (-1)
      | Some dev =>
          call! vol := c_device_mount dev (if repair then MNT_RECOVER else MNT_RDONLY) in
          match vol with
          | None =>
              call! e := c_errno in
              run! c_device_free dev;
              run! c_free (Some c);
              Ret (if bool_decide (e = EPERM) then -2 else -1)
          | Some vol =>
              call! fl := c_vol vol vf_flags in
              let dirty := has fl (VOLUME_IS_DIRTY K) in
              let! r :=
                if repair && dirty then
                  call! ok := c_write_flags vol (Z.ldiff fl (VOLUME_IS_DIRTY K)) in
                  Ret (if ok then 1 else -1)
                else Ret (if dirty then 1 else 0) in
              call! ok := c_umount vol in
              run! c_free (Some c);
              Ret (if negb ok && (0 <=? r) then -1 else r)
          end
      end
  end.

(** [c_mkntfs] is the run of [nk_mkntfs_main] on the device: its result, and
    [nk_mkntfs_dev_consumed], with which the device is freed by mkntfs. *)
Definition nk_format : prog Z :=
  call! c := c_alloc in
  match c with
  | None => Ret (-1)
  | Some c =>
      call! dev := c_device_alloc c in
      match dev with
      | None => run! c_free (Some c); Ret (-1)
      | Some dev =>
          call! (rc, consumed) := c_mkntfs dev in
          let rest := run! c_free (Some c); Ret (if rc =? 0 then 0 else -1) in
          if consumed : bool then rest else run! c_device_free dev; rest
      end
  end.

End Bridge.
