(* ===== verification/Ledger.v ===== *)
(** * The ledger: who owns what

    An account of the resources the bridge's programs hold: memory, devices,
    volumes, inodes, attributes, search contexts and BitLocker objects.  Running a
    program against the ledger is stuck as soon as a call gets a handle that is not
    open (use after free, double free), or closes something another open thing
    still needs.  What the calls answer is left to an arbitrary oracle: every
    failure of every call, in every combination.

    A handle names a resource while it is open.  A close that fails frees nothing:
    the resource is lost, that is, nobody has a name for it any more and nothing
    will free it, and the ledger remembers by which call it was lost. *)

From Stdlib Require Import String.
From S2P Require Import Prelude WriteMarks Calls Bridge.

Local Open Scope prog_scope.

Inductive kind := KMem | KDev | KVol | KInode | KAttr | KCtx | KBfio | KBdeVol.

#[global] Instance kind_eq_dec : EqDecision kind.
Proof. solve_decision. Defined.

(** An open resource, and the resources it needs. *)
Record entry := mkEntry { e_id : handle; e_kind : kind; e_needs : list handle }.

(** What is open, and what was lost, with the number of the call that lost it. *)
Record ledger := mkLedger { open : list entry; lost : list (nat * kind) }.

Definition is_open (l : list entry) (h : handle) (k : kind) : bool :=
  existsb (fun e => Nat.eqb (e_id e) h && bool_decide (e_kind e = k)) l.

Definition needed (l : list entry) (h : handle) : bool :=
  existsb (fun e => existsb (Nat.eqb h) (e_needs e)) l.

Definition fresh_id (l : list entry) : handle :=
  S (fold_right (fun e m => Nat.max (e_id e) m) O l).

Definition without (l : list entry) (h : handle) : list entry :=
  List.filter (fun e => negb (Nat.eqb (e_id e) h)) l.

Definition needs_of (l : list entry) (h : handle) : list handle :=
  match List.find (fun e => Nat.eqb (e_id e) h) l with Some e => e_needs e | None => [] end.

(** What an oracle may answer. *)
Record luck := mkLuck {
  l_ok : bool;
  l_ok2 : bool;
  l_num : Z;
  l_str : string;
  l_bytes : list Z;
  l_entries : list rd_entry;
  l_names : list (list Z);
  l_errno : errno_t
}.

(** A resource more, a resource less. *)
Definition adding (e : entry) (l : ledger) : ledger := mkLedger (e :: open l) (lost l).
Definition dropping (h : handle) (l : ledger) : ledger := mkLedger (without (open l) h) (lost l).
(** The name [h] is gone either way. *)
Definition losing (n : nat) (h : handle) (k : kind) (ok : bool) (l : ledger) : ledger :=
  mkLedger (without (open l) h) (if ok then lost l else (n, k) :: lost l).

(** The pieces of [step]: use, close and open a resource. *)
Definition use {X} (l : ledger) (h : handle) (k : kind) (x : X) : option (X * ledger) :=
  if is_open (open l) h k then Some (x, l) else None.
Definition use2 {X} (l : ledger) (h1 : handle) (k1 : kind) (h2 : handle) (k2 : kind) (x : X)
  : option (X * ledger) :=
  if is_open (open l) h1 k1 && is_open (open l) h2 k2 then Some (x, l) else None.
Definition free_to_close (l : ledger) (h : handle) (k : kind) : bool :=
  is_open (open l) h k && negb (needed (open l) h).
Definition close {X} (l : ledger) (h : handle) (k : kind) (x : X) : option (X * ledger) :=
  if free_to_close l h k then Some (x, dropping h l) else None.
(** A close that may fail, and then has not freed the resource. *)
Definition try_close (l : ledger) (n : nat) (h : handle) (k : kind) (ok : bool)
  : option (bool * ledger) :=
  if free_to_close l h k then Some (ok, losing n h k ok l) else None.
Definition fresh_open (l : ledger) (k : kind) (needs : list handle) (ok : bool)
  : option (option handle * ledger) :=
  let h := fresh_id (open l) in
  if ok then Some (Some h, adding (mkEntry h k needs) l) else Some (None, l).
(** Opened through [h]. *)
Definition open_via (l : ledger) (h : handle) (k : kind) (knew : kind) (ok : bool)
  : option (option handle * ledger) :=
  if is_open (open l) h k then fresh_open l knew [h] ok else None.
(** A string with its buffer. *)
Definition open_string {X} (l : ledger) (ok : bool) (x : option (handle * string) -> X) (s : string)
  : option (X * ledger) :=
  let h := fresh_id (open l) in
  if ok then Some (x (Some (h, s)), adding (mkEntry h KMem []) l) else Some (x None, l).

(** Call number [n].  [ntfs_device_mount] takes the device over on success;
    [ntfs_inode_close] and [ntfs_umount] have freed nothing when they fail (the
    library documents it); [ntfs_delete] closes both inodes, success or not (also
    documented); freeing NULL is allowed; a conversion that fails leaves no buffer,
    and one that succeeds with a positive length does. *)
Definition step {X} (c : call X) (n : nat) (a : luck) (l : ledger) : option (X * ledger) :=
  match c in call X return option (X * ledger) with
  | c_alloc => fresh_open l KMem [] (l_ok a)
  | c_free None => Some (tt, l)
  | c_free (Some h) => close l h KMem tt
  | c_device_alloc priv => open_via l priv KMem KDev (l_ok a)
  | c_device_free d => close l d KDev tt
  | c_device_mount d _ =>
      if free_to_close l d KDev then
        if l_ok a then fresh_open (dropping d l) KVol (needs_of (open l) d) true else Some (None, l)
      else None
  | c_mount _ _ => fresh_open l KVol [] (l_ok a)
  | c_umount v => try_close l n v KVol (l_ok a)
  | c_errno => Some (l_errno a, l)
  | c_mkntfs d =>
      if free_to_close l d KDev then
        if l_ok a then Some ((l_num a, true), dropping d l) else Some ((l_num a, false), l)
      else None
  | c_vol v _ => use l v KVol (l_num a)
  | c_vol_name v => use l v KVol (if l_ok a then Some (l_str a) else None)
  | c_volume_rename v ucs _ => use2 l v KVol ucs KMem (l_ok a)
  | c_write_flags v _ => use l v KVol (l_ok a)
  | c_device_sync v => use l v KVol (l_ok a)
  | c_mbstoucs _ =>
      let h := fresh_id (open l) in
      if l_ok a then Some ((l_num a, Some h), adding (mkEntry h KMem []) l)
      else Some ((if 0 <? l_num a then -1 else l_num a, None), l)
  | c_ucstombs _ =>
      open_string l (negb (l_num a <? 0) && l_ok a) (fun r => (l_num a, r)) (l_str a)
  | c_path v _ => open_via l v KVol KInode (l_ok a)
  | c_inode_open v _ => open_via l v KVol KInode (l_ok a)
  | c_inode_close i => try_close l n i KInode (l_ok a)
  | c_ni i _ => use l i KInode (l_num a)
  | c_set_time i _ _ => use l i KInode tt
  | c_mark_dirty i => use l i KInode tt
  | c_update_times i => use l i KInode tt
  | c_lookup_by_name dir ucs _ => use2 l dir KInode ucs KMem (l_num a)
  | c_create dir ucs _ _ =>
      if is_open (open l) ucs KMem then open_via l dir KInode KInode (l_ok a) else None
  | c_create_symlink dir ucs _ target _ =>
      if is_open (open l) ucs KMem && is_open (open l) target KMem
      then open_via l dir KInode KInode (l_ok a) else None
  | c_link i dir ucs _ =>
      if is_open (open l) ucs KMem then use2 l i KInode dir KInode (l_ok a) else None
  | c_delete v i dir ucs _ =>
      if is_open (open l) v KVol && is_open (open l) ucs KMem && negb (Nat.eqb i dir) then
        match close l i KInode tt with
        | Some (_, l) => close l dir KInode (l_ok a)
        | None => None
        end
      else None
  | c_readdir dir => use l dir KInode (l_entries a, l_ok a)
  | c_make_symlink i =>
      if is_open (open l) i KInode then open_string l (l_ok a) (fun r => r) (l_str a) else None
  | c_attr_open i None _ => open_via l i KInode KAttr (l_ok a)
  | c_attr_open i (Some ucs) _ =>
      if is_open (open l) ucs KMem then open_via l i KInode KAttr (l_ok a) else None
  | c_attr_close x => close l x KAttr tt
  | c_na x _ => use l x KAttr (l_num a)
  | c_pread x _ _ => use l x KAttr (l_num a, l_bytes a)
  | c_pwrite x _ _ _ => use l x KAttr (l_num a)
  | c_truncate x _ => use l x KAttr (l_ok a)
  | c_attr_add i ucs _ _ _ => use2 l i KInode ucs KMem (l_ok a)
  | c_attr_rm x => use l x KAttr (l_ok a)
  | c_search_ctx i =>
      if is_open (open l) i KInode then
        let h := fresh_id (open l) in
        if l_ok a then Some (Some (h, l_names a), adding (mkEntry h KCtx [i]) l)
        else Some (None, l)
      else None
  | c_put_ctx x => close l x KCtx tt
  | c_bfio_init ctx => open_via l ctx KMem KBfio (l_ok a)
  | c_bfio_free b => close l b KBfio tt
  | c_bdevol_init => fresh_open l KBdeVol [] (l_ok a)
  | c_bdevol_open b bfio =>
      if free_to_close l b KBdeVol && is_open (open l) bfio KBfio then
        Some (l_ok a, adding (mkEntry b KBdeVol [bfio]) (dropping b l))
      else None
  | c_bdevol_free b => close l b KBdeVol tt
  | c_bde_password b _ _ => use l b KBdeVol tt
  | c_bde_unlock b => use l b KBdeVol (l_ok a)
  | c_bde_is_locked b => use l b KBdeVol (l_num a)
  | c_bde_size b => use l b KBdeVol (l_num a)
  | c_dirent_cb _ => Some (l_ok a, l)
  | c_name_cb _ => Some (l_ok a, l)
  end.



(** A run: the result, the number of calls made so far, and the ledger; [None] when a
    call misuses a handle. *)
Fixpoint exec {A} (p : prog A) (D : nat -> luck) (n : nat) (l : ledger) : option (A * nat * ledger) :=
  match p with
  | Ret a => Some (a, n, l)
  | Call c k =>
      match step c n (D n) l with
      | Some (x, l) => exec (k x) D (S n) l
      | None => None
      end
  end.



(** The run is not stuck, and its result and final ledger satisfy [Q]. *)
Definition runs {A} (p : prog A) (D : nat -> luck) (n : nat) (l : ledger) (Q : A -> ledger -> Prop)
  : Prop :=
  match exec p D n l with
  | Some (r, _, l') => Q r l'
  | None => False
  end.


Lemma runs_weaken {A} (p : prog A) D n l (P Q : A -> ledger -> Prop) :
  runs p D n l P -> (forall a l', P a l' -> Q a l') -> runs p D n l Q.
Proof. unfold runs. destruct (exec p D n l) as [[[a n'] l']|]; eauto. Qed.



(** ** Symbolic execution

    A run on a concrete ledger: the next call is evaluated, up to the oracle's
    answer, and the tests are split. *)






(** ** Mounted volumes *)








Section Ops.

Variables (K : libconsts) (D : nat -> luck).












End Ops.

(** ** Sessions *)








