(* ===== verification/Names.v ===== *)
(** * The namespace: listing, renaming, splitting paths

    The programs of [Bridge] run against an engine, of which only what the calls do
    to the namespace is assumed: the entries (directory, name) of the volume, 8.3
    aliases included, which calls change them and how, and what conversions and the
    callback do.  A call that fails may have done part of its work. *)

From Stdlib Require Import String Ascii.
From stdpp Require Import strings.
From S2P Require Import Prelude WriteMarks Calls Bridge.

Local Open Scope prog_scope.
Local Open Scope Z_scope.

(** An engine: a state, and what each call answers and does. *)
Class NameLib (S : Type) := lib : forall X, call X -> S -> X * S.
Arguments lib {S _ X} c s.

Fixpoint run_prog {S A} `{NameLib S} (p : prog A) (s : S) : A * S :=
  match p with
  | Ret a => (a, s)
  | Call c k => let '(x, s) := lib c s in run_prog (k x) s
  end.

(** Calls that may change the namespace. *)
Definition changes_names {X} (c : call X) : bool :=
  match c with
  | c_create _ _ _ _ | c_create_symlink _ _ _ _ _ | c_link _ _ _ _ | c_delete _ _ _ _ _ => true
  | _ => false
  end.

Definition reports {X} (c : call X) : bool :=
  match c with c_dirent_cb _ => true | _ => false end.

(** A place in a directory: MFT reference of the directory, and name. *)
Abbreviation slot := (Z * list Z)%type.

(** The entries of the directories, and the names stored as a pair, each with the
    other: the long name of a file and its 8.3 alias. *)
Record namespace := mkSpace { entries : gmap slot Z; aliases : gmap slot slot }.

(** The entry of [k], with its alias. *)
Definition names_of (n : namespace) (k : slot) : list slot := k :: option_list (aliases n !! k).

Definition drop_all (ks : list slot) (e : gmap slot Z) : gmap slot Z := foldr delete e ks.


Class NameLaws (S : Type) `{NameLib S} := {
  space : S -> namespace;
  (** The entries reported to the front end so far. *)
  log : S -> list nk_dirent;
  (** What a handle of an inode, of a name, stands for. *)
  node : handle -> Z;
  units : handle -> list Z;
  (** The lookup of a path; names in UTF-8 to and from UTF-16. *)
  resolve : gmap slot Z -> string -> option Z;
  to_utf16 : string -> option (list Z);
  to_utf8 : list Z -> option string;
  stops : nk_dirent -> bool;

  law_quiet : forall X (c : call X) s, changes_names c = false -> space (snd (lib c s)) = space s;
  law_log : forall X (c : call X) s, reports c = false -> log (snd (lib c s)) = log s;
  law_report : forall e s, fst (lib (c_dirent_cb e) s) = stops e /\
    log (snd (lib (c_dirent_cb e) s)) = (log s ++ [e])%list;
  law_path : forall v p s h, fst (lib (c_path v p) s) = Some h ->
    resolve (entries (space s)) p = Some (node h);
  (** a path is walked from directory to directory: its last component is an entry
      of what the rest names, and more entries do not change where it leads *)
  law_walk : forall e path n parent leaf i,
    split_path path n = Some (parent, leaf) -> leaf <> ""%string -> resolve e path = Some i ->
    exists d u m, resolve e parent = Some d /\ to_utf16 leaf = Some u /\
      e !! (d, u) = Some m /\ MREF m = MREF i;
  law_more : forall e e' path i, e ⊆ e' -> resolve e path = Some i -> resolve e' path = Some i;
  law_mbs : forall str s len u, fst (lib (c_mbstoucs str) s) = (len, Some u) ->
    to_utf16 str = Some (units u) /\ (str = ""%string -> len <= 0);
  law_ucs : forall name s n h, fst (lib (c_ucstombs name) s) = (n, h) ->
    (if n <? 0 then None else snd <$> h) = to_utf8 name;
  law_lookup : forall d u len s, fst (lib (c_lookup_by_name d u len) s) <> no_mref ->
    exists m, entries (space s) !! (node d, units u) = Some m /\
      MREF (fst (lib (c_lookup_by_name d u len) s)) = MREF m;
  law_node : forall h, 0 <= node h;
  law_mref : forall i s, fst (lib (c_ni i nf_mref) s) = node i;
  law_mft_no : forall i s, fst (lib (c_ni i nf_mft_no) s) = MREF (node i);
  law_open : forall v m s h, fst (lib (c_inode_open v m) s) = Some h -> node h = m;
  (** an alias is another entry of the same file *)
  law_alias : forall s k k', aliases (space s) !! k = Some k' ->
    exists m, entries (space s) !! k = Some m /\ entries (space s) !! k' = Some m;
  (** a new link has no alias; a link that fails may have left the entry *)
  law_link : forall i d u len s,
    let k := (node d, units u) in
    let s' := snd (lib (c_link i d u len) s) in
    let linked := entries (space s) !! k = None /\
      entries (space s') = <[k := node i]> (entries (space s)) in
    if fst (lib (c_link i d u len) s)
    then linked /\ aliases (space s') !! k = None /\
         (forall k', k' <> k -> aliases (space s') !! k' = aliases (space s) !! k')
    else entries (space s') = entries (space s) \/ linked;
  (** an entry is deleted with its alias; a delete that fails may have removed the one
      or the other, or both *)
  law_delete : forall v i d u len s,
    let k := (node d, units u) in
    let s' := snd (lib (c_delete v i d u len) s) in
    (if fst (lib (c_delete v i d u len) s)
     then entries (space s') = drop_all (names_of (space s) k) (entries (space s))
     else exists ks, ks ⊆ names_of (space s) k /\
            entries (space s') = drop_all ks (entries (space s))) /\
    (forall k', aliases (space s') !! k' = aliases (space s) !! k' \/ aliases (space s') !! k' = None)
}.

(** The directory entries of a state. *)
Definition ents {S} `{NameLaws S} (s : S) : gmap slot Z := entries (space s).

Section Names.

Context {S : Type} `{NameLaws S}.
Variable K : libconsts.

Lemma run_bind {A B} (p : prog A) (k : A -> prog B) (s : S) :
  run_prog (bind p k) s = run_prog (k (fst (run_prog p s))) (snd (run_prog p s)).
Proof.
  revert s; induction p as [a|X c f IH]; intros s; simpl; [done|].
  destruct (lib c s) as [x s']. apply IH.
Qed.

(** ** Splitting paths *)

Definition no_slash (str : string) : Prop := strrchr_slash str = None.

Lemma strrchr_slash_spec path before leaf :
  strrchr_slash path = Some (before, leaf) ->
  path = (before +:+ "/" +:+ leaf)%string /\ no_slash leaf.
Proof.
  revert before; induction path as [|c path IH]; intros before; simpl; [done|].
  destruct (strrchr_slash path) as [[b l]|] eqn:E.
  - intros [= <- <-]. destruct (IH b eq_refl) as [-> Hl]. split; [done|exact Hl].
  - destruct (Ascii.eqb_spec c "/") as [->|]; [|done]. intros [= <- <-]. by split.
Qed.

Lemma length_string_app a b : String.length (a +:+ b) = (String.length a + String.length b)%nat.
Proof. induction a as [|c a IH]; simpl; [done|]. by rewrite IH. Qed.

Lemma split_path_spec path plen_max parent leaf :
  split_path path plen_max = Some (parent, leaf) ->
  no_slash leaf /\
  (parent = "/"%string /\ path = ("/" +:+ leaf)%string \/
   path = (parent +:+ "/" +:+ leaf)%string /\ 0 < Z.of_nat (String.length parent) < plen_max).
Proof.
  unfold split_path. destruct (strrchr_slash path) as [[b l]|] eqn:E; [|done].
  apply strrchr_slash_spec in E as [-> Hl].
  destruct (Z.eqb_spec (Z.of_nat (String.length b)) 0) as [Hz|Hz].
  - intros [= <- <-]. split; [done|]. left. split; [done|]. by destruct b.
  - destruct (Z.leb_spec plen_max (Z.of_nat (String.length b))); [done|].
    intros [= <- <-]. split; [done|]. right. split; [done|lia].
Qed.

(** ** Renaming *)







Lemma split_path_unique path n1 n2 x y :
  split_path path n1 = Some x -> split_path path n2 = Some y -> x = y.
Proof.
  unfold split_path. destruct (strrchr_slash path) as [[b l]|]; [|done].
  repeat case_match; congruence.
Qed.




















(** ** Listing *)

(** What the front end is to see of an entry: the 8.3 aliases, the system files, the
    names with no UTF-8 form, "." and ".." are left out. *)
Definition visible (e : rd_entry) : option (string * bool * Z) :=
  if rd_type e =? FILE_NAME_DOS K then None
  else if MREF (rd_mref e) <? FILE_first_user K then None
  else match to_utf8 (rd_name e) with
       | Some str => if is_dot str then None else Some (str, rd_dir e, MREF (rd_mref e))
       | None => None
       end.

Definition key (d : nk_dirent) : string * bool * Z := (de_name d, de_is_dir d, de_inode d).

(** Programs that report nothing. *)
Fixpoint silent {A} (p : prog A) : Prop :=
  match p with
  | Ret _ => True
  | Call c k => reports c = false /\ forall x, silent (k x)
  end.

Lemma silent_log {A} (p : prog A) s : silent p -> log (snd (run_prog p s)) = log s.
Proof.
  revert s; induction p as [a|X c k IH]; intros s; simpl; [done|]. intros [Hc Hk].
  pose proof (law_log _ c s Hc) as Hl. destruct (lib c s) as [x s']. simpl in *. by rewrite IH.
Qed.

(** One step of a program that reports nothing. *)
Ltac silently :=
  match goal with
  | |- context [run_prog (Call ?c ?k) ?s] =>
      let Hl := fresh "Hl" in
      pose proof (law_log _ c s eq_refl) as Hl; cbn [run_prog];
      let x := fresh "x" in let s' := fresh "s" in
      destruct (lib c s) as [x s'] eqn:?; cbn [fst snd] in *
  end.

Lemma nk_filldir_reports vol (stop : bool) e s :
  if stop then run_prog (nk_filldir K vol stop e) s = (true, s)
  else match visible e with
       | None => fst (run_prog (nk_filldir K vol stop e) s) = false /\
                 log (snd (run_prog (nk_filldir K vol stop e) s)) = log s
       | Some v => exists d, key d = v /\ fst (run_prog (nk_filldir K vol stop e) s) = stops d /\
                 log (snd (run_prog (nk_filldir K vol stop e) s)) = (log s ++ [d])%list
       end.
Proof.
  unfold nk_filldir, visible. destruct stop; [done|].
  destruct (rd_type e =? FILE_NAME_DOS K); [done|].
  destruct (MREF (rd_mref e) <? FILE_first_user K); [done|].
  silently. destruct x as [n utf8].
  pose proof (law_ucs (rd_name e) s n utf8) as Hucs. rewrite Heqp in Hucs. specialize (Hucs eq_refl).
  rewrite <- Hucs. destruct utf8 as [[h str]|]; simpl in Hucs |- *; [|by destruct (n <? 0)].
  destruct (n <? 0); [done|]. simpl.
  destruct (is_dot str); [silently; split; [done|congruence]|].
  rewrite run_bind.
  match goal with |- context [run_prog ?p s0] => set (sz := run_prog p s0); assert (log (snd sz) = log s0) as Hsz end.
  { apply silent_log. destruct (rd_dir e); simpl; [done|].
    split; [done|]. intros [ni|]; simpl; [|done]. split; [done|].
    intros [na|]; simpl; repeat (split; [done|intros ?]); done. }
  destruct sz as [size s3]. simpl in Hsz |- *.
  set (d := mkDirent str (rd_dir e) size (MREF (rd_mref e))).
  pose proof (law_report d s3) as [Hst Hlog].
  destruct (lib (c_dirent_cb d) s3) as [st s4]. simpl in *.
  pose proof (law_log _ (c_free (Some h)) s4 eq_refl) as Hfree.
  destruct (lib (c_free (Some h)) s4) as [y s5]. simpl in *.
  exists d. split_and!; [done|done|]. rewrite Hfree, Hlog. by rewrite Hsz, Hl.
Qed.

(** The entries are reported in order, up to the first refusal of the callback. *)
Lemma filldir_all_reports vol (stop : bool) es s :
  exists ds, log (snd (run_prog (filldir_all K vol stop es) s)) = (log s ++ ds)%list /\
    if stop then ds = []
    else (key <$> ds) `prefix_of` omap visible es /\
      Forall (fun d => stops d = false) (removelast ds) /\
      (Forall (fun d => stops d = false) ds -> key <$> ds = omap visible es).
Proof.
  revert stop s; induction es as [|e es IH]; intros stop s.
  { exists []. simpl. rewrite app_nil_r. split; [done|]. destruct stop; [done|]. by split_and!. }
  cbn [filldir_all]. rewrite run_bind.
  pose proof (nk_filldir_reports vol stop e s) as Hf.
  destruct stop.
  { rewrite Hf. simpl. exact (IH true s). }
  cbn [omap list_omap]. destruct (visible e) as [v|].
  - destruct Hf as (d & Hk & Hst & Hlog). rewrite Hst.
    destruct (IH (stops d) (snd (run_prog (nk_filldir K vol false e) s))) as (ds & Hds & Hprop).
    exists (d :: ds). rewrite Hds, Hlog, <- app_assoc. split; [done|].
    destruct (stops d) eqn:Ed.
    + subst ds. simpl. rewrite Hk. split_and!; [by apply prefix_cons, prefix_nil|constructor|].
      intros Hall. apply Forall_cons_1 in Hall as [Hd _]. congruence.
    + destruct Hprop as (Hp & Hall & Hfull). simpl. rewrite Hk. split_and!.
      * by apply prefix_cons.
      * destruct ds; [constructor|]. by constructor.
      * intros Hds'. apply Forall_cons_1 in Hds' as [_ Hds']. f_equal. by apply Hfull.
  - destruct Hf as [Hst Hlog]. rewrite Hst.
    destruct (IH false (snd (run_prog (nk_filldir K vol false e) s))) as (ds & Hds & Hprop).
    exists ds. by rewrite Hds, Hlog.
Qed.

Lemma nk_list_reports v path s :
  (fst (run_prog (nk_list K (Some v) path) s) = -1 /\
   log (snd (run_prog (nk_list K (Some v) path) s)) = log s) \/
  exists dir s0 es ok ds, resolve (ents s) path = Some (node dir) /\
    fst (lib (c_readdir dir) s0) = (es, ok) /\ ents s0 = ents s /\
    fst (run_prog (nk_list K (Some v) path) s) = (if ok then 0 else -1) /\
    log (snd (run_prog (nk_list K (Some v) path) s)) = (log s ++ ds)%list /\
    (key <$> ds) `prefix_of` omap visible es /\
    Forall (fun d => stops d = false) (removelast ds) /\
    (Forall (fun d => stops d = false) ds -> key <$> ds = omap visible es).
Proof.
  unfold nk_list, on_volume, ents. destruct (nv_vol v) as [vol|]; [|by left].
  pose proof (law_quiet _ (c_path vol path) s eq_refl) as Hq.
  pose proof (law_path vol path s) as Hres.
  silently. destruct x as [dir|]; [|by left]. right. cbn [fst snd] in *.
  exists dir, s0. silently. destruct x as [es ok]. rewrite run_bind.
  destruct (filldir_all_reports vol false es s1) as (ds & Hds & Hp & Hall & Hfull).
  destruct (run_prog (filldir_all K vol false es) s1) as [[] s2]. cbn [fst snd] in *.
  exists es, ok, ds. silently. simpl. split_and!; try done; try congruence.
  by apply Hres.
Qed.

End Names.

(** ** A small engine *)

Definition codes (str : string) : list Z :=
  (fun c => Z.of_nat (nat_of_ascii c)) <$> String.list_ascii_of_string str.

Definition of_codes (us : list Z) : string :=
  String.string_of_list_ascii ((fun u => ascii_of_nat (Z.to_nat u)) <$> us).

Record small := mkSmall { sm_ents : gmap slot Z; sm_log : list nk_dirent }.

(** A name that cannot be deleted. *)
Definition small_locked : list Z := codes "b".

(** "/" is the directory 5; the other paths that resolve are names in it. *)
Definition small_resolve (e : gmap slot Z) (path : string) : option Z :=
  match strrchr_slash path with
  | Some (EmptyString, EmptyString) => Some 5
  | Some (EmptyString, leaf) => e !! (5, codes leaf)
  | _ => None
  end.

Definition small_units (h : handle) : list Z := default [] (decode_nat h).
Definition small_open (m : option Z) : option handle :=
  match m with Some m => if 0 <=? m then Some (Z.to_nat m) else None | None => None end.

Definition small_lib (X : Type) (c : call X) (s : small) : X * small :=
  match c in call X return X * small with
  | c_alloc => (Some O, s)
  | c_free _ => (tt, s)
  | c_device_alloc _ => (Some O, s)
  | c_device_free _ => (tt, s)
  | c_device_mount _ _ => (Some O, s)
  | c_mount _ _ => (Some O, s)
  | c_umount _ => (true, s)
  | c_errno => (EIO, s)
  | c_mkntfs _ => ((0, true), s)
  | c_vol _ _ => (0, s)
  | c_vol_name _ => (None, s)
  | c_volume_rename _ _ _ => (true, s)
  | c_write_flags _ _ => (true, s)
  | c_device_sync _ => (true, s)
  | c_mbstoucs str => ((Z.of_nat (String.length str), Some (encode_nat (codes str))), s)
  | c_ucstombs name => ((0, Some (O, of_codes name)), s)
  | c_path _ path => (small_open (small_resolve (sm_ents s) path), s)
  | c_inode_open _ m => (small_open (Some m), s)
  | c_inode_close _ => (true, s)
  | c_ni i nf_mref => (Z.of_nat i, s)
  | c_ni i nf_mft_no => (MREF (Z.of_nat i), s)
  | c_ni _ _ => (0, s)
  | c_set_time _ _ _ => (tt, s)
  | c_mark_dirty _ => (tt, s)
  | c_update_times _ => (tt, s)
  | c_lookup_by_name d u _ => (default no_mref (sm_ents s !! (Z.of_nat d, small_units u)), s)
  | c_create _ _ _ _ => (None, s)
  | c_create_symlink _ _ _ _ _ => (None, s)
  | c_link i d u _ =>
      let k := (Z.of_nat d, small_units u) in
      match sm_ents s !! k with
      | None => (true, mkSmall (<[k := Z.of_nat i]> (sm_ents s)) (sm_log s))
      | Some _ => (false, s)
      end
  | c_delete _ i d u _ =>
      if bool_decide (small_units u = small_locked) then (false, s)
      else (true, mkSmall (delete (Z.of_nat d, small_units u) (sm_ents s)) (sm_log s))
  | c_readdir d =>
      (((fun '((p, n), m) => mkRd n 1 m false) <$>
          List.filter (fun '((p, n), m) => p =? Z.of_nat d) (map_to_list (sm_ents s)), true), s)
  | c_make_symlink _ => (None, s)
  | c_attr_open _ _ _ => (None, s)
  | c_attr_close _ => (tt, s)
  | c_na _ _ => (0, s)
  | c_pread _ _ _ => ((-1, []), s)
  | c_pwrite _ _ _ _ => (-1, s)
  | c_truncate _ _ => (false, s)
  | c_attr_add _ _ _ _ _ => (false, s)
  | c_attr_rm _ => (false, s)
  | c_search_ctx _ => (None, s)
  | c_put_ctx _ => (tt, s)
  | c_bfio_init _ => (None, s)
  | c_bfio_free _ => (tt, s)
  | c_bdevol_init => (None, s)
  | c_bdevol_open _ _ => (false, s)
  | c_bdevol_free _ => (tt, s)
  | c_bde_password _ _ _ => (tt, s)
  | c_bde_unlock _ => (false, s)
  | c_bde_is_locked _ => (0, s)
  | c_bde_size _ => (0, s)
  | c_dirent_cb e => (false, mkSmall (sm_ents s) (sm_log s ++ [e])%list)
  | c_name_cb _ => (false, s)
  end.

#[global] Instance small_name_lib : NameLib small := small_lib.

Lemma small_open_node m h : small_open m = Some h -> m = Some (Z.of_nat h).
Proof.
  destruct m as [m|]; simpl; [|done]. destruct (Z.leb_spec 0 m); [|done].
  intros [= <-]. by rewrite Z2Nat.id.
Qed.

Lemma small_walk e path n parent leaf i :
  split_path path n = Some (parent, leaf) -> leaf <> ""%string -> small_resolve e path = Some i ->
  exists d u m, small_resolve e parent = Some d /\ Some (codes leaf) = Some u /\
    e !! (d, u) = Some m /\ MREF m = MREF i.
Proof.
  unfold split_path, small_resolve. destruct (strrchr_slash path) as [[b l]|]; [|done].
  destruct b as [|c b]; simpl.
  - intros [= <- <-] Hl Hi. exists 5, (codes l), i. split; [done|]. split; [done|].
    destruct l; [done|]. by split.
  - destruct (n <=? _); [done|]. by intros [= <- <-] _ ?.
Qed.

#[global, refine] Instance small_laws : NameLaws small := {
  space := fun s => mkSpace (sm_ents s) ∅; log := sm_log; node := Z.of_nat; units := small_units;
  resolve := small_resolve; to_utf16 := fun str => Some (codes str);
  to_utf8 := fun us => Some (of_codes us); stops := fun _ => false
}.
Proof.
  - intros X c s Hc. destruct c; try done. by destruct f.
  - intros X c s Hc. destruct c; try done; [by destruct f| |].
    + unfold lib, small_name_lib. cbn [small_lib]. by destruct (sm_ents s !! _).
    + unfold lib, small_name_lib. cbn [small_lib]. by destruct (bool_decide _).
  - by intros e s.
  - intros v p s h Hh. by apply small_open_node in Hh.
  - apply small_walk.
  - intros e e' path i Hsub. unfold small_resolve.
    destruct (strrchr_slash path) as [[[|c b] [|c' l]]|]; try done.
    intros Hi. by eapply lookup_weaken.
  - intros str s len u [= <- <-]. unfold small_units. rewrite decode_encode_nat. split; [done|by intros ->].
  - by intros name s n h [= <- <-].
  - intros d u len s. unfold lib, small_name_lib. cbn [small_lib fst entries].
    destruct (sm_ents s !! _) as [m|]; simpl; [|done]. eauto.
  - intros h. lia.
  - done.
  - done.
  - intros v m s h Hh. apply (small_open_node (Some m)) in Hh. congruence.
  - intros s k k'. simpl. by rewrite lookup_empty.
  - intros i d u len s k s'. unfold s', k, lib, small_name_lib. cbn [small_lib fst entries].
    destruct (sm_ents s !! _) eqn:E; cbn [fst snd entries aliases sm_ents]; [by left|].
    split; [done|]. by split.
  - intros v i d u len s k s'. unfold s', k, lib, small_name_lib. cbn [small_lib fst entries].
    destruct (bool_decide _); cbn [fst snd entries aliases sm_ents]; (split; [|by left]).
    + exists []. split; [apply list_subseteq_nil|done].
    + unfold names_of. cbn [aliases]. by rewrite lookup_empty.
Defined.


(** A disk with the files "a" and "b", of which "b" cannot be deleted. *)
Definition small_disk : small :=
  mkSmall (list_to_map [((5, codes "a"), 30); ((5, codes "b"), 31)]) [].
Definition small_vol : nk_volume := mkNkVol 1 (Some O) None None None [].



(** [C21] [nk_list] reports what is to be seen.  Either the directory cannot be opened
    and nothing is reported, or the front end gets, in the order of the directory,
    the entries that are no 8.3 alias and no system file, whose names convert to
    UTF-8 and are not "." or "..", each with its converted name, kind and MFT
    record number; all of them, or up to and including the first at which the
    callback asks to stop. *)
Theorem nk_list_visible (S : Type) `{NameLaws S} K v path (s : S) :
  let out := run_prog (nk_list K (Some v) path) s in
  (fst out = -1 /\ log (snd out) = log s) \/
  exists dir s0 es ok ds, resolve (ents s) path = Some (node dir) /\
    fst (lib (c_readdir dir) s0) = (es, ok) /\ ents s0 = ents s /\
    fst out = (if ok then 0 else -1) /\ log (snd out) = (log s ++ ds)%list /\
    (key <$> ds) `prefix_of` omap (visible K) es /\
    Forall (fun d => stops d = false) (removelast ds) /\
    (Forall (fun d => stops d = false) ds -> key <$> ds = omap (visible K) es).
Proof. apply nk_list_reports. Qed.

Definition small_consts : libconsts := mkConsts 2 1024 4 16385 [73; 110; 116; 120; 76; 78; 75; 1] 2 16 1.

Lemma nk_list_visible_witness :
  let out := run_prog (nk_list small_consts (Some small_vol) "/") small_disk in
  fst out = 0 /\ de_name <$> log (snd out) = ["b"%string; "a"%string] /\
  ((fst out = -1 /\ log (snd out) = log small_disk) \/
   exists dir s0 es ok ds, resolve (ents small_disk) "/" = Some (node dir) /\
     fst (lib (c_readdir dir) s0) = (es, ok) /\ ents s0 = ents small_disk /\
     fst out = (if ok then 0 else -1) /\ log (snd out) = (log small_disk ++ ds)%list /\
     (key <$> ds) `prefix_of` omap (visible small_consts) es /\
     Forall (fun d => stops d = false) (removelast ds) /\
     (Forall (fun d => stops d = false) ds -> key <$> ds = omap (visible small_consts) es)).
Proof.
  split; [vm_compute; reflexivity|]. split; [vm_compute; reflexivity|].
  exact (nk_list_visible small small_consts small_vol "/" small_disk).
Defined.

Lemma strrchr_slash_None path : strrchr_slash path = None ->
  forall a b, path <> (a +:+ "/" +:+ b)%string.
Proof.
  induction path as [|c path IH]; intros Hp a b E; [by destruct a|]. simpl in Hp.
  destruct (strrchr_slash path) as [[x y]|] eqn:Es; [done|].
  destruct (Ascii.eqb_spec c "/") as [|Hc]; [done|].
  destruct a as [|c' a]; simpl in E; injection E as -> E; [done|]. by apply (IH eq_refl a b).
Qed.

(** Splitting a path loses nothing.  With the buffer [nk_delete] allocates,
    [split_path] fails exactly on paths without '/'; otherwise the leaf has no '/',
    and the parent, the separator and the leaf make up the path again, the parent
    being "/" for a file at the top; the parent and its end fit the buffer. *)
Theorem split_path_roundtrip path :
  let size := Z.of_nat (String.length path) + 2 in
  match split_path path size with
  | None => forall a b, path <> (a +:+ "/" +:+ b)%string
  | Some (parent, leaf) =>
      (forall a b, leaf <> (a +:+ "/" +:+ b)%string) /\
      (parent = "/"%string /\ path = ("/" +:+ leaf)%string \/
       parent <> ""%string /\ path = (parent +:+ "/" +:+ leaf)%string) /\
      Z.of_nat (String.length parent) + 1 <= size
  end.
Proof.
  intros size. destruct (split_path path size) as [[parent leaf]|] eqn:E.
  - apply split_path_spec in E as (Hleaf & Hp).
    split; [by apply strrchr_slash_None|].
    destruct Hp as [[-> ->]|[-> Hlen]]; [split; [by left|unfold size; simpl; lia]|].
    split; [|unfold size; rewrite !length_string_app; simpl; lia].
    right. split; [|done]. intros ->. simpl in Hlen. lia.
  - apply strrchr_slash_None. unfold split_path in E.
    destruct (strrchr_slash path) as [[b l]|] eqn:Es; [|done]. exfalso.
    apply strrchr_slash_spec in Es as [-> _]. revert E. unfold size.
    rewrite !length_string_app.
    destruct (Z.eqb_spec (Z.of_nat (String.length b)) 0); [done|].
    destruct (Z.leb_spec (Z.of_nat (String.length b + (String.length "/" + String.length l)) + 2)
      (Z.of_nat (String.length b))); [lia|done].
Qed.
