(* ===== verification/Bytes.v ===== *)
(** * Byte buffers

    The formatter builds on-disk structures by storing fields through pointers
    into a byte array.  This file holds the buffer monad those routines are
    written in: a computation reads and writes a list of bytes and fails
    ([None]) as soon as an access leaves it, so that a result [Some _] says
    that every access was inside the array.  Multi-byte fields are little
    endian (the [const_cpu_to_le16/32/64] of the source). *)

From S2P Require Export Prelude.

Abbreviation buffer := (list Z).

Definition M (A : Type) : Type := buffer -> option (A * buffer).

#[global] Instance M_ret : MRet M := fun A x b => Some (x, b).
#[global] Instance M_bind : MBind M := fun A B k m b =>
  match m b with
  | Some (x, b') => k x b'
  | None => None
  end.

(** An access of one byte at offset [p]. *)
Definition in_buffer (b : buffer) (p : Z) : bool := (0 <=? p) && (p <? Z.of_nat (length b)).

Definition load8 (p : Z) : M Z := fun b =>
  if in_buffer b p then
    match b !! Z.to_nat p with Some v => Some (v, b) | None => None end
  else None.

Definition store8 (p v : Z) : M unit := fun b =>
  if in_buffer b p then Some (tt, <[Z.to_nat p := v mod 256]> b) else None.

(** Little-endian fields of [n] bytes. *)
Fixpoint load_le (n : nat) (p : Z) : M Z :=
  match n with
  | O => mret 0
  | S n => lo ← load8 p; hi ← load_le n (p + 1); mret (lo + 256 * hi)
  end.

Fixpoint store_le (n : nat) (p v : Z) : M unit :=
  match n with
  | O => mret tt
  | S n => store8 p v;; store_le n (p + 1) (v / 256)
  end.

Abbreviation load16 := (load_le 2).
Abbreviation load32 := (load_le 4).
Abbreviation store16 := (store_le 2).
Abbreviation store32 := (store_le 4).
Abbreviation store64 := (store_le 8).

(** [memcpy] of [l] to [p], and of [n] bytes from [p]. *)
Definition store_bytes (p : Z) (l : buffer) : M unit := fun b =>
  if (0 <=? p) && (p + Z.of_nat (length l) <=? Z.of_nat (length b))
  then Some (tt, take (Z.to_nat p) b ++ l ++ drop (Z.to_nat p + length l) b)
  else None.

Definition load_bytes (p n : Z) : M buffer := fun b =>
  if (0 <=? p) && (0 <=? n) && (p + n <=? Z.of_nat (length b))
  then Some (take (Z.to_nat n) (drop (Z.to_nat p) b), b)
  else None.

(** The size of the array. *)
Definition buffer_size : M nat := fun b => Some (length b, b).

(** [memmove(dst, src, n)] inside the buffer. *)
Definition memmove (dst src n : Z) : M unit := l ← load_bytes src n; store_bytes dst l.

(** The sign of [memcmp(l1, l2, n)] on lists of [n] bytes. *)
Fixpoint memcmp (l1 l2 : buffer) : Z :=
  match l1, l2 with
  | x :: l1, y :: l2 => if x <? y then -1 else if y <? x then 1 else memcmp l1 l2
  | _, _ => 0
  end.

(** The bytes of a little-endian field. *)
Fixpoint le_bytes (n : nat) (v : Z) : buffer :=
  match n with
  | O => []
  | S n => v mod 256 :: le_bytes n (v / 256)
  end.

(** ** Locality

    A computation is local when it keeps the length of the buffer and does not
    depend on the bytes that follow the ones it was given.  The predicate is
    closed under the operations of the monad. *)
Definition local {A} (m : M A) : Prop :=
  forall b x b', m b = Some (x, b') ->
    length b' = length b /\ forall r, m (b ++ r) = Some (x, b' ++ r).

Create HintDb local.

Lemma local_ret {A} (x : A) : local (mret x).
Proof. intros b y b' [= <- <-]. split; [done|]. intros r. done. Qed.

Lemma local_bind {A B} (m : M A) (k : A -> M B) :
  local m -> (forall x, local (k x)) -> local (m ≫= k).
Proof.
  intros Hm Hk b y b'. unfold mbind, M_bind.
  destruct (m b) as [[x b1]|] eqn:E; [|done]. intros H.
  destruct (Hm _ _ _ E) as [L1 F1]. destruct (Hk _ _ _ _ H) as [L2 F2].
  split; [congruence|]. intros r. by rewrite F1.
Qed.

Lemma in_buffer_app b r p : in_buffer b p = true -> in_buffer (b ++ r) p = true.
Proof. unfold in_buffer. rewrite length_app. intros. zb. apply andb_true_iff. split;
  [apply Z.leb_le | apply Z.ltb_lt]; lia. Qed.

Lemma in_buffer_lt b p : in_buffer b p = true -> (Z.to_nat p < length b)%nat.
Proof. unfold in_buffer. intros. zb. lia. Qed.

Lemma local_load8 p : local (load8 p).
Proof.
  intros b x b'. unfold load8. destruct (in_buffer b p) eqn:E; [|done].
  destruct (b !! Z.to_nat p) as [v|] eqn:V; [|done]. intros [= <- <-].
  split; [done|]. intros r. rewrite in_buffer_app by done.
  by rewrite (lookup_app_l_Some _ _ _ _ V).
Qed.

Lemma local_store8 p v : local (store8 p v).
Proof.
  intros b x b'. unfold store8. destruct (in_buffer b p) eqn:E; [|done].
  intros [= <- <-]. split; [by rewrite length_insert|].
  intros r. rewrite in_buffer_app by done.
  by rewrite insert_app_l by by apply in_buffer_lt.
Qed.

#[export] Hint Resolve local_ret local_bind local_load8 local_store8 : local.

Lemma local_load_le n p : local (load_le n p).
Proof. revert p. induction n; intros; cbn [load_le]; auto with local. Qed.

Lemma local_store_le n p v : local (store_le n p v).
Proof. revert p v. induction n; intros; cbn [store_le]; auto with local. Qed.

#[export] Hint Resolve local_load_le local_store_le : local.

Lemma local_if {A} (c : bool) (m1 m2 : M A) : local m1 -> local m2 -> local (if c then m1 else m2).
Proof. by destruct c. Qed.

#[export] Hint Resolve local_if : local.

(** A local computation on a buffer acts on its prefix. *)
Lemma local_prefix {A} (m : M A) (n : nat) (b : buffer) :
  local m -> (n <= length b)%nat ->
  forall x b', m (take n b) = Some (x, b') -> m b = Some (x, b' ++ drop n b).
Proof.
  intros Hm Hn x b' E. destruct (Hm _ _ _ E) as [_ F].
  by rewrite <- (take_drop n b) at 1.
Qed.

(** ** Reading a buffer as a value *)

Definition slice (b : buffer) (p n : Z) : buffer := take (Z.to_nat n) (drop (Z.to_nat p) b).

Definition get (n : nat) (p : Z) (b : buffer) : option Z := fst <$> load_le n p b.

(** ** Computations inside a larger buffer

    An access at offset [k] of a part does the same at the part's address in
    the whole buffer, and leaves the rest alone. *)

Lemma in_buffer_shift pre b p :
  in_buffer b p = true -> in_buffer (pre ++ b) (Z.of_nat (length pre) + p) = true.
Proof.
  unfold in_buffer. rewrite length_app. intros. zb. apply andb_true_iff.
  split; [apply Z.leb_le | apply Z.ltb_lt]; lia.
Qed.

Lemma to_nat_shift (pre : buffer) k :
  0 <= k -> Z.to_nat (Z.of_nat (length pre) + k) = (length pre + Z.to_nat k)%nat.
Proof. lia. Qed.

Lemma load8_shift pre b k x b' :
  load8 k b = Some (x, b') ->
  load8 (Z.of_nat (length pre) + k) (pre ++ b) = Some (x, pre ++ b').
Proof.
  unfold load8. destruct (in_buffer b k) eqn:E; [|done].
  rewrite in_buffer_shift by done. unfold in_buffer in E. zb.
  rewrite to_nat_shift by done. rewrite lookup_app_r by lia.
  replace (length pre + Z.to_nat k - length pre)%nat with (Z.to_nat k) by lia.
  destruct (b !! Z.to_nat k); [|done]. by intros [= <- <-].
Qed.

Lemma store8_shift pre b k v x b' :
  store8 k v b = Some (x, b') ->
  store8 (Z.of_nat (length pre) + k) v (pre ++ b) = Some (x, pre ++ b').
Proof.
  unfold store8. destruct (in_buffer b k) eqn:E; [|done].
  rewrite in_buffer_shift by done. unfold in_buffer in E. zb.
  rewrite to_nat_shift by done. intros [= <- <-]. by rewrite insert_app_r.
Qed.

Lemma load_le_shift n pre b k x b' :
  load_le n k b = Some (x, b') ->
  load_le n (Z.of_nat (length pre) + k) (pre ++ b) = Some (x, pre ++ b').
Proof.
  revert k x b b'. induction n as [|n IH]; intros k x b b'; cbn [load_le].
  { by intros [= <- <-]. }
  unfold mbind, M_bind, mret, M_ret. destruct (load8 k b) as [[y b1]|] eqn:E1; [|done].
  rewrite (load8_shift _ _ _ _ _ E1).
  destruct (load_le n (k + 1) b1) as [[z b2]|] eqn:E2; [|done].
  apply IH in E2. rewrite Z.add_assoc in E2. rewrite E2. by intros [= <- <-].
Qed.

Lemma store_le_shift n pre b k v x b' :
  store_le n k v b = Some (x, b') ->
  store_le n (Z.of_nat (length pre) + k) v (pre ++ b) = Some (x, pre ++ b').
Proof.
  revert k v x b b'. induction n as [|n IH]; intros k v x b b'; cbn [store_le].
  { by intros [= <- <-]. }
  unfold mbind, M_bind. destruct (store8 k v b) as [[y b1]|] eqn:E1; [|done].
  rewrite (store8_shift _ _ _ _ _ _ E1). intros E2.
  apply IH in E2. by rewrite Z.add_assoc in E2.
Qed.

Lemma store_bytes_shift pre b k l x b' :
  store_bytes k l b = Some (x, b') ->
  store_bytes (Z.of_nat (length pre) + k) l (pre ++ b) = Some (x, pre ++ b').
Proof.
  unfold store_bytes. destruct (_ && _) eqn:E; [|done]. zb. intros [= <- <-].
  rewrite length_app.
  replace (_ && _) with true by (symmetry; apply andb_true_iff; split; apply Z.leb_le; lia).
  rewrite to_nat_shift by done. rewrite take_app_add, <- Nat.add_assoc, drop_app_add.
  by rewrite <- app_assoc.
Qed.

(** The form the components meet: a field of a part in the middle. *)
Lemma load_le_middle n pre b post k x b' :
  load_le n k b = Some (x, b') ->
  load_le n (Z.of_nat (length pre) + k) (pre ++ b ++ post) = Some (x, pre ++ b' ++ post).
Proof. intros E. apply load_le_shift. by apply (local_load_le n k). Qed.

(** ** Fields *)

Lemma length_le_bytes n v : length (le_bytes n v) = n.
Proof. revert v. induction n; intros; cbn; auto. Qed.

(** What is stored is read back. *)
Fixpoint le_value (l : buffer) : Z :=
  match l with
  | [] => 0
  | x :: l => x + 256 * le_value l
  end.

Lemma le_value_bytes n v : 0 <= v < 256 ^ Z.of_nat n -> le_value (le_bytes n v) = v.
Proof.
  revert v. induction n as [|n IH]; intros v; [cbn; lia|].
  rewrite Nat2Z.inj_succ, Z.pow_succ_r by lia. intros Hv. cbn [le_bytes le_value].
  rewrite IH.
  - pose proof (Z.div_mod v 256). lia.
  - split; [apply Z.div_pos; lia|]. apply Z.div_lt_upper_bound; lia.
Qed.

Lemma le_value_range l : Forall (fun x => 0 <= x < 256) l -> 0 <= le_value l < 256 ^ Z.of_nat (length l).
Proof.
  induction 1 as [|x l Hx _ IH]; [cbn; lia|]. cbn [le_value length].
  rewrite Nat2Z.inj_succ, Z.pow_succ_r by lia. lia.
Qed.

Lemma load8_head x l : load8 0 (x :: l) = Some (x, x :: l).
Proof.
  unfold load8, in_buffer. cbn [length].
  replace (_ && _) with true by (symmetry; apply andb_true_iff; split; [done | apply Z.ltb_lt; lia]).
  done.
Qed.

Lemma load_le_head l post :
  load_le (length l) 0 (l ++ post) = Some (le_value l, l ++ post).
Proof.
  induction l as [|x l IH]; [done|]. cbn [length load_le app le_value].
  unfold mbind, M_bind, mret, M_ret. rewrite load8_head.
  pose proof (load_le_shift _ [x] _ _ _ _ IH) as E. cbn [length app] in E.
  change (Z.of_nat 1 + 0) with (0 + 1) in E. by rewrite E.
Qed.

(** Reading [n] bytes after [pre]. *)
Lemma load_le_field n p pre l post :
  p = Z.of_nat (length pre) -> length l = n ->
  load_le n p (pre ++ l ++ post) = Some (le_value l, pre ++ l ++ post).
Proof.
  intros -> <-. pose proof (load_le_shift _ pre _ _ _ _ (load_le_head l post)) as E.
  by rewrite Z.add_0_r in E.
Qed.

Lemma store8_head v x l : store8 0 v (x :: l) = Some (tt, v mod 256 :: l).
Proof.
  unfold store8, in_buffer. cbn [length].
  replace (_ && _) with true by (symmetry; apply andb_true_iff; split; [done | apply Z.ltb_lt; lia]).
  done.
Qed.

Lemma store_le_head v l post :
  store_le (length l) 0 v (l ++ post) = Some (tt, le_bytes (length l) v ++ post).
Proof.
  revert v. induction l as [|x l IH]; intros v; [done|].
  cbn [length store_le le_bytes app]. unfold mbind, M_bind. rewrite store8_head.
  exact (store_le_shift _ [v mod 256] _ _ _ _ _ (IH (v / 256))).
Qed.

Lemma store_le_field n p v pre l post :
  p = Z.of_nat (length pre) -> length l = n ->
  store_le n p v (pre ++ l ++ post) = Some (tt, pre ++ le_bytes n v ++ post).
Proof.
  intros -> <-. pose proof (store_le_shift _ pre _ _ _ _ _ (store_le_head v l post)) as E.
  by rewrite Z.add_0_r in E.
Qed.

Lemma store_bytes_field p pre l l' post :
  p = Z.of_nat (length pre) -> length l = length l' ->
  store_bytes p l (pre ++ l' ++ post) = Some (tt, pre ++ l ++ post).
Proof.
  intros -> Hl. unfold store_bytes. rewrite !length_app.
  replace (_ && _) with true by (symmetry; apply andb_true_iff; split; apply Z.leb_le; lia).
  rewrite Nat2Z.id, take_app_length, drop_app_add, Hl, drop_app_length. done.
Qed.

Lemma load_bytes_field p n pre l post :
  p = Z.of_nat (length pre) -> n = Z.of_nat (length l) ->
  load_bytes p n (pre ++ l ++ post) = Some (l, pre ++ l ++ post).
Proof.
  intros -> ->. unfold load_bytes. rewrite !length_app.
  replace (_ && _) with true
    by (symmetry; rewrite !andb_true_iff; split_and!; apply Z.leb_le; lia).
  by rewrite !Nat2Z.id, drop_app_length, take_app_length.
Qed.

(** ** Slices and overwritten slices

    What a store leaves in a part is [put k l a]; reading a slice of it gives what
    was stored, or what was there. *)
Definition sl (k n : nat) (a : buffer) : buffer := take n (drop k a).
Definition put (k : nat) (l a : buffer) : buffer := take k a ++ l ++ drop (k + length l) a.
Definition field (n k : nat) (a : buffer) : Z := le_value (sl k n a).

Lemma length_sl k n a : (k + n <= length a)%nat -> length (sl k n a) = n.
Proof. intros. unfold sl. rewrite length_take, length_drop. lia. Qed.

Lemma length_put k l a : (k + length l <= length a)%nat -> length (put k l a) = length a.
Proof. intros. unfold put. rewrite !length_app, length_take, length_drop. lia. Qed.

Lemma split_sl k n a : (k + n <= length a)%nat -> a = take k a ++ sl k n a ++ drop (k + n) a.
Proof.
  intros. unfold sl. rewrite <- drop_drop, take_drop. by rewrite take_drop.
Qed.

Lemma sl_put_same k l a : (k + length l <= length a)%nat -> sl k (length l) (put k l a) = l.
Proof.
  intros. unfold sl, put. rewrite drop_app_length' by (rewrite length_take; lia).
  by rewrite take_app_length.
Qed.

Lemma sl_put_before k n k' l a :
  (k + n <= k')%nat -> (k' <= length a)%nat -> sl k n (put k' l a) = sl k n a.
Proof.
  intros. unfold sl, put. rewrite !take_drop_commute. f_equal.
  rewrite take_app_le by (rewrite length_take; lia).
  by rewrite take_take, Nat.min_l by lia.
Qed.

Lemma sl_put_after k n k' l a :
  (k' + length l <= k)%nat -> (k' <= length a)%nat -> sl k n (put k' l a) = sl k n a.
Proof.
  intros. unfold sl, put. f_equal.
  rewrite drop_app_ge by (rewrite length_take; lia). rewrite length_take, Nat.min_l by lia.
  rewrite drop_app_ge by lia. rewrite drop_drop. f_equal. lia.
Qed.

Lemma sl_app_l k n a b : (k + n <= length a)%nat -> sl k n (a ++ b) = sl k n a.
Proof.
  intros. unfold sl. rewrite drop_app_le by lia. rewrite take_app_le; [done|].
  rewrite length_drop. lia.
Qed.

Lemma byte_list_put k l a :
  Forall (fun x => 0 <= x < 256) a -> Forall (fun x => 0 <= x < 256) l ->
  Forall (fun x => 0 <= x < 256) (put k l a).
Proof. intros. unfold put. auto using Forall_app_2, Forall_take, Forall_drop. Qed.

Lemma byte_list_le n v : Forall (fun x => 0 <= x < 256) (le_bytes n v).
Proof.
  revert v. induction n; intros; cbn; constructor; auto. apply Z.mod_pos_bound. lia.
Qed.

Lemma field_range n k a :
  Forall (fun x => 0 <= x < 256) a -> (k + n <= length a)%nat -> 0 <= field n k a < 256 ^ Z.of_nat n.
Proof.
  intros Ha Hk. unfold field.
  pose proof (le_value_range (sl k n a) (Forall_take _ _ _ (Forall_drop _ _ _ Ha))) as E.
  by rewrite (length_sl k n a Hk) in E.
Qed.

Lemma field_put_same n k v a :
  (k + n <= length a)%nat -> 0 <= v < 256 ^ Z.of_nat n -> field n k (put k (le_bytes n v) a) = v.
Proof.
  intros. unfold field. rewrite <- (length_le_bytes n v) at 1.
  rewrite sl_put_same by (rewrite length_le_bytes; lia). by apply le_value_bytes.
Qed.

Lemma bind_run {A B} (m : M A) (k : A -> M B) b x b' :
  m b = Some (x, b') -> (m ≫= k) b = k x b'.
Proof. unfold mbind, M_bind. by intros ->. Qed.

(** Loads and stores at offset [k] of the part [a] between [pre] and [post]. *)
Section Parts.
Context (pre a post : buffer) (p : Z) (k : nat).
Context (Hp : p = Z.of_nat (length pre) + Z.of_nat k).

Lemma load_part n :
  (k + n <= length a)%nat ->
  load_le n p (pre ++ a ++ post) = Some (field n k a, pre ++ a ++ post).
Proof.
  intros Hk. pose proof (split_sl k n a Hk) as E.
  set (l := sl k n a) in *. set (a1 := take k a) in *. set (a2 := drop (k + n) a) in *.
  assert (pre ++ a ++ post = (pre ++ a1) ++ l ++ (a2 ++ post)) as ->.
  { rewrite E at 1. by rewrite <- !app_assoc. }
  apply load_le_field; [|by apply length_sl].
  rewrite length_app. unfold a1. rewrite length_take. lia.
Qed.

Lemma store_part n v :
  (k + n <= length a)%nat ->
  store_le n p v (pre ++ a ++ post) = Some (tt, pre ++ put k (le_bytes n v) a ++ post).
Proof.
  intros Hk. pose proof (split_sl k n a Hk) as E.
  set (l := sl k n a) in *. unfold put. rewrite length_le_bytes.
  set (a1 := take k a) in *. set (a2 := drop (k + n) a) in *.
  assert (pre ++ a ++ post = (pre ++ a1) ++ l ++ (a2 ++ post)) as ->.
  { rewrite E at 1. by rewrite <- !app_assoc. }
  rewrite (store_le_field n p v (pre ++ a1) l); [by rewrite <- !app_assoc| |by apply length_sl].
  rewrite length_app. unfold a1. rewrite length_take. lia.
Qed.

Lemma load8_part :
  (k + 1 <= length a)%nat ->
  load8 p (pre ++ a ++ post) = Some (field 1 k a, pre ++ a ++ post).
Proof.
  intros Hk. pose proof (load_part 1 Hk) as E. cbn [load_le] in E.
  unfold mbind, M_bind, mret, M_ret in E.
  destruct (load8 p _) as [[x b']|] eqn:L; [|done].
  injection E as E1 E2. rewrite <- E1, E2. do 2 f_equal. lia.
Qed.

Lemma store8_part v :
  (k + 1 <= length a)%nat ->
  store8 p v (pre ++ a ++ post) = Some (tt, pre ++ put k (le_bytes 1 v) a ++ post).
Proof.
  intros Hk. pose proof (store_part 1 v Hk) as E. cbn [store_le] in E.
  unfold mbind, M_bind, mret, M_ret in E. cbn [le_bytes].
  destruct (store8 p v _) as [[[] b']|] eqn:L; [|done]. exact E.
Qed.

Lemma store_bytes_part l :
  (k + length l <= length a)%nat ->
  store_bytes p l (pre ++ a ++ post) = Some (tt, pre ++ put k l a ++ post).
Proof.
  intros Hk. pose proof (split_sl k (length l) a Hk) as E.
  set (l' := sl k (length l) a) in *. unfold put.
  set (a1 := take k a) in *. set (a2 := drop (k + length l) a) in *.
  assert (pre ++ a ++ post = (pre ++ a1) ++ l' ++ (a2 ++ post)) as ->.
  { rewrite E at 1. by rewrite <- !app_assoc. }
  rewrite (store_bytes_field p (pre ++ a1) l l'); [by rewrite <- !app_assoc| |].
  - rewrite length_app. unfold a1. rewrite length_take. lia.
  - symmetry. by apply length_sl.
Qed.

Lemma load_bytes_part n :
  (k + Z.to_nat n <= length a)%nat -> 0 <= n ->
  load_bytes p n (pre ++ a ++ post) = Some (sl k (Z.to_nat n) a, pre ++ a ++ post).
Proof.
  intros Hk Hn. pose proof (split_sl k (Z.to_nat n) a Hk) as E.
  pose proof (length_sl k (Z.to_nat n) a Hk) as El.
  set (l := sl k (Z.to_nat n) a) in *.
  set (a1 := take k a) in *. set (a2 := drop (k + Z.to_nat n) a) in *.
  assert (pre ++ a ++ post = (pre ++ a1) ++ l ++ (a2 ++ post)) as ->.
  { rewrite E at 1. by rewrite <- !app_assoc. }
  apply load_bytes_field.
  - rewrite length_app. unfold a1. rewrite length_take. lia.
  - lia.
Qed.
End Parts.

(** [memmove] of the part [X] up by [n] bytes, into [slack]. *)
Lemma memmove_up (P X slack : buffer) (n p dst len : Z) :
  p = Z.of_nat (length P) -> dst = p + n -> len = Z.of_nat (length X) ->
  0 <= n <= Z.of_nat (length slack) ->
  memmove dst p len (P ++ X ++ slack) =
    Some (tt, P ++ take (Z.to_nat n) (X ++ slack) ++ X ++ drop (Z.to_nat n) slack).
Proof.
  intros -> -> -> Hn. unfold memmove.
  rewrite (bind_run _ _ _ _ _ (load_bytes_field _ _ P X slack eq_refl eq_refl)).
  set (J := take (Z.to_nat n) (X ++ slack)).
  assert (length J = Z.to_nat n) as LJ by (unfold J; rewrite length_take, length_app; lia).
  rewrite <- (take_drop (Z.to_nat n) (X ++ slack)) at 1. fold J. rewrite (app_assoc P J).
  pose proof (store_bytes_part (P ++ J) (drop (Z.to_nat n) (X ++ slack)) []
                (Z.of_nat (length P) + n) 0%nat) as E.
  rewrite !app_nil_r in E. rewrite E.
  - unfold put. cbn [take Nat.add app].
    rewrite drop_drop, (Nat.add_comm _ (length X)), drop_app_add, app_nil_r.
    by rewrite <- !app_assoc.
  - rewrite length_app. lia.
  - rewrite length_drop, length_app. lia.
Qed.

(** ... and without that room it leaves the buffer. *)
Lemma memmove_stuck (P X slack : buffer) (n p dst len : Z) :
  p = Z.of_nat (length P) -> dst = p + n -> len = Z.of_nat (length X) ->
  Z.of_nat (length slack) < n ->
  memmove dst p len (P ++ X ++ slack) = None.
Proof.
  intros -> -> -> Hn. unfold memmove.
  rewrite (bind_run _ _ _ _ _ (load_bytes_field _ _ P X slack eq_refl eq_refl)).
  unfold store_bytes. rewrite !length_app.
  replace (_ <=? Z.of_nat (_ + _)) with false by (symmetry; apply Z.leb_gt; lia).
  by rewrite andb_false_r.
Qed.

Lemma field_drop n k j (a : buffer) : field n k (drop j a) = field n (j + k) a.
Proof. unfold field, sl. by rewrite drop_drop. Qed.

Lemma le_bytes_mod n v : le_bytes n (v mod 256 ^ Z.of_nat n) = le_bytes n v.
Proof.
  revert v. induction n as [|n IH]; intros v; [done|]. cbn [le_bytes].
  rewrite Nat2Z.inj_succ, Z.pow_succ_r by lia.
  assert (0 < 256 ^ Z.of_nat n) by (apply Z.pow_pos_nonneg; lia).
  rewrite Z.rem_mul_r by lia. f_equal.
  - rewrite (Z.mul_comm 256), Z_mod_plus_full. apply Z.mod_mod. lia.
  - rewrite <- (IH (v / 256)). f_equal. rewrite (Z.mul_comm 256), Z.div_add by lia.
    rewrite Z.div_small by (apply Z.mod_pos_bound; lia). done.
Qed.

(** The bytes of a field give the field. *)
Lemma le_bytes_value l : Forall (fun x => 0 <= x < 256) l -> le_bytes (length l) (le_value l) = l.
Proof.
  induction 1 as [|x l Hx _ IH]; [done|]. cbn [length le_bytes le_value].
  rewrite (Z.mul_comm 256), Z_mod_plus_full, Z.mod_small by done.
  rewrite Z.div_add, Z.div_small by lia. by rewrite Z.add_0_l, IH.
Qed.

(** Storing the old value again undoes a store. *)
Lemma put_back n k v b :
  Forall (fun x => 0 <= x < 256) b -> (k + n <= length b)%nat ->
  put k (le_bytes n (field n k b)) (put k (le_bytes n v) b) = b.
Proof.
  intros Hb Hk. pose proof (length_sl k n b Hk) as L.
  assert (Forall (fun x => 0 <= x < 256) (sl k n b)) as Hs by by apply Forall_take, Forall_drop.
  unfold field. rewrite <- L at 1. rewrite le_bytes_value by done.
  unfold put at 1. rewrite L. unfold put. rewrite length_le_bytes.
  rewrite take_app_le by (rewrite length_take; lia). rewrite take_take, Nat.min_id.
  rewrite drop_app_ge by (rewrite length_take; lia). rewrite length_take, Nat.min_l by lia.
  rewrite drop_app_ge by (rewrite length_le_bytes; lia). rewrite drop_drop, length_le_bytes.
  replace (k + n + (k + n - k - n))%nat with (k + n)%nat by lia. symmetry. by apply split_sl.
Qed.

(** Storing after what is there. *)
Lemma store_next (pre rest : buffer) n p v :
  p = Z.of_nat (length pre) -> (n <= length rest)%nat ->
  store_le n p v (pre ++ rest) = Some (tt, (pre ++ le_bytes n v) ++ drop n rest).
Proof.
  intros Hp Hn. pose proof (store_part pre rest [] p 0%nat ltac:(lia) n v ltac:(lia)) as E.
  rewrite !app_nil_r in E. rewrite E. unfold put. rewrite length_le_bytes. by rewrite <- app_assoc.
Qed.
