(* ===== verification/Sd.v ===== *)
(** * Security descriptors of the system files

    [mkntfs/sd.c]: the descriptors mkntfs gives the system files
    ([init_system_file_sd]), the root directory ([init_root_sd]) and the two
    entries of the [$SDS] stream of [$Secure] ([init_secure_sds], with the copy
    [create_root_structures] makes at offset 0x40000).  Each routine is the
    sequence of stores of the source, in the buffer monad of [Bytes]; the
    offsets of the fields and the constants come from libntfs-3g's [layout.h],
    which is a parameter ([layout_h]).  The specification is a decoder of the
    self-relative descriptor format: what the stores leave in the buffer decodes
    to the intended owner, group and access list. *)

From S2P Require Import Prelude Bytes.

(** ** The part of libntfs-3g's [layout.h] sd.c uses *)

Record layout_h := {
  (* sizes and field offsets of the on-disk structures *)
  sizeof_SECURITY_DESCRIPTOR_RELATIVE : Z; sd_revision : Z; sd_alignment : Z; sd_control : Z;
  sd_owner : Z; sd_group : Z; sd_sacl : Z; sd_dacl : Z;
  sizeof_ACL : Z; acl_revision : Z; acl_alignment1 : Z; acl_size : Z; acl_ace_count : Z;
  acl_alignment2 : Z;
  ace_type : Z; ace_flags : Z; ace_size : Z; ace_mask : Z; ace_sid : Z;
  sid_revision : Z; sid_sub_authority_count : Z; sid_identifier_authority : Z;
  sid_sub_authority : Z;
  sizeof_SECURITY_DESCRIPTOR_HEADER : Z; sds_hash : Z; sds_security_id : Z; sds_offset : Z;
  sds_length : Z;
  (* constants *)
  SE_SELF_RELATIVE : Z; SE_DACL_PRESENT : Z; SECURITY_DESCRIPTOR_REVISION : Z;
  ACL_REVISION : Z; SID_REVISION : Z; ACCESS_ALLOWED_ACE_TYPE : Z;
  OBJECT_INHERIT_ACE : Z; CONTAINER_INHERIT_ACE : Z; INHERIT_ONLY_ACE : Z;
  SECURITY_LOCAL_SYSTEM_RID : Z; SECURITY_AUTHENTICATED_USER_RID : Z;
  SECURITY_BUILTIN_DOMAIN_RID : Z; DOMAIN_ALIAS_RID_ADMINS : Z; DOMAIN_ALIAS_RID_USERS : Z;
  FILE_READ_DATA : Z; FILE_LIST_DIRECTORY : Z; FILE_WRITE_DATA : Z; FILE_ADD_FILE : Z;
  FILE_APPEND_DATA : Z; FILE_ADD_SUBDIRECTORY : Z; FILE_READ_EA : Z; FILE_WRITE_EA : Z;
  FILE_TRAVERSE : Z; FILE_DELETE_CHILD : Z; FILE_READ_ATTRIBUTES : Z;
  FILE_WRITE_ATTRIBUTES : Z; DELETE : Z; READ_CONTROL : Z; STANDARD_RIGHTS_READ : Z;
  STANDARD_RIGHTS_WRITE : Z; STANDARD_RIGHTS_ALL : Z; SYNCHRONIZE : Z;
  GENERIC_ALL : Z; GENERIC_EXECUTE : Z; GENERIC_WRITE : Z; GENERIC_READ : Z;
  FILE_AttrDef : Z; FILE_Boot : Z
}.

(** The documented values (the NTFS on-disk format and the Windows security
    constants). *)
Definition documented_layout : layout_h := {|
  sizeof_SECURITY_DESCRIPTOR_RELATIVE := 0x14; sd_revision := 0; sd_alignment := 1;
  sd_control := 2; sd_owner := 4; sd_group := 8; sd_sacl := 12; sd_dacl := 16;
  sizeof_ACL := 8; acl_revision := 0; acl_alignment1 := 1; acl_size := 2;
  acl_ace_count := 4; acl_alignment2 := 6;
  ace_type := 0; ace_flags := 1; ace_size := 2; ace_mask := 4; ace_sid := 8;
  sid_revision := 0; sid_sub_authority_count := 1; sid_identifier_authority := 2;
  sid_sub_authority := 8;
  sizeof_SECURITY_DESCRIPTOR_HEADER := 0x14; sds_hash := 0; sds_security_id := 4;
  sds_offset := 8; sds_length := 16;
  SE_SELF_RELATIVE := 0x8000; SE_DACL_PRESENT := 4; SECURITY_DESCRIPTOR_REVISION := 1;
  ACL_REVISION := 2; SID_REVISION := 1; ACCESS_ALLOWED_ACE_TYPE := 0;
  OBJECT_INHERIT_ACE := 1; CONTAINER_INHERIT_ACE := 2; INHERIT_ONLY_ACE := 8;
  SECURITY_LOCAL_SYSTEM_RID := 18; SECURITY_AUTHENTICATED_USER_RID := 11;
  SECURITY_BUILTIN_DOMAIN_RID := 32; DOMAIN_ALIAS_RID_ADMINS := 544;
  DOMAIN_ALIAS_RID_USERS := 545;
  FILE_READ_DATA := 1; FILE_LIST_DIRECTORY := 1; FILE_WRITE_DATA := 2; FILE_ADD_FILE := 2;
  FILE_APPEND_DATA := 4; FILE_ADD_SUBDIRECTORY := 4; FILE_READ_EA := 8; FILE_WRITE_EA := 0x10;
  FILE_TRAVERSE := 0x20; FILE_DELETE_CHILD := 0x40; FILE_READ_ATTRIBUTES := 0x80;
  FILE_WRITE_ATTRIBUTES := 0x100; DELETE := 0x10000; READ_CONTROL := 0x20000;
  STANDARD_RIGHTS_READ := 0x20000; STANDARD_RIGHTS_WRITE := 0x20000;
  STANDARD_RIGHTS_ALL := 0x1f0000; SYNCHRONIZE := 0x100000;
  GENERIC_ALL := 0x10000000; GENERIC_EXECUTE := 0x20000000; GENERIC_WRITE := 0x40000000;
  GENERIC_READ := 0x80000000;
  FILE_AttrDef := 4; FILE_Boot := 7
|}.

(** Bits collected with [|]. *)
Definition bits (l : list Z) : Z := foldr Z.lor 0 l.

Section Sd.
  Context (L : layout_h).

(** ** The stores *)

(** The [revision], [sub_authority_count] and [identifier_authority] stores of a
    SID at [sid]: S-1-5. *)
Definition set_nt_sid (sid rev count : Z) : M unit :=
  store8 (sid + sid_revision L) rev;;
  store8 (sid + sid_sub_authority_count L) count;;
  store8 (sid + sid_identifier_authority L + 0) 0;;
  store8 (sid + sid_identifier_authority L + 1) 0;;
  store8 (sid + sid_identifier_authority L + 2) 0;;
  store8 (sid + sid_identifier_authority L + 3) 0;;
  store8 (sid + sid_identifier_authority L + 4) 0;;
  store8 (sid + sid_identifier_authority L + 5) 5.

Definition set_sub_authority (sid i rid : Z) : M unit :=
  store32 (sid + sid_sub_authority L + 4 * i) rid.

(** [type], [flags], [size] and [mask] of the ACE at [ace]. *)
Definition set_ace (ace type flags size mask : Z) : M unit :=
  store8 (ace + ace_type L) type;;
  store8 (ace + ace_flags L) flags;;
  store16 (ace + ace_size L) size;;
  store32 (ace + ace_mask L) mask.

(** [(ACCESS_ALLOWED_ACE* )((char* )ace + le16_to_cpu(ace->size))] *)
Definition next_ace (ace : Z) : M Z :=
  size ← load16 (ace + ace_size L); mret (ace + size).

Definition set_sd (sd revision owner group sacl dacl : Z) : M unit :=
  store8 (sd + sd_revision L) revision;;
  store8 (sd + sd_alignment L) 0;;
  store16 (sd + sd_control L) (bits [SE_SELF_RELATIVE L; SE_DACL_PRESENT L]);;
  store32 (sd + sd_owner L) owner;;
  store32 (sd + sd_group L) group;;
  store32 (sd + sd_sacl L) sacl;;
  store32 (sd + sd_dacl L) dacl.

Definition set_acl (acl revision size count : Z) : M unit :=
  store8 (acl + acl_revision L) revision;;
  store8 (acl + acl_alignment1 L) 0;;
  store16 (acl + acl_size L) size;;
  store16 (acl + acl_ace_count L) count;;
  store16 (acl + acl_alignment2 L) 0.

(** ** The system files *)

Definition read_only_rights : Z :=
  bits [SYNCHRONIZE L; STANDARD_RIGHTS_READ L; FILE_READ_ATTRIBUTES L; FILE_READ_EA L;
        FILE_READ_DATA L].

(** The mask of the first ACE, for the local system. *)
Definition system_mask (sys_file_no : Z) : Z :=
  if (sys_file_no =? FILE_AttrDef L) || (sys_file_no =? FILE_Boot L) then read_only_rights
  else bits [SYNCHRONIZE L; STANDARD_RIGHTS_WRITE L; FILE_WRITE_ATTRIBUTES L;
             FILE_READ_ATTRIBUTES L; FILE_WRITE_EA L; FILE_READ_EA L; FILE_APPEND_DATA L;
             FILE_WRITE_DATA L; FILE_READ_DATA L].

(** The mask of the second ACE, for the administrators. *)
Definition admins_mask (sys_file_no : Z) : Z :=
  if (sys_file_no =? FILE_AttrDef L) || (sys_file_no =? FILE_Boot L) then read_only_rights
  else bits [SYNCHRONIZE L; STANDARD_RIGHTS_READ L; FILE_WRITE_ATTRIBUTES L;
             FILE_READ_ATTRIBUTES L; FILE_WRITE_EA L; FILE_READ_EA L; FILE_APPEND_DATA L;
             FILE_WRITE_DATA L; FILE_READ_DATA L].

(** [init_system_file_sd]: [*sd_val] ([None] for NULL, [Some 0] for the static
    array) and [*sd_val_len]. *)
Definition init_system_file_sd (sys_file_no : Z) : M (option Z * Z) :=
  if sys_file_no <? 0 then mret (None, 0) else
  let sd := 0 in
  set_sd sd 1 0x48 0x54 0 0x14;;
  dacl ← load32 (sd + sd_dacl L);
  let acl := sd + dacl in
  set_acl acl 2 0x34 2;;
  let aa_ace := acl + sizeof_ACL L in
  set_ace aa_ace (ACCESS_ALLOWED_ACE_TYPE L) 0 0x14 (system_mask sys_file_no);;
  set_nt_sid (aa_ace + ace_sid L) 1 1;;
  set_sub_authority (aa_ace + ace_sid L) 0 (SECURITY_LOCAL_SYSTEM_RID L);;
  aa_ace ← next_ace aa_ace;
  set_ace aa_ace (ACCESS_ALLOWED_ACE_TYPE L) 0 0x18 (admins_mask sys_file_no);;
  set_nt_sid (aa_ace + ace_sid L) 1 2;;
  set_sub_authority (aa_ace + ace_sid L) 0 (SECURITY_BUILTIN_DOMAIN_RID L);;
  set_sub_authority (aa_ace + ace_sid L) 1 (DOMAIN_ALIAS_RID_ADMINS L);;
  owner ← load32 (sd + sd_owner L);
  let sid := sd + owner in
  set_nt_sid sid 1 1;;
  set_sub_authority sid 0 (SECURITY_LOCAL_SYSTEM_RID L);;
  group ← load32 (sd + sd_group L);
  let sid := sd + group in
  set_nt_sid sid 1 2;;
  set_sub_authority sid 0 (SECURITY_BUILTIN_DOMAIN_RID L);;
  set_sub_authority sid 1 (DOMAIN_ALIAS_RID_ADMINS L);;
  mret (Some 0, 0x64).

(** ** The root directory *)

Definition full_control : Z :=
  bits [STANDARD_RIGHTS_ALL L; FILE_WRITE_ATTRIBUTES L; FILE_LIST_DIRECTORY L;
        FILE_WRITE_DATA L; FILE_ADD_SUBDIRECTORY L; FILE_READ_EA L; FILE_WRITE_EA L;
        FILE_TRAVERSE L; FILE_DELETE_CHILD L; FILE_READ_ATTRIBUTES L].

Definition inherit_only : Z :=
  bits [OBJECT_INHERIT_ACE L; CONTAINER_INHERIT_ACE L; INHERIT_ONLY_ACE L].

(** A SID of one sub-authority, and one in the builtin domain. *)
Definition set_sid1 (sid rid : Z) : M unit :=
  set_nt_sid sid (SID_REVISION L) 1;;
  set_sub_authority sid 0 rid.

Definition set_builtin_sid (sid rid : Z) : M unit :=
  set_nt_sid sid (SID_REVISION L) 2;;
  set_sub_authority sid 0 (SECURITY_BUILTIN_DOMAIN_RID L);;
  set_sub_authority sid 1 rid.

(** The descriptor, the ACL and ACEs 1 to 4 (administrators and the local
    system); the result is the address of ACE 4. *)
Definition root_sd_first_half (sd : Z) : M Z :=
  set_sd sd (SECURITY_DESCRIPTOR_REVISION L) 0x1014 0x1020 0
    (sizeof_SECURITY_DESCRIPTOR_RELATIVE L);;
  let acl := sd + sizeof_SECURITY_DESCRIPTOR_RELATIVE L in
  set_acl acl (ACL_REVISION L) 0x1000 0x08;;
  let ace := acl + sizeof_ACL L in
  set_ace ace (ACCESS_ALLOWED_ACE_TYPE L) 0 0x18 full_control;;
  set_builtin_sid (ace + ace_sid L) (DOMAIN_ALIAS_RID_ADMINS L);;
  ace ← next_ace ace;
  set_ace ace (ACCESS_ALLOWED_ACE_TYPE L) inherit_only 0x18 (GENERIC_ALL L);;
  set_builtin_sid (ace + ace_sid L) (DOMAIN_ALIAS_RID_ADMINS L);;
  ace ← next_ace ace;
  set_ace ace (ACCESS_ALLOWED_ACE_TYPE L) 0 0x14 full_control;;
  set_sid1 (ace + ace_sid L) (SECURITY_LOCAL_SYSTEM_RID L);;
  ace ← next_ace ace;
  set_ace ace (ACCESS_ALLOWED_ACE_TYPE L) inherit_only 0x14 (GENERIC_ALL L);;
  set_sid1 (ace + ace_sid L) (SECURITY_LOCAL_SYSTEM_RID L);;
  mret ace.

(** ACEs 5 to 8 (authenticated users and users), the owner and the group. *)
Definition root_sd_second_half (sd ace : Z) : M unit :=
  ace ← next_ace ace;
  set_ace ace (ACCESS_ALLOWED_ACE_TYPE L) 0 0x14
    (bits [SYNCHRONIZE L; READ_CONTROL L; DELETE L; FILE_WRITE_ATTRIBUTES L;
           FILE_READ_ATTRIBUTES L; FILE_TRAVERSE L; FILE_WRITE_EA L; FILE_READ_EA L;
           FILE_ADD_SUBDIRECTORY L; FILE_ADD_FILE L; FILE_LIST_DIRECTORY L]);;
  set_sid1 (ace + ace_sid L) (SECURITY_AUTHENTICATED_USER_RID L);;
  ace ← next_ace ace;
  set_ace ace (ACCESS_ALLOWED_ACE_TYPE L) inherit_only 0x14
    (bits [GENERIC_READ L; GENERIC_WRITE L; GENERIC_EXECUTE L; DELETE L]);;
  set_sid1 (ace + ace_sid L) (SECURITY_AUTHENTICATED_USER_RID L);;
  ace ← next_ace ace;
  set_ace ace (ACCESS_ALLOWED_ACE_TYPE L) 0 0x18
    (bits [SYNCHRONIZE L; READ_CONTROL L; FILE_READ_ATTRIBUTES L; FILE_TRAVERSE L;
           FILE_READ_EA L; FILE_LIST_DIRECTORY L]);;
  set_builtin_sid (ace + ace_sid L) (DOMAIN_ALIAS_RID_USERS L);;
  ace ← next_ace ace;
  set_ace ace (ACCESS_ALLOWED_ACE_TYPE L) inherit_only 0x18
    (bits [GENERIC_READ L; GENERIC_EXECUTE L]);;
  set_builtin_sid (ace + ace_sid L) (DOMAIN_ALIAS_RID_USERS L);;
  owner ← load32 (sd + sd_owner L);
  let sid := sd + owner in
  set_nt_sid sid 0x01 0x01;;
  set_sub_authority sid 0 (SECURITY_LOCAL_SYSTEM_RID L);;
  group ← load32 (sd + sd_group L);
  let sid := sd + group in
  set_nt_sid sid 0x01 0x01;;
  set_sub_authority sid 0 (SECURITY_LOCAL_SYSTEM_RID L).

Definition init_root_sd : M (Z * Z) :=
  let sd := 0 in
  ace ← root_sd_first_half sd;
  root_sd_second_half sd ace;;
  mret (sd, 0x102c).

(** ** The [$SDS] stream *)

(** The stores of one entry at [sds]: header, descriptor, ACL, two ACEs, owner
    and group.  The code writes them out twice, with these parameters. *)
Definition set_secure_sd (sds hash security_id offset mask : Z) : M unit :=
  store32 (sds + sds_hash L) hash;;
  store32 (sds + sds_security_id L) security_id;;
  store64 (sds + sds_offset L) offset;;
  store32 (sds + sds_length L) 0x7C;;
  let sd := sds + sizeof_SECURITY_DESCRIPTOR_HEADER L in
  set_sd sd 0x01 0x48 0x58 0x00 0x14;;
  let acl := sd + sizeof_SECURITY_DESCRIPTOR_RELATIVE L in
  set_acl acl 0x02 0x34 0x02;;
  let ace := acl + sizeof_ACL L in
  set_ace ace 0x00 0x00 0x14 mask;;
  set_nt_sid (ace + ace_sid L) 0x01 0x01;;
  set_sub_authority (ace + ace_sid L) 0 (SECURITY_LOCAL_SYSTEM_RID L);;
  ace ← next_ace ace;
  set_ace ace 0x00 0x00 0x18 mask;;
  set_nt_sid (ace + ace_sid L) 0x01 0x02;;
  set_sub_authority (ace + ace_sid L) 0 (SECURITY_BUILTIN_DOMAIN_RID L);;
  set_sub_authority (ace + ace_sid L) 1 (DOMAIN_ALIAS_RID_ADMINS L);;
  owner ← load32 (sd + sd_owner L);
  set_nt_sid (sd + owner) 0x01 0x02;;
  set_sub_authority (sd + owner) 0 (SECURITY_BUILTIN_DOMAIN_RID L);;
  set_sub_authority (sd + owner) 1 (DOMAIN_ALIAS_RID_ADMINS L);;
  group ← load32 (sd + sd_group L);
  set_nt_sid (sd + group) 0x01 0x02;;
  set_sub_authority (sd + group) 0 (SECURITY_BUILTIN_DOMAIN_RID L);;
  set_sub_authority (sd + group) 1 (DOMAIN_ALIAS_RID_ADMINS L).

Definition init_secure_sds (sd_val : Z) : M unit :=
  set_secure_sd sd_val 0xF80312F0 0x0100 0x00 0x120089;;
  set_secure_sd (sd_val + 0x80) 0xB32451 0x0101 0x80 0x12019F.

(** The stream [create_root_structures] adds to [$Secure]: a zeroed buffer, the
    entries, and their copy at 0x40000 ([memcpy]). *)
Definition buf_sds_first_size : Z := 0xfc.

Definition secure_stream : option buffer :=
  let zeroed := replicate (Z.to_nat 0x40000 + Z.to_nat buf_sds_first_size) 0 in
  match init_secure_sds 0 zeroed with
  | Some (_, b) =>
      Some (take (Z.to_nat 0x40000) b ++ slice b 0 buf_sds_first_size)
  | None => None
  end.

End Sd.

(** ** The format, as a decoder *)

Record sid_t := mkSid { authority : list Z; sub_authorities : list Z }.
Record ace_t := mkAce { a_type : Z; a_flags : Z; a_mask : Z; a_sid : sid_t }.
Record sd_t := mkSd { d_control : Z; d_owner : sid_t; d_group : sid_t; d_dacl : list ace_t }.

Definition guard_opt (c : bool) : option unit := if c then Some tt else None.

(** Fields at consecutive offsets. *)
Fixpoint get_list (n count : nat) (p : Z) (b : buffer) : option (list Z) :=
  match count with
  | O => Some []
  | S count => v ← get n p b; l ← get_list n count (p + Z.of_nat n) b; Some (v :: l)
  end.

(** A SID and its size. *)
Definition decode_sid (p : Z) (b : buffer) : option (sid_t * Z) :=
  rev ← get 1 p b; guard_opt (rev =? 1);;
  count ← get 1 (p + 1) b; guard_opt (count <=? 15);;
  auth ← get_list 1 6 (p + 2) b;
  subs ← get_list 4 (Z.to_nat count) (p + 8) b;
  Some (mkSid auth subs, 8 + 4 * count).

(** An access ACE fills exactly the size it declares. *)
Definition decode_ace (p : Z) (b : buffer) : option (ace_t * Z) :=
  type ← get 1 p b; flags ← get 1 (p + 1) b; size ← get 2 (p + 2) b;
  mask ← get 4 (p + 4) b;
  '(sid, n) ← decode_sid (p + 8) b;
  guard_opt (size =? 8 + n);;
  Some (mkAce type flags mask sid, size).

(** [count] ACEs in a row, which must end before [limit]. *)
Fixpoint decode_aces (count : nat) (p limit : Z) (b : buffer) : option (list ace_t) :=
  match count with
  | O => guard_opt (p <=? limit);; Some []
  | S count =>
      '(ace, size) ← decode_ace p b;
      l ← decode_aces count (p + size) limit b;
      Some (ace :: l)
  end.

Definition decode_acl (p : Z) (b : buffer) : option (list ace_t) :=
  rev ← get 1 p b; guard_opt (rev =? 2);;
  size ← get 2 (p + 2) b; count ← get 2 (p + 4) b;
  guard_opt (p + size <=? Z.of_nat (length b));;
  decode_aces (Z.to_nat count) (p + 8) (p + size) b.

(** A self-relative descriptor with a DACL and no SACL, which is the whole of
    [b]: its parts lie inside it. *)
Definition decode_sd (b : buffer) : option sd_t :=
  rev ← get 1 0 b; guard_opt (rev =? 1);;
  control ← get 2 2 b; guard_opt (Z.testbit control 15 && Z.testbit control 2);;
  owner ← get 4 4 b; group ← get 4 8 b; sacl ← get 4 12 b; dacl ← get 4 16 b;
  guard_opt (sacl =? 0);;
  acl ← decode_acl dacl b;
  '(o, _) ← decode_sid owner b;
  '(g, _) ← decode_sid group b;
  Some (mkSd control o g acl).

(** ** What the descriptors are to say *)

Definition nt_authority : list Z := [0; 0; 0; 0; 0; 5].
Definition local_system : sid_t := mkSid nt_authority [18].
Definition authenticated_users : sid_t := mkSid nt_authority [11].
Definition administrators : sid_t := mkSid nt_authority [32; 544].
Definition builtin_users : sid_t := mkSid nt_authority [32; 545].

(** Read access, read and write access, full control. *)
Definition FILE_GENERIC_READ : Z := 0x120089.
Definition FILE_GENERIC_READ_WRITE : Z := 0x12019F.
Definition FILE_ALL_ACCESS : Z := 0x1f01ff.

Definition system_file_sd (sys_file_no : Z) : sd_t :=
  let mask := if (sys_file_no =? 4) || (sys_file_no =? 7) then FILE_GENERIC_READ
              else FILE_GENERIC_READ_WRITE in
  mkSd 0x8004 local_system administrators
    [mkAce 0 0 mask local_system; mkAce 0 0 mask administrators].

(** Each principal has an ACE for the directory itself and one that files and
    directories below inherit. *)
Definition root_directory_sd : sd_t :=
  let inherited := 11 in
  mkSd 0x8004 local_system local_system
    [mkAce 0 0 FILE_ALL_ACCESS administrators; mkAce 0 inherited 0x10000000 administrators;
     mkAce 0 0 FILE_ALL_ACCESS local_system; mkAce 0 inherited 0x10000000 local_system;
     mkAce 0 0 0x1301bf authenticated_users; mkAce 0 inherited 0xe0010000 authenticated_users;
     mkAce 0 0 0x1200a9 builtin_users; mkAce 0 inherited 0xa0000000 builtin_users].

(** The NTFS security hash of a descriptor: its 32-bit words, each added to the
    sum rotated left by three bits. *)
Definition rol32 (z n : Z) : Z :=
  Z.lor (Z.shiftl z n mod 2 ^ 32) (Z.shiftr z (32 - n)).

Definition security_hash (words : list Z) : Z :=
  foldl (fun h w => (w + rol32 h 3) mod 2 ^ 32) 0 words.

(** An entry of [$SDS]: hash, identifier, offset in the stream and descriptor. *)
Record sds_t := mkSds { e_hash : Z; e_id : Z; e_offset : Z; e_sd : sd_t }.

(** An entry is well formed when the offset it records is its position, its
    length covers header and descriptor, and the hash is the descriptor's. *)
Definition decode_sds (p : Z) (b : buffer) : option sds_t :=
  hash ← get 4 p b; id ← get 4 (p + 4) b; offset ← get 8 (p + 8) b; len ← get 4 (p + 16) b;
  guard_opt ((0x14 <=? len) && (len mod 4 =? 0) && (p + len <=? Z.of_nat (length b)));;
  let desc := slice b (p + 0x14) (len - 0x14) in
  words ← get_list 4 (Z.to_nat ((len - 0x14) / 4)) 0 desc;
  guard_opt ((hash =? security_hash words) && (offset =? p));;
  sd ← decode_sd desc;
  Some (mkSds hash id offset sd).

Definition secure_sd (mask : Z) : sd_t :=
  mkSd 0x8004 administrators administrators
    [mkAce 0 0 mask local_system; mkAce 0 0 mask administrators].

(** ** Proofs *)

(** The outcome of a computation on a buffer of given length, stated on the
    bytes after it. *)
Lemma list_of_length {A} (n : nat) (l : list A) :
  length l = S n -> exists x l', l = x :: l' /\ length l' = n.
Proof. destruct l as [|x l']; [done|]. intros [= H]. by exists x, l'. Qed.

(** Evaluate the conjuncts one after the other. *)
Ltac evaluate :=
  lazymatch goal with
  | |- _ /\ _ => split; [evaluate | evaluate]
  | |- _ => vm_compute; reflexivity
  end.

Ltac open_list H :=
  repeat (apply list_of_length in H; destruct H as (? & ? & -> & H));
  apply nil_length_inv in H; subst.

Lemma init_system_file_sd_spec n b :
  0 <= n -> length b = 0x68%nat ->
  exists b', init_system_file_sd documented_layout n b = Some ((Some 0, 0x64), b') /\
    decode_sd (take 0x64 b') = Some (system_file_sd n) /\
    drop 0x64 b' = drop 0x64 b.
Proof.
  intros Hn Hb. unfold init_system_file_sd, system_mask, admins_mask, system_file_sd.
  cbn [FILE_AttrDef FILE_Boot documented_layout].
  replace (n <? 0) with false by (symmetry; apply Z.ltb_ge; lia).
  open_list Hb.
  destruct ((n =? 4) || (n =? 7)); (eexists; evaluate).
Qed.

(** [k] calls in a row: the root directory's array holds zeroes before the first
    call and what the previous call left there before any later one. *)
Definition root_sd_calls (L : layout_h) (k : nat) : option ((Z * Z) * buffer) :=
  Nat.iter k (fun r => match r with Some (_, b) => init_root_sd L b | None => None end)
    (Some ((0, 0), replicate (Z.to_nat 0x102c) 0)).

Definition root_sd_array : buffer :=
  match root_sd_calls documented_layout 1 with Some (_, b) => b | None => [] end.

Lemma init_root_sd_spec :
  root_sd_calls documented_layout 1 = Some ((0, 0x102c), root_sd_array) /\
  init_root_sd documented_layout root_sd_array = Some ((0, 0x102c), root_sd_array) /\
  length root_sd_array = Z.to_nat 0x102c /\
  decode_sd root_sd_array = Some root_directory_sd.
Proof. evaluate. Qed.

Lemma local_set_nt_sid L sid rev count : local (set_nt_sid L sid rev count).
Proof. unfold set_nt_sid. auto 20 with local. Qed.

Lemma local_set_sub_authority L sid i rid : local (set_sub_authority L sid i rid).
Proof. apply local_store_le. Qed.

Lemma local_set_ace L ace type flags size mask : local (set_ace L ace type flags size mask).
Proof. unfold set_ace. auto 20 with local. Qed.

Lemma local_next_ace L ace : local (next_ace L ace).
Proof. unfold next_ace. auto with local. Qed.

Lemma local_set_sd L sd revision owner group sacl dacl :
  local (set_sd L sd revision owner group sacl dacl).
Proof. unfold set_sd. auto 20 with local. Qed.

Lemma local_set_acl L acl revision size count : local (set_acl L acl revision size count).
Proof. unfold set_acl. auto 20 with local. Qed.

#[export] Hint Resolve local_set_nt_sid local_set_sub_authority local_set_ace local_next_ace
  local_set_sd local_set_acl : local.

Lemma local_set_secure_sd L sds hash id offset mask :
  local (set_secure_sd L sds hash id offset mask).
Proof.
  unfold set_secure_sd. cbv zeta.
  repeat (apply local_bind; [auto with local | intros ?]). auto with local.
Qed.

Lemma local_init_secure_sds L sd_val : local (init_secure_sds L sd_val).
Proof. unfold init_secure_sds. apply local_bind; auto using local_set_secure_sd. Qed.

(** The entries, in any buffer of 0xfc bytes: the four bytes between them keep
    their contents. *)
Lemma init_secure_sds_spec b :
  length b = 0xfc%nat ->
  exists b', init_secure_sds documented_layout 0 b = Some (tt, b') /\ length b' = 0xfc%nat /\
    decode_sds 0 b' = Some (mkSds 0xF80312F0 0x100 0 (secure_sd FILE_GENERIC_READ)) /\
    decode_sds 0x80 b' = Some (mkSds 0xB32451 0x101 0x80 (secure_sd FILE_GENERIC_READ_WRITE)) /\
    slice b' 0x7c 4 = slice b 0x7c 4.
Proof.
  intros Hb. open_list Hb. (eexists; evaluate).
Qed.

(** ** The properties *)

(** [C40] For every system file number the descriptor's stores stay inside the
    0x68-byte static array, whatever a previous call left in it; the 0x64 bytes
    returned decode to the intended descriptor (owner local system, group
    administrators, an ACE for each; read-only rights exactly for [$AttrDef] and
    [$Boot], read and write rights for the others), and the bytes behind them
    keep their contents.  A negative number gives NULL and length 0. *)
Theorem init_system_file_sd_roundtrip L n b :
  L = documented_layout -> length b = 0x68%nat ->
  (n < 0 -> init_system_file_sd L n b = Some ((None, 0), b)) /\
  (0 <= n -> exists b',
     init_system_file_sd L n b = Some ((Some 0, 0x64), b') /\
     decode_sd (take 0x64 b') = Some (system_file_sd n) /\
     drop 0x64 b' = drop 0x64 b).
Proof.
  intros -> Hb. split.
  - intros Hn. unfold init_system_file_sd. by apply Z.ltb_lt in Hn as ->.
  - intros Hn. by apply init_system_file_sd_spec.
Qed.

Lemma init_system_file_sd_roundtrip_witness :
  exists b', init_system_file_sd documented_layout 4 (replicate 0x68 7) = Some ((Some 0, 0x64), b') /\
    decode_sd (take 0x64 b') = Some (system_file_sd 4).
Proof.
  destruct (proj2 (init_system_file_sd_roundtrip documented_layout 4 (replicate 0x68 7)
                     eq_refl eq_refl) ltac:(lia)) as (b' & R & D & _).
  exists b'. exact (conj R D).
Defined.

(** The root directory's descriptor: the stores stay inside the
    0x102c-byte static array on the first call and on every later one, leave the
    same bytes each time, and those bytes decode to a descriptor owned by the
    local system with eight ACEs, in which each principal has an entry for the
    directory and an inherit-only one. *)
Theorem init_root_sd_roundtrip L k :
  L = documented_layout ->
  exists b, root_sd_calls L (S k) = Some ((0, 0x102c), b) /\
    length b = Z.to_nat 0x102c /\ decode_sd b = Some root_directory_sd.
Proof.
  intros ->. destruct init_root_sd_spec as (I0 & I1 & Len & D).
  exists root_sd_array. split; [|split; [exact Len | exact D]].
  induction k as [|k IH]; [exact I0|].
  unfold root_sd_calls in *. rewrite Nat.iter_succ, IH. exact I1.
Qed.

Lemma init_root_sd_roundtrip_witness :
  exists b, root_sd_calls documented_layout 2 = Some ((0, 0x102c), b)
    /\ decode_sd b = Some root_directory_sd.
Proof.
  destruct (init_root_sd_roundtrip documented_layout 1 eq_refl) as (b & R & _ & D).
  exists b. exact (conj R D).
Defined.

(** The [$SDS] stream of [$Secure]: building it never leaves the allocated
    buffer; its first 0xfc bytes hold two entries, at offsets 0 and 0x80, each
    recording its own position, its length and the security hash of the
    descriptor it carries (the constants in the source are those hashes); and
    the block at 0x40000 is an exact copy of them. *)
Theorem secure_stream_correct L :
  L = documented_layout ->
  exists s, secure_stream L = Some s /\
    length s = (Z.to_nat 0x40000 + Z.to_nat 0xfc)%nat /\
    decode_sds 0 (slice s 0 0xfc) =
      Some (mkSds 0xF80312F0 0x100 0 (secure_sd FILE_GENERIC_READ)) /\
    decode_sds 0x80 (slice s 0 0xfc) =
      Some (mkSds 0xB32451 0x101 0x80 (secure_sd FILE_GENERIC_READ_WRITE)) /\
    slice s 0x40000 0xfc = slice s 0 0xfc.
Proof.
  intros ->. unfold secure_stream, buf_sds_first_size.
  change 0x40000 with (Z.of_nat (Z.to_nat 0x40000)). rewrite !Nat2Z.id.
  assert (Z.to_nat 0xfc <= Z.to_nat 0x40000)%nat as Hbig by lia.
  generalize dependent (Z.to_nat 0x40000). intros big Hbig. set (n := Z.to_nat 0xfc) in *.
  destruct (init_secure_sds_spec (replicate n 0)) as (e & R & Le & D1 & D2 & _);
    [apply length_replicate|].
  assert (init_secure_sds documented_layout 0 (replicate (big + n) 0) =
          Some (tt, e ++ replicate big 0)) as ->.
  { rewrite (Nat.add_comm big n), replicate_add.
    by apply (proj2 (local_init_secure_sds _ _ _ _ _ R)). }
  assert (slice (e ++ replicate big 0) 0 0xfc = e) as ->.
  { unfold slice. cbn [drop Z.to_nat]. fold n.
    by rewrite drop_0, take_app_length'. }
  set (s := take big (e ++ replicate big 0) ++ e).
  assert (length (take big (e ++ replicate big 0)) = big) as Lt.
  { rewrite length_take, length_app, length_replicate. lia. }
  assert (slice s 0 0xfc = e) as E0.
  { unfold slice, s. fold n. rewrite drop_0, take_app_le by lia.
    rewrite take_take, Nat.min_l by lia. by apply take_app_length'. }
  assert (slice s (Z.of_nat big) 0xfc = e) as E1.
  { unfold slice, s. fold n. rewrite Nat2Z.id, drop_app_length' by done.
    apply take_ge. lia. }
  exists s. rewrite E0. split_and!; auto.
  unfold s. rewrite length_app, Lt, Le. done.
Qed.

Lemma secure_stream_correct_witness :
  exists s, secure_stream documented_layout = Some s /\
    slice s 0x40000 0xfc = slice s 0 0xfc.
Proof.
  destruct (secure_stream_correct documented_layout eq_refl) as (s & R & _ & _ & _ & C).
  exists s. exact (conj R C).
Defined.
