(* ===== verification/AttrDef.v ===== *)
(** * The attribute definition table

    [mkntfs/attrdef.c]: the 2560 bytes mkntfs writes as [$AttrDef], and the
    decoder of the [ATTR_DEF] records of the NTFS format that says what they
    mean.  [mkntfs_redirect] copies them into [g_vol->attrdef]
    ([attrdef_of_volume]), where libntfs-3g looks attribute types up. *)

From S2P Require Import Prelude Bytes.
From stdpp Require Import strings.
From Stdlib Require Import Ascii.

#[local] Open Scope Z_scope.

(** One row per line of the source. *)
Definition attrdef_ntfs3x_array : list Z := concat [
  [36; 0; 83; 0; 84; 0; 65; 0; 78; 0; 68; 0; 65; 0; 82; 0];
  [68; 0; 95; 0; 73; 0; 78; 0; 70; 0; 79; 0; 82; 0; 77; 0];
  [65; 0; 84; 0; 73; 0; 79; 0; 78; 0; 0; 0; 0; 0; 0; 0];
  [0; 0; 0; 0; 0; 0; 0; 0; 0; 0; 0; 0; 0; 0; 0; 0];
  [0; 0; 0; 0; 0; 0; 0; 0; 0; 0; 0; 0; 0; 0; 0; 0];
  [0; 0; 0; 0; 0; 0; 0; 0; 0; 0; 0; 0; 0; 0; 0; 0];
  [0; 0; 0; 0; 0; 0; 0; 0; 0; 0; 0; 0; 0; 0; 0; 0];
  [0; 0; 0; 0; 0; 0; 0; 0; 0; 0; 0; 0; 0; 0; 0; 0];
  [16; 0; 0; 0; 0; 0; 0; 0; 0; 0; 0; 0; 64; 0; 0; 0];
  [48; 0; 0; 0; 0; 0; 0; 0; 72; 0; 0; 0; 0; 0; 0; 0];
  [36; 0; 65; 0; 84; 0; 84; 0; 82; 0; 73; 0; 66; 0; 85; 0];
  [84; 0; 69; 0; 95; 0; 76; 0; 73; 0; 83; 0; 84; 0; 0; 0];
  [0; 0; 0; 0; 0; 0; 0; 0; 0; 0; 0; 0; 0; 0; 0; 0];
  [0; 0; 0; 0; 0; 0; 0; 0; 0; 0; 0; 0; 0; 0; 0; 0];
  [0; 0; 0; 0; 0; 0; 0; 0; 0; 0; 0; 0; 0; 0; 0; 0];
  [0; 0; 0; 0; 0; 0; 0; 0; 0; 0; 0; 0; 0; 0; 0; 0];
  [0; 0; 0; 0; 0; 0; 0; 0; 0; 0; 0; 0; 0; 0; 0; 0];
  [0; 0; 0; 0; 0; 0; 0; 0; 0; 0; 0; 0; 0; 0; 0; 0];
  [32; 0; 0; 0; 0; 0; 0; 0; 0; 0; 0; 0; 128; 0; 0; 0];
  [0; 0; 0; 0; 0; 0; 0; 0; 255; 255; 255; 255; 255; 255; 255; 255];
  [36; 0; 70; 0; 73; 0; 76; 0; 69; 0; 95; 0; 78; 0; 65; 0];
  [77; 0; 69; 0; 0; 0; 0; 0; 0; 0; 0; 0; 0; 0; 0; 0];
  [0; 0; 0; 0; 0; 0; 0; 0; 0; 0; 0; 0; 0; 0; 0; 0];
  [0; 0; 0; 0; 0; 0; 0; 0; 0; 0; 0; 0; 0; 0; 0; 0];
  [0; 0; 0; 0; 0; 0; 0; 0; 0; 0; 0; 0; 0; 0; 0; 0];
  [0; 0; 0; 0; 0; 0; 0; 0; 0; 0; 0; 0; 0; 0; 0; 0];
  [0; 0; 0; 0; 0; 0; 0; 0; 0; 0; 0; 0; 0; 0; 0; 0];
  [0; 0; 0; 0; 0; 0; 0; 0; 0; 0; 0; 0; 0; 0; 0; 0];
  [48; 0; 0; 0; 0; 0; 0; 0; 0; 0; 0; 0; 66; 0; 0; 0];
  [68; 0; 0; 0; 0; 0; 0; 0; 66; 2; 0; 0; 0; 0; 0; 0];
  [36; 0; 79; 0; 66; 0; 74; 0; 69; 0; 67; 0; 84; 0; 95; 0];
  [73; 0; 68; 0; 0; 0; 0; 0; 0; 0; 0; 0; 0; 0; 0; 0];
  [0; 0; 0; 0; 0; 0; 0; 0; 0; 0; 0; 0; 0; 0; 0; 0];
  [0; 0; 0; 0; 0; 0; 0; 0; 0; 0; 0; 0; 0; 0; 0; 0];
  [0; 0; 0; 0; 0; 0; 0; 0; 0; 0; 0; 0; 0; 0; 0; 0];
  [0; 0; 0; 0; 0; 0; 0; 0; 0; 0; 0; 0; 0; 0; 0; 0];
  [0; 0; 0; 0; 0; 0; 0; 0; 0; 0; 0; 0; 0; 0; 0; 0];
  [0; 0; 0; 0; 0; 0; 0; 0; 0; 0; 0; 0; 0; 0; 0; 0];
  [64; 0; 0; 0; 0; 0; 0; 0; 0; 0; 0; 0; 64; 0; 0; 0];
  [0; 0; 0; 0; 0; 0; 0; 0; 0; 1; 0; 0; 0; 0; 0; 0];
  [36; 0; 83; 0; 69; 0; 67; 0; 85; 0; 82; 0; 73; 0; 84; 0];
  [89; 0; 95; 0; 68; 0; 69; 0; 83; 0; 67; 0; 82; 0; 73; 0];
  [80; 0; 84; 0; 79; 0; 82; 0; 0; 0; 0; 0; 0; 0; 0; 0];
  [0; 0; 0; 0; 0; 0; 0; 0; 0; 0; 0; 0; 0; 0; 0; 0];
  [0; 0; 0; 0; 0; 0; 0; 0; 0; 0; 0; 0; 0; 0; 0; 0];
  [0; 0; 0; 0; 0; 0; 0; 0; 0; 0; 0; 0; 0; 0; 0; 0];
  [0; 0; 0; 0; 0; 0; 0; 0; 0; 0; 0; 0; 0; 0; 0; 0];
  [0; 0; 0; 0; 0; 0; 0; 0; 0; 0; 0; 0; 0; 0; 0; 0];
  [80; 0; 0; 0; 0; 0; 0; 0; 0; 0; 0; 0; 128; 0; 0; 0];
  [0; 0; 0; 0; 0; 0; 0; 0; 255; 255; 255; 255; 255; 255; 255; 255];
  [36; 0; 86; 0; 79; 0; 76; 0; 85; 0; 77; 0; 69; 0; 95; 0];
  [78; 0; 65; 0; 77; 0; 69; 0; 0; 0; 0; 0; 0; 0; 0; 0];
  [0; 0; 0; 0; 0; 0; 0; 0; 0; 0; 0; 0; 0; 0; 0; 0];
  [0; 0; 0; 0; 0; 0; 0; 0; 0; 0; 0; 0; 0; 0; 0; 0];
  [0; 0; 0; 0; 0; 0; 0; 0; 0; 0; 0; 0; 0; 0; 0; 0];
  [0; 0; 0; 0; 0; 0; 0; 0; 0; 0; 0; 0; 0; 0; 0; 0];
  [0; 0; 0; 0; 0; 0; 0; 0; 0; 0; 0; 0; 0; 0; 0; 0];
  [0; 0; 0; 0; 0; 0; 0; 0; 0; 0; 0; 0; 0; 0; 0; 0];
  [96; 0; 0; 0; 0; 0; 0; 0; 0; 0; 0; 0; 64; 0; 0; 0];
  [2; 0; 0; 0; 0; 0; 0; 0; 0; 1; 0; 0; 0; 0; 0; 0];
  [36; 0; 86; 0; 79; 0; 76; 0; 85; 0; 77; 0; 69; 0; 95; 0];
  [73; 0; 78; 0; 70; 0; 79; 0; 82; 0; 77; 0; 65; 0; 84; 0];
  [73; 0; 79; 0; 78; 0; 0; 0; 0; 0; 0; 0; 0; 0; 0; 0];
  [0; 0; 0; 0; 0; 0; 0; 0; 0; 0; 0; 0; 0; 0; 0; 0];
  [0; 0; 0; 0; 0; 0; 0; 0; 0; 0; 0; 0; 0; 0; 0; 0];
  [0; 0; 0; 0; 0; 0; 0; 0; 0; 0; 0; 0; 0; 0; 0; 0];
  [0; 0; 0; 0; 0; 0; 0; 0; 0; 0; 0; 0; 0; 0; 0; 0];
  [0; 0; 0; 0; 0; 0; 0; 0; 0; 0; 0; 0; 0; 0; 0; 0];
  [112; 0; 0; 0; 0; 0; 0; 0; 0; 0; 0; 0; 64; 0; 0; 0];
  [12; 0; 0; 0; 0; 0; 0; 0; 12; 0; 0; 0; 0; 0; 0; 0];
  [36; 0; 68; 0; 65; 0; 84; 0; 65; 0; 0; 0; 0; 0; 0; 0];
  [0; 0; 0; 0; 0; 0; 0; 0; 0; 0; 0; 0; 0; 0; 0; 0];
  [0; 0; 0; 0; 0; 0; 0; 0; 0; 0; 0; 0; 0; 0; 0; 0];
  [0; 0; 0; 0; 0; 0; 0; 0; 0; 0; 0; 0; 0; 0; 0; 0];
  [0; 0; 0; 0; 0; 0; 0; 0; 0; 0; 0; 0; 0; 0; 0; 0];
  [0; 0; 0; 0; 0; 0; 0; 0; 0; 0; 0; 0; 0; 0; 0; 0];
  [0; 0; 0; 0; 0; 0; 0; 0; 0; 0; 0; 0; 0; 0; 0; 0];
  [0; 0; 0; 0; 0; 0; 0; 0; 0; 0; 0; 0; 0; 0; 0; 0];
  [128; 0; 0; 0; 0; 0; 0; 0; 0; 0; 0; 0; 0; 0; 0; 0];
  [0; 0; 0; 0; 0; 0; 0; 0; 255; 255; 255; 255; 255; 255; 255; 255];
  [36; 0; 73; 0; 78; 0; 68; 0; 69; 0; 88; 0; 95; 0; 82; 0];
  [79; 0; 79; 0; 84; 0; 0; 0; 0; 0; 0; 0; 0; 0; 0; 0];
  [0; 0; 0; 0; 0; 0; 0; 0; 0; 0; 0; 0; 0; 0; 0; 0];
  [0; 0; 0; 0; 0; 0; 0; 0; 0; 0; 0; 0; 0; 0; 0; 0];
  [0; 0; 0; 0; 0; 0; 0; 0; 0; 0; 0; 0; 0; 0; 0; 0];
  [0; 0; 0; 0; 0; 0; 0; 0; 0; 0; 0; 0; 0; 0; 0; 0];
  [0; 0; 0; 0; 0; 0; 0; 0; 0; 0; 0; 0; 0; 0; 0; 0];
  [0; 0; 0; 0; 0; 0; 0; 0; 0; 0; 0; 0; 0; 0; 0; 0];
  [144; 0; 0; 0; 0; 0; 0; 0; 0; 0; 0; 0; 64; 0; 0; 0];
  [0; 0; 0; 0; 0; 0; 0; 0; 255; 255; 255; 255; 255; 255; 255; 255];
  [36; 0; 73; 0; 78; 0; 68; 0; 69; 0; 88; 0; 95; 0; 65; 0];
  [76; 0; 76; 0; 79; 0; 67; 0; 65; 0; 84; 0; 73; 0; 79; 0];
  [78; 0; 0; 0; 0; 0; 0; 0; 0; 0; 0; 0; 0; 0; 0; 0];
  [0; 0; 0; 0; 0; 0; 0; 0; 0; 0; 0; 0; 0; 0; 0; 0];
  [0; 0; 0; 0; 0; 0; 0; 0; 0; 0; 0; 0; 0; 0; 0; 0];
  [0; 0; 0; 0; 0; 0; 0; 0; 0; 0; 0; 0; 0; 0; 0; 0];
  [0; 0; 0; 0; 0; 0; 0; 0; 0; 0; 0; 0; 0; 0; 0; 0];
  [0; 0; 0; 0; 0; 0; 0; 0; 0; 0; 0; 0; 0; 0; 0; 0];
  [160; 0; 0; 0; 0; 0; 0; 0; 0; 0; 0; 0; 128; 0; 0; 0];
  [0; 0; 0; 0; 0; 0; 0; 0; 255; 255; 255; 255; 255; 255; 255; 255];
  [36; 0; 66; 0; 73; 0; 84; 0; 77; 0; 65; 0; 80; 0; 0; 0];
  [0; 0; 0; 0; 0; 0; 0; 0; 0; 0; 0; 0; 0; 0; 0; 0];
  [0; 0; 0; 0; 0; 0; 0; 0; 0; 0; 0; 0; 0; 0; 0; 0];
  [0; 0; 0; 0; 0; 0; 0; 0; 0; 0; 0; 0; 0; 0; 0; 0];
  [0; 0; 0; 0; 0; 0; 0; 0; 0; 0; 0; 0; 0; 0; 0; 0];
  [0; 0; 0; 0; 0; 0; 0; 0; 0; 0; 0; 0; 0; 0; 0; 0];
  [0; 0; 0; 0; 0; 0; 0; 0; 0; 0; 0; 0; 0; 0; 0; 0];
  [0; 0; 0; 0; 0; 0; 0; 0; 0; 0; 0; 0; 0; 0; 0; 0];
  [176; 0; 0; 0; 0; 0; 0; 0; 0; 0; 0; 0; 128; 0; 0; 0];
  [0; 0; 0; 0; 0; 0; 0; 0; 255; 255; 255; 255; 255; 255; 255; 255];
  [36; 0; 82; 0; 69; 0; 80; 0; 65; 0; 82; 0; 83; 0; 69; 0];
  [95; 0; 80; 0; 79; 0; 73; 0; 78; 0; 84; 0; 0; 0; 0; 0];
  [0; 0; 0; 0; 0; 0; 0; 0; 0; 0; 0; 0; 0; 0; 0; 0];
  [0; 0; 0; 0; 0; 0; 0; 0; 0; 0; 0; 0; 0; 0; 0; 0];
  [0; 0; 0; 0; 0; 0; 0; 0; 0; 0; 0; 0; 0; 0; 0; 0];
  [0; 0; 0; 0; 0; 0; 0; 0; 0; 0; 0; 0; 0; 0; 0; 0];
  [0; 0; 0; 0; 0; 0; 0; 0; 0; 0; 0; 0; 0; 0; 0; 0];
  [0; 0; 0; 0; 0; 0; 0; 0; 0; 0; 0; 0; 0; 0; 0; 0];
  [192; 0; 0; 0; 0; 0; 0; 0; 0; 0; 0; 0; 128; 0; 0; 0];
  [0; 0; 0; 0; 0; 0; 0; 0; 0; 64; 0; 0; 0; 0; 0; 0];
  [36; 0; 69; 0; 65; 0; 95; 0; 73; 0; 78; 0; 70; 0; 79; 0];
  [82; 0; 77; 0; 65; 0; 84; 0; 73; 0; 79; 0; 78; 0; 0; 0];
  [0; 0; 0; 0; 0; 0; 0; 0; 0; 0; 0; 0; 0; 0; 0; 0];
  [0; 0; 0; 0; 0; 0; 0; 0; 0; 0; 0; 0; 0; 0; 0; 0];
  [0; 0; 0; 0; 0; 0; 0; 0; 0; 0; 0; 0; 0; 0; 0; 0];
  [0; 0; 0; 0; 0; 0; 0; 0; 0; 0; 0; 0; 0; 0; 0; 0];
  [0; 0; 0; 0; 0; 0; 0; 0; 0; 0; 0; 0; 0; 0; 0; 0];
  [0; 0; 0; 0; 0; 0; 0; 0; 0; 0; 0; 0; 0; 0; 0; 0];
  [208; 0; 0; 0; 0; 0; 0; 0; 0; 0; 0; 0; 64; 0; 0; 0];
  [8; 0; 0; 0; 0; 0; 0; 0; 8; 0; 0; 0; 0; 0; 0; 0];
  [36; 0; 69; 0; 65; 0; 0; 0; 0; 0; 0; 0; 0; 0; 0; 0];
  [0; 0; 0; 0; 0; 0; 0; 0; 0; 0; 0; 0; 0; 0; 0; 0];
  [0; 0; 0; 0; 0; 0; 0; 0; 0; 0; 0; 0; 0; 0; 0; 0];
  [0; 0; 0; 0; 0; 0; 0; 0; 0; 0; 0; 0; 0; 0; 0; 0];
  [0; 0; 0; 0; 0; 0; 0; 0; 0; 0; 0; 0; 0; 0; 0; 0];
  [0; 0; 0; 0; 0; 0; 0; 0; 0; 0; 0; 0; 0; 0; 0; 0];
  [0; 0; 0; 0; 0; 0; 0; 0; 0; 0; 0; 0; 0; 0; 0; 0];
  [0; 0; 0; 0; 0; 0; 0; 0; 0; 0; 0; 0; 0; 0; 0; 0];
  [224; 0; 0; 0; 0; 0; 0; 0; 0; 0; 0; 0; 0; 0; 0; 0];
  [0; 0; 0; 0; 0; 0; 0; 0; 0; 0; 1; 0; 0; 0; 0; 0];
  [36; 0; 76; 0; 79; 0; 71; 0; 71; 0; 69; 0; 68; 0; 95; 0];
  [85; 0; 84; 0; 73; 0; 76; 0; 73; 0; 84; 0; 89; 0; 95; 0];
  [83; 0; 84; 0; 82; 0; 69; 0; 65; 0; 77; 0; 0; 0; 0; 0];
  [0; 0; 0; 0; 0; 0; 0; 0; 0; 0; 0; 0; 0; 0; 0; 0];
  [0; 0; 0; 0; 0; 0; 0; 0; 0; 0; 0; 0; 0; 0; 0; 0];
  [0; 0; 0; 0; 0; 0; 0; 0; 0; 0; 0; 0; 0; 0; 0; 0];
  [0; 0; 0; 0; 0; 0; 0; 0; 0; 0; 0; 0; 0; 0; 0; 0];
  [0; 0; 0; 0; 0; 0; 0; 0; 0; 0; 0; 0; 0; 0; 0; 0];
  [0; 1; 0; 0; 0; 0; 0; 0; 0; 0; 0; 0; 128; 0; 0; 0];
  [0; 0; 0; 0; 0; 0; 0; 0; 0; 0; 1; 0; 0; 0; 0; 0];
  [0; 0; 0; 0; 0; 0; 0; 0; 0; 0; 0; 0; 0; 0; 0; 0];
  [0; 0; 0; 0; 0; 0; 0; 0; 0; 0; 0; 0; 0; 0; 0; 0];
  [0; 0; 0; 0; 0; 0; 0; 0; 0; 0; 0; 0; 0; 0; 0; 0];
  [0; 0; 0; 0; 0; 0; 0; 0; 0; 0; 0; 0; 0; 0; 0; 0];
  [0; 0; 0; 0; 0; 0; 0; 0; 0; 0; 0; 0; 0; 0; 0; 0];
  [0; 0; 0; 0; 0; 0; 0; 0; 0; 0; 0; 0; 0; 0; 0; 0];
  [0; 0; 0; 0; 0; 0; 0; 0; 0; 0; 0; 0; 0; 0; 0; 0];
  [0; 0; 0; 0; 0; 0; 0; 0; 0; 0; 0; 0; 0; 0; 0; 0];
  [0; 0; 0; 0; 0; 0; 0; 0; 0; 0; 0; 0; 0; 0; 0; 0];
  [0; 0; 0; 0; 0; 0; 0; 0; 0; 0; 0; 0; 0; 0; 0; 0]
].

(** [mkntfs_redirect]: [ntfs_malloc] of the table's size, [memcpy], and the
    length; [None] when the allocation fails. *)
Definition attrdef_of_volume (malloc_ok : bool) : option (list Z * Z) :=
  if malloc_ok then Some (attrdef_ntfs3x_array, 2560) else None.

(** ** The format *)

(** An [ATTR_DEF] record of 0xa0 bytes: the name (64 UTF-16 units), the
    attribute type, the collation rule, the flags and the size limits. *)
Record attr_def := mkAttrDef {
  ad_name : string; ad_type : Z; ad_collation : Z; ad_flags : Z; ad_min : Z; ad_max : Z
}.

Definition sizeof_ATTR_DEF : Z := 0xa0.

(** A name is ASCII, ended by a zero unit and followed by zeroes. *)
Fixpoint decode_name (units : list Z) : option string :=
  match units with
  | [] => None
  | u :: us =>
      if u =? 0 then (if forallb (Z.eqb 0) us then Some EmptyString else None)
      else if (0 <? u) && (u <? 128) then
        String (ascii_of_nat (Z.to_nat u)) <$> decode_name us
      else None
  end.

Fixpoint get_units (count : nat) (p : Z) (b : buffer) : option (list Z) :=
  match count with
  | O => Some []
  | S count => u ← get 2 p b; us ← get_units count (p + 2) b; Some (u :: us)
  end.

(** A 64-bit field read as a signed number. *)
Definition get_sle64 (p : Z) (b : buffer) : option Z := to_s 64 <$> get 8 p b.

Definition decode_attr_def (b : buffer) : option attr_def :=
  units ← get_units 64 0 b;
  name ← decode_name units;
  type ← get 4 0x80 b; display ← get 4 0x84 b; coll ← get 4 0x88 b; flags ← get 4 0x8c b;
  min ← get_sle64 0x90 b; max ← get_sle64 0x98 b;
  if display =? 0 then Some (mkAttrDef name type coll flags min max) else None.

(** Records up to the one whose type is zero, which ends the table; its
    bytes must all be zero. *)
Fixpoint decode_table (n : nat) (b : buffer) : option (list attr_def) :=
  match n with
  | O => None
  | S n =>
      type ← get 4 0x80 b;
      if type =? 0 then (if forallb (Z.eqb 0) b then Some [] else None)
      else
        d ← decode_attr_def (slice b 0 sizeof_ATTR_DEF);
        l ← decode_table n (drop (Z.to_nat sizeof_ATTR_DEF) b);
        Some (d :: l)
  end.

(** The table of NTFS 3.x.  Flags: 0x02 indexable, 0x40 always resident, 0x80
    may be non-resident; a maximum of -1 is no limit. *)
Definition ntfs3x_attributes : list attr_def := [
  mkAttrDef "$STANDARD_INFORMATION" 0x10 0 0x40 0x30 0x48;
  mkAttrDef "$ATTRIBUTE_LIST" 0x20 0 0x80 0 (-1);
  mkAttrDef "$FILE_NAME" 0x30 0 0x42 0x44 0x242;
  mkAttrDef "$OBJECT_ID" 0x40 0 0x40 0 0x100;
  mkAttrDef "$SECURITY_DESCRIPTOR" 0x50 0 0x80 0 (-1);
  mkAttrDef "$VOLUME_NAME" 0x60 0 0x40 2 0x100;
  mkAttrDef "$VOLUME_INFORMATION" 0x70 0 0x40 0xc 0xc;
  mkAttrDef "$DATA" 0x80 0 0 0 (-1);
  mkAttrDef "$INDEX_ROOT" 0x90 0 0x40 0 (-1);
  mkAttrDef "$INDEX_ALLOCATION" 0xa0 0 0x80 0 (-1);
  mkAttrDef "$BITMAP" 0xb0 0 0x80 0 (-1);
  mkAttrDef "$REPARSE_POINT" 0xc0 0 0x80 0 0x4000;
  mkAttrDef "$EA_INFORMATION" 0xd0 0 0x40 8 8;
  mkAttrDef "$EA" 0xe0 0 0 0 0x10000;
  mkAttrDef "$LOGGED_UTILITY_STREAM" 0x100 0 0x80 0 0x10000].

(** Consecutive records have growing types, and limits in order. *)
Fixpoint well_formed_table (last : Z) (l : list attr_def) : bool :=
  match l with
  | [] => true
  | d :: l =>
      (last <? ad_type d) && (ad_type d mod 16 =? 0) &&
      (0 <=? ad_min d) && ((ad_max d =? -1) || (ad_min d <=? ad_max d)) &&
      well_formed_table (ad_type d) l
  end.

Lemma decode_attrdef_array :
  decode_table 16 attrdef_ntfs3x_array = Some ntfs3x_attributes.
Proof. vm_compute. reflexivity. Qed.

Lemma well_formed_sorted last l :
  well_formed_table last l = true ->
  Forall (fun d => last < ad_type d) l /\
  forall i j d e, (i < j)%nat -> l !! i = Some d -> l !! j = Some e -> ad_type d < ad_type e.
Proof.
  revert last. induction l as [|d l IH]; intros last; cbn [well_formed_table].
  { intros _. split; [constructor|]. done. }
  intros H. zb. destruct (IH (ad_type d)) as [Hall Hlt]; [done|]. split.
  - constructor; [lia|]. eapply Forall_impl; [exact Hall|]. cbn. intros. lia.
  - intros [|i] [|j] d' e' Hij Hi Hj; try lia.
    + injection Hi as <-. rewrite Forall_lookup in Hall. by apply (Hall j).
    + eapply Hlt; [|exact Hi|exact Hj]. lia.
Qed.

(** The table mkntfs writes as [$AttrDef], 2560 bytes copied unchanged into
    the volume, decodes record by record to the attribute definitions of NTFS
    3.x and ends in a record of zeroes; the types grow strictly, so that no
    type is defined twice, and minimum sizes do not exceed the
    maximum ones. *)
Theorem attrdef_table_decodes :
  exists b, attrdef_of_volume true = Some (b, Z.of_nat (length b)) /\
    decode_table 16 b = Some ntfs3x_attributes /\
    Forall (fun v => 0 <= v < 256) b /\
    (forall i j d e, (i < j)%nat -> ntfs3x_attributes !! i = Some d ->
       ntfs3x_attributes !! j = Some e -> ad_type d < ad_type e) /\
    Forall (fun d => ad_max d = -1 \/ ad_min d <= ad_max d) ntfs3x_attributes.
Proof.
  exists attrdef_ntfs3x_array. split; [vm_compute; reflexivity|].
  split; [exact decode_attrdef_array|]. split.
  { assert (forallb (fun v => (0 <=? v) && (v <? 256)) attrdef_ntfs3x_array = true) as H
      by (vm_compute; reflexivity).
    rewrite forallb_forall in H. apply Forall_forall. intros x Hx%list_elem_of_In.
    apply H in Hx. zb. lia. }
  split; [by apply (well_formed_sorted 0)|].
  repeat constructor; cbn; lia.
Qed.
