(* ===== verification/Mft.v ===== *)
(** * MFT records and their attributes

    Models of src/NTFSModule/bridge/mkntfs/mkntfs.c: [make_room_for_attribute],
    [mkntfs_attr_find], [mkntfs_attr_lookup], [insert_resident_attr_in_mft_record],
    [non_resident_unnamed_data], [stdinfo_time] and the [add_attr_*] functions that
    add a resident attribute.

    An MFT record is a buffer of [bytes_allocated] bytes, a pointer into it is an
    offset; every access is bounds checked by the monad of [Bytes].  The offsets of
    the fields and the constants come from libntfs-3g's [layout.h], a parameter
    ([record_h]); the conversion and comparison of names and the search context
    come from the library too ([RecordLib]).  The consistency checks under
    [#ifdef DEBUG] are not part of the model. *)

From S2P Require Import Prelude Bytes.

(** ** What the code takes from libntfs-3g *)

Record record_h := {
  (* MFT_RECORD *)
  m_attrs_offset : Z; m_bytes_in_use : Z; m_bytes_allocated : Z; m_next_attr_instance : Z;
  (* ATTR_RECORD *)
  a_type : Z; a_length : Z; a_non_resident : Z; a_name_length : Z; a_name_offset : Z;
  a_flags : Z; a_instance : Z; a_value_length : Z; a_value_offset : Z;
  a_resident_flags : Z; a_reservedR : Z;
  (* attribute types and flags *)
  AT_UNUSED : Z; AT_STANDARD_INFORMATION : Z; AT_ATTRIBUTE_LIST : Z; AT_FILE_NAME : Z;
  AT_OBJECT_ID : Z; AT_SECURITY_DESCRIPTOR : Z; AT_VOLUME_NAME : Z; AT_VOLUME_INFORMATION : Z;
  AT_DATA : Z; AT_INDEX_ROOT : Z; AT_INDEX_ALLOCATION : Z; AT_BITMAP : Z; AT_END : Z;
  RESIDENT_ATTR_IS_INDEXED : Z; VOLUME_FLAGS_MASK : Z;
  (* STANDARD_INFORMATION *)
  sizeof_STANDARD_INFORMATION : Z; si_creation_time : Z; si_last_data_change_time : Z;
  si_last_mft_change_time : Z; si_last_access_time : Z; si_file_attributes : Z;
  si_maximum_versions : Z; si_version_number : Z; si_class_id : Z; si_owner_id : Z;
  si_security_id : Z; si_quota_charged : Z; si_usn : Z;
  (* FILE_NAME_ATTR *)
  sizeof_FILE_NAME_ATTR : Z; fn_parent_directory : Z; fn_creation_time : Z;
  fn_last_data_change_time : Z; fn_last_mft_change_time : Z; fn_last_access_time : Z;
  fn_allocated_size : Z; fn_data_size : Z; fn_file_attributes : Z; fn_packed_ea_size : Z;
  fn_reserved : Z; fn_reparse_point_tag : Z; fn_file_name_length : Z; fn_file_name_type : Z;
  fn_file_name : Z;
  (* VOLUME_INFORMATION *)
  sizeof_VOLUME_INFORMATION : Z; vi_major_ver : Z; vi_minor_ver : Z; vi_flags : Z;
  (* INDEX_ROOT, INDEX_HEADER, INDEX_ENTRY_HEADER *)
  sizeof_INDEX_ROOT : Z; sizeof_INDEX_HEADER : Z; sizeof_INDEX_ENTRY_HEADER : Z;
  ir_type : Z; ir_collation_rule : Z; ir_index_block_size : Z; ir_clusters_per_index_block : Z;
  ir_reserved : Z; ir_index : Z; ih_entries_offset : Z; ih_index_length : Z;
  ih_allocated_size : Z; ih_ih_flags : Z; ih_reserved : Z; ie_indexed_file : Z; ie_length : Z;
  ie_key_length : Z; ie_flags : Z; ie_reserved : Z;
  COLLATION_FILE_NAME : Z; SMALL_INDEX : Z; INDEX_ENTRY_END : Z; NTFS_BLOCK_SIZE_BITS : Z
}.

(** The documented values. *)
Definition documented_record : record_h := {|
  m_attrs_offset := 0x14; m_bytes_in_use := 0x18; m_bytes_allocated := 0x1c;
  m_next_attr_instance := 0x28;
  a_type := 0; a_length := 4; a_non_resident := 8; a_name_length := 9; a_name_offset := 10;
  a_flags := 12; a_instance := 14; a_value_length := 16; a_value_offset := 20;
  a_resident_flags := 22; a_reservedR := 23;
  AT_UNUSED := 0; AT_STANDARD_INFORMATION := 0x10; AT_ATTRIBUTE_LIST := 0x20;
  AT_FILE_NAME := 0x30; AT_OBJECT_ID := 0x40; AT_SECURITY_DESCRIPTOR := 0x50;
  AT_VOLUME_NAME := 0x60; AT_VOLUME_INFORMATION := 0x70; AT_DATA := 0x80;
  AT_INDEX_ROOT := 0x90; AT_INDEX_ALLOCATION := 0xa0; AT_BITMAP := 0xb0; AT_END := 0xffffffff;
  RESIDENT_ATTR_IS_INDEXED := 1; VOLUME_FLAGS_MASK := 0xc03f;
  sizeof_STANDARD_INFORMATION := 72; si_creation_time := 0; si_last_data_change_time := 8;
  si_last_mft_change_time := 16; si_last_access_time := 24; si_file_attributes := 32;
  si_maximum_versions := 36; si_version_number := 40; si_class_id := 44; si_owner_id := 48;
  si_security_id := 52; si_quota_charged := 56; si_usn := 64;
  sizeof_FILE_NAME_ATTR := 66; fn_parent_directory := 0; fn_creation_time := 8;
  fn_last_data_change_time := 16; fn_last_mft_change_time := 24; fn_last_access_time := 32;
  fn_allocated_size := 40; fn_data_size := 48; fn_file_attributes := 56;
  fn_packed_ea_size := 60; fn_reserved := 62; fn_reparse_point_tag := 60;
  fn_file_name_length := 64; fn_file_name_type := 65; fn_file_name := 66;
  sizeof_VOLUME_INFORMATION := 12; vi_major_ver := 8; vi_minor_ver := 9; vi_flags := 10;
  sizeof_INDEX_ROOT := 32; sizeof_INDEX_HEADER := 16; sizeof_INDEX_ENTRY_HEADER := 16;
  ir_type := 0; ir_collation_rule := 4; ir_index_block_size := 8;
  ir_clusters_per_index_block := 12; ir_reserved := 13; ir_index := 16;
  ih_entries_offset := 0; ih_index_length := 4; ih_allocated_size := 8; ih_ih_flags := 12;
  ih_reserved := 13; ie_indexed_file := 0; ie_length := 8; ie_key_length := 10;
  ie_flags := 12; ie_reserved := 14;
  COLLATION_FILE_NAME := 1; SMALL_INDEX := 0; INDEX_ENTRY_END := 2; NTFS_BLOCK_SIZE_BITS := 9
|}.

(** An [ntfschar*]: NULL, the library's [AT_UNNAMED], or a string. *)
Inductive ucs_name := NULL_name | AT_UNNAMED | Ucs (l : list Z).

Inductive IGNORE_CASE_BOOL := CASE_SENSITIVE | IGNORE_CASE.

#[global] Instance ignore_case_eq_dec : EqDecision IGNORE_CASE_BOOL.
Proof. solve_decision. Defined.

(** [ntfs_attr_search_ctx]: [mrec] is the buffer itself. *)
Record search_ctx := mkCtx { ctx_attr : Z; ctx_is_first : bool }.

(** A C string is the list of its characters. *)
Definition cstring : Type := list Z.

Class RecordLib := {
  (** [ntfs_attr_get_search_ctx(NULL, m)]: NULL, or the context. *)
  get_search_ctx : buffer -> option search_ctx;
  (** [ntfs_str2ucs]: errno, or the name and its length. *)
  str2ucs : option cstring -> errno_t + (ucs_name * Z);
  (** [ntfs_mbstoucs] on a string, into a new array. *)
  mbstoucs : cstring -> errno_t + list Z;
  (** [ntfs_names_are_equal], [ntfs_names_full_collate] (with [g_vol->upcase]). *)
  names_are_equal : list Z -> list Z -> IGNORE_CASE_BOOL -> bool;
  names_full_collate : list Z -> list Z -> IGNORE_CASE_BOOL -> Z;
}.

(** The bytes of a string of UTF-16 units. *)
Fixpoint ucs_bytes (l : list Z) : buffer :=
  match l with [] => [] | u :: l => le_bytes 2 u ++ ucs_bytes l end.

Fixpoint bytes_ucs (b : buffer) : list Z :=
  match b with
  | lo :: hi :: b => (lo + 256 * hi) :: bytes_ucs b
  | _ => []
  end.

(** [(z + 7) & ~7] on [u32]. *)
Definition align8 (z : Z) : Z := Z.land (to_u 32 (z + 7)) (to_u 32 (Z.lnot 7)).

Section Mft.
Context (R : record_h) `{RecordLib}.

(** ** Finding an attribute *)

(** What a round of the loop decides about an attribute of the right type. *)
Inductive verdict := Hit | Miss | Stop.

Definition load_name (a : Z) : M (list Z) :=
  off ← load16 (a + a_name_offset R);
  n ← load8 (a + a_name_length R);
  b ← load_bytes (a + off) (2 * n);
  mret (bytes_ucs b).

(** The comparison of the names. *)
Definition match_name (name : ucs_name) (ic : IGNORE_CASE_BOOL) (a : Z) : M verdict :=
  match name with
  | AT_UNNAMED =>
      n ← load8 (a + a_name_length R);
      mret (if negb (n =? 0) then Stop else Hit)
  | NULL_name => mret Hit
  | Ucs name =>
      aname ← load_name a;
      if negb (names_are_equal name aname ic) then
        let rc := names_full_collate name aname IGNORE_CASE in
        if rc =? -1 then mret Stop else
        if negb (rc =? 0) then mret Miss else
        let rc := names_full_collate name aname CASE_SENSITIVE in
        if rc =? -1 then mret Stop else
        if negb (rc =? 0) then mret Miss else mret Hit
      else mret Hit
  end.

(** The comparison of the values. *)
Definition match_value (val : option buffer) (val_len a : Z) : M verdict :=
  match val with
  | None => mret Hit
  | Some val =>
      off ← load16 (a + a_value_offset R);
      avl ← load32 (a + a_value_length R);
      let n := Z.min val_len avl in
      bs ← load_bytes (a + off) n;
      let rc := memcmp (take (Z.to_nat n) val) bs in
      if rc =? 0 then
        mret (if val_len =? avl then Hit else if val_len <? avl then Stop else Miss)
      else mret (if rc <? 0 then Stop else Miss)
  end.

(** The loop, at attribute [a]; the result is [None] for success or [errno], and
    [ctx->attr]. *)
Fixpoint attr_find_loop (fuel : nat) (type : Z) (name : ucs_name) (ic : IGNORE_CASE_BOOL)
    (val : option buffer) (val_len a attr : Z) : M (option errno_t * Z) :=
  match fuel with
  | O => fun _ => None
  | S fuel =>
      allocated ← load32 (m_bytes_allocated R);
      if (a <? 0) || (allocated <? a) then mret (Some EIO, attr) else
      atype ← load32 (a + a_type R);
      if (negb (type =? AT_UNUSED R) && (type <? atype)) || (atype =? AT_END R)
      then mret (Some ENOENT, a) else
      len ← load32 (a + a_length R);
      if len =? 0 then mret (Some EIO, a) else
      if type =? AT_UNUSED R then mret (None, a) else
      let next := attr_find_loop fuel type name ic val val_len (a + len) a in
      if negb (atype =? type) then next else
      v ← match_name name ic a;
      match v with
      | Stop => mret (Some ENOENT, a)
      | Miss => next
      | Hit =>
          v ← match_value val val_len a;
          match v with
          | Stop => mret (Some ENOENT, a)
          | Miss => next
          | Hit => mret (None, a)
          end
      end
  end.

(** [mkntfs_attr_find]: the fuel is the size of the record, every round moves on
    by the length of an attribute. *)
Definition mkntfs_attr_find (type : Z) (name : ucs_name) (ic : IGNORE_CASE_BOOL)
    (val : option buffer) (val_len : Z) (ctx : search_ctx) : M (option errno_t * search_ctx) :=
  start ← (if ctx_is_first ctx then mret (ctx_attr ctx)
           else len ← load32 (ctx_attr ctx + a_length R); mret (ctx_attr ctx + len));
  size ← buffer_size;
  '(err, a) ← attr_find_loop (S size) type name ic val val_len start (ctx_attr ctx);
  mret (err, mkCtx a false).

(** [mkntfs_attr_lookup] with a context without inode, as all callers have. *)
Definition mkntfs_attr_lookup (type : Z) (name : ucs_name) (ic : IGNORE_CASE_BOOL)
    (val : option buffer) (val_len : Z) (ctx : option search_ctx)
  : M (option errno_t * option search_ctx) :=
  match ctx with
  | None => mret (Some EINVAL, None)
  | Some ctx =>
      '(err, ctx) ← mkntfs_attr_find type name ic val val_len ctx;
      mret (err, Some ctx)
  end.

(** ** Making room *)

Definition make_room_for_attribute (pos size : Z) : M (option errno_t) :=
  if size =? 0 then mret None else
  biu ← load32 (m_bytes_in_use R);
  allocated ← load32 (m_bytes_allocated R);
  if allocated <? to_u 32 (biu + size) then mret (Some ENOSPC) else
  memmove (pos + size) pos (biu - pos);;
  store32 (m_bytes_in_use R) (biu + size);;
  mret None.

(** ** Inserting a resident attribute *)

(** The stores after room is made, at [a]. *)
Definition write_resident_attr (a type asize : Z) (uname : ucs_name) (name_len flags res_flags : Z)
    (val : buffer) (val_len : Z) : M unit :=
  store32 (a + a_type R) type;;
  store32 (a + a_length R) asize;;
  store8 (a + a_non_resident R) 0;;
  store8 (a + a_name_length R) name_len;;
  store16 (a + a_name_offset R) (if type =? AT_OBJECT_ID R then 0 else 24);;
  store16 (a + a_flags R) flags;;
  instance ← load16 (m_next_attr_instance R);
  store16 (a + a_instance R) instance;;
  store16 (m_next_attr_instance R) (Z.land (instance + 1) 0xffff);;
  store32 (a + a_value_length R) val_len;;
  store16 (a + a_value_offset R) (24 + align8 (name_len * 2));;
  store8 (a + a_resident_flags R) res_flags;;
  store8 (a + a_reservedR R) 0;;
  (if negb (name_len =? 0) then
     match uname with
     | Ucs l => store_bytes (a + 24) (take (Z.to_nat (2 * name_len)) (ucs_bytes l))
     | _ => fun _ => None
     end
   else mret tt);;
  (if negb (val_len =? 0) then
     off ← load16 (a + a_value_offset R);
     store_bytes (a + off) (take (Z.to_nat val_len) val)
   else mret tt).

(** [asize] *)
Definition resident_size (name_len val_len : Z) : Z :=
  align8 (24 + align8 (name_len * 2) + val_len).

(** [insert_resident_attr_in_mft_record]: [None] is 0, [Some e] is [-e]. *)
Definition insert_resident_attr_in_mft_record (type : Z) (name : option cstring) (name_len : Z)
    (ic : IGNORE_CASE_BOOL) (flags res_flags : Z) (val : option buffer) (val_len : Z)
  : M (option errno_t) := fun m => (
  match str2ucs name with
  | inl e => mret (Some e)
  | inr (uname, _) =>
      match get_search_ctx m with
      | None => mret (Some ENOMEM)
      | Some ctx =>
          if bool_decide (ic = IGNORE_CASE) then mret (Some EOPNOTSUPP) else
          '(err, ctx) ← mkntfs_attr_lookup type uname ic val val_len (Some ctx);
          match err, ctx with
          | Some ENOENT, Some ctx =>
              let a := ctx_attr ctx in
              let asize := resident_size name_len val_len in
              err ← make_room_for_attribute a asize;
              match err with
              | Some ENOSPC => mret (Some EOPNOTSUPP)
              | err =>
                  write_resident_attr a type asize uname name_len flags res_flags
                    (default [] val) val_len;;
                  mret err
              end
          | Some e, _ => mret (Some e)
          | None, _ => mret (Some EEXIST)
          end
      end
  end : M (option errno_t)) m.

(** ** The attributes mkntfs adds

    A local structure is a buffer of its own, filled by stores ([junk]: what it
    holds before), [malloc_ok]: whether its allocation succeeds. *)
Definition in_struct (junk : buffer) (m : M unit) : M buffer := fun b =>
  match m junk with Some (_, s) => Some (s, b) | None => None end.

(** [add_attr_std_info]; [now] is [mkntfs_time()]. *)
Definition add_attr_std_info (now flags security_id : Z) (junk : buffer) : M (option errno_t) :=
  si ← in_struct junk (
    store64 (si_creation_time R) now;;
    store64 (si_last_data_change_time R) now;;
    store64 (si_last_mft_change_time R) now;;
    store64 (si_last_access_time R) now;;
    store32 (si_file_attributes R) flags;;
    store32 (si_maximum_versions R) 0;;
    store32 (si_version_number R) 0;;
    store32 (si_class_id R) 0;;
    store32 (si_security_id R) security_id;;
    store32 (si_owner_id R) 0;;
    store64 (si_quota_charged R) 0;;
    store64 (si_usn R) 0);
  let sd_size := if security_id =? 0 then 48 else 72 in
  insert_resident_attr_in_mft_record (AT_STANDARD_INFORMATION R) None 0 CASE_SENSITIVE 0 0
    (Some (take (Z.to_nat sd_size) si)) sd_size.

(** [non_resident_unnamed_data] *)
Definition non_resident_unnamed_data : M bool := fun m => (
  match get_search_ctx m with
  | None => mret true
  | Some ctx =>
      '(err, ctx) ← mkntfs_attr_find (AT_DATA R) NULL_name CASE_SENSITIVE None 0 ctx;
      match err with
      | None => v ← load8 (ctx_attr ctx + a_non_resident R); mret (negb (v =? 0))
      | Some _ => mret true
      end
  end : M bool) m.

(** [stdinfo_time] *)
Definition stdinfo_time (now : Z) : M Z := fun m => (
  match get_search_ctx m with
  | None => mret now
  | Some ctx =>
      '(err, ctx) ← mkntfs_attr_find (AT_STANDARD_INFORMATION R) NULL_name CASE_SENSITIVE None 0 ctx;
      match err with
      | None =>
          off ← load16 (ctx_attr ctx + a_value_offset R);
          load_le 8 (ctx_attr ctx + off + si_creation_time R)
      | Some _ => mret now
      end
  end : M Z) m.

(** The stores into the [FILE_NAME_ATTR], its times given; [inl] is [-errno]. *)
Definition fill_file_name (parent c d mf ac allocated_size data_size flags packed_ea_size
    reparse_point_tag : Z) (file_name : cstring) (file_name_type : Z) : M (errno_t + Z) :=
  store64 (fn_parent_directory R) parent;;
  store64 (fn_creation_time R) c;;
  store64 (fn_last_data_change_time R) d;;
  store64 (fn_last_mft_change_time R) mf;;
  store64 (fn_last_access_time R) ac;;
  store64 (fn_allocated_size R) allocated_size;;
  store64 (fn_data_size R) data_size;;
  store32 (fn_file_attributes R) flags;;
  if negb (packed_ea_size =? 0) && negb (reparse_point_tag =? 0) then mret (inl EINVAL) else
  (if negb (packed_ea_size =? 0) then
     store16 (fn_packed_ea_size R) packed_ea_size;; store16 (fn_reserved R) 0
   else store32 (fn_reparse_point_tag R) reparse_point_tag);;
  store8 (fn_file_name_type R) file_name_type;;
  match mbstoucs file_name with
  | inl _ => mret (inl EINVAL)
  | inr u =>
      let n := Z.of_nat (length u) in
      (* ntfs_mbstoucs_libntfscompat would realloc the middle of [fn] *)
      if (Z.of_nat (length file_name) + 1) * 2 <? n + 1 then (fun _ => None) else
      store_bytes (fn_file_name R) (ucs_bytes (u ++ [0]));;
      if n <? 1 then mret (inl EINVAL) else
      if 0xff <? n then mret (inl ENAMETOOLONG) else
      store8 (fn_file_name_length R) n;;
      mret (inr n)
  end.

(** [add_attr_file_name]; [malloc_ok junk]: [fn]. *)
Definition add_attr_file_name (fn : option buffer) (parent_dir allocated_size data_size flags
    packed_ea_size reparse_point_tag : Z) (file_name : cstring) (file_name_type : Z)
  : M (option errno_t) := fun m => (
  match get_search_ctx m with
  | None => mret (Some ENOMEM)
  | Some ctx =>
      '(err, ctx) ← mkntfs_attr_lookup (AT_STANDARD_INFORMATION R) AT_UNNAMED CASE_SENSITIVE
                      None 0 (Some ctx);
      match err, ctx with
      | None, Some ctx =>
          off ← load16 (ctx_attr ctx + a_value_offset R);
          let si := ctx_attr ctx + off in
          match fn with
          | None => mret (Some ENOMEM)
          | Some fn =>
              c ← load_le 8 (si + si_creation_time R);
              d ← load_le 8 (si + si_last_data_change_time R);
              mf ← load_le 8 (si + si_last_mft_change_time R);
              ac ← load_le 8 (si + si_last_access_time R);
              match fill_file_name parent_dir c d mf ac allocated_size data_size flags
                      packed_ea_size reparse_point_tag file_name file_name_type fn with
              | None => fun _ => None
              | Some (inl e, _) => mret (Some e)
              | Some (inr n, fn) =>
                  let fn_size := sizeof_FILE_NAME_ATTR R + n * 2 in
                  insert_resident_attr_in_mft_record (AT_FILE_NAME R) None 0 CASE_SENSITIVE 0
                    (RESIDENT_ATTR_IS_INDEXED R) (Some (take (Z.to_nat fn_size) fn)) fn_size
              end
          end
      | Some e, _ => mret (Some e)
      | None, None => fun _ => None
      end
  end : M (option errno_t)) m.

(** [add_attr_object_id] *)
Definition add_attr_object_id (object_id : buffer) : M (option errno_t) :=
  insert_resident_attr_in_mft_record (AT_OBJECT_ID R) None 0 CASE_SENSITIVE 0 0
    (Some object_id) 16.

(** [add_attr_vol_name] *)
Definition add_attr_vol_name (vol_name : option cstring) : M (option errno_t) :=
  match match vol_name with
        | None => inr None
        | Some s => match mbstoucs s with inl e => inl e | inr u => inr (Some u) end
        end with
  | inl e => mret (Some e)
  | inr uname =>
      let uname_len := match uname with Some u => Z.of_nat (length u) | None => 0 end in
      if 128 <? uname_len then mret (Some ENAMETOOLONG) else
      insert_resident_attr_in_mft_record (AT_VOLUME_NAME R) None 0 CASE_SENSITIVE 0 0
        (ucs_bytes <$> uname) (uname_len * 2)
  end.

(** [add_attr_vol_info] *)
Definition add_attr_vol_info (flags major_ver minor_ver : Z) : M (option errno_t) :=
  let size := sizeof_VOLUME_INFORMATION R in
  vi ← in_struct (replicate (Z.to_nat size) 0) (
    store8 (vi_major_ver R) major_ver;;
    store8 (vi_minor_ver R) minor_ver;;
    store16 (vi_flags R) (Z.land flags (VOLUME_FLAGS_MASK R)));
  insert_resident_attr_in_mft_record (AT_VOLUME_INFORMATION R) None 0 CASE_SENSITIVE 0 0
    (Some vi) size.

(** The number of clusters, or of sectors, of an index block. *)
Definition clusters_per_index_block (cluster_size sector_size index_block_size : Z) : option Z :=
  if cluster_size <=? index_block_size then
    if negb (index_block_size mod cluster_size =? 0) then None
    else Some (index_block_size / cluster_size)
  else
    if negb (Z.land index_block_size (index_block_size - 1) =? 0) then None else
    if index_block_size <? sector_size then None else
    Some (Z.shiftr index_block_size (NTFS_BLOCK_SIZE_BITS R)).

(** [add_attr_index_root]; [r]: the allocated structure. *)
Definition add_attr_index_root (cluster_size sector_size : Z) (r : option buffer)
    (name : option cstring) (name_len : Z) (ic : IGNORE_CASE_BOOL)
    (indexed_attr_type collation_rule index_block_size : Z) : M (option errno_t) :=
  let val_len := sizeof_INDEX_ROOT R + sizeof_INDEX_ENTRY_HEADER R in
  match r with
  | None => mret (Some ENOMEM)
  | Some r =>
      if (indexed_attr_type =? AT_FILE_NAME R) && negb (collation_rule =? COLLATION_FILE_NAME R)
      then mret (Some EINVAL) else
      match clusters_per_index_block cluster_size sector_size index_block_size with
      | None => mret (Some EINVAL)
      | Some cpb =>
          let index := ir_index R in
          let length := sizeof_INDEX_HEADER R + sizeof_INDEX_ENTRY_HEADER R in
          let e := index + sizeof_INDEX_HEADER R in
          r ← in_struct r (
            store32 (ir_type R)
              (if indexed_attr_type =? AT_FILE_NAME R then AT_FILE_NAME R else 0);;
            store32 (ir_collation_rule R) collation_rule;;
            store32 (ir_index_block_size R) index_block_size;;
            store8 (ir_clusters_per_index_block R) cpb;;
            store_bytes (ir_reserved R) [0; 0; 0];;
            store32 (index + ih_entries_offset R) (sizeof_INDEX_HEADER R);;
            store32 (index + ih_index_length R) length;;
            store32 (index + ih_allocated_size R) length;;
            store8 (index + ih_ih_flags R) (SMALL_INDEX R);;
            store_bytes (index + ih_reserved R) [0; 0; 0];;
            store64 (e + ie_indexed_file R) 0;;
            store16 (e + ie_length R) (sizeof_INDEX_ENTRY_HEADER R);;
            store16 (e + ie_key_length R) 0;;
            store16 (e + ie_flags R) (INDEX_ENTRY_END R);;
            store16 (e + ie_reserved R) 0);
          insert_resident_attr_in_mft_record (AT_INDEX_ROOT R) name name_len ic 0 0
            (Some (take (Z.to_nat val_len) r)) val_len
      end
  end.

End Mft.
