(* ===== verification/MftFacts.v ===== *)
(** * What the operations on MFT records do

    The attribute list of a well-formed record as a list of parts, the search as a
    function of that list, and the effect of making room and of inserting. *)

From stdpp Require Import sorting.
From S2P Require Import Prelude Bytes Mft.

Abbreviation R := documented_record.

(** The offsets of the fields. *)
Ltac offsets :=
  cbv beta iota delta [documented_record m_attrs_offset m_bytes_in_use m_bytes_allocated
    m_next_attr_instance a_type a_length a_non_resident a_name_length a_name_offset a_flags
    a_instance a_value_length a_value_offset a_resident_flags a_reservedR].

(** Run the first computation of a sequence: a load or store of the part at field
    offset [k]. *)
Ltac run_load w k := erewrite bind_run; [|solve [eapply (load_part _ _ _ _ k) with (n := w); [offsets; lia | lia]]].
Ltac run_load8 k := erewrite bind_run; [|solve [eapply (load8_part _ _ _ _ k); [offsets; lia | lia]]].
Ltac run_load_bytes k :=
  erewrite bind_run; [|solve [eapply (load_bytes_part _ _ _ _ k); [lia | lia | lia]]].

(** ** Well-formed records *)

(** An attribute is a part of the record. *)
Definition attr_type (a : buffer) : Z := field 4 0 a.

Definition byte_list (b : buffer) : Prop := Forall (fun x => 0 <= x < 256) b.

(** Its length is a multiple of eight and the one it records; its name and what
    the value fields point at lie inside it. *)
Record attr_ok (a : buffer) : Prop := {
  ok_bytes : byte_list a;
  ok_size : (24 <= length a)%nat;
  ok_align : Z.of_nat (length a) mod 8 = 0;
  ok_length : field 4 4 a = Z.of_nat (length a);
  ok_type : attr_type a <> 0xffffffff;
  ok_name : field 2 10 a + 2 * field 1 9 a <= Z.of_nat (length a);
  ok_value : field 2 20 a + field 4 16 a <= Z.of_nat (length a);
}.

(** A record: a header, the attributes, the end marker and what is unused. *)
Record rec_ok (hdr : buffer) (attrs : list buffer) (fin slack : buffer) : Prop := {
  ok_hdr_bytes : byte_list hdr;
  ok_hdr : (0x30 <= length hdr)%nat;
  ok_attrs_offset : field 2 0x14 hdr = Z.of_nat (length hdr);
  ok_biu : field 4 0x18 hdr = Z.of_nat (length hdr + length (concat attrs) + 8);
  ok_allocated : field 4 0x1c hdr =
    Z.of_nat (length hdr + length (concat attrs) + 8 + length slack);
  ok_small : Z.of_nat (length hdr + length (concat attrs) + 8 + length slack) < 2 ^ 31;
  ok_attrs : Forall attr_ok attrs;
  ok_fin : length fin = 8%nat /\ field 4 0 fin = 0xffffffff /\ byte_list fin;
  ok_slack : byte_list slack;
}.

Definition rec_bytes (hdr : buffer) (attrs : list buffer) (fin slack : buffer) : buffer :=
  hdr ++ concat attrs ++ fin ++ slack.

(** ** The search as a function of the attribute list *)

Section Facts.
Context `{RecordLib}.

Definition name_of (a : buffer) : list Z :=
  bytes_ucs (sl (Z.to_nat (field 2 10 a)) (Z.to_nat (2 * field 1 9 a)) a).

Definition value_of (a : buffer) : buffer :=
  sl (Z.to_nat (field 2 20 a)) (Z.to_nat (field 4 16 a)) a.

Definition name_verdict (name : ucs_name) (ic : IGNORE_CASE_BOOL) (a : buffer) : verdict :=
  match name with
  | NULL_name => Hit
  | AT_UNNAMED => if field 1 9 a =? 0 then Hit else Stop
  | Ucs n =>
      if names_are_equal n (name_of a) ic then Hit else
      let rc := names_full_collate n (name_of a) IGNORE_CASE in
      if rc =? -1 then Stop else if negb (rc =? 0) then Miss else
      let rc := names_full_collate n (name_of a) CASE_SENSITIVE in
      if rc =? -1 then Stop else if negb (rc =? 0) then Miss else Hit
  end.

Definition value_verdict (val : option buffer) (val_len : Z) (a : buffer) : verdict :=
  match val with
  | None => Hit
  | Some v =>
      let avl := field 4 16 a in
      let n := Z.to_nat (Z.min val_len avl) in
      let rc := memcmp (take n v) (take n (value_of a)) in
      if rc =? 0 then if val_len =? avl then Hit else if val_len <? avl then Stop else Miss
      else if rc <? 0 then Stop else Miss
  end.

(** The number of attributes passed over, and whether the next one is it. *)
Fixpoint find_in (type : Z) (name : ucs_name) (ic : IGNORE_CASE_BOOL) (val : option buffer)
    (val_len : Z) (l : list buffer) : nat * bool :=
  match l with
  | [] => (O, false)
  | a :: l =>
      let next := let '(i, f) := find_in type name ic val val_len l in (S i, f) in
      if negb (type =? 0) && (type <? attr_type a) then (O, false)
      else if type =? 0 then (O, true)
      else if negb (attr_type a =? type) then next
      else match name_verdict name ic a with
           | Stop => (O, false)
           | Miss => next
           | Hit => match value_verdict val val_len a with
                    | Stop => (O, false)
                    | Miss => next
                    | Hit => (O, true)
                    end
           end
  end.

Section Read.
Context (pre a post : buffer) (p : Z).
Context (Hp : p = Z.of_nat (length pre)) (Ha : attr_ok a).
Abbreviation m := (pre ++ a ++ post).

Lemma match_name_run name ic :
  match_name R name ic p m = Some (name_verdict name ic a, m).
Proof.
  destruct Ha as [Hb Hs _ _ _ Hn _].
  pose proof (field_range 2 10 a Hb ltac:(lia)) as R1.
  pose proof (field_range 1 9 a Hb ltac:(lia)) as R2.
  destruct name as [| |n]; [done| |]; unfold match_name, name_verdict.
  - run_load8 9%nat.
    by destruct (field 1 9 a =? 0).
  - unfold load_name.
    assert ((off ← load16 (p + a_name_offset R); n ← load8 (p + a_name_length R);
             b ← load_bytes (p + off) (2 * n); mret (bytes_ucs b)) m
            = Some (name_of a, m)) as E.
    { run_load 2%nat 10%nat.
      run_load8 9%nat.
      run_load_bytes (Z.to_nat (field 2 10 a)). done. }
    rewrite (bind_run _ _ _ _ _ E).
    destruct (names_are_equal n (name_of a) ic); [done|]. cbn [negb].
    by repeat case_match.
Qed.

Lemma match_value_run val val_len :
  0 <= val_len ->
  match_value R val val_len p m = Some (value_verdict val val_len a, m).
Proof.
  intros Hv. destruct Ha as [Hb Hs _ _ _ _ Hvv].
  pose proof (field_range 2 20 a Hb ltac:(lia)) as R1.
  pose proof (field_range 4 16 a Hb ltac:(lia)) as R2.
  destruct val as [v|]; [|done]. unfold match_value, value_verdict.
  run_load 2%nat 20%nat.
  run_load 4%nat 16%nat.
  run_load_bytes (Z.to_nat (field 2 20 a)).
  replace (take (Z.to_nat (Z.min val_len (field 4 16 a))) (value_of a))
    with (sl (Z.to_nat (field 2 20 a)) (Z.to_nat (Z.min val_len (field 4 16 a))) a).
  2:{ unfold value_of, sl. rewrite take_take. f_equal. lia. }
  by repeat case_match.
Qed.
End Read.

(** The record seen from its attribute [a]. *)
Lemma rec_split hdr l1 a l2 fin slack :
  rec_bytes hdr (l1 ++ a :: l2) fin slack =
  (hdr ++ concat l1) ++ a ++ (concat l2 ++ fin ++ slack).
Proof. unfold rec_bytes. rewrite concat_app. cbn [concat]. by rewrite <- !app_assoc. Qed.

Lemma rec_end hdr l fin slack :
  rec_bytes hdr l fin slack = (hdr ++ concat l) ++ fin ++ slack.
Proof. unfold rec_bytes. by rewrite <- app_assoc. Qed.

Lemma length_concat_app (l1 l2 : list buffer) :
  length (concat (l1 ++ l2)) = (length (concat l1) + length (concat l2))%nat.
Proof. by rewrite concat_app, length_app. Qed.

Lemma find_in_bound type name ic val val_len l :
  (fst (find_in type name ic val val_len l) <= length l)%nat.
Proof.
  induction l as [|a l IH]; cbn [find_in]; [done|].
  destruct (find_in type name ic val val_len l) as [i f]. cbn [fst length] in *.
  repeat case_match; cbn; lia.
Qed.

Lemma load_allocated hdr attrs fin slack :
  rec_ok hdr attrs fin slack ->
  load32 (m_bytes_allocated R) (rec_bytes hdr attrs fin slack) =
    Some (field 4 0x1c hdr, rec_bytes hdr attrs fin slack).
Proof.
  intros []. unfold rec_bytes. apply (load_part [] hdr _ _ 0x1c%nat); [offsets; cbn; lia|lia].
Qed.

(** The loop finds what [find_in] says. *)
Lemma attr_find_loop_run hdr fin slack type name ic val val_len l :
  0 <= val_len ->
  forall l1 fuel attr, rec_ok hdr (l1 ++ l) fin slack -> (length l < fuel)%nat ->
  let m := rec_bytes hdr (l1 ++ l) fin slack in
  let '(i, f) := find_in type name ic val val_len l in
  attr_find_loop R fuel type name ic val val_len (Z.of_nat (length (hdr ++ concat l1))) attr m =
    Some ((if f then None else Some ENOENT,
           Z.of_nat (length (hdr ++ concat (l1 ++ take i l)))), m).
Proof.
  intros Hv. induction l as [|a l IH]; intros l1 fuel attr Hok Hf m.
  - destruct fuel as [|fuel]; [cbn in Hf; lia|]. cbn [find_in attr_find_loop take].
    unfold m. rewrite (bind_run _ _ _ _ _ (load_allocated _ _ _ _ Hok)).
    rewrite rec_end, app_nil_r. rewrite app_nil_r in Hok.
    destruct Hok as [_ _ _ _ Hal _ _ (Lf & Ef & _) _]. rewrite Hal.
    replace (_ || _) with false.
    2:{ symmetry. apply orb_false_iff. rewrite length_app.
        split; [apply Z.ltb_ge | apply Z.ltb_ge]; lia. }
    run_load 4%nat 0%nat. rewrite Ef.
    change (0xffffffff =? AT_END R) with true. by rewrite orb_true_r.
  - destruct fuel as [|fuel]; [cbn in Hf; lia|]. cbn [find_in attr_find_loop].
    pose proof Hok as [_ _ _ _ Hal _ Hat _ _].
    apply Forall_app in Hat as [_ [Ha Hl]%Forall_cons].
    pose proof Ha as [Hb Hs _ Hlen Hty _ _].
    unfold m. rewrite (bind_run _ _ _ _ _ (load_allocated _ _ _ _ Hok)), Hal.
    replace (_ || _) with false.
    2:{ symmetry. apply orb_false_iff. rewrite length_concat_app, length_app. cbn [concat].
        rewrite length_app. split; apply Z.ltb_ge; lia. }
    rewrite rec_split.
    run_load 4%nat 0%nat. fold (attr_type a).
    change (AT_UNUSED R) with 0. change (AT_END R) with 0xffffffff.
    replace (attr_type a =? 0xffffffff) with false by (symmetry; by apply Z.eqb_neq).
    rewrite orb_false_r.
    destruct (negb (type =? 0) && (type <? attr_type a)).
    { cbn [take]. by rewrite app_nil_r. }
    run_load 4%nat 4%nat. rewrite Hlen.
    replace (Z.of_nat (length a) =? 0) with false by (symmetry; apply Z.eqb_neq; lia).
    destruct (type =? 0). { cbn [take]. by rewrite app_nil_r. }
    (* the rest of the list, from the next attribute on *)
    assert (let '(i, f) := find_in type name ic val val_len l in
      attr_find_loop R fuel type name ic val val_len
        (Z.of_nat (length (hdr ++ concat l1)) + Z.of_nat (length a))
        (Z.of_nat (length (hdr ++ concat l1)))
        ((hdr ++ concat l1) ++ a ++ concat l ++ fin ++ slack) =
      Some ((if f then None else Some ENOENT,
             Z.of_nat (length (hdr ++ concat (l1 ++ a :: take i l)))),
            (hdr ++ concat l1) ++ a ++ concat l ++ fin ++ slack)) as Hnext.
    { specialize (IH (l1 ++ [a]) fuel (Z.of_nat (length (hdr ++ concat l1)))).
      rewrite <- !app_assoc in IH. specialize (IH Hok ltac:(cbn in Hf; lia)).
      cbn [app] in IH. rewrite rec_split in IH.
      replace (Z.of_nat (length (hdr ++ concat (l1 ++ [a]))))
        with (Z.of_nat (length (hdr ++ concat l1)) + Z.of_nat (length a)) in IH.
      2:{ rewrite !length_app, length_concat_app. cbn [concat]. rewrite app_nil_r. lia. }
      destruct (find_in type name ic val val_len l) as [i f].
      rewrite <- (app_assoc l1 [a]) in IH. exact IH. }
    destruct (find_in type name ic val val_len l) as [i f].
    destruct (attr_type a =? type); cbn [negb]; [|exact Hnext].
    rewrite (bind_run _ _ _ _ _ (match_name_run _ _ _ _ eq_refl Ha name ic)).
    destruct (name_verdict name ic a).
    + rewrite (bind_run _ _ _ _ _ (match_value_run _ _ _ _ eq_refl Ha val val_len Hv)).
      destruct (value_verdict val val_len a); [|exact Hnext|];
        cbn [take]; by rewrite app_nil_r.
    + exact Hnext.
    + cbn [take]. by rewrite app_nil_r.
Qed.
End Facts.

(** ** Sizes *)

Lemma land_clear7 z : 0 <= z < 2 ^ 32 -> Z.land z (to_u 32 (Z.lnot 7)) = 8 * (z / 8).
Proof.
  intros Hz. change (to_u 32 (Z.lnot 7)) with (Z.shiftl (Z.ones 29) 3).
  replace (8 * (z / 8)) with (Z.shiftl (Z.shiftr z 3) 3).
  2:{ rewrite Z.shiftl_mul_pow2, Z.shiftr_div_pow2 by lia. change (2 ^ 3) with 8. lia. }
  apply Z.bits_inj'. intros i Hi. rewrite Z.land_spec, !Z.shiftl_spec by done.
  destruct (Z.lt_ge_cases i 3).
  - rewrite !(Z.testbit_neg_r _ (i - 3)) by lia. apply andb_false_r.
  - rewrite Z.shiftr_spec by lia. replace (i - 3 + 3) with i by lia.
    destruct (Z.lt_ge_cases i 32).
    + rewrite Z.ones_spec_low by lia. apply andb_true_r.
    + rewrite Z.ones_spec_high, andb_false_r by lia. symmetry.
      destruct (Z.eq_dec z 0) as [->|]; [apply Z.bits_0|].
      apply Z.bits_above_log2; [lia|]. pose proof (Z.log2_lt_pow2 z 32 ltac:(lia)). lia.
Qed.

Lemma align8_eq z : 0 <= z < 2 ^ 32 - 8 -> align8 z = 8 * ((z + 7) / 8).
Proof.
  intros Hz. unfold align8. rewrite to_u_small by (unfold fits_u; lia).
  apply land_clear7. lia.
Qed.

Lemma align8_spec z : 0 <= z < 2 ^ 32 - 8 -> z <= align8 z < z + 8 /\ align8 z mod 8 = 0.
Proof. intros Hz. rewrite align8_eq by done. Z.to_euclidean_division_equations. lia. Qed.

(** ** Making room *)

Lemma hdr_load hdr post k n :
  (k + n <= length hdr)%nat ->
  load_le n (Z.of_nat k) (hdr ++ post) = Some (field n k hdr, hdr ++ post).
Proof. apply (load_part [] hdr post); cbn; lia. Qed.

Lemma hdr_store hdr post k n v :
  (k + n <= length hdr)%nat ->
  store_le n (Z.of_nat k) v (hdr ++ post) = Some (tt, put k (le_bytes n v) hdr ++ post).
Proof. apply (store_part [] hdr post); cbn; lia. Qed.

(** The header after room for [size] bytes was made. *)
Definition grown_hdr (size : Z) (hdr : buffer) : buffer :=
  put 0x18 (le_bytes 4 (field 4 0x18 hdr + size)) hdr.

Lemma make_room_run hdr l1 l2 fin slack size :
  rec_ok hdr (l1 ++ l2) fin slack -> 0 < size < 2 ^ 31 ->
  make_room_for_attribute R (Z.of_nat (length (hdr ++ concat l1))) size
    (rec_bytes hdr (l1 ++ l2) fin slack) =
  if Z.of_nat (length slack) <? size
  then Some (Some ENOSPC, rec_bytes hdr (l1 ++ l2) fin slack)
  else Some (None,
         grown_hdr size hdr ++ concat l1 ++
         take (Z.to_nat size) (concat l2 ++ fin ++ slack) ++
         (concat l2 ++ fin) ++ drop (Z.to_nat size) slack).
Proof.
  intros Hok Hs. pose proof Hok as [Hhb Hh _ Hbiu Hal Hsm _ (Lf & _ & _) _].
  rewrite length_concat_app in *.
  unfold make_room_for_attribute.
  replace (size =? 0) with false by (symmetry; apply Z.eqb_neq; lia).
  set (X := concat l2 ++ fin).
  assert (rec_bytes hdr (l1 ++ l2) fin slack = hdr ++ concat l1 ++ X ++ slack) as Em.
  { unfold rec_bytes, X. by rewrite concat_app, <- !app_assoc. }
  assert (length X = (length (concat l2) + 8)%nat) as LX by (unfold X; rewrite length_app; lia).
  rewrite Em.
  rewrite (bind_run _ _ _ _ _ (hdr_load hdr _ 0x18 4 ltac:(lia))).
  rewrite (bind_run _ _ _ _ _ (hdr_load hdr _ 0x1c 4 ltac:(lia))).
  rewrite Hbiu, Hal. rewrite to_u_small by (unfold fits_u; lia).
  replace (_ <? Z.of_nat _ + size) with (Z.of_nat (length slack) <? size).
  2:{ destruct (Z.ltb_spec (Z.of_nat (length slack)) size); symmetry;
      [apply Z.ltb_lt | apply Z.ltb_ge]; lia. }
  destruct (Z.ltb_spec (Z.of_nat (length slack)) size) as [|Hroom]; [done|].
  set (P := hdr ++ concat l1). set (n := Z.to_nat size).
  assert (hdr ++ concat l1 ++ X ++ slack = P ++ X ++ slack) as -> by by rewrite app_assoc.
  erewrite bind_run; [|apply (memmove_up P X slack size); [done | done | | lia]].
  2:{ unfold P. rewrite length_app. lia. }
  fold n. set (J := take n (X ++ slack)).
  unfold P at 1. rewrite <- app_assoc.
  rewrite (bind_run _ _ _ _ _ (hdr_store hdr _ 0x18 4 _ ltac:(lia))).
  unfold grown_hdr. rewrite Hbiu. unfold J, X. by rewrite <- !app_assoc.
Qed.

(** ** The new attribute *)

(** The first 24 bytes. *)
Definition resident_hdr (type asize name_len flags inst res_flags val_len : Z) : buffer :=
  le_bytes 4 type ++ le_bytes 4 asize ++ le_bytes 1 0 ++ le_bytes 1 name_len ++
  le_bytes 2 (if type =? 0x40 then 0 else 24) ++ le_bytes 2 flags ++ le_bytes 2 inst ++
  le_bytes 4 val_len ++ le_bytes 2 (24 + align8 (name_len * 2)) ++
  le_bytes 1 res_flags ++ le_bytes 1 0.

(** Name and value over what was in the room made ([rest]). *)
Definition resident_attr (type asize name_len flags inst res_flags val_len : Z)
    (nm val rest : buffer) : buffer :=
  resident_hdr type asize name_len flags inst res_flags val_len ++
  put (Z.to_nat (align8 (name_len * 2))) val (put 0 nm rest).

Definition next_instance (hdr : buffer) : buffer :=
  put 0x28 (le_bytes 2 (Z.land (field 2 0x28 hdr + 1) 0xffff)) hdr.

(** The bytes of the name that are stored. *)
Definition name_bytes (uname : ucs_name) (name_len : Z) : buffer :=
  match uname with
  | Ucs l => take (Z.to_nat (2 * name_len)) (ucs_bytes l)
  | _ => []
  end.

(** A name that goes with its length. *)
Definition name_matches (uname : ucs_name) (name_len : Z) : Prop :=
  0 <= name_len < 256 /\
  match uname with
  | Ucs l => name_len = Z.of_nat (length l)
  | _ => name_len = 0
  end.

Lemma length_ucs_bytes l : length (ucs_bytes l) = (2 * length l)%nat.
Proof. induction l; cbn; [done|]. lia. Qed.

Lemma length_name_bytes uname n :
  name_matches uname n -> length (name_bytes uname n) = Z.to_nat (2 * n).
Proof.
  intros [? Hn]. destruct uname; cbn in *; [subst; done..|].
  rewrite length_take, length_ucs_bytes. lia.
Qed.

Lemma byte_list_name uname n : byte_list (name_bytes uname n).
Proof.
  destruct uname; cbn; try constructor. apply Forall_take.
  induction l; cbn [ucs_bytes]; [constructor|].
  apply Forall_app. split; [apply byte_list_le | done].
Qed.

Lemma open24 (J : buffer) :
  (24 <= length J)%nat ->
  exists c0 c1 c2 c3 c4 c5 c6 c7 c8 c9 c10 c11 c12 c13 c14 c15 c16 c17 c18 c19 c20 c21 c22 c23,
    J = [c0;c1;c2;c3;c4;c5;c6;c7;c8;c9;c10;c11;c12;c13;c14;c15;c16;c17;c18;c19;c20;c21;c22;c23]
        ++ drop 24 J.
Proof.
  intros. do 24 (destruct J as [|? J]; [cbn in *; lia|]). do 24 eexists. cbn [drop app].
  reflexivity.
Qed.

Lemma put_past (h l a : buffer) k :
  (length h <= k)%nat -> put k l (h ++ a) = h ++ put (k - length h) l a.
Proof.
  intros. unfold put. rewrite take_app_ge, drop_app_ge by lia. rewrite <- app_assoc.
  do 3 f_equal. f_equal. lia.
Qed.

(** A store into a part whose bytes are listed. *)
Ltac eval_put :=
  match goal with |- context [put ?k ?l ?a] =>
    let t := eval cbn [put take drop app length le_bytes Nat.add] in (put k l a) in
    change (put k l a) with t
  end.
Ltac put_step k w :=
  erewrite bind_run; [|solve [eapply (store_part _ _ _ _ k) with (n := w);
                              [offsets; lia | cbn [length]; lia]]];
  eval_put.
Ltac put8_step k :=
  erewrite bind_run; [|solve [eapply (store8_part _ _ _ _ k);
                              [offsets; lia | cbn [length]; lia]]];
  eval_put.

Lemma write_resident_run hdr C J post type asize uname name_len flags res_flags val val_len :
  (0x30 <= length hdr)%nat -> name_matches uname name_len -> 0 <= val_len < 2 ^ 31 ->
  Z.to_nat val_len = length val ->
  24 + align8 (name_len * 2) + val_len <= Z.of_nat (length J) ->
  write_resident_attr R (Z.of_nat (length (hdr ++ C))) type asize uname name_len flags res_flags
    val val_len (hdr ++ C ++ J ++ post) =
  Some (tt, next_instance hdr ++ C ++
            resident_attr type asize name_len flags (field 2 0x28 hdr) res_flags val_len
              (name_bytes uname name_len) val (drop 24 J) ++ post).
Proof.
  intros Hh Hn Hv Lv HJ. pose proof Hn as [Hn0 _].
  destruct (align8_spec (name_len * 2) ltac:(lia)) as [Ha _].
  assert (24 <= length J)%nat as LJ by lia.
  destruct (open24 J LJ) as
    (c0&c1&c2&c3&c4&c5&c6&c7&c8&c9&c10&c11&c12&c13&c14&c15&c16&c17&c18&c19&c20&c21&c22&c23&EJ).
  assert (length J = (24 + length (drop 24 J))%nat) as LJ2 by (rewrite length_drop; lia).
  set (rest := drop 24 J) in *. rewrite EJ. clear EJ.
  rewrite <- (app_assoc _ rest post). rewrite app_assoc. unfold write_resident_attr.
  put_step 0%nat 4%nat. put_step 4%nat 4%nat. put8_step 8%nat. put8_step 9%nat.
  put_step 10%nat 2%nat. put_step 12%nat 2%nat.
  rewrite <- (app_assoc hdr C).
  rewrite (bind_run _ _ _ _ _ (hdr_load hdr _ 0x28 2 ltac:(lia))).
  rewrite app_assoc. put_step 14%nat 2%nat.
  rewrite <- (app_assoc hdr C).
  rewrite (bind_run _ _ _ _ _ (hdr_store hdr _ 0x28 2 _ ltac:(lia))).
  fold (next_instance hdr).
  assert (length (next_instance hdr) = length hdr) as LH.
  { apply length_put. rewrite length_le_bytes. lia. }
  replace (length (hdr ++ C)) with (length (next_instance hdr ++ C))
    by (rewrite !length_app; lia).
  set (hdr' := next_instance hdr) in *. rewrite (app_assoc hdr' C).
  put_step 16%nat 4%nat. put_step 20%nat 2%nat. put8_step 22%nat. put8_step 23%nat.
  change (AT_OBJECT_ID R) with 0x40.
  match goal with |- context [(hdr' ++ C) ++ ?l ++ rest ++ post] =>
    change l with (resident_hdr type asize name_len flags (field 2 0x28 hdr) res_flags val_len)
  end.
  unfold resident_attr. set (h := resident_hdr _ _ _ _ _ _ _).
  assert (length h = 24%nat) as Lh by done.
  assert (field 2 20 h = 24 + align8 (name_len * 2)) as Hoff.
  { apply (le_value_bytes 2). lia. }
  pose proof (length_name_bytes _ _ Hn) as Lnm. clearbody h hdr'.
  set (nm := name_bytes uname name_len) in *.
  assert (forall l, put 0 [] l = l) as Hput0 by (intros; unfold put; cbn; by rewrite drop_0).
  rewrite (app_assoc h rest post).
  (* the name *)
  rewrite (bind_run _ _ _ tt ((hdr' ++ C) ++ (h ++ put 0 nm rest) ++ post)).
  2:{ destruct (Z.eqb_spec name_len 0) as [E|E]; cbn [negb].
      - replace nm with (@nil Z) by (symmetry; apply nil_length_inv; lia). by rewrite Hput0.
      - unfold nm, name_bytes in *. destruct uname as [| |l]; [by destruct Hn..|].
        rewrite (store_bytes_part (hdr' ++ C) (h ++ rest) post _ 24%nat).
        + rewrite put_past by lia. by rewrite Lh.
        + lia.
        + rewrite length_app. lia. }
  (* the value *)
  destruct (Z.eqb_spec val_len 0) as [E|E]; cbn [negb].
  - replace val with (@nil Z) by (symmetry; apply nil_length_inv; lia).
    unfold put at 2. cbn [length app]. rewrite Nat.add_0_r, take_drop.
    by rewrite <- !app_assoc.
  - assert (length (put 0 nm rest) = length rest) as Lp by (apply length_put; lia).
    erewrite bind_run; [|eapply (load_part _ _ _ _ 20%nat) with (n := 2%nat);
                         [offsets; lia | rewrite length_app; lia]].
    unfold field. rewrite sl_app_l by lia. fold (field 2 20 h). rewrite Hoff.
    rewrite (store_bytes_part (hdr' ++ C) (h ++ put 0 nm rest) post _
               (24 + Z.to_nat (align8 (name_len * 2)))%nat).
    + rewrite Lv, firstn_all. rewrite put_past by lia.
      replace (24 + Z.to_nat (align8 (name_len * 2)) - length h)%nat
        with (Z.to_nat (align8 (name_len * 2))) by lia.
      by rewrite <- !app_assoc.
    + lia.
    + rewrite length_take, length_app. lia.
Qed.

(** ** The fields of the new attribute *)

Section NewAttr.
Context (type asize name_len flags inst res_flags val_len : Z) (uname : ucs_name)
  (val rest : buffer).
Context (Htype : 0 < type < 0xffffffff) (Hname : name_matches uname name_len)
  (Hval : byte_list val) (Hlen : Z.of_nat (length val) = val_len)
  (Hvl : val_len < 2 ^ 31 - 4096)
  (Hsize : asize = resident_size name_len val_len)
  (Hrest : byte_list rest) (Hroom : Z.of_nat (length rest) + 24 = asize).

Abbreviation nm := (name_bytes uname name_len).
Abbreviation voff := (align8 (name_len * 2)).
Abbreviation new :=
  (resident_attr type asize name_len flags inst res_flags val_len nm val rest).
Abbreviation h := (resident_hdr type asize name_len flags inst res_flags val_len).

Lemma new_sizes :
  0 <= name_len < 256 /\ name_len * 2 <= voff < name_len * 2 + 8 /\
  24 + voff + val_len <= asize < 2 ^ 31 /\ asize mod 8 = 0.
Proof.
  destruct Hname as [Hn _].
  destruct (align8_spec (name_len * 2) ltac:(lia)).
  destruct (align8_spec (24 + voff + val_len) ltac:(lia)).
  clear Hroom Hrest rest. rewrite Hsize. unfold resident_size. lia.
Qed.

Lemma length_named : length (put 0 nm rest) = length rest.
Proof.
  destruct new_sizes as (? & ? & ? & _). apply length_put.
  rewrite (length_name_bytes _ _ Hname). lia.
Qed.

Lemma length_new : Z.of_nat (length new) = asize.
Proof.
  destruct new_sizes as (? & ? & ? & _). unfold resident_attr.
  rewrite length_app, length_put; rewrite length_named; cbn [length resident_hdr]; [|lia].
  change (length h) with 24%nat. lia.
Qed.

(** A field of the first 24 bytes. *)
Lemma new_field n k : (k + n <= 24)%nat -> field n k new = field n k h.
Proof. intros. unfold field, resident_attr. by rewrite sl_app_l. Qed.

Lemma new_type : attr_type new = type.
Proof.
  unfold attr_type. rewrite new_field by lia. apply (le_value_bytes 4). cbn. lia.
Qed.

Lemma new_value : value_of new = val.
Proof.
  destruct new_sizes as (? & ? & ? & _). unfold value_of.
  rewrite !new_field by lia.
  replace (field 2 20 h) with (24 + voff) by (symmetry; apply (le_value_bytes 2); cbn; lia).
  replace (field 4 16 h) with val_len by (symmetry; apply (le_value_bytes 4); cbn; lia).
  unfold resident_attr, sl. rewrite drop_app_ge by (change (length h) with 24%nat; lia).
  change (length h) with 24%nat.
  replace (Z.to_nat (24 + voff) - 24)%nat with (Z.to_nat voff) by lia.
  replace (Z.to_nat val_len) with (length val) by lia.
  apply (sl_put_same (Z.to_nat voff) val). rewrite length_named. lia.
Qed.

(** The name is stored in front of the value. *)
Lemma new_name : take (length nm) (drop 24 new) = nm.
Proof.
  destruct new_sizes as (? & ? & ? & _). pose proof (length_name_bytes _ _ Hname) as Ln.
  unfold resident_attr. rewrite drop_app_length' by done.
  change (sl 0 (length nm) (put (Z.to_nat voff) val (put 0 nm rest)) = nm).
  rewrite sl_put_before by (rewrite ?length_named; lia).
  apply sl_put_same. lia.
Qed.

Lemma new_ok : attr_ok new.
Proof.
  destruct new_sizes as (Hn & Hvo & Has & Hmod). pose proof length_new as Ln.
  constructor.
  - unfold resident_attr. apply Forall_app. split.
    + unfold resident_hdr. rewrite !Forall_app. split_and!; apply byte_list_le.
    + apply byte_list_put; [apply byte_list_put; [done|] | done]. apply byte_list_name.
  - lia.
  - by rewrite Ln.
  - rewrite new_field, Ln by lia. apply (le_value_bytes 4). cbn. lia.
  - rewrite new_type. lia.
  - rewrite !new_field, Ln by lia.
    replace (field 1 9 h) with name_len by (symmetry; apply (le_value_bytes 1); cbn; lia).
    assert (field 2 10 h <= 24); [|lia].
    assert (field 2 10 h = if type =? 0x40 then 0 else 24) as ->; [|by case_match; lia].
    apply (le_value_bytes 2). case_match; cbn; lia.
  - rewrite !new_field, Ln by lia.
    replace (field 2 20 h) with (24 + voff) by (symmetry; apply (le_value_bytes 2); cbn; lia).
    replace (field 4 16 h) with val_len by (symmetry; apply (le_value_bytes 4); cbn; lia).
    lia.
Qed.
End NewAttr.

(** ** The header afterwards *)

Definition inserted_hdr (asize : Z) (hdr : buffer) : buffer := next_instance (grown_hdr asize hdr).

Section Header.
Context (asize : Z) (hdr : buffer).
Context (Hh : (0x30 <= length hdr)%nat) (Hb : byte_list hdr).

Lemma length_grown : length (grown_hdr asize hdr) = length hdr.
Proof. apply length_put. rewrite length_le_bytes. lia. Qed.

Lemma length_inserted : length (inserted_hdr asize hdr) = length hdr.
Proof.
  unfold inserted_hdr, next_instance. rewrite length_put; rewrite ?length_le_bytes, length_grown; lia.
Qed.

(** Only the two fields change. *)
Lemma inserted_field n k :
  (k + n <= 0x18 \/ 0x1c <= k /\ k + n <= 0x28 \/ 0x2a <= k)%nat ->
  field n k (inserted_hdr asize hdr) = field n k hdr.
Proof.
  intros Hk. unfold field, inserted_hdr, next_instance. f_equal.
  assert (sl k n (grown_hdr asize hdr) = sl k n hdr) as <-.
  { unfold grown_hdr. destruct Hk as [|Hk]; [apply sl_put_before | apply sl_put_after];
      rewrite ?length_le_bytes; lia. }
  pose proof length_grown.
  destruct Hk as [|[|]];
    [apply sl_put_before | apply sl_put_before | apply sl_put_after];
    rewrite ?length_le_bytes; lia.
Qed.

Lemma inserted_instance :
  field 2 0x28 (inserted_hdr asize hdr) = Z.land (field 2 0x28 hdr + 1) 0xffff.
Proof.
  assert (field 2 0x28 (grown_hdr asize hdr) = field 2 0x28 hdr) as E.
  { unfold field, grown_hdr. f_equal. apply sl_put_after; rewrite ?length_le_bytes; lia. }
  unfold inserted_hdr, next_instance. rewrite E. apply field_put_same.
  - rewrite length_grown. lia.
  - change 0xffff with (Z.ones 16). rewrite Z.land_ones by lia. apply Z.mod_pos_bound. done.
Qed.

Lemma inserted_biu :
  0 <= field 4 0x18 hdr + asize < 2 ^ 32 ->
  field 4 0x18 (inserted_hdr asize hdr) = field 4 0x18 hdr + asize.
Proof.
  intros Hs. unfold inserted_hdr, next_instance.
  unfold field at 1. rewrite sl_put_before by (rewrite ?length_grown; lia).
  apply field_put_same; [lia|]. exact Hs.
Qed.

Lemma inserted_bytes : byte_list (inserted_hdr asize hdr).
Proof.
  unfold inserted_hdr, next_instance, grown_hdr.
  apply byte_list_put; [apply byte_list_put; [done|]|]; apply byte_list_le.
Qed.
End Header.

(** ** Inserting *)

(** Any well-formed attribute of [size] bytes put into the room made for it gives a
    well-formed record. *)
Lemma place_ok hdr attrs fin slack i new size :
  rec_ok hdr attrs fin slack -> attr_ok new -> Z.of_nat (length new) = size ->
  size < 2 ^ 31 -> size <= Z.of_nat (length slack) ->
  rec_ok (inserted_hdr size hdr) (take i attrs ++ new :: drop i attrs) fin
    (drop (Z.to_nat size) slack).
Proof.
  intros Hok Hnew Ln Hsize Hroom.
  pose proof Hok as [Hb Hh Hoff Hbiu Hal Hsm Hat Hf Hsl].
  assert (length (concat (take i attrs ++ new :: drop i attrs)) =
          (length (concat attrs) + Z.to_nat size)%nat) as Lc.
  { rewrite length_concat_app. cbn [concat]. rewrite length_app.
    rewrite <- (take_drop i attrs) at 3. rewrite length_concat_app. lia. }
  constructor; rewrite ?Lc, ?length_inserted, ?length_drop by done.
  - by apply inserted_bytes.
  - lia.
  - rewrite inserted_field by lia. done.
  - rewrite inserted_biu by (try done; lia). lia.
  - rewrite inserted_field by lia. lia.
  - lia.
  - apply Forall_app. split; [by apply Forall_take|]. constructor; [done|].
    by apply Forall_drop.
  - done.
  - by apply Forall_drop.
Qed.

(** The bytes found in the room made for an attribute. *)
Lemma room_spec hdr attrs fin slack i size :
  rec_ok hdr attrs fin slack -> size <= Z.of_nat (length slack) ->
  let J := take (Z.to_nat size) (concat (drop i attrs) ++ fin ++ slack) in
  length J = Z.to_nat size /\ byte_list J.
Proof.
  intros [_ _ _ _ _ _ Hat (_ & _ & Hf) Hsl] Hroom J. unfold J. split.
  { rewrite length_take, !length_app. lia. }
  apply Forall_take, Forall_app. split; [|by apply Forall_app].
  assert (Forall attr_ok (drop i attrs)) as Hd by by apply Forall_drop.
  induction Hd as [|a l [] _ IH]; [constructor|]. by apply Forall_app.
Qed.

(** What the code relies on: a new context stands at the first attribute, and a
    converted name goes with its length. *)
Class RecordLaws `{RecordLib} := {
  get_search_ctx_law : forall b c,
    get_search_ctx b = Some c -> c = mkCtx (field 2 0x14 b) true;
  str2ucs_law : forall s u n, str2ucs s = inr (u, n) -> n < 256 -> name_matches u n;
}.

(** A value pointer with its length. *)
Definition val_matches (val : option buffer) (val_len : Z) : Prop :=
  match val with
  | Some v => Z.of_nat (length v) = val_len /\ byte_list v
  | None => val_len = 0
  end.

Section Insert.
Context `{RecordLaws}.

Lemma field_hdr hdr post k n : (k + n <= length hdr)%nat -> field n k (hdr ++ post) = field n k hdr.
Proof. intros. unfold field. by rewrite sl_app_l. Qed.

(** Searching from a new context. *)
Lemma find_fresh hdr attrs fin slack ctx type name ic val val_len :
  rec_ok hdr attrs fin slack -> 0 <= val_len ->
  get_search_ctx (rec_bytes hdr attrs fin slack) = Some ctx ->
  let '(i, f) := find_in type name ic val val_len attrs in
  mkntfs_attr_find R type name ic val val_len ctx (rec_bytes hdr attrs fin slack) =
    Some ((if f then None else Some ENOENT,
           mkCtx (Z.of_nat (length (hdr ++ concat (take i attrs)))) false),
          rec_bytes hdr attrs fin slack).
Proof.
  intros Hok Hv Hc. apply get_search_ctx_law in Hc as ->.
  pose proof Hok as [_ Hh Hoff _ _ _ _ _ _].
  unfold rec_bytes at 1. rewrite field_hdr, Hoff by lia.
  set (m := rec_bytes hdr attrs fin slack).
  assert (length attrs < S (length m))%nat as Hfuel.
  { unfold m, rec_bytes. rewrite !length_app. destruct Hok as [_ _ _ _ _ _ Hat _ _].
    assert (length attrs <= length (concat attrs))%nat; [|lia].
    clear -Hat. induction Hat as [|a l Ha _ IH]; [done|]. cbn [concat length]. rewrite length_app.
    destruct Ha. lia. }
  pose proof (attr_find_loop_run hdr fin slack type name ic val val_len attrs Hv [] (S (length m))
                (Z.of_nat (length hdr)) Hok Hfuel) as E.
  cbn [app concat] in E. rewrite app_nil_r in E. fold m in E.
  unfold mkntfs_attr_find. cbn [ctx_is_first ctx_attr].
  destruct (find_in type name ic val val_len attrs) as [i f].
  rewrite (bind_run (mret _) _ _ (Z.of_nat (length hdr)) m eq_refl).
  rewrite (bind_run buffer_size _ _ (length m) m eq_refl).
  by rewrite (bind_run _ _ _ _ _ E).
Qed.

Section Step.
Context (hdr fin slack : buffer) (attrs : list buffer).
Context (type : Z) (uname : ucs_name) (name_len flags res_flags : Z)
  (val : option buffer) (val_len : Z).
Context (Hok : rec_ok hdr attrs fin slack) (Htype : 0 < type < 0xffffffff)
  (Hname : name_matches uname name_len) (Hval : val_matches val val_len)
  (Hvl : val_len < 2 ^ 31 - 4096).

Abbreviation asize := (resident_size name_len val_len).
Abbreviation found := (find_in type uname CASE_SENSITIVE val val_len attrs).

(** The record with the attribute at place [i]. *)
Definition new_attr (i : nat) : buffer :=
  resident_attr type asize name_len flags (field 2 0x28 hdr) res_flags val_len
    (name_bytes uname name_len) (default [] val)
    (drop 24 (take (Z.to_nat asize) (concat (drop i attrs) ++ fin ++ slack))).

Definition inserted (i : nat) : buffer :=
  rec_bytes (inserted_hdr asize hdr) (take i attrs ++ new_attr i :: drop i attrs) fin
    (drop (Z.to_nat asize) slack).

Lemma val_facts :
  0 <= val_len /\ byte_list (default [] val) /\
  Z.of_nat (length (default [] val)) = val_len.
Proof.
  destruct val as [v|]; cbn in *; [destruct Hval; split_and!; [lia | done..]|].
  subst. split_and!; [lia | constructor | done].
Qed.

Lemma asize_facts :
  24 + align8 (name_len * 2) + val_len <= asize < 2 ^ 31 /\ asize mod 8 = 0.
Proof.
  destruct val_facts as (? & ? & ?). destruct Hname as [Hn _].
  destruct (align8_spec (name_len * 2) ltac:(lia)).
  destruct (align8_spec (24 + align8 (name_len * 2) + val_len) ltac:(lia)).
  unfold resident_size. lia.
Qed.

Section Room.
Context (i : nat) (Hroom : asize <= Z.of_nat (length slack)).

Abbreviation J := (take (Z.to_nat asize) (concat (drop i attrs) ++ fin ++ slack)).

Lemma length_room : length J = Z.to_nat asize.
Proof. rewrite length_take, !length_app. lia. Qed.

Lemma room_bytes : byte_list J.
Proof. by apply (room_spec hdr attrs fin slack i asize). Qed.

Lemma new_attr_ok : attr_ok (new_attr i).
Proof.
  destruct val_facts as (? & ? & ?). destruct asize_facts as [? ?].
  destruct Hname as [Hn _]. destruct (align8_spec (name_len * 2) ltac:(lia)).
  apply new_ok; auto.
  - apply Forall_drop, room_bytes.
  - rewrite length_drop, length_room. lia.
Qed.

Lemma length_new_attr : Z.of_nat (length (new_attr i)) = asize.
Proof.
  destruct val_facts as (? & ? & ?). destruct asize_facts as [? ?].
  destruct Hname as [Hn _]. destruct (align8_spec (name_len * 2) ltac:(lia)).
  apply length_new; auto.
  rewrite length_drop, length_room. lia.
Qed.

(** What the attribute says. *)
Lemma new_attr_fields :
  0 <= flags < 2 ^ 16 ->
  attr_type (new_attr i) = type /\ value_of (new_attr i) = default [] val /\
  take (length (name_bytes uname name_len)) (drop 24 (new_attr i)) =
    name_bytes uname name_len /\
  field 1 8 (new_attr i) = 0 /\ field 1 9 (new_attr i) = name_len /\
  field 2 12 (new_attr i) = flags /\ field 2 14 (new_attr i) = field 2 0x28 hdr.
Proof.
  intros Hfl. destruct (val_facts) as (? & ? & ?). destruct asize_facts as [? ?].
  pose proof Hname as [Hn _]. destruct (align8_spec (name_len * 2) ltac:(lia)).
  assert (Z.of_nat (length (drop 24 J)) + 24 = asize) as HJ
    by (rewrite length_drop, length_room; lia).
  pose proof (field_range 2 0x28 hdr (ok_hdr_bytes _ _ _ _ Hok)) as Hi.
  pose proof (ok_hdr _ _ _ _ Hok).
  unfold new_attr. split_and!.
  - by apply new_type.
  - by apply new_value.
  - by apply new_name.
  - rewrite new_field by lia. by apply (le_value_bytes 1).
  - rewrite new_field by lia. apply (le_value_bytes 1). cbn. lia.
  - rewrite new_field by lia. by apply (le_value_bytes 2).
  - rewrite new_field by lia. apply (le_value_bytes 2). apply Hi. lia.
Qed.

Lemma length_inserted_rec :
  length (inserted i) = length (rec_bytes hdr attrs fin slack).
Proof.
  destruct val_facts as (? & ? & ?). destruct asize_facts as [? _].
  pose proof Hname as [Hn _]. destruct (align8_spec (name_len * 2) ltac:(lia)).
  pose proof length_new_attr as Ln. pose proof (ok_hdr _ _ _ _ Hok).
  unfold inserted, rec_bytes. rewrite !length_app, length_inserted by done.
  rewrite length_concat_app. cbn [concat]. rewrite length_app, length_drop.
  rewrite <- (take_drop i attrs) at 3. rewrite length_concat_app. lia.
Qed.

Lemma inserted_ok :
  rec_ok (inserted_hdr asize hdr) (take i attrs ++ new_attr i :: drop i attrs) fin
    (drop (Z.to_nat asize) slack).
Proof.
  destruct asize_facts as [Has _].
  apply place_ok; auto using new_attr_ok, length_new_attr. lia.
Qed.
End Room.

(** Every outcome of the insertion. *)
Lemma insert_resident_run name :
  str2ucs name = inr (uname, name_len) ->
  insert_resident_attr_in_mft_record R type name name_len CASE_SENSITIVE flags res_flags
    val val_len (rec_bytes hdr attrs fin slack) =
  match get_search_ctx (rec_bytes hdr attrs fin slack) with
  | None => Some (Some ENOMEM, rec_bytes hdr attrs fin slack)
  | Some _ =>
      if snd found then Some (Some EEXIST, rec_bytes hdr attrs fin slack)
      else if Z.of_nat (length slack) <? asize
      then Some (Some EOPNOTSUPP, rec_bytes hdr attrs fin slack)
      else Some (None, inserted (fst found))
  end.
Proof.
  intros Hs. destruct val_facts as (Hv0 & Hvb & Hvlen). destruct asize_facts as [Has Hmod].
  pose proof Hname as [Hn _]. destruct (align8_spec (name_len * 2) ltac:(lia)) as [Hal _].
  unfold insert_resident_attr_in_mft_record. rewrite Hs.
  destruct (get_search_ctx _) as [ctx|] eqn:Hctx; [|done].
  pose proof (find_fresh _ _ _ _ ctx type uname CASE_SENSITIVE val val_len Hok Hv0 Hctx) as E.
  destruct found as [i f] eqn:Ef. cbn [fst snd].
  rewrite bool_decide_false by done. unfold mkntfs_attr_lookup.
  erewrite bind_run; [|by rewrite (bind_run _ _ _ _ _ E)].
  destruct f; [done|]. cbn [ctx_attr].
  rewrite <- (take_drop i attrs) in Hok at 1.
  pose proof (make_room_run _ _ _ _ _ asize Hok ltac:(lia)) as Er.
  rewrite (take_drop i attrs) in Er.
  destruct (Z.of_nat (length slack) <? asize) eqn:Hroom.
  { by rewrite (bind_run _ _ _ _ _ Er). }
  rewrite (bind_run _ _ _ _ _ Er). rewrite (take_drop i attrs) in Hok.
  apply Z.ltb_ge in Hroom.
  pose proof Hok as [_ Hh _ _ _ _ _ _ _].
  pose proof (length_room i Hroom) as LJ.
  replace (length (hdr ++ concat (take i attrs)))
    with (length (grown_hdr asize hdr ++ concat (take i attrs)))
    by (rewrite !length_app, length_grown by done; done).
  erewrite bind_run; [|apply write_resident_run; rewrite ?length_grown by done;
                       [done | done | lia | lia | lia]].
  unfold inserted, rec_bytes, new_attr.
  assert (field 2 0x28 (grown_hdr asize hdr) = field 2 0x28 hdr) as ->.
  { unfold field, grown_hdr. f_equal. apply sl_put_after; rewrite ?length_le_bytes; lia. }
  rewrite concat_app. cbn [concat]. unfold inserted_hdr. by rewrite <- !app_assoc.
Qed.
End Step.
End Insert.

(** ** The file name attribute *)

Lemma bytes_ucs_bytes u :
  Forall (fun x => 0 <= x < 2 ^ 16) u -> bytes_ucs (ucs_bytes u) = u.
Proof.
  induction 1 as [|x u Hx _ IH]; [done|]. cbn [ucs_bytes le_bytes app bytes_ucs].
  rewrite IH. f_equal. pose proof (le_value_bytes 2 x) as E. cbn in E. lia.
Qed.

(** One store into the part [h] at the front of a buffer: what changes, what does
    not. *)
Definition stored (n k : nat) (v : Z) (h h' : buffer) : Prop :=
  length h' = length h /\ (byte_list h -> byte_list h') /\
  (0 <= v < 256 ^ Z.of_nat n -> field n k h' = v) /\
  forall n' k', (k' + n' <= k \/ k + n <= k')%nat -> field n' k' h' = field n' k' h.

Lemma put_stored n k v h : (k + n <= length h)%nat -> stored n k v h (put k (le_bytes n v) h).
Proof.
  intros Hk. pose proof (length_le_bytes n v) as L. split; [|split; [|split]].
  - apply length_put. lia.
  - intros Hb. apply byte_list_put; [done | apply byte_list_le].
  - intros Hv. by apply field_put_same.
  - intros n' k' [Hd|Hd]; unfold field; f_equal;
      [apply sl_put_before | apply sl_put_after]; lia.
Qed.

Lemma store_le_front n k v h rest :
  (k + n <= length h)%nat ->
  exists h', store_le n (Z.of_nat k) v (h ++ rest) = Some (tt, h' ++ rest) /\ stored n k v h h'.
Proof. intros Hk. eexists. split; [by apply hdr_store | by apply put_stored]. Qed.

Lemma store8_front k v h rest :
  (k + 1 <= length h)%nat ->
  exists h', store8 (Z.of_nat k) v (h ++ rest) = Some (tt, h' ++ rest) /\ stored 1 k v h h'.
Proof.
  intros Hk. eexists. split; [|by apply put_stored].
  by apply (store8_part [] h rest); cbn; lia.
Qed.

Lemma stored_length n k v h h' : stored n k v h h' -> length h' = length h.
Proof. by intros []. Qed.

Lemma stored_bytes n k v h h' : stored n k v h h' -> byte_list h -> byte_list h'.
Proof. by intros (_ & ? & _). Qed.

Lemma stored_same n k v h h' : stored n k v h h' -> 0 <= v < 256 ^ Z.of_nat n -> field n k h' = v.
Proof. by intros (_ & _ & ? & _). Qed.

Lemma stored_other n k v h h' n' k' :
  stored n k v h h' -> (k' + n' <= k \/ k + n <= k')%nat -> field n' k' h' = field n' k' h.
Proof. intros (_ & _ & _ & Ho). apply Ho. Qed.

Ltac stored_field :=
  repeat match goal with
  | S : stored _ _ _ _ ?h |- field _ _ ?h = _ =>
      first [apply (stored_same _ _ _ _ _ S); cbn; lia | rewrite (stored_other _ _ _ _ _ _ _ S) by lia]
  end.

(** Store in the source's order, keeping one fact per store. *)
Ltac front_store p k w :=
  change p with (Z.of_nat k);
  match goal with |- context [store_le w (Z.of_nat k) ?v] =>
    match goal with |- context [?h ++ ?rest] =>
      is_var h; is_var rest;
      let h' := fresh "h" in let E := fresh "E" in let S := fresh "St" in
      destruct (store_le_front w k v h rest ltac:(lia)) as (h' & E & S);
      rewrite (bind_run _ _ _ _ _ E); clear E;
      let L := fresh "L" in pose proof (stored_length _ _ _ _ _ S) as L
    end
  end.

Ltac front_store8 p k :=
  change p with (Z.of_nat k);
  match goal with |- context [store8 (Z.of_nat k) ?v] =>
    match goal with |- context [?h ++ ?rest] =>
      is_var h; is_var rest;
      let h' := fresh "h" in let E := fresh "E" in let S := fresh "St" in
      destruct (store8_front k v h rest ltac:(lia)) as (h' & E & S);
      rewrite (bind_run _ _ _ _ _ E); clear E;
      let L := fresh "L" in pose proof (stored_length _ _ _ _ _ S) as L
    end
  end.

Section FileName.
Context `{RecordLib}.

(** What the stores leave when every step succeeds. *)
Lemma fill_file_name_run parent c d mf ac asz dsz flags ea tag s ntype u junk :
  mbstoucs s = inr u -> (length u <= length s)%nat ->
  length junk = (66 + (length s + 1) * 2)%nat -> byte_list junk ->
  (ea = 0 \/ tag = 0) -> 1 <= Z.of_nat (length u) <= 255 ->
  0 <= parent < 2 ^ 64 -> 0 <= c < 2 ^ 64 -> 0 <= d < 2 ^ 64 -> 0 <= mf < 2 ^ 64 ->
  0 <= ac < 2 ^ 64 -> Forall (fun x => 0 <= x < 2 ^ 16) u ->
  exists h rest,
    fill_file_name R parent c d mf ac asz dsz flags ea tag s ntype junk =
      Some (inr (Z.of_nat (length u)), h ++ ucs_bytes u ++ rest) /\
    length h = 66%nat /\ byte_list h /\ field 8 0 h = parent /\ field 8 8 h = c /\
    field 8 16 h = d /\ field 8 24 h = mf /\ field 8 32 h = ac /\
    field 1 64 h = Z.of_nat (length u).
Proof.
  intros Hu Hlu Hj Hjb Hun Hn Hp Hc Hd Hmf Hac Hu16.
  pose proof (take_drop 66 junk) as Ej. set (h := take 66 junk) in *.
  assert (length h = 66%nat) as Lh by (unfold h; rewrite length_take; lia).
  assert (length (drop 66 junk) = ((length s + 1) * 2)%nat) as Lr by (rewrite length_drop; lia).
  assert (byte_list h) as Hhb by by apply Forall_take.
  set (rest := drop 66 junk) in *. clearbody rest h. rewrite <- Ej. clear Ej Hj Hjb junk.
  unfold fill_file_name.
  front_store (fn_parent_directory R) 0%nat 8%nat.
  front_store (fn_creation_time R) 8%nat 8%nat.
  front_store (fn_last_data_change_time R) 16%nat 8%nat.
  front_store (fn_last_mft_change_time R) 24%nat 8%nat.
  front_store (fn_last_access_time R) 32%nat 8%nat.
  front_store (fn_allocated_size R) 40%nat 8%nat.
  front_store (fn_data_size R) 48%nat 8%nat.
  front_store (fn_file_attributes R) 56%nat 4%nat.
  replace (negb (ea =? 0) && negb (tag =? 0)) with false.
  2:{ destruct Hun as [-> | ->]; [done|]. by rewrite andb_false_r. }
  (* the union: packed size or reparse tag *)
  match goal with |- context [?m ++ rest] => rename m into ha end.
  assert (exists hb,
    (if negb (ea =? 0) then store16 (fn_packed_ea_size R) ea;; store16 (fn_reserved R) 0
     else store32 (fn_reparse_point_tag R) tag) (ha ++ rest) = Some (tt, hb ++ rest) /\
    length hb = length ha /\ (byte_list ha -> byte_list hb) /\
    forall n k, (k + n <= 60)%nat -> field n k hb = field n k ha) as (hb & Eu & Lb & Bb & Fb).
  { destruct (negb (ea =? 0)).
    - front_store (fn_packed_ea_size R) 60%nat 2%nat.
      change (fn_reserved R) with (Z.of_nat 62).
      match goal with St : stored 2 60 _ _ ?h |- _ =>
        destruct (store_le_front 2 62 0 h rest ltac:(lia)) as (hb & E & Sb) end.
      exists hb. split; [exact E|]. rewrite (stored_length _ _ _ _ _ Sb). split; [done|].
      split; [eauto using stored_bytes|].
      intros n k Hk. rewrite (stored_other _ _ _ _ _ _ _ Sb) by lia. stored_field. done.
    - change (fn_reparse_point_tag R) with (Z.of_nat 60).
      destruct (store_le_front 4 60 tag ha rest ltac:(lia)) as (hb & E & Sb).
      exists hb. split; [exact E|]. rewrite (stored_length _ _ _ _ _ Sb). split; [done|].
      split; [eauto using stored_bytes|].
      intros n k Hk. by rewrite (stored_other _ _ _ _ _ _ _ Sb) by lia. }
  rewrite (bind_run _ _ _ _ _ Eu).
  front_store8 (fn_file_name_type R) 65%nat.
  match goal with St : stored 1 65 _ _ ?h |- _ => rename h into hc, St into Sc end.
  rewrite Hu.
  replace (_ <? Z.of_nat (length u) + 1) with false by (symmetry; apply Z.ltb_ge; lia).
  (* the name *)
  assert (length (ucs_bytes (u ++ [0])) = (2 * length u + 2)%nat) as Lub
    by (rewrite length_ucs_bytes, length_app; cbn; lia).
  assert (store_bytes (fn_file_name R) (ucs_bytes (u ++ [0])) (hc ++ rest) =
          Some (tt, hc ++ put 0 (ucs_bytes (u ++ [0])) rest)) as En.
  { pose proof (store_bytes_part [] (hc ++ rest) [] (fn_file_name R) 66%nat eq_refl
                  (ucs_bytes (u ++ [0])) ltac:(rewrite length_app; lia)) as E.
    cbn [app] in E. rewrite !app_nil_r in E. rewrite E, put_past by lia.
    do 4 f_equal. lia. }
  rewrite (bind_run _ _ _ _ _ En).
  replace (Z.of_nat (length u) <? 1) with false by (symmetry; apply Z.ltb_ge; lia).
  replace (255 <? Z.of_nat (length u)) with false by (symmetry; apply Z.ltb_ge; lia).
  assert (put 0 (ucs_bytes (u ++ [0])) rest =
          ucs_bytes u ++ [0; 0] ++ drop (2 * length u + 2) rest) as ->.
  { unfold put. rewrite Lub. cbn [take Nat.add app].
    assert (ucs_bytes (u ++ [0]) = ucs_bytes u ++ [0; 0]) as ->.
    { clear. induction u as [|x u IH]; [done|]. cbn [app ucs_bytes]. by rewrite IH. }
    by rewrite <- app_assoc. }
  set (rest' := [0; 0] ++ drop (2 * length u + 2) rest). clearbody rest'.
  set (tail := ucs_bytes u ++ rest').
  front_store8 (fn_file_name_length R) 64%nat.
  match goal with St : stored 1 64 _ _ ?h |- _ => rename h into hd, St into Sd end.
  exists hd, rest'. split; [done|].
  split; [lia|]. split; [eauto 15 using stored_bytes|].
  assert (forall n k, (k + n <= 56)%nat -> field n k hd = field n k ha) as Hlow.
  { intros n k Hk. rewrite (stored_other _ _ _ _ _ _ _ Sd), (stored_other _ _ _ _ _ _ _ Sc) by lia.
    apply Fb. lia. }
  clear Fb. rewrite !Hlow by lia.
  split_and!; stored_field.
Qed.
End FileName.
