(* ===== verification/MftTheorems.v ===== *)
(** * Theorems about MFT records

    The search of an attribute is the search of a list; inserting a resident
    attribute keeps a record well formed and ordered by type, stores the attribute
    where the search stopped, or changes nothing; the name attribute repeats the
    times of the standard information.  The witnesses run on a record as the
    formatter lays it out, with a library whose names are plain characters. *)

From stdpp Require Import sorting.
From S2P Require Import Prelude Bytes Mft MftFacts.

(** ** Order *)

Definition types_sorted (attrs : list buffer) : Prop :=
  StronglySorted Z.le (attr_type <$> attrs).

Section Order.
Context `{RecordLib}.

Lemma find_in_order type name ic val val_len attrs :
  type <> 0 -> types_sorted attrs ->
  let '(i, f) := find_in type name ic val val_len attrs in
  Forall (fun a => attr_type a <= type) (take i attrs) /\
  (f = true -> exists a, attrs !! i = Some a /\ attr_type a = type) /\
  (f = false -> Forall (fun a => type <= attr_type a) (drop i attrs)).
Proof.
  intros Ht. induction attrs as [|a l IH]; intros Hs; cbn [find_in].
  { split_and!; [constructor | done | constructor]. }
  unfold types_sorted in Hs. rewrite fmap_cons in Hs.
  apply StronglySorted_inv in Hs as [Hs Hle].
  specialize (IH Hs). destruct (find_in type name ic val val_len l) as [i f].
  destruct IH as (IH1 & IH2 & IH3).
  replace (type =? 0) with false by (symmetry; by apply Z.eqb_neq). cbn [negb andb].
  assert (attr_type a >= type -> Forall (fun b => type <= attr_type b) (drop 0 (a :: l))) as Hrest.
  { intros Ha. constructor; [lia|]. rewrite Forall_fmap in Hle.
    eapply Forall_impl; [exact Hle|]. cbn. lia. }
  destruct (Z.ltb_spec type (attr_type a)) as [Hlt|Hge].
  { split_and!; [constructor | done | intros _; apply Hrest; lia]. }
  assert (Forall (fun b => attr_type b <= type) (take (S i) (a :: l)) /\
          (f = true -> exists b, (a :: l) !! S i = Some b /\ attr_type b = type) /\
          (f = false -> Forall (fun b => type <= attr_type b) (drop (S i) (a :: l)))) as Hnext.
  { split_and!; cbn [take drop]; [by constructor | done | done]. }
  destruct (Z.eqb_spec (attr_type a) type) as [Heq|]; cbn [negb]; [|done].
  assert (Forall (fun b => attr_type b <= type) (take 0 (a :: l)) /\
          (true = true -> exists b, (a :: l) !! 0%nat = Some b /\ attr_type b = type) /\
          (true = false -> Forall (fun b => type <= attr_type b) (drop 0 (a :: l)))) as Hhere.
  { split_and!; [constructor | by exists a | done]. }
  assert (Forall (fun b => attr_type b <= type) (take 0 (a :: l)) /\
          (false = true -> exists b, (a :: l) !! 0%nat = Some b /\ attr_type b = type) /\
          (false = false -> Forall (fun b => type <= attr_type b) (drop 0 (a :: l)))) as Hstop.
  { split_and!; [constructor | done | intros _; apply Hrest; lia]. }
  destruct (name_verdict name ic a); [|done|done].
  by destruct (value_verdict val val_len a).
Qed.

Lemma sorted_insert attrs i a :
  types_sorted attrs ->
  Forall (fun b => attr_type b <= attr_type a) (take i attrs) ->
  Forall (fun b => attr_type a <= attr_type b) (drop i attrs) ->
  types_sorted (take i attrs ++ a :: drop i attrs).
Proof.
  unfold types_sorted. intros Hs H1 H2. revert attrs Hs H1 H2.
  induction i as [|i IH]; intros attrs Hs H1 H2.
  { rewrite take_0, drop_0 in *. cbn [app]. rewrite fmap_cons.
    constructor; [done|]. by rewrite Forall_fmap. }
  destruct attrs as [|b l]; cbn [take drop app] in *.
  { cbn. constructor; constructor. }
  rewrite fmap_cons in Hs. apply StronglySorted_inv in Hs as [Hs Hle]. apply Forall_cons in H1 as [Hb H1].
  rewrite fmap_cons. constructor; [by apply IH|].
  rewrite Forall_fmap in Hle. rewrite fmap_app, fmap_cons, Forall_app, Forall_cons, !Forall_fmap.
  rewrite <- (take_drop i l) in Hle. apply Forall_app in Hle as [? ?]. split_and!; done.
Qed.
End Order.

(** ** The theorems *)

Section Theorems.
Context `{RecordLaws}.

(** [C28] Searching a well-formed record from a new context never leaves the
    record and always ends: [mkntfs_attr_find] answers success or [ENOENT], and
    the attribute it stops at, exactly as the search of the attribute list by
    type, name and value does. *)
Theorem mkntfs_attr_find_correct L hdr attrs fin slack ctx type name ic val val_len :
  L = documented_record -> rec_ok hdr attrs fin slack -> 0 <= val_len ->
  get_search_ctx (rec_bytes hdr attrs fin slack) = Some ctx ->
  mkntfs_attr_find L type name ic val val_len ctx (rec_bytes hdr attrs fin slack) =
  let '(i, found) := find_in type name ic val val_len attrs in
  Some ((if found then None else Some ENOENT,
         mkCtx (Z.of_nat (length (hdr ++ concat (take i attrs)))) false),
        rec_bytes hdr attrs fin slack).
Proof.
  intros -> Hok Hv Hc.
  pose proof (find_fresh hdr attrs fin slack ctx type name ic val val_len Hok Hv Hc) as E.
  by destruct (find_in type name ic val val_len attrs).
Qed.

(** [C24] Inserting a resident attribute into a well-formed record.  No access
    leaves the record.  An attribute that is already there, a missing context and
    a lack of room give [EEXIST], [ENOMEM] and [EOPNOTSUPP] and change nothing.
    Otherwise the record gets one more attribute, at the place where the search
    stopped; it has the type, the value, the name, the flags and the next instance
    number given; all other attributes are unchanged, the record is well formed
    again, and ordered by type if it was. *)
Theorem insert_resident_attr_correct L hdr attrs fin slack type name uname name_len flags
    res_flags val val_len :
  L = documented_record -> rec_ok hdr attrs fin slack -> 0 < type < 0xffffffff ->
  name_len < 256 -> 0 <= flags < 2 ^ 16 -> val_matches val val_len ->
  val_len < 2 ^ 31 - 4096 -> str2ucs name = inr (uname, name_len) ->
  let m := rec_bytes hdr attrs fin slack in
  let '(i, found) := find_in type uname CASE_SENSITIVE val val_len attrs in
  exists err m',
    insert_resident_attr_in_mft_record L type name name_len CASE_SENSITIVE flags res_flags
      val val_len m = Some (err, m') /\
    length m' = length m /\
    match err with
    | Some e =>
        m' = m /\
        e = match get_search_ctx m with
            | None => ENOMEM
            | Some _ => if found then EEXIST else EOPNOTSUPP
            end
    | None =>
        found = false /\
        exists hdr' new slack',
          m' = rec_bytes hdr' (take i attrs ++ new :: drop i attrs) fin slack' /\
          rec_ok hdr' (take i attrs ++ new :: drop i attrs) fin slack' /\
          attr_type new = type /\ value_of new = default [] val /\
          take (length (name_bytes uname name_len)) (drop 24 new) = name_bytes uname name_len /\
          field 1 8 new = 0 /\ field 1 9 new = name_len /\ field 2 12 new = flags /\
          field 2 14 new = field 2 0x28 hdr /\
          field 2 0x28 hdr' = (field 2 0x28 hdr + 1) mod 2 ^ 16 /\
          (types_sorted attrs -> types_sorted (take i attrs ++ new :: drop i attrs))
    end.
Proof.
  intros -> Hok Htype Hnl Hfl Hval Hvl Hs. cbv zeta.
  pose proof (str2ucs_law _ _ _ Hs Hnl) as Hname.
  pose proof (insert_resident_run hdr fin slack attrs type uname name_len flags res_flags val
                val_len Hok Hname Hval Hvl name Hs) as E.
  pose proof (find_in_order type uname CASE_SENSITIVE val val_len attrs ltac:(lia)) as Hord.
  destruct (find_in type uname CASE_SENSITIVE val val_len attrs) as [i f]. cbn [fst snd] in E.
  rewrite E. clear E. destruct (get_search_ctx _) as [ctx|]; [|by eexists _, _; split_and!].
  destruct f; [by eexists _, _; split_and!|].
  destruct (Z.ltb_spec (Z.of_nat (length slack)) (resident_size name_len val_len)) as [|Hroom];
    [by eexists _, _; split_and!|].
  eexists None, _. split; [reflexivity|]. split; [by apply length_inserted_rec|].
  split; [done|]. eexists _, _, _. split; [reflexivity|]. split; [by apply inserted_ok|].
  destruct (new_attr_fields hdr fin slack attrs type uname name_len flags res_flags val val_len
              Hok Htype Hname Hval Hvl i Hroom Hfl) as (Ht & ? & ? & ? & ? & ? & ?).
  split_and!; try done.
  - rewrite inserted_instance by apply Hok. change 0xffff with (Z.ones 16).
    by rewrite Z.land_ones.
  - intros Hsort. destruct (Hord Hsort) as (Hb & _ & Ha).
    apply sorted_insert; rewrite ?Ht; auto.
Qed.

(** Reading inside the value of an attribute. *)
Lemma field_value a k :
  attr_ok a -> Z.of_nat k + 8 <= field 4 16 a ->
  field 8 (Z.to_nat (field 2 20 a) + k) a = field 8 k (value_of a).
Proof.
  intros [Hb Hs _ _ _ _ Hv] Hk. pose proof (field_range 2 20 a Hb ltac:(lia)).
  unfold field at 1 3. f_equal. unfold value_of, sl.
  symmetry. rewrite take_drop_commute, take_take, Nat.min_l by lia.
  by rewrite <- take_drop_commute, drop_drop.
Qed.

(** [c] is a load of eight bytes at [k] of the value of [a]. *)
Lemma load_value pre a post p k :
  attr_ok a -> Z.of_nat k + 8 <= field 4 16 a ->
  p = Z.of_nat (length pre) + field 2 20 a + Z.of_nat k ->
  load_le 8 p (pre ++ a ++ post) = Some (field 8 k (value_of a), pre ++ a ++ post).
Proof.
  intros Ha Hk Hp. pose proof Ha as [Hb Hs _ _ _ _ Hv].
  pose proof (field_range 2 20 a Hb ltac:(lia)).
  rewrite <- field_value by done. apply load_part; lia.
Qed.

Ltac load_time k :=
  erewrite bind_run;
  [|solve [eapply (load_value _ _ _ _ k);
           [eassumption | lia
           | cbn [si_creation_time si_last_data_change_time si_last_mft_change_time
                  si_last_access_time documented_record]; lia]]].

(** The name attribute of a record that has standard information: the
    structure is filled without leaving its allocation, its four times are those
    of the standard information, it carries the parent and the converted name,
    and what is inserted is that structure, cut after the name. *)
Theorem add_attr_file_name_correct L hdr attrs fin slack ctx i sa junk parent asz dsz flags ea
    tag s ntype u :
  L = documented_record -> rec_ok hdr attrs fin slack ->
  get_search_ctx (rec_bytes hdr attrs fin slack) = Some ctx ->
  find_in 0x10 AT_UNNAMED CASE_SENSITIVE None 0 attrs = (i, true) -> attrs !! i = Some sa ->
  48 <= field 4 16 sa ->
  mbstoucs s = inr u -> (length u <= length s)%nat -> Forall (fun x => 0 <= x < 2 ^ 16) u ->
  1 <= Z.of_nat (length u) <= 255 ->
  length junk = (66 + (length s + 1) * 2)%nat -> byte_list junk ->
  (ea = 0 \/ tag = 0) -> 0 <= parent < 2 ^ 64 ->
  exists v,
    add_attr_file_name L (Some junk) parent asz dsz flags ea tag s ntype
      (rec_bytes hdr attrs fin slack) =
    insert_resident_attr_in_mft_record L 0x30 None 0 CASE_SENSITIVE 0 1 (Some v)
      (Z.of_nat (length v)) (rec_bytes hdr attrs fin slack) /\
    length v = (66 + 2 * length u)%nat /\ byte_list v /\ field 8 0 v = parent /\
    field 8 8 v = field 8 0 (value_of sa) /\ field 8 16 v = field 8 8 (value_of sa) /\
    field 8 24 v = field 8 16 (value_of sa) /\ field 8 32 v = field 8 24 (value_of sa) /\
    field 1 64 v = Z.of_nat (length u) /\ bytes_ucs (drop 66 v) = u.
Proof.
  intros -> Hok Hctx Hf Hi Hsz Hu Hlu Hu16 Hn Hj Hjb Hun Hp.
  set (m := rec_bytes hdr attrs fin slack) in *.
  pose proof (find_fresh hdr attrs fin slack ctx 0x10 AT_UNNAMED CASE_SENSITIVE None 0 Hok
                ltac:(lia) Hctx) as E.
  rewrite Hf in E. fold m in E.
  pose proof (ok_attrs _ _ _ _ Hok) as Hat. rewrite Forall_lookup in Hat.
  pose proof (Hat _ _ Hi) as Ha. pose proof Ha as [Hb Hs _ _ _ _ _].
  set (a := ctx_attr (mkCtx (Z.of_nat (length (hdr ++ concat (take i attrs)))) false)) in *.
  assert (exists pre post, m = pre ++ sa ++ post /\
            length (hdr ++ concat (take i attrs)) = length pre) as (pre & post & Em & Hpre).
  { exists (hdr ++ concat (take i attrs)), (concat (drop (S i) attrs) ++ fin ++ slack).
    split; [|done]. unfold m. rewrite <- (take_drop_middle attrs i sa Hi) at 1.
    apply rec_split. }
  pose proof (field_range 2 20 sa Hb ltac:(lia)) as Hoff.
  assert (Forall (fun k => 0 <= field 8 k (value_of sa) < 2 ^ 64) [0; 8; 16; 24]%nat) as Htimes.
  { repeat constructor; rewrite <- field_value by (try done; lia);
      apply (field_range 8); try done; destruct Ha; lia. }
  rewrite !Forall_cons in Htimes. destruct Htimes as (T0 & T1 & T2 & T3 & _).
  destruct (fill_file_name_run parent _ _ _ _ asz dsz flags ea tag s ntype u junk Hu Hlu Hj Hjb
              Hun Hn Hp T0 T1 T2 T3 Hu16)
    as (h & rest & Efn & Lh & Hbh & F0 & F1 & F2 & F3 & F4 & F5).
  exists (h ++ ucs_bytes u).
  assert (length (h ++ ucs_bytes u) = (66 + 2 * length u)%nat) as Lv
    by (rewrite length_app, length_ucs_bytes; lia).
  split; [|split; [done|]].
  - unfold add_attr_file_name. rewrite Hctx. unfold mkntfs_attr_lookup.
    erewrite bind_run; [|by rewrite (bind_run _ _ _ _ _ E)].
    rewrite Em. cbn [ctx_attr].
    run_load 2%nat 20%nat.
    load_time 0%nat. load_time 8%nat. load_time 16%nat. load_time 24%nat.
    rewrite Efn.
    assert (sizeof_FILE_NAME_ATTR R + Z.of_nat (length u) * 2 =
            Z.of_nat (length (h ++ ucs_bytes u))) as ->.
    { rewrite Lv. change (sizeof_FILE_NAME_ATTR R) with 66. lia. }
    rewrite Nat2Z.id, (app_assoc h), take_app_length. done.
  - assert (forall n k, (k + n <= 66)%nat -> field n k (h ++ ucs_bytes u) = field n k h) as Hh
      by (intros; apply field_hdr; lia).
    rewrite !Hh by lia. split_and!; try done.
    + apply Forall_app. split; [done|]. clear. induction u; cbn [ucs_bytes]; [constructor|].
      apply Forall_app. split; [apply byte_list_le | done].
    + rewrite <- Lh, drop_app_length. by apply bytes_ucs_bytes.
Qed.
End Theorems.

(** ** Sample records *)

(** Names are lists of characters, compared as they are. *)
#[local] Instance plain_lib : RecordLib := {
  get_search_ctx := fun b => Some (mkCtx (field 2 0x14 b) true);
  str2ucs := fun s => match s with
                      | None | Some [] => inr (AT_UNNAMED, 0)
                      | Some l => inr (Ucs l, Z.of_nat (length l))
                      end;
  mbstoucs := fun s => inr s;
  names_are_equal := fun n a _ => bool_decide (n = a);
  names_full_collate := fun n a _ => lex_compare n a;
}.

#[local] Instance plain_laws : RecordLaws.
Proof.
  constructor.
  - intros b c [= <-]. done.
  - intros [[|x l]|] u n; cbn [str2ucs plain_lib]; intros [= <- <-] Hn; split; try done;
      cbn [length] in *; lia.
Qed.

(** Checking that bytes are a well-formed record. *)
Definition byte_listb (b : buffer) : bool := forallb (fun x => (0 <=? x) && (x <? 256)) b.

Definition attr_okb (a : buffer) : bool :=
  byte_listb a && (24 <=? Z.of_nat (length a)) && (Z.of_nat (length a) mod 8 =? 0) &&
  (field 4 4 a =? Z.of_nat (length a)) && negb (attr_type a =? 0xffffffff) &&
  (field 2 10 a + 2 * field 1 9 a <=? Z.of_nat (length a)) &&
  (field 2 20 a + field 4 16 a <=? Z.of_nat (length a)).

Definition rec_okb (hdr : buffer) (attrs : list buffer) (fin slack : buffer) : bool :=
  let used := Z.of_nat (length hdr + length (concat attrs) + 8) in
  let all := used + Z.of_nat (length slack) in
  byte_listb hdr && (0x30 <=? Z.of_nat (length hdr)) &&
  (field 2 0x14 hdr =? Z.of_nat (length hdr)) && (field 4 0x18 hdr =? used) &&
  (field 4 0x1c hdr =? all) && (all <? 2 ^ 31) && forallb attr_okb attrs &&
  (Z.of_nat (length fin) =? 8) && (field 4 0 fin =? 0xffffffff) && byte_listb fin &&
  byte_listb slack.

Lemma byte_listb_ok b : byte_listb b = true -> byte_list b.
Proof.
  unfold byte_listb. rewrite forallb_forall. intros Hb. apply Forall_forall.
  intros x Hx%list_elem_of_In. apply Hb in Hx. zb. lia.
Qed.

Lemma attr_okb_ok a : attr_okb a = true -> attr_ok a.
Proof. unfold attr_okb. intros. zb. constructor; auto using byte_listb_ok; lia. Qed.

Lemma rec_okb_ok hdr attrs fin slack :
  rec_okb hdr attrs fin slack = true -> rec_ok hdr attrs fin slack.
Proof.
  unfold rec_okb. intros. zb. constructor; auto using byte_listb_ok; try lia.
  - match goal with Hf : forallb _ _ = true |- _ => rewrite forallb_forall in Hf;
      apply Forall_forall; intros x Hx%list_elem_of_In; by apply attr_okb_ok, Hf end.
  - split_and!; auto using byte_listb_ok; lia.
Qed.

(** A record of 1024 bytes with the standard information of a file: times 1 to 4. *)
Definition sample_hdr (used : Z) : buffer :=
  put 0x14 (le_bytes 2 0x38) (put 0x18 (le_bytes 4 used) (put 0x1c (le_bytes 4 1024)
    (replicate 0x38 0))).

Definition sample_end : buffer := [255; 255; 255; 255; 0; 0; 0; 0].

Definition sample_std : buffer :=
  resident_attr 0x10 72 0 0 0 0 48 []
    (le_bytes 8 1 ++ le_bytes 8 2 ++ le_bytes 8 3 ++ le_bytes 8 4 ++ replicate 16 0)
    (replicate 48 0).

Definition sample_slack : buffer := replicate 888 7.

Lemma sample_ok : rec_ok (sample_hdr 136) [sample_std] sample_end sample_slack.
Proof. apply rec_okb_ok. vm_compute. reflexivity. Qed.

Abbreviation sample := (rec_bytes (sample_hdr 136) [sample_std] sample_end sample_slack).

Lemma mkntfs_attr_find_correct_witness :
  mkntfs_attr_find documented_record 0x10 NULL_name CASE_SENSITIVE None 0 (mkCtx 0x38 true) sample =
    Some ((None, mkCtx 0x38 false), sample).
Proof.
  exact (mkntfs_attr_find_correct documented_record (sample_hdr 136) [sample_std] sample_end
           sample_slack (mkCtx 0x38 true) 0x10 NULL_name CASE_SENSITIVE None 0 eq_refl sample_ok
           ltac:(lia) eq_refl).
Defined.

(** A security descriptor of four bytes after the standard information. *)
Lemma insert_resident_attr_correct_witness :
  exists err m',
    insert_resident_attr_in_mft_record documented_record 0x50 None 0 CASE_SENSITIVE 0 0
      (Some [1; 2; 3; 4]) 4 sample = Some (err, m') /\ length m' = length sample.
Proof.
  destruct (insert_resident_attr_correct documented_record (sample_hdr 136) [sample_std]
              sample_end sample_slack 0x50 None AT_UNNAMED 0 0 0 (Some [1; 2; 3; 4]) 4 eq_refl
              sample_ok ltac:(lia) ltac:(lia) ltac:(lia)
              ltac:(split; [reflexivity | apply byte_listb_ok; reflexivity]) ltac:(lia) eq_refl)
    as (err & m' & E & Hl & _).
  exists err, m'. exact (conj E Hl).
Defined.

Lemma add_attr_file_name_correct_witness :
  exists v, length v = (66 + 2 * 2)%nat /\ field 8 8 v = field 8 0 (value_of sample_std) /\
    bytes_ucs (drop 66 v) = [65; 66].
Proof.
  destruct (@add_attr_file_name_correct plain_lib plain_laws documented_record (sample_hdr 136) [sample_std]
              sample_end sample_slack (mkCtx 0x38 true) 0 sample_std (replicate 72 9) 5 0 0 6 0 0
              [65; 66] 3 [65; 66] eq_refl sample_ok eq_refl eq_refl eq_refl
              ltac:(vm_compute; discriminate) eq_refl ltac:(cbn; lia)
              ltac:(repeat constructor; lia) ltac:(cbn; lia) eq_refl ltac:(apply byte_listb_ok; reflexivity)
              ltac:(by left) ltac:(lia))
    as (v & _ & Lv & _ & _ & Ht & _ & _ & _ & _ & Hu).
  exists v. exact (conj Lv (conj Ht Hu)).
Defined.
