(* ===== verification/MftNonRes.v ===== *)
(** * Non-resident attributes

    Models of src/NTFSModule/bridge/mkntfs/mkntfs.c:
    [insert_non_resident_attr_in_mft_record], [insert_positioned_attr_in_mft_record]
    and the [add_attr_*] functions that choose between resident and non-resident
    storage.  They work on the record ([Mft]), the cluster allocator ([Scatter]) and
    the device ([MkWrite]) at once; the encoding of a runlist as mapping pairs is
    libntfs-3g's ([MappingLib]). *)

From S2P Require Import Prelude ClusterAlloc Scatter Runlist Device MkWrite Bytes Mft.

(** Fields and flags of [layout.h] the resident attributes do not use. *)
Record nonres_h := {
  n_lowest_vcn : Z; n_highest_vcn : Z; n_mapping_pairs_offset : Z; n_compression_unit : Z;
  n_reserved1 : Z; n_allocated_size : Z; n_data_size : Z; n_initialized_size : Z;
  m_mft_record_number : Z; FILE_LogFile : Z;
  ATTR_COMPRESSION_MASK : Z; ATTR_IS_ENCRYPTED : Z; ATTR_IS_SPARSE : Z
}.

Definition documented_nonres : nonres_h := {|
  n_lowest_vcn := 16; n_highest_vcn := 24; n_mapping_pairs_offset := 32;
  n_compression_unit := 34; n_reserved1 := 35; n_allocated_size := 40; n_data_size := 48;
  n_initialized_size := 56; m_mft_record_number := 44; FILE_LogFile := 2;
  ATTR_COMPRESSION_MASK := 0xff; ATTR_IS_ENCRYPTED := 0x4000; ATTR_IS_SPARSE := 0x8000
|}.

(** [ntfs_get_size_for_mapping_pairs]: errno, or the size; and
    [ntfs_mapping_pairs_build]: whether it answers 0 (it answers -1 otherwise), and
    the bytes it has stored. *)
Class MappingLib := {
  get_size_for_mapping_pairs : list rle -> errno_t + Z;
  mapping_pairs_build : list rle -> Z -> bool * buffer;
}.

(** [(x + 7) & ~7] on the name's length, and the size of the attribute. *)
Definition name_area (name_len : Z) : Z := align8 name_len.
Definition nonres_size (name_len mpa_size : Z) : Z :=
  align8 (64 + name_area name_len + mpa_size).

(** [highest_vcn] of insert_positioned: the clusters of the runlist; the terminator
    of an allocated runlist has this virtual cluster number. *)
Definition rl_vcns (rl : list rle) : Z := fold_right (fun r n => rl_length r + n) 0 rl.

Section NonRes.
Context (R : record_h) (N : nonres_h) `{RecordLib} `{MappingLib} {S : Type} `{BlockDev S}.

(** The volume and the answers of the system: heap requests of the allocator, the
    padding of a write; errno after a failed allocation or write, [None] when it
    is 0. *)
Context (malloc_ok : nat -> bool) (calloc_ok no_action : bool) (nr_clusters csize : Z)
  (scatter_errno write_errno : option errno_t).

(** What the insertions change outside the record: [g_allocation],
    [g_mft_zone_end], [g_dynamic_buf] and the device. *)
Record fstate := mkF { fs_alloc : astate; fs_zone : Z; fs_dyn : list Z; fs_dev : S }.

Definition F (A : Type) : Type := fstate -> M (A * fstate).

#[local] Instance F_ret : MRet F := fun A x fs => mret (x, fs).
#[local] Instance F_bind : MBind F := fun A B k m fs => '(x, fs) ← m fs; k x fs.

Definition on_record {A} (m : M A) : F A := fun fs => x ← m; mret (x, fs).

Definition with_ctx {A} (k : option search_ctx -> F A) : F A :=
  fun fs m => k (get_search_ctx m) fs m.

(** [allocate_scattered_clusters] *)
Definition allocate (clusters : Z) : F (option (list rle)) := fun fs =>
  match allocate_scattered_clusters malloc_ok nr_clusters clusters (fs_zone fs) (fs_alloc fs) with
  | None => fun _ => None
  | Some (rl, zone, a) => mret (rl, mkF a zone (fs_dyn fs) (fs_dev fs))
  end.

(** [ntfs_rlwrite] *)
Definition write_rl (rl : list rle) (val : buffer) (val_len : Z) (wt : WRITE_TYPE) : F Z := fun fs =>
  match ntfs_rlwrite no_action csize (g_allocation (fs_alloc fs)) calloc_ok rl val val_len wt
          (fs_dyn fs) (fs_dev fs) with
  | None => fun _ => None
  | Some (bw, d) => mret (bw, mkF (fs_alloc fs) (fs_zone fs) (fs_dyn fs) d)
  end.

(** [*inited_size] when the write succeeds: the bytes that went to the device. *)
Definition inited_size (rl : list rle) (val : buffer) (val_len : Z) (wt : WRITE_TYPE)
    (fs : fstate) : Z :=
  if no_action then 0 else
  match rlwrite_runs csize (g_allocation (fs_alloc fs)) (live_runs rl) wt val val_len
          (mkRlw 0 0 0 (fs_dyn fs) (fs_dev fs)) with
  | Some (inl w) => rw_inited w
  | _ => 0
  end.

(** Converting the name, looking the attribute up, refusing what is not supported:
    the common start of both insertions.  [inl] is [-err], [inr] the place and the
    name. *)
Definition prepare (type : Z) (name : option cstring) (ic : IGNORE_CASE_BOOL) (flags : Z)
  : F (errno_t + Z * ucs_name) :=
  match str2ucs name with
  | inl e => mret (inl e)
  | inr (uname, _) => with_ctx (fun ctx =>
      match ctx with
      | None => mret (inl ENOMEM)
      | Some ctx =>
          if bool_decide (ic = IGNORE_CASE) then mret (inl EOPNOTSUPP) else
          '(err, ctx) ← on_record (mkntfs_attr_lookup R type uname ic None 0 (Some ctx));
          match err, ctx with
          | Some ENOENT, Some ctx =>
              if negb (Z.land flags (ATTR_COMPRESSION_MASK N) =? 0) then mret (inl EOPNOTSUPP) else
              if negb (Z.land flags (Z.lor (ATTR_IS_ENCRYPTED N) (ATTR_IS_SPARSE N)) =? 0)
              then mret (inl EOPNOTSUPP)
              else mret (inr (ctx_attr ctx, uname))
          | Some e, _ => mret (inl e)
          | None, _ => mret (inl EEXIST)
          end
      end)
  end.

(** [mpa_size] *)
Definition mapping_size (rl : list rle) (val_len : Z) : errno_t + Z :=
  if val_len =? 0 then inr 0 else get_size_for_mapping_pairs rl.

(** The stores up to the name, at [a]; [init] is stored only by the scattered
    variant. *)
Definition write_nonres_hdr (a type asize : Z) (uname : ucs_name)
    (name_len flags highest_vcn allocated_size val_len : Z) (init : option Z) : M unit :=
  store32 (a + a_type R) type;;
  store32 (a + a_length R) asize;;
  store8 (a + a_non_resident R) 1;;
  store8 (a + a_name_length R) name_len;;
  store16 (a + a_name_offset R) 64;;
  store16 (a + a_flags R) flags;;
  instance ← load16 (m_next_attr_instance R);
  store16 (a + a_instance R) instance;;
  store16 (m_next_attr_instance R) (Z.land (instance + 1) 0xffff);;
  store64 (a + n_lowest_vcn N) 0;;
  store64 (a + n_highest_vcn N) highest_vcn;;
  store16 (a + n_mapping_pairs_offset N) (64 + name_area name_len);;
  store_bytes (a + n_reserved1 N) [0; 0; 0; 0; 0];;
  store64 (a + n_allocated_size N) allocated_size;;
  store64 (a + n_data_size N) val_len;;
  (match init with Some v => store64 (a + n_initialized_size N) v | None => mret tt end);;
  (if negb (name_len =? 0) then
     match uname with
     | Ucs l => store_bytes (a + 64) (take (Z.to_nat (2 * name_len)) (ucs_bytes l))
     | _ => fun _ => None
     end
   else mret tt);;
  store8 (a + n_compression_unit N) 0.

(** [ntfs_mapping_pairs_build] into the place after the name; its -1 is [-EPERM]. *)
Definition build_mapping_pairs (a name_len mpa_size : Z) (rl : list rle) : M (option errno_t) :=
  let '(ok, b) := mapping_pairs_build rl mpa_size in
  store_bytes (a + 64 + name_area name_len) b;;
  mret (if ok then None else Some EPERM).

(** The allocated size; [cluster_size] and so its mask are [u32]. *)
Definition allocated_bytes (val_len : Z) : Z :=
  Z.land (val_len + (csize - 1)) (to_u 32 (Z.lnot (csize - 1))).

(** ** [insert_non_resident_attr_in_mft_record] *)

(** From [asize] to the end: room, header, value and mapping pairs. *)
Definition write_nonres_attr (a type : Z) (uname : ucs_name) (name_len flags : Z)
    (rl : option (list rle)) (val : buffer) (val_len : Z) (write_type : WRITE_TYPE)
    (mpa_size : Z) : F (option errno_t) :=
  let asize := nonres_size name_len mpa_size in
  err ← on_record (make_room_for_attribute R a asize);
  match err with
  | Some ENOSPC => mret (Some EOPNOTSUPP)
  | _ =>
      match rl with
      | None => fun _ _ => None    (* [rl[i].length] of a NULL runlist *)
      | Some rl =>
          _ ← on_record (write_nonres_hdr a type asize uname name_len flags
                (rl_vcns rl - 1) (allocated_bytes val_len) val_len (Some val_len));
          bw ← write_rl rl val val_len write_type;
          if negb (bw =? val_len) then mret write_errno else
          on_record (build_mapping_pairs a name_len mpa_size rl)
      end
  end.

Definition insert_non_resident_attr_in_mft_record (type : Z) (name : option cstring)
    (name_len : Z) (ic : IGNORE_CASE_BOOL) (flags : Z) (val : buffer) (val_len : Z)
    (write_type : WRITE_TYPE) : F (option errno_t) :=
  start ← prepare type name ic flags;
  match start with
  | inl e => mret (Some e)
  | inr (a, uname) =>
      rl ← (if negb (val_len =? 0) then allocate ((val_len + csize - 1) / csize) else mret None);
      if negb (val_len =? 0) && bool_decide (rl = None) then mret scatter_errno else
      match mapping_size (default [] rl) val_len with
      | inl e => mret (Some e)
      | inr mpa_size =>
          write_nonres_attr a type uname name_len flags rl val val_len write_type mpa_size
      end
  end.

(** ** [insert_positioned_attr_in_mft_record] *)

(** From the room to the end: header, value, mapping pairs and initialised size.  The
    value is read when it is written: that of $MFT is the buffer the record itself
    lies in. *)
Definition write_positioned_attr (a type : Z) (uname : ucs_name) (name_len flags : Z)
    (rl : list rle) (val : M buffer) (val_len mpa_size highest_vcn : Z) : F (option errno_t) :=
  let asize := nonres_size name_len mpa_size in
  err ← on_record (make_room_for_attribute R a asize);
  match err with
  | Some ENOSPC => mret (Some EOPNOTSUPP)
  | _ =>
      _ ← on_record (write_nonres_hdr a type asize uname name_len flags
            (highest_vcn - 1) (highest_vcn * csize) val_len None);
      number ← on_record (load32 (m_mft_record_number N));
      let wt := if (type =? AT_DATA R) && (number =? FILE_LogFile N)
                then WRITE_LOGFILE else WRITE_STANDARD in
      val ← on_record val;
      init ← (fun fs => mret (inited_size rl val val_len wt fs, fs));
      bw ← write_rl rl val val_len wt;
      if negb (bw =? val_len) then mret write_errno else
      err ← on_record (build_mapping_pairs a name_len mpa_size rl);
      _ ← on_record (store64 (a + n_initialized_size N) init);
      mret err
  end.

Definition insert_positioned_attr_in_mft_record (type : Z) (name : option cstring)
    (name_len : Z) (ic : IGNORE_CASE_BOOL) (flags : Z) (rl : list rle) (val : M buffer)
    (val_len : Z) : F (option errno_t) :=
  start ← prepare type name ic flags;
  match start with
  | inl e => mret (Some e)
  | inr (a, uname) =>
      match mapping_size rl val_len with
      | inl e => mret (Some e)
      | inr mpa_size =>
          let highest_vcn := rl_vcns (live_runs rl) in
          if highest_vcn * csize <? val_len then mret (Some EINVAL) else
          write_positioned_attr a type uname name_len flags rl val val_len mpa_size highest_vcn
      end
  end.

(** ** The choice between resident and non-resident *)

Abbreviation resident type name name_len ic flags val val_len :=
  (on_record (insert_resident_attr_in_mft_record R type name name_len ic flags 0
                (Some val) (to_u 32 val_len))).

Definition add_attr_sd (sd : buffer) (sd_len : Z) : F (option errno_t) :=
  biu ← on_record (load32 (m_bytes_in_use R));
  allocated ← on_record (load32 (m_bytes_allocated R));
  if allocated <? to_u 32 (biu + 24) + sd_len then
    insert_non_resident_attr_in_mft_record (AT_SECURITY_DESCRIPTOR R) None 0 CASE_SENSITIVE 0
      sd sd_len WRITE_STANDARD
  else resident (AT_SECURITY_DESCRIPTOR R) None 0 CASE_SENSITIVE 0 sd sd_len.

Definition add_attr_data (name : option cstring) (name_len : Z) (ic : IGNORE_CASE_BOOL)
    (flags : Z) (val : buffer) (val_len : Z) : F (option errno_t) :=
  biu ← on_record (load32 (m_bytes_in_use R));
  allocated ← on_record (load32 (m_bytes_allocated R));
  if Z.min allocated (to_u 32 (allocated - 512)) <? to_u 32 (biu + 24) + val_len then
    insert_non_resident_attr_in_mft_record (AT_DATA R) name name_len ic flags val val_len
      WRITE_STANDARD
  else resident (AT_DATA R) name name_len ic flags val val_len.

Definition add_attr_bitmap (name : option cstring) (name_len : Z) (ic : IGNORE_CASE_BOOL)
    (bitmap : buffer) (bitmap_len : Z) : F (option errno_t) :=
  biu ← on_record (load32 (m_bytes_in_use R));
  allocated ← on_record (load32 (m_bytes_allocated R));
  if allocated <? to_u 32 (biu + 24 + bitmap_len) then
    insert_non_resident_attr_in_mft_record (AT_BITMAP R) name name_len ic 0 bitmap bitmap_len
      WRITE_STANDARD
  else resident (AT_BITMAP R) name name_len ic 0 bitmap bitmap_len.

Definition add_attr_index_alloc (name : option cstring) (name_len : Z) (ic : IGNORE_CASE_BOOL)
    (index_alloc_val : buffer) (index_alloc_val_len : Z) : F (option errno_t) :=
  insert_non_resident_attr_in_mft_record (AT_INDEX_ALLOCATION R) name name_len ic 0
    index_alloc_val index_alloc_val_len WRITE_STANDARD.

Definition add_attr_data_positioned (name : option cstring) (name_len : Z)
    (ic : IGNORE_CASE_BOOL) (flags : Z) (rl : list rle) (val : M buffer) (val_len : Z)
  : F (option errno_t) :=
  insert_positioned_attr_in_mft_record (AT_DATA R) name name_len ic flags rl val val_len.

Definition add_attr_bitmap_positioned (name : option cstring) (name_len : Z)
    (ic : IGNORE_CASE_BOOL) (rl : list rle) (bitmap : buffer) (bitmap_len : Z)
  : F (option errno_t) :=
  insert_positioned_attr_in_mft_record (AT_BITMAP R) name name_len ic 0 rl (mret bitmap) bitmap_len.

End NonRes.
