(* ===== verification/MftNonResFacts.v ===== *)
(** * Non-resident attributes: allocation, device and record together

    A runlist from the scattered allocator is one the device writer accepts; the
    stores of the attribute header, the name and the mapping pairs; and every
    outcome of [insert_non_resident_attr_in_mft_record]. *)

From S2P Require Import Prelude ClusterAlloc Scatter Runlist Device MkWrite LayoutArith.
From S2P Require Import Bytes Mft MftFacts MftNonRes.

(** ** Runlists of the scattered allocator *)

Lemma scatter_live v rl : vcn_from v rl -> live_runs rl = rl.
Proof.
  revert v. induction rl as [|r rl IH]; intros v; cbn; [done|]. intros (_ & Hl & Hr).
  destruct (Z.eqb_spec (rl_length r) 0); [lia|]. by rewrite (IH _ Hr).
Qed.

Lemma scatter_total_nonneg rl : 0 <= rl_total rl.
Proof. unfold rl_total. lia. Qed.

Lemma scatter_runs_end v rl : vcn_from v rl -> runs_end v rl = v + rl_total rl.
Proof.
  revert v. induction rl as [|r rl IH]; intros v; cbn [vcn_from runs_end].
  { intros _. change (rl_total []) with 0. lia. }
  intros (_ & Hl & Hr). rewrite (IH _ Hr), rl_total_cons. lia.
Qed.

Lemma scatter_vcns v rl : vcn_from v rl -> rl_vcns rl = rl_total rl.
Proof.
  revert v. induction rl as [|r rl IH]; intros v; cbn [vcn_from]; [done|].
  intros (_ & Hl & Hr). rewrite rl_total_cons. cbn [rl_vcns fold_right].
  change (rl_length r + rl_vcns rl = Z.max 0 (rl_length r) + rl_total rl).
  rewrite (IH _ Hr). lia.
Qed.

Lemma in_clusters r x rl :
  r ∈ rl -> rl_lcn r <= x < rl_lcn r + rl_length r -> x ∈ rl_clusters rl.
Proof.
  intros Hr Hx. unfold rl_clusters. apply list_elem_of_bind. exists r.
  split; [|done]. apply elem_of_seqZ. lia.
Qed.

Lemma run_addr_cluster csize r a :
  0 < csize -> run_addr csize r a -> rl_lcn r <= a / csize < rl_lcn r + rl_length r.
Proof.
  intros Hc [H0 Ha]. split; [apply Z.div_le_lower_bound; lia|].
  apply Z.div_lt_upper_bound; lia.
Qed.

Lemma scatter_disjoint csize rl :
  0 < csize -> NoDup (rl_clusters rl) -> disjoint_runs csize rl.
Proof.
  intros Hc. induction rl as [|r rl IH]; cbn [disjoint_runs]; [by intros|].
  change (r :: rl) with ([r] ++ rl). rewrite rl_clusters_app.
  intros (_ & Hdis & Hnd)%NoDup_app. split; [|by apply IH].
  intros r' a Hr' Ha Ha'.
  apply (Hdis (a / csize)).
  - apply (in_clusters r); [apply list_elem_of_here|]. by apply run_addr_cluster.
  - apply (in_clusters r'); [done|]. by apply run_addr_cluster.
Qed.

Lemma scatter_ends csize val_len v rl :
  0 < csize -> 0 <= v -> vcn_from v rl -> (v + rl_total rl - 1) * csize < val_len ->
  ends_in_last csize val_len rl.
Proof.
  intros Hc. revert v. induction rl as [|r rl IH]; intros v Hv; cbn [ends_in_last vcn_from]; [done|].
  intros (Ev & Hl & Hr). rewrite rl_total_cons. pose proof (scatter_total_nonneg rl).
  intros Ht. rewrite Ev. split_and!.
  - nia.
  - intros Hne. assert (1 <= rl_total rl); [|nia].
    destruct rl as [|r' rl]; [done|]. cbn [vcn_from] in Hr. rewrite rl_total_cons.
    pose proof (scatter_total_nonneg rl). lia.
  - apply (IH (v + rl_length r)); [lia|done|]. nia.
Qed.

Lemma scatter_contiguous v rl : vcn_from v rl -> contiguous v rl.
Proof.
  revert v. induction rl as [|r rl IH]; intros v; cbn; [done|]. intros (? & ? & ?). split; [done|].
  by apply IH.
Qed.

Lemma vcn_from_pos v rl r : vcn_from v rl -> r ∈ rl -> 0 < rl_length r.
Proof.
  revert v. induction rl as [|r' rl IH]; intros v; [intros _ Hr; by apply not_elem_of_nil in Hr|].
  cbn [vcn_from]. intros (_ & Hl & Hv) Hr. apply elem_of_cons in Hr as [->|Hr]; [done|].
  by apply (IH (v + rl_length r')).
Qed.

(** The writer takes the runlist the allocator made for [val_len] bytes. *)
Lemma scatter_rl_wf csize val_len nr rl :
  0 < csize -> 0 < val_len -> vcn_from 0 rl ->
  rl_total rl = (val_len + csize - 1) / csize -> NoDup (rl_clusters rl) ->
  (forall x, x ∈ rl_clusters rl -> 1 <= x < nr) ->
  rl_wf csize 0 val_len (live_runs rl) /\ val_len <= runs_end 0 (live_runs rl) * csize.
Proof.
  intros Hc Hv Hvcn Ht Hnd Hin. rewrite (scatter_live 0) by done.
  assert ((rl_total rl - 1) * csize < val_len <= rl_total rl * csize) as Hb.
  { rewrite Ht. pose proof (Z.div_mod (val_len + csize - 1) csize ltac:(lia)).
    pose proof (Z.mod_pos_bound (val_len + csize - 1) csize Hc). nia. }
  split; [constructor|].
  - apply Forall_forall. intros r Hr.
    pose proof (vcn_from_pos 0 rl r Hvcn Hr) as Hl.
    split; [done|]. specialize (Hin (rl_lcn r) (in_clusters r (rl_lcn r) rl Hr ltac:(lia))). lia.
  - by apply scatter_contiguous.
  - by apply scatter_disjoint.
  - apply (scatter_ends csize val_len 0); [done|lia|done|]. lia.
  - rewrite (scatter_runs_end 0) by done. lia.
Qed.

(** ** The stores of the attribute *)

Lemma le_value_app l1 l2 :
  le_value (l1 ++ l2) = le_value l1 + 256 ^ Z.of_nat (length l1) * le_value l2.
Proof.
  induction l1 as [|x l1 IH]; cbn [app le_value length]; [lia|].
  rewrite IH, Nat2Z.inj_succ, Z.pow_succ_r by lia. lia.
Qed.

Lemma field_split n1 n2 k a :
  (k + n1 + n2 <= length a)%nat ->
  field (n1 + n2) k a = field n1 k a + 256 ^ Z.of_nat n1 * field n2 (k + n1) a.
Proof.
  intros Hk. unfold field.
  assert (sl k (n1 + n2) a = sl k n1 a ++ sl (k + n1) n2 a) as ->.
  { unfold sl. rewrite <- drop_drop. rewrite <- (take_drop n1 (take (n1 + n2) (drop k a))).
    rewrite take_take, Nat.min_l by lia. f_equal. symmetry. apply take_drop_commute. }
  rewrite le_value_app, length_sl by lia. done.
Qed.

(** A zero field is made of zero fields. *)
Lemma field_zero_l n1 n2 k a :
  byte_list a -> (k + n1 + n2 <= length a)%nat -> field (n1 + n2) k a = 0 ->
  field n1 k a = 0 /\ field n2 (k + n1) a = 0.
Proof.
  intros Hb Hk E. rewrite field_split in E by done.
  pose proof (field_range n1 k a Hb ltac:(lia)). pose proof (field_range n2 (k + n1) a Hb ltac:(lia)).
  assert (0 < 256 ^ Z.of_nat n1) by (apply Z.pow_pos_nonneg; lia). nia.
Qed.

(** One store into the part [h] of a record. *)
Lemma store_le_mid n k v hdr C h T p :
  p = Z.of_nat (length hdr) + Z.of_nat (length C) + Z.of_nat k -> (k + n <= length h)%nat ->
  exists h', store_le n p v (hdr ++ C ++ h ++ T) = Some (tt, hdr ++ C ++ h' ++ T) /\
    stored n k v h h'.
Proof.
  intros Hp Hk. exists (put k (le_bytes n v) h). split; [|by apply put_stored].
  rewrite !(app_assoc hdr C). apply store_part; [rewrite length_app; lia | done].
Qed.

Lemma store8_mid k v hdr C h T p :
  p = Z.of_nat (length hdr) + Z.of_nat (length C) + Z.of_nat k -> (k + 1 <= length h)%nat ->
  exists h', store8 p v (hdr ++ C ++ h ++ T) = Some (tt, hdr ++ C ++ h' ++ T) /\
    stored 1 k v h h'.
Proof.
  intros Hp Hk. exists (put k (le_bytes 1 v) h). split; [|by apply put_stored].
  rewrite !(app_assoc hdr C). apply store8_part; [rewrite length_app; lia | done].
Qed.

Ltac nr_offsets :=
  cbv beta iota delta [documented_nonres n_lowest_vcn n_highest_vcn n_mapping_pairs_offset
    n_compression_unit n_reserved1 n_allocated_size n_data_size n_initialized_size];
  offsets.

(** Run the first store of the computation in [Hr]. *)
Ltac mid_do lem p Hr :=
  match type of Hr with ?lhs = _ =>
  match lhs with context [?hd ++ ?C ++ ?h ++ ?T] =>
    let h' := fresh "h" in let E := fresh "E" in let S := fresh "St" in
    destruct (lem hd C h T p ltac:(nr_offsets; lia) ltac:(lia)) as (h' & E & S);
    rewrite (bind_run _ _ _ _ _ E) in Hr; clear E;
    let L := fresh "L" in pose proof (stored_length _ _ _ _ _ S) as L
  end end.
Ltac mid_store Hr k w :=
  match type of Hr with context [store_le w ?p ?v] => mid_do (store_le_mid w k v) p Hr end.
Ltac mid_store8 Hr k :=
  match type of Hr with context [store8 ?p ?v] => mid_do (store8_mid k v) p Hr end.

(** The 64 bytes of the header. *)
Record nonres_hdr (type asize name_len flags inst highest_vcn allocated val_len : Z)
    (init : option Z) (h : buffer) : Prop := {
  nh_length : length h = 64%nat;
  nh_bytes : byte_list h;
  nh_type : field 4 0 h = type;
  nh_asize : field 4 4 h = asize;
  nh_non_resident : field 1 8 h = 1;
  nh_name_length : field 1 9 h = name_len;
  nh_name_offset : field 2 10 h = 64;
  nh_flags : field 2 12 h = flags;
  nh_instance : field 2 14 h = inst;
  nh_lowest : field 8 16 h = 0;
  nh_highest : field 8 24 h = highest_vcn;
  nh_pairs : field 2 32 h = 64 + name_area name_len;
  nh_allocated : field 8 40 h = allocated;
  nh_data_size : field 8 48 h = val_len;
  nh_init : match init with Some v => field 8 56 h = v | None => True end;
}.

Lemma write_nonres_run hdr C h0 rest post type asize uname name_len flags highest_vcn allocated
    val_len init :
  (0x30 <= length hdr)%nat -> byte_list hdr -> length h0 = 64%nat -> byte_list h0 ->
  name_matches uname name_len -> 2 * name_len <= Z.of_nat (length rest) ->
  0 < type < 0xffffffff -> 0 <= asize < 2 ^ 32 -> 0 <= flags < 2 ^ 16 ->
  0 <= highest_vcn < 2 ^ 64 -> 0 <= allocated < 2 ^ 64 -> 0 <= val_len < 2 ^ 64 ->
  match init with Some v => 0 <= v < 2 ^ 64 | None => True end ->
  exists h,
    nonres_hdr type asize name_len flags (field 2 0x28 hdr) highest_vcn allocated val_len init h /\
    write_nonres_hdr R documented_nonres (Z.of_nat (length (hdr ++ C))) type asize uname name_len
      flags highest_vcn allocated val_len init (hdr ++ C ++ h0 ++ rest ++ post) =
    Some (tt, next_instance hdr ++ C ++ h ++ put 0 (name_bytes uname name_len) rest ++ post).
Proof.
  intros Hh Hhb Lh0 Hb0 Hn Hrest Ht Has Hfl Hhi Hal Hvl Hin. pose proof Hn as [Hn0 _].
  destruct (align8_spec name_len ltac:(lia)) as [Harea _]. fold (name_area name_len) in Harea.
  pose proof (field_range 2 0x28 hdr Hhb ltac:(lia)) as Hinst.
  set (lhs := write_nonres_hdr _ _ _ _ _ _ _ _ _ _ _ _ _).
  assert (exists r, lhs = r) as [r Hr] by eauto. rewrite Hr.
  unfold lhs, write_nonres_hdr in Hr. clear lhs.
  rewrite length_app, Nat2Z.inj_add in Hr.
  mid_store Hr 0%nat 4%nat. mid_store Hr 4%nat 4%nat. mid_store8 Hr 8%nat. mid_store8 Hr 9%nat.
  mid_store Hr 10%nat 2%nat. mid_store Hr 12%nat 2%nat.
  rewrite (bind_run _ _ _ _ _ (hdr_load hdr _ 0x28 2 ltac:(lia))) in Hr.
  mid_store Hr 14%nat 2%nat.
  rewrite (bind_run _ _ _ _ _ (hdr_store hdr _ 0x28 2 _ ltac:(lia))) in Hr.
  fold (next_instance hdr) in Hr.
  assert (length (next_instance hdr) = length hdr) as LH.
  { apply length_put. rewrite length_le_bytes. lia. }
  set (hdr' := next_instance hdr) in *. clearbody hdr'.
  mid_store Hr 16%nat 8%nat. mid_store Hr 24%nat 8%nat. mid_store Hr 32%nat 2%nat.
  (* reserved1 *)
  match type of Hr with context [hdr' ++ C ++ ?h ++ ?T] =>
    assert (store_bytes (Z.of_nat (length hdr) + Z.of_nat (length C) + 35) [0; 0; 0; 0; 0]
              (hdr' ++ C ++ h ++ T) =
            Some (tt, hdr' ++ C ++ put 35 (le_bytes 5 0) h ++ T)) as Er;
    [rewrite !(app_assoc hdr' C); apply (store_bytes_part (hdr' ++ C) h T _ 35%nat);
       [rewrite length_app; lia | rewrite ?length_le_bytes; cbn [length]; lia] |];
    rewrite (bind_run _ _ _ _ _ Er) in Hr; clear Er;
    pose proof (put_stored 5 35 0 h ltac:(lia)) as Sr; set (hr := put 35 (le_bytes 5 0) h) in *;
    clearbody hr; pose proof (stored_length _ _ _ _ _ Sr) as Lr
  end.
  mid_store Hr 40%nat 8%nat. mid_store Hr 48%nat 8%nat.
  (* initialized_size, when it is stored here *)
  match type of Hr with context [hdr' ++ C ++ ?h ++ ?T] => rename h into hs; set (tail := T) in * end.
  assert (exists hi,
    (match init with Some v => store64 (Z.of_nat (length hdr) + Z.of_nat (length C) +
                                        n_initialized_size documented_nonres) v
                | None => mret tt end) (hdr' ++ C ++ hs ++ tail) =
      Some (tt, hdr' ++ C ++ hi ++ tail) /\ length hi = length hs /\
    (byte_list hs -> byte_list hi) /\
    (forall n k, (k + n <= 56)%nat -> field n k hi = field n k hs) /\
    match init with Some v => field 8 56 hi = v | None => True end) as (hi & Ei & Li & Bi & Fi & Hi).
  { destruct init as [v|]; [|by exists hs].
    destruct (store_le_mid 8 56 v hdr' C hs tail
                (Z.of_nat (length hdr) + Z.of_nat (length C) + n_initialized_size documented_nonres)
                ltac:(nr_offsets; lia) ltac:(lia)) as (hi & E & Si).
    exists hi. split_and!; [exact E | by eapply stored_length | by eapply stored_bytes | |].
    - intros n k Hk. apply (stored_other _ _ _ _ _ _ _ Si). lia.
    - by apply (stored_same _ _ _ _ _ Si). }
  rewrite (bind_run _ _ _ _ _ Ei) in Hr.
  (* the name *)
  rewrite (bind_run _ _ _ tt (hdr' ++ C ++ hi ++ put 0 (name_bytes uname name_len) rest ++ post)) in Hr.
  2:{ pose proof (length_name_bytes _ _ Hn) as Lnm.
      destruct (Z.eqb_spec name_len 0) as [E|E]; cbn [negb].
      - replace (name_bytes uname name_len) with (@nil Z) by (symmetry; apply nil_length_inv; lia).
        unfold put. cbn [take app length Nat.add]. by rewrite drop_0.
      - unfold name_bytes in *. destruct uname as [| |l]; [by destruct Hn..|].
        unfold tail. rewrite (app_assoc hdr' C), (app_assoc (hdr' ++ C) hi).
        rewrite (store_bytes_part ((hdr' ++ C) ++ hi) rest post _ 0%nat).
        + by rewrite <- !app_assoc.
        + rewrite !length_app. lia.
        + lia. }
  set (T := put 0 _ rest ++ post) in *.
  match type of Hr with context [store8 ?p ?v] =>
    destruct (store8_mid 34 v hdr' C hi T p ltac:(nr_offsets; lia) ltac:(lia)) as (hf & Ef & Sf)
  end.
  rewrite Ef in Hr. exists hf. split; [|by subst r].
  pose proof (stored_length _ _ _ _ _ Sf) as Lf.
  assert (byte_list hf) as Hbf by eauto 20 using stored_bytes.
  assert (forall n k, (k + n <= 34 \/ 35 <= k /\ k + n <= 56)%nat -> field n k hf = field n k hs) as Hlow.
  { intros n k Hk. rewrite (stored_other _ _ _ _ _ _ _ Sf) by lia. apply Fi. lia. }
  constructor; [lia | done | ..]; try (rewrite Hlow by lia; clear Fi Hlow; stored_field).
  destruct init as [v|]; [|done]. rewrite (stored_other _ _ _ _ _ _ _ Sf) by lia. done.
Qed.

(** ** The new attribute *)

Lemma nonres_attr_ok type asize name_len flags inst highest allocated val_len init h t :
  nonres_hdr type asize name_len flags inst highest allocated val_len init h ->
  byte_list t -> Z.of_nat (64 + length t) = asize -> asize mod 8 = 0 ->
  64 + 2 * name_len <= asize -> type <> 0xffffffff -> attr_ok (h ++ t).
Proof.
  intros [Lh Hb Ht Has Hnr Hnl Hno _ _ Hlow _ _ _ _ _] Htb Lt Hmod Hroom Hend.
  assert (Z.of_nat (length (h ++ t)) = asize) as Ln by (rewrite length_app; lia).
  assert (forall n k, (k + n <= 64)%nat -> field n k (h ++ t) = field n k h) as Hf
    by (intros; apply field_hdr; lia).
  destruct (field_zero_l 4 4 16 h Hb ltac:(lia) Hlow) as [H16 H20].
  destruct (field_zero_l 2 2 20 h Hb ltac:(lia) H20) as [H20' _].
  constructor.
  - by apply Forall_app.
  - lia.
  - by rewrite Ln.
  - rewrite Hf by lia. lia.
  - unfold attr_type. rewrite Hf by lia. by rewrite Ht.
  - rewrite !Hf by lia. lia.
  - rewrite !Hf by lia. lia.
Qed.

(** What the code relies on: the size asked for is small, and what is built fits it. *)
Class MappingLaws `{MappingLib} := {
  mapping_size_law : forall rl z, get_size_for_mapping_pairs rl = inr z -> 0 <= z < 2 ^ 30;
  mapping_build_law : forall rl z ok b,
    mapping_pairs_build rl z = (ok, b) -> 0 <= z ->
    Z.of_nat (length b) <= z /\ byte_list b;
}.

(** Sequencing in the formatter's state. *)
Lemma fbind_run {S A B} (m : @F S A) (k : A -> @F S B) fs b x fs' b' :
  m fs b = Some ((x, fs'), b') -> (mbind (MBind := F_bind) k m) fs b = k x fs' b'.
Proof. intros E. unfold mbind, F_bind. by rewrite (bind_run _ _ _ _ _ E). Qed.

Lemma on_record_run {S A} (m : M A) (fs : @fstate S) b x b' :
  m b = Some (x, b') -> on_record m fs b = Some ((x, fs), b').
Proof. intros E. unfold on_record. by rewrite (bind_run _ _ _ _ _ E). Qed.

(** ** Sizes *)

(** Clearing the low [k] bits with an unsigned mask. *)
Lemma land_clear k z :
  0 <= k <= 32 -> 0 <= z < 2 ^ 32 -> Z.land z (to_u 32 (Z.lnot (2 ^ k - 1))) = z / 2 ^ k * 2 ^ k.
Proof.
  intros Hk Hz. unfold to_u. rewrite <- Z.land_ones by lia.
  rewrite (Z.land_comm (Z.lnot _)), Z.land_assoc, Z.land_ones, (Z.mod_small z) by lia.
  apply land_lnot_pow2. lia.
Qed.

Lemma nonres_size_spec name_len mpa :
  0 <= name_len < 256 -> 0 <= mpa < 2 ^ 30 ->
  64 + name_area name_len + mpa <= nonres_size name_len mpa < 2 ^ 31 /\
  nonres_size name_len mpa mod 8 = 0.
Proof.
  intros Hn Hm. unfold nonres_size. destruct (align8_spec name_len ltac:(lia)) as [Ha _].
  fold (name_area name_len) in Ha.
  destruct (align8_spec (64 + name_area name_len + mpa) ltac:(lia)). lia.
Qed.

(** Names of up to four characters fit the area left for them. *)
Lemma short_name name_len : 0 <= name_len <= 4 -> 2 * name_len <= name_area name_len.
Proof.
  intros Hn. unfold name_area. rewrite align8_eq by lia.
  Z.to_euclidean_division_equations. lia.
Qed.

Section Run.
Context `{RecordLaws} `{MappingLaws} {S : Type} `{BlockDevLaws S}.
Context (malloc_ok : nat -> bool) (calloc_ok : bool) (nr_clusters csize : Z)
  (scatter_errno write_errno : option errno_t).
Context (Hmalloc : forall k, malloc_ok k = true) (Hcsize : 0 < csize).

Abbreviation N := documented_nonres.

(** The common start. *)
Definition start_error (found : bool) (flags : Z) (m : buffer) : option errno_t :=
  match get_search_ctx m with
  | None => Some ENOMEM
  | Some _ =>
      if found then Some EEXIST
      else if Z.land flags 0xff =? 0 then if Z.land flags 0xc000 =? 0 then None else Some EOPNOTSUPP
      else Some EOPNOTSUPP
  end.

Lemma prepare_run hdr attrs fin slack type name uname name_len flags (fs : @fstate S) :
  rec_ok hdr attrs fin slack -> str2ucs name = inr (uname, name_len) ->
  let m := rec_bytes hdr attrs fin slack in
  let '(i, found) := find_in type uname CASE_SENSITIVE None 0 attrs in
  prepare R N type name CASE_SENSITIVE flags fs m =
  Some ((match start_error found flags m with
         | Some e => inl e
         | None => inr (Z.of_nat (length (hdr ++ concat (take i attrs))), uname)
         end, fs), m).
Proof.
  intros Hok Hs m. unfold prepare, start_error. rewrite Hs. unfold with_ctx.
  destruct (find_in type uname CASE_SENSITIVE None 0 attrs) as [i f] eqn:Ef.
  destruct (get_search_ctx m) as [ctx|] eqn:Hctx; [|done].
  pose proof (find_fresh hdr attrs fin slack ctx type uname CASE_SENSITIVE None 0 Hok ltac:(lia)
                Hctx) as E.
  rewrite Ef in E. rewrite bool_decide_false by done. unfold mkntfs_attr_lookup.
  erewrite fbind_run; [|apply on_record_run; by rewrite (bind_run _ _ _ _ _ E)].
  destruct f; [done|]. cbn [ctx_attr].
  change (ATTR_COMPRESSION_MASK N) with 0xff.
  change (Z.lor (ATTR_IS_ENCRYPTED N) (ATTR_IS_SPARSE N)) with 0xc000.
  by destruct (Z.land flags 0xff =? 0), (Z.land flags 0xc000 =? 0).
Qed.

(** ** The steps of the insertion *)

(** Where allocated clusters were, the device is as before. *)
Definition untouched (a0 : list run) (s s' : S) : Prop :=
  forall a, allocated a0 (a / csize) -> dcell s' a = dcell s a.

(** The record after the attribute is in place at [i]. *)
Definition placed (hdr : buffer) (attrs : list buffer) (fin slack : buffer) (i : nat)
    (asize : Z) (new : buffer) : buffer :=
  rec_bytes (inserted_hdr asize hdr) (take i attrs ++ new :: drop i attrs) fin
    (drop (Z.to_nat asize) slack).

(** [asize] bytes of room at [i]: the record while the attribute is written. *)
Lemma place_nonres_run hdr attrs fin slack i type uname name_len flags highest allocated val_len
    init mpa :
  rec_ok hdr attrs fin slack -> 0 < type < 0xffffffff -> name_matches uname name_len ->
  2 * name_len <= name_area name_len -> 0 <= flags < 2 ^ 16 ->
  0 <= highest < 2 ^ 64 -> 0 <= allocated < 2 ^ 64 -> 0 <= val_len < 2 ^ 64 ->
  match init with Some v => 0 <= v < 2 ^ 64 | None => True end -> 0 <= mpa < 2 ^ 30 ->
  let asize := nonres_size name_len mpa in
  let a := Z.of_nat (length (hdr ++ concat (take i attrs))) in
  asize <= Z.of_nat (length slack) ->
  exists m1 h t,
    make_room_for_attribute R a asize (rec_bytes hdr attrs fin slack) = Some (None, m1) /\
    write_nonres_hdr R N a type asize uname name_len flags highest allocated val_len init m1 =
      Some (tt, placed hdr attrs fin slack i asize (h ++ t)) /\
    nonres_hdr type asize name_len flags (field 2 0x28 hdr) highest allocated val_len init h /\
    byte_list t /\ Z.of_nat (64 + length t) = asize /\
    sl 0 (length (name_bytes uname name_len)) t = name_bytes uname name_len.
Proof.
  intros Hok Ht Hn Hna Hfl Hhi Hal Hvl Hin Hmpa asize a Hroom. pose proof Hn as [Hn0 _].
  destruct (nonres_size_spec name_len mpa ltac:(lia) Hmpa) as [Has _]. fold asize in Has.
  pose proof Hok as [Hhb Hh _ _ _ _ _ _ _].
  pose proof Hok as Hok'. rewrite <- (take_drop i attrs) in Hok'.
  pose proof (make_room_run _ _ _ _ _ asize Hok' ltac:(lia)) as Er.
  rewrite (take_drop i attrs) in Er.
  replace (Z.of_nat (length slack) <? asize) with false in Er by (symmetry; apply Z.ltb_ge; lia).
  set (J := take (Z.to_nat asize) (concat (drop i attrs) ++ fin ++ slack)) in *.
  destruct (room_spec hdr attrs fin slack i asize Hok Hroom) as [LJ BJ]. fold J in LJ, BJ.
  rewrite <- (take_drop 64 J) in Er. set (h0 := take 64 J) in *. set (rest := drop 64 J) in *.
  assert (length h0 = 64%nat) as Lh0 by (unfold h0; rewrite length_take; lia).
  assert (Z.of_nat (64 + length rest) = asize) as Lr by (unfold rest; rewrite length_drop; lia).
  pose proof (length_name_bytes _ _ Hn) as Ln.
  pose proof (length_grown asize hdr Hh) as Lg.
  destruct (write_nonres_run (grown_hdr asize hdr) (concat (take i attrs)) h0 rest
              ((concat (drop i attrs) ++ fin) ++ drop (Z.to_nat asize) slack) type asize uname
              name_len flags highest allocated val_len init) as (h & Hhdr & Ew);
    try done; try lia.
  { apply byte_list_put; [done | apply byte_list_le]. }
  { by apply Forall_take. }
  assert (field 2 0x28 (grown_hdr asize hdr) = field 2 0x28 hdr) as Ei.
  { unfold field, grown_hdr. f_equal. apply sl_put_after; rewrite ?length_le_bytes; lia. }
  rewrite Ei in Hhdr.
  eexists _, h, (put 0 (name_bytes uname name_len) rest). split; [exact Er|].
  split; [|split; [done|]].
  - replace a with (Z.of_nat (length (grown_hdr asize hdr ++ concat (take i attrs))))
      by (unfold a; rewrite !length_app, Lg; done).
    rewrite <- (app_assoc h0). rewrite Ew. unfold placed, rec_bytes.
    rewrite concat_app. cbn [concat]. unfold inserted_hdr. by rewrite <- !app_assoc.
  - split_and!.
    + apply byte_list_put; [by apply Forall_drop | apply byte_list_name].
    + rewrite length_put; lia.
    + apply sl_put_same. lia.
Qed.

(** No room: nothing is written. *)
Lemma no_room_run hdr attrs fin slack i name_len mpa :
  rec_ok hdr attrs fin slack -> 0 <= name_len < 256 -> 0 <= mpa < 2 ^ 30 ->
  Z.of_nat (length slack) < nonres_size name_len mpa ->
  make_room_for_attribute R (Z.of_nat (length (hdr ++ concat (take i attrs))))
    (nonres_size name_len mpa) (rec_bytes hdr attrs fin slack) =
  Some (Some ENOSPC, rec_bytes hdr attrs fin slack).
Proof.
  intros Hok Hn Hmpa Hfull. destruct (nonres_size_spec name_len mpa Hn Hmpa) as [Has _].
  destruct (align8_spec name_len ltac:(lia)) as [Ha _]. fold (name_area name_len) in Ha.
  rewrite <- (take_drop i attrs) in Hok.
  pose proof (make_room_run _ _ _ _ _ (nonres_size name_len mpa) Hok ltac:(lia)) as Er.
  rewrite (take_drop i attrs) in Er.
  by replace (_ <? nonres_size _ _) with true in Er by (symmetry; by apply Z.ltb_lt).
Qed.

(** The mapping pairs go behind the name. *)
Lemma build_pairs_run hdr attrs fin slack i asize h t name_len mpa rl ok b :
  (0x30 <= length hdr)%nat -> length h = 64%nat -> 0 <= name_len < 256 ->
  name_area name_len + mpa <= Z.of_nat (length t) -> 0 <= mpa ->
  mapping_pairs_build rl mpa = (ok, b) ->
  build_mapping_pairs (Z.of_nat (length (hdr ++ concat (take i attrs)))) name_len mpa rl
    (placed hdr attrs fin slack i asize (h ++ t)) =
  Some (if ok then None else Some EPERM,
        placed hdr attrs fin slack i asize (h ++ put (Z.to_nat (name_area name_len)) b t)).
Proof.
  intros Hh Lh Hn Lt Hm Eb. destruct (mapping_build_law _ _ _ _ Eb Hm) as [Lb _].
  destruct (align8_spec name_len ltac:(lia)) as [Ha _]. fold (name_area name_len) in Ha.
  unfold build_mapping_pairs. rewrite Eb. 
  rewrite (bind_run _ _ _ tt (placed hdr attrs fin slack i asize
                                (h ++ put (Z.to_nat (name_area name_len)) b t))); [done|].
  unfold placed, rec_bytes. rewrite !concat_app. cbn [concat]. rewrite <- !app_assoc.
  rewrite !(app_assoc (inserted_hdr asize hdr)), !(app_assoc (inserted_hdr asize hdr ++ _) h).
  apply store_bytes_part; [|lia].
  rewrite !length_app, length_inserted by done. lia.
Qed.

(** ** The allocator and the writer in the formatter's state *)

(** The runlist covers clusters that were free, each once, and they are now taken. *)
Record fresh_rl (a0 a1 : list run) (val_len : Z) (rl : list rle) : Prop := {
  fr_vcn : vcn_from 0 rl;
  fr_total : rl_total rl = (val_len + csize - 1) / csize;
  fr_nodup : NoDup (rl_clusters rl);
  fr_free : forall x, x ∈ rl_clusters rl -> ~ allocated a0 x /\ 1 <= x < nr_clusters;
  fr_taken : forall x, allocated a1 x <-> allocated a0 x \/ x ∈ rl_clusters rl;
}.

Lemma allocate_run val_len (fs : @fstate S) m :
  wf_alloc (g_allocation (fs_alloc fs)) -> 1 <= fs_zone fs <= nr_clusters -> 0 < val_len ->
  exists r a zone,
    allocate malloc_ok nr_clusters ((val_len + csize - 1) / csize) fs m =
      Some ((r, mkF a zone (fs_dyn fs) (fs_dev fs)), m) /\
    wf_alloc (g_allocation a) /\
    (forall x, allocated (g_allocation (fs_alloc fs)) x -> allocated (g_allocation a) x) /\
    match r with
    | Some rl => fresh_rl (g_allocation (fs_alloc fs)) (g_allocation a) val_len rl
    | None => True
    end.
Proof.
  intros Hwf Hz Hv.
  assert (0 < (val_len + csize - 1) / csize) as Hc by (apply Z.div_str_pos; lia).
  destruct (allocate_scattered_spec malloc_ok nr_clusters _ (fs_zone fs) (fs_alloc fs) Hmalloc
              Hwf Hc Hz) as (r & zone & a & E & Hwf' & Hr).
  exists r, a, zone. unfold allocate. rewrite E. split_and!; [done | done | |].
  - intros x. destruct r as [rl|]; [|by intros; apply Hr]. destruct Hr as (_ & _ & _ & _ & Hx).
    rewrite Hx. by left.
  - destruct r as [rl|]; [|done]. destruct Hr as (? & ? & ? & ? & ?). by split.
Qed.

(** The bytes of the value at the runs of [rl]. *)
Definition value_at (a : list run) (wt : WRITE_TYPE) (val : buffer) (val_len : Z)
    (rl : list rle) (s : S) : Prop :=
  forall r p, r ∈ rl -> in_real_run csize r p -> p < val_len ->
    holds a wt val p (dcell s (addr_of csize r p)).

Lemma write_rl_run a0 rl val val_len wt (fs : @fstate S) m :
  fresh_rl a0 (g_allocation (fs_alloc fs)) val_len rl -> 0 < val_len ->
  (0 < length (fs_dyn fs))%nat -> (wt = WRITE_STANDARD -> val_len <= Z.of_nat (length val)) ->
  exists bw s',
    write_rl calloc_ok false csize rl val val_len wt fs m =
      Some ((bw, mkF (fs_alloc fs) (fs_zone fs) (fs_dyn fs) s'), m) /\
    untouched a0 (fs_dev fs) s' /\
    (bw = val_len -> value_at (g_allocation (fs_alloc fs)) wt val val_len rl s').
Proof.
  intros [Hvcn Ht Hnd Hfree Htk] Hv Hdyn Hval.
  destruct (scatter_rl_wf csize val_len nr_clusters rl Hcsize Hv Hvcn Ht Hnd
              ltac:(intros x Hx; by apply Hfree)) as [Hwf Hcov].
  destruct (rlwrite_spec false csize (g_allocation (fs_alloc fs)) calloc_ok wt val val_len (fs_dyn fs)
              (fs_dev fs) rl) as (bw & s' & E & _ & Hframe & Hdata); try done; [lia|].
  rewrite (scatter_live 0) in * by done.
  exists bw, s'. split; [by unfold write_rl; rewrite E|]. split.
  - intros a Ha. apply Hframe. intros x Hx Hax.
    apply (run_addr_cluster csize) in Hax; [|done].
    by destruct (Hfree _ (in_clusters x _ rl Hx Hax)).
  - intros -> r p Hr Hp Hpv. destruct (Hdata ltac:(lia) ltac:(lia) r p Hr Hp) as [Hd _]. by apply Hd.
Qed.

(** ** The attribute of a successful insertion *)

(** [clusters] clusters in [rl], [inited] bytes of the value on the device. *)
Record nonres_attr (type : Z) (uname : ucs_name) (name_len flags inst clusters val_len inited : Z)
    (rl : list rle) (new : buffer) : Prop := {
  na_hdr : nonres_hdr type (Z.of_nat (length new)) name_len flags inst (clusters - 1)
             (clusters * csize) val_len (Some inited) (take 64 new);
  na_name : sl 64 (length (name_bytes uname name_len)) new = name_bytes uname name_len;
  na_pairs : exists mpa b, get_size_for_mapping_pairs rl = inr mpa /\
    mapping_pairs_build rl mpa = (true, b) /\
    sl (Z.to_nat (64 + name_area name_len)) (length b) new = b;
}.

Lemma sl_past (h t : buffer) k n : (length h <= k)%nat -> sl k n (h ++ t) = sl (k - length h) n t.
Proof. intros. unfold sl. by rewrite drop_app_ge. Qed.

Lemma nonres_attr_intro type uname name_len flags inst clusters val_len inited rl h t mpa b :
  nonres_hdr type (Z.of_nat (64 + length t)) name_len flags inst (clusters - 1)
    (clusters * csize) val_len (Some inited) h ->
  name_matches uname name_len -> 2 * name_len <= name_area name_len ->
  sl 0 (length (name_bytes uname name_len)) t = name_bytes uname name_len ->
  name_area name_len + mpa <= Z.of_nat (length t) -> get_size_for_mapping_pairs rl = inr mpa ->
  mapping_pairs_build rl mpa = (true, b) ->
  nonres_attr type uname name_len flags inst clusters val_len inited rl
    (h ++ put (Z.to_nat (name_area name_len)) b t).
Proof.
  intros Hh Hn Hna Hnm Hroom Emp Eb. pose proof (nh_length _ _ _ _ _ _ _ _ _ _ Hh) as Lh.
  pose proof (mapping_size_law _ _ Emp) as Hmpa.
  destruct (mapping_build_law _ _ _ _ Eb ltac:(lia)) as [Lb _].
  pose proof (length_name_bytes _ _ Hn) as Ln. pose proof Hn as [Hn0 _].
  set (k := Z.to_nat (name_area name_len)) in *.
  assert (length (put k b t) = length t) as Lp by (apply length_put; lia).
  constructor.
  - rewrite <- Lh, take_app_length, length_app, Lp, Lh. exact Hh.
  - rewrite sl_past, Lh by lia. rewrite sl_put_before; [exact Hnm | lia | lia].
  - exists mpa, b. split_and!; [done.. |]. rewrite sl_past by lia.
    replace (Z.to_nat (64 + name_area name_len) - length h)%nat with k by lia.
    apply sl_put_same. lia.
Qed.

(** The record and the rest of the state after the attribute was placed at [i]. *)
Definition attr_placed (type : Z) (attrs : list buffer) (fin : buffer) (i : nat) (new m' : buffer)
  : Prop :=
  exists hdr' slack', m' = rec_bytes hdr' (take i attrs ++ new :: drop i attrs) fin slack' /\
    rec_ok hdr' (take i attrs ++ new :: drop i attrs) fin slack' /\ attr_type new = type.

Lemma placed_ok hdr attrs fin slack i type name_len flags inst highest allocated val_len init h t :
  rec_ok hdr attrs fin slack -> 0 < type < 0xffffffff ->
  let asize := Z.of_nat (64 + length t) in
  nonres_hdr type asize name_len flags inst highest allocated val_len init h ->
  byte_list t -> asize mod 8 = 0 -> 64 + 2 * name_len <= asize -> asize < 2 ^ 31 ->
  asize <= Z.of_nat (length slack) ->
  attr_placed type attrs fin i (h ++ t) (placed hdr attrs fin slack i asize (h ++ t)).
Proof.
  intros Hok Ht asize Hh Hb Hmod Hn Hsm Hroom. pose proof (nh_length _ _ _ _ _ _ _ _ _ _ Hh) as Lh.
  assert (attr_ok (h ++ t)) as Hnew by (eapply nonres_attr_ok; try done; lia).
  eexists _, _. split; [reflexivity|]. split.
  - apply place_ok; try done. rewrite length_app. lia.
  - unfold attr_type. rewrite field_hdr by lia. apply (nh_type _ _ _ _ _ _ _ _ _ _ Hh).
Qed.

(** Clusters are only added, and nothing is written where clusters were taken. *)
Record clusters_kept (fs fs' : @fstate S) : Prop := {
  ck_wf : wf_alloc (g_allocation (fs_alloc fs'));
  ck_grow : forall x, allocated (g_allocation (fs_alloc fs)) x ->
    allocated (g_allocation (fs_alloc fs')) x;
  ck_dev : untouched (g_allocation (fs_alloc fs)) (fs_dev fs) (fs_dev fs');
}.

Lemma allocated_bytes_spec k val_len :
  csize = 2 ^ k -> 0 <= k <= 32 -> 0 < val_len -> val_len + csize <= 2 ^ 32 ->
  allocated_bytes csize val_len = (val_len + csize - 1) / csize * csize.
Proof.
  intros -> Hk Hv Hs. unfold allocated_bytes. rewrite land_clear by lia. by rewrite Z.add_sub_assoc.
Qed.

(** ** Every outcome *)

Section Insert.
Context (hdr fin slack : buffer) (attrs : list buffer).
Context (type : Z) (uname : ucs_name) (name_len flags : Z) (val : buffer) (val_len : Z)
  (wt : WRITE_TYPE) (k : Z).
Context (Hok : rec_ok hdr attrs fin slack) (Htype : 0 < type < 0xffffffff)
  (Hname : name_matches uname name_len) (Hshort : name_len <= 4) (Hfl : 0 <= flags < 2 ^ 16)
  (Hval : wt = WRITE_STANDARD -> val_len <= Z.of_nat (length val)) (Hvl : 0 < val_len)
  (Hcs : csize = 2 ^ k) (Hk : 0 <= k <= 32) (Hsmall : val_len + csize <= 2 ^ 32).

Abbreviation m := (rec_bytes hdr attrs fin slack).

Lemma write_nonres_attr_run a0 i rl mpa (fs : @fstate S) :
  fresh_rl a0 (g_allocation (fs_alloc fs)) val_len rl -> get_size_for_mapping_pairs rl = inr mpa ->
  (0 < length (fs_dyn fs))%nat -> nonres_size name_len mpa <= Z.of_nat (length slack) ->
  exists err s' m' new,
    write_nonres_attr R N calloc_ok false csize write_errno
      (Z.of_nat (length (hdr ++ concat (take i attrs)))) type uname name_len flags (Some rl) val
      val_len wt mpa fs m = Some ((err, mkF (fs_alloc fs) (fs_zone fs) (fs_dyn fs) s'), m') /\
    untouched a0 (fs_dev fs) s' /\ attr_placed type attrs fin i new m' /\
    (err = None -> write_errno <> None ->
       nonres_attr type uname name_len flags (field 2 0x28 hdr) (rl_total rl) val_len val_len rl new /\
       value_at (g_allocation (fs_alloc fs)) wt val val_len rl s').
Proof.
  intros Hrl Emp Hdyn Hroom. pose proof Hname as [Hn0 _]. pose proof Hrl as [Hvcn Ht _ _ _].
  pose proof (mapping_size_law _ _ Emp) as Hmpa. pose proof (short_name name_len ltac:(lia)) as Hna.
  destruct (nonres_size_spec name_len mpa ltac:(lia) Hmpa) as [Has Hmod].
  assert (0 < rl_total rl <= val_len) as Htot.
  { rewrite Ht. split; [apply Z.div_str_pos; lia|]. apply Z.div_le_upper_bound; nia. }
  assert (0 <= rl_total rl * csize < 2 ^ 64) as Hal.
  { rewrite Ht. Z.to_euclidean_division_equations. nia. }
  assert (0 <= val_len < 2 ^ 64) as Hv64 by lia.
  destruct (place_nonres_run hdr attrs fin slack i type uname name_len flags (rl_total rl - 1)
              (rl_total rl * csize) val_len (Some val_len) mpa Hok Htype Hname Hna Hfl
              ltac:(lia) Hal Hv64 Hv64 Hmpa Hroom)
    as (m1 & h & t & Er & Ew & Hh & Hb & Lt & Hnm).
  unfold write_nonres_attr. rewrite (fbind_run _ _ _ _ _ _ _ (on_record_run _ fs _ _ _ Er)).
  rewrite (scatter_vcns 0) by done. rewrite (allocated_bytes_spec k) by (done || lia).
  rewrite <- Ht.
  rewrite (fbind_run _ _ _ _ _ _ _ (on_record_run _ fs _ _ _ Ew)).
  destruct (write_rl_run a0 rl val val_len wt fs
              (placed hdr attrs fin slack i (nonres_size name_len mpa) (h ++ t)) Hrl Hvl Hdyn Hval)
    as (bw & s' & Es & Hun & Hd).
  rewrite (fbind_run _ _ _ _ _ _ _ Es). rewrite <- Lt in *.
  destruct (Z.eqb_spec bw val_len) as [->|Hbw]; cbn [negb].
  2:{ exists write_errno, s', (placed hdr attrs fin slack i (Z.of_nat (64 + length t)) (h ++ t)), (h ++ t).
      split_and!; [done | done | eapply placed_ok; try done; lia | by intros ->]. }
  destruct (mapping_pairs_build rl mpa) as [ok b] eqn:Eb.
  destruct (mapping_build_law _ _ _ _ Eb ltac:(lia)) as [Lb Bb].
  pose proof (build_pairs_run hdr attrs fin slack i (Z.of_nat (64 + length t)) h t name_len mpa rl
                ok b (ok_hdr _ _ _ _ Hok) (nh_length _ _ _ _ _ _ _ _ _ _ Hh) ltac:(lia)
                ltac:(lia) ltac:(lia) Eb) as Ep.
  rewrite (on_record_run _ _ _ _ _ Ep).
  set (t' := put (Z.to_nat (name_area name_len)) b t) in *.
  assert (length t' = length t) as Lt' by (apply length_put; lia).
  exists (if ok then None else Some EPERM), s',
    (placed hdr attrs fin slack i (Z.of_nat (64 + length t)) (h ++ t')), (h ++ t').
  split; [done|]. split; [done|]. split.
  - rewrite <- Lt' in *. eapply placed_ok; try done; try lia. by apply byte_list_put.
  - destruct ok; [|done]. intros _ _. split; [|by apply Hd].
    eapply nonres_attr_intro; try done. lia.
Qed.

Lemma insert_non_resident_run name (fs : @fstate S) :
  str2ucs name = inr (uname, name_len) -> scatter_errno <> None -> write_errno <> None ->
  wf_alloc (g_allocation (fs_alloc fs)) -> 1 <= fs_zone fs <= nr_clusters ->
  (0 < length (fs_dyn fs))%nat ->
  let '(i, found) := find_in type uname CASE_SENSITIVE None 0 attrs in
  let run := insert_non_resident_attr_in_mft_record R N malloc_ok calloc_ok false nr_clusters
               csize scatter_errno write_errno type name name_len CASE_SENSITIVE flags val val_len
               wt fs m in
  match start_error found flags m with
  | Some e => run = Some ((Some e, fs), m)
  | None =>
      exists err fs' m', run = Some ((err, fs'), m') /\ clusters_kept fs fs' /\
      match err with
      | None => exists rl new,
          fresh_rl (g_allocation (fs_alloc fs)) (g_allocation (fs_alloc fs')) val_len rl /\
          attr_placed type attrs fin i new m' /\
          nonres_attr type uname name_len flags (field 2 0x28 hdr) (rl_total rl) val_len val_len rl new /\
          value_at (g_allocation (fs_alloc fs')) wt val val_len rl (fs_dev fs')
      | Some _ => m' = m \/ exists new, attr_placed type attrs fin i new m'
      end
  end.
Proof.
  intros Hs Hse Hwe Hwf Hz Hdyn. pose proof Hname as [Hn0 _].
  pose proof (prepare_run hdr attrs fin slack type name uname name_len flags fs Hok Hs) as Ep.
  cbv zeta in Ep. destruct (find_in type uname CASE_SENSITIVE None 0 attrs) as [i found].
  cbv zeta. unfold insert_non_resident_attr_in_mft_record.
  rewrite (fbind_run _ _ _ _ _ _ _ Ep). destruct (start_error found flags m) as [e|]; [done|].
  replace (val_len =? 0) with false by (symmetry; apply Z.eqb_neq; lia). cbn [negb andb].
  destruct (allocate_run val_len fs m Hwf Hz Hvl) as (r & a & zone & Ea & Hwf' & Hgrow & Hr).
  rewrite (fbind_run _ _ _ _ _ _ _ Ea). set (fs1 := mkF a zone (fs_dyn fs) (fs_dev fs)).
  assert (forall d, untouched (g_allocation (fs_alloc fs)) (fs_dev fs) d ->
            clusters_kept fs (mkF a zone (fs_dyn fs) d)) as Hkept by by intros; split.
  assert (clusters_kept fs fs1) as Hkept1 by by apply Hkept.
  destruct r as [rl|].
  2:{ rewrite bool_decide_true by done. exists scatter_errno, fs1, m. split; [done|].
      split; [done|]. destruct scatter_errno; [by left | done]. }
  rewrite bool_decide_false by done. change (default [] (Some rl)) with rl. unfold mapping_size.
  replace (val_len =? 0) with false by (symmetry; apply Z.eqb_neq; lia).
  destruct (get_size_for_mapping_pairs rl) as [e|mpa] eqn:Emp.
  { exists (Some e), fs1, m. split; [done|]. split; [done|]. by left. }
  destruct (Z.lt_ge_cases (Z.of_nat (length slack)) (nonres_size name_len mpa)) as [Hfull|Hroom].
  { exists (Some EOPNOTSUPP), fs1, m. split; [|split; [done | by left]].
    unfold write_nonres_attr. pose proof (mapping_size_law _ _ Emp) as Hmpa.
    pose proof (no_room_run hdr attrs fin slack i name_len mpa Hok Hn0 Hmpa Hfull) as En.
    by rewrite (fbind_run _ _ _ _ _ _ _ (on_record_run _ fs1 _ _ _ En)). }
  destruct (write_nonres_attr_run (g_allocation (fs_alloc fs)) i rl mpa fs1 Hr Emp Hdyn Hroom)
    as (err & s' & m' & new & E & Hun & Hpl & Hok').
  exists err, (mkF a zone (fs_dyn fs) s'), m'. split; [exact E|]. split; [by apply Hkept|].
  destruct err; [by right; exists new|]. destruct (Hok' eq_refl Hwe). by exists rl, new.
Qed.
End Insert.
End Run.
