(* ===== verification/MftNonResTheorems.v ===== *)
(** * Theorems about non-resident attributes

    [insert_non_resident_attr_in_mft_record] takes fresh clusters, writes the value
    to them and records them; [add_attr_data] stores its value in the record or in
    fresh clusters; two inputs the code does not handle.  The witnesses run on the
    callback device, with a simple encoding of runlists. *)

From S2P Require Import Prelude ClusterAlloc Scatter Runlist Device MkWrite.
From S2P Require Import Bytes Mft MftFacts MftTheorems MftNonRes MftNonResFacts.

Section Theorems.
Context `{RecordLaws} `{MappingLaws} {S : Type} `{BlockDevLaws S}.

(** [C25] Inserting a non-resident attribute with a value into a well-formed record.
    Every call ends and no access leaves the record or the value.  A missing
    context, an attribute of that type and name, and compressed, encrypted or
    sparse flags give [ENOMEM], [EEXIST] and [EOPNOTSUPP] and change nothing.
    Otherwise no cluster is given back and no byte of a cluster that was taken is
    written; on an error the record is as before or has one more well-formed
    attribute of that type; and on success the attribute is in the record at its
    place in the order, records the sizes and the built mapping pairs, and the
    value is on the device, in clusters that were free and are now taken. *)
Theorem insert_non_resident_attr_correct L LN malloc_ok calloc_ok nr_clusters csize
    scatter_errno write_errno hdr attrs fin slack type name uname name_len flags val val_len wt k
    (fs : @fstate S) :
  L = documented_record -> LN = documented_nonres ->
  (forall n, malloc_ok n = true) -> scatter_errno <> None -> write_errno <> None ->
  rec_ok hdr attrs fin slack -> 0 < type < 0xffffffff -> 0 <= flags < 2 ^ 16 ->
  str2ucs name = inr (uname, name_len) -> name_len <= 4 ->
  (wt = WRITE_STANDARD -> val_len <= Z.of_nat (length val)) -> 0 < val_len ->
  csize = 2 ^ k -> 0 <= k <= 32 -> val_len + csize <= 2 ^ 32 ->
  wf_alloc (g_allocation (fs_alloc fs)) -> 1 <= fs_zone fs <= nr_clusters ->
  (0 < length (fs_dyn fs))%nat ->
  let m := rec_bytes hdr attrs fin slack in
  let '(i, found) := find_in type uname CASE_SENSITIVE None 0 attrs in
  let run := insert_non_resident_attr_in_mft_record L LN malloc_ok calloc_ok false nr_clusters
               csize scatter_errno write_errno type name name_len CASE_SENSITIVE flags val val_len
               wt fs m in
  match start_error found flags m with
  | Some e => run = Some ((Some e, fs), m)
  | None =>
      exists err fs' m', run = Some ((err, fs'), m') /\ clusters_kept csize fs fs' /\
      match err with
      | None => exists rl new,
          fresh_rl nr_clusters csize (g_allocation (fs_alloc fs)) (g_allocation (fs_alloc fs'))
            val_len rl /\
          attr_placed type attrs fin i new m' /\
          (types_sorted attrs -> types_sorted (take i attrs ++ new :: drop i attrs)) /\
          nonres_attr csize type uname name_len flags (field 2 0x28 hdr) (rl_total rl) val_len
            val_len rl new /\
          value_at csize (g_allocation (fs_alloc fs')) wt val val_len rl (fs_dev fs')
      | Some _ => m' = m \/ exists new, attr_placed type attrs fin i new m'
      end
  end.
Proof.
  intros -> -> Hmal Hse Hwe Hok Ht Hfl Hs Hshort Hval Hvl Hcs Hk Hsm Hwf Hz Hdyn. cbv zeta.
  pose proof (str2ucs_law _ _ _ Hs ltac:(lia)) as Hname.
  assert (0 < csize) as Hc by (rewrite Hcs; apply Z.pow_pos_nonneg; lia).
  pose proof (insert_non_resident_run malloc_ok calloc_ok nr_clusters csize scatter_errno
                write_errno Hmal Hc hdr fin slack attrs type uname name_len flags val val_len wt k
                Hok Ht Hname Hshort Hfl Hval Hvl Hcs Hk Hsm name fs Hs Hse Hwe Hwf Hz Hdyn) as E.
  pose proof (find_in_order type uname CASE_SENSITIVE None 0 attrs ltac:(lia)) as Hord.
  destruct (find_in type uname CASE_SENSITIVE None 0 attrs) as [i found]. cbv zeta in E.
  destruct (start_error found flags _) as [e|] eqn:Es; [exact E|].
  destruct E as (err & fs' & m' & E & Hck & Hr). exists err, fs', m'. split; [exact E|].
  split; [done|]. destruct err; [done|]. destruct Hr as (rl & new & Hrl & Hpl & Hna & Hva).
  exists rl, new. split_and!; try done. intros Hsort.
  destruct found; [unfold start_error in Es; by destruct (get_search_ctx _)|].
  destruct Hpl as (_ & _ & _ & _ & Hty). destruct (Hord Hsort) as (Hb & _ & Ha).
  apply sorted_insert; rewrite ?Hty; auto.
Qed.

Lemma hdr_fields hdr attrs fin slack (fs : @fstate S) :
  rec_ok hdr attrs fin slack ->
  let m := rec_bytes hdr attrs fin slack in
  on_record (load32 (m_bytes_in_use documented_record)) fs m = Some ((field 4 0x18 hdr, fs), m) /\
  on_record (load32 (m_bytes_allocated documented_record)) fs m =
    Some ((field 4 0x1c hdr, fs), m).
Proof.
  intros Hok m. pose proof (ok_hdr _ _ _ _ Hok).
  split; apply on_record_run;
    [apply (hdr_load hdr _ 0x18 4) | apply (hdr_load hdr _ 0x1c 4)]; lia.
Qed.

(** Where a value went: into the attribute, or to the clusters it names. *)
Definition stored_value csize nr_clusters type uname name_len flags inst (val : buffer)
    (fs fs' : @fstate S) (new : buffer) : Prop :=
  (field 1 8 new = 0 /\ value_of new = val /\ fs' = fs) \/
  exists rl,
    fresh_rl nr_clusters csize (g_allocation (fs_alloc fs)) (g_allocation (fs_alloc fs'))
      (Z.of_nat (length val)) rl /\
    nonres_attr csize type uname name_len flags inst (rl_total rl) (Z.of_nat (length val))
      (Z.of_nat (length val)) rl new /\
    value_at csize (g_allocation (fs_alloc fs')) WRITE_STANDARD val (Z.of_nat (length val)) rl
      (fs_dev fs').

(** The resident insertion in the same terms. *)
Lemma insert_resident_placed hdr attrs fin slack type name uname name_len flags res_flags val :
  rec_ok hdr attrs fin slack -> 0 < type < 0xffffffff -> name_matches uname name_len ->
  0 <= flags < 2 ^ 16 -> byte_list val -> Z.of_nat (length val) < 2 ^ 31 - 4096 ->
  str2ucs name = inr (uname, name_len) ->
  let m := rec_bytes hdr attrs fin slack in
  exists err m',
    insert_resident_attr_in_mft_record documented_record type name name_len CASE_SENSITIVE flags
      res_flags (Some val) (Z.of_nat (length val)) m = Some (err, m') /\
    match err with
    | None => exists i new, attr_placed type attrs fin i new m' /\ field 1 8 new = 0 /\
        value_of new = val
    | Some _ => m' = m
    end.
Proof.
  intros Hok Ht Hname Hfl Hvb Hvl Hs m.
  assert (val_matches (Some val) (Z.of_nat (length val))) as Hval by done.
  pose proof (insert_resident_run hdr fin slack attrs type uname name_len flags res_flags
                (Some val) _ Hok Hname Hval Hvl name Hs) as E.
  destruct (find_in type uname CASE_SENSITIVE (Some val) _ attrs) as [i found].
  cbn [fst snd] in E. unfold m. rewrite E. clear E.
  destruct (get_search_ctx _); [|by eexists _, _]. destruct found; [by eexists _, _|].
  destruct (Z.ltb_spec (Z.of_nat (length slack)) (resident_size name_len (Z.of_nat (length val))))
    as [|Hroom]; [by eexists _, _|].
  destruct (new_attr_fields hdr fin slack attrs type uname name_len flags res_flags (Some val) _
              Hok Ht Hname Hval Hvl i Hroom Hfl) as (Hty & Hv & _ & Hnr & _).
  eexists None, _. split; [reflexivity|]. eexists i, _. split; [|by split].
  eexists _, _. split; [reflexivity|]. split; [by apply inserted_ok | exact Hty].
Qed.

(** [C26] [add_attr_data] stores its value: whichever of the two ways it takes, every
    call ends, the record stays well formed with at most one more data attribute,
    clusters in use are kept, and on success the attribute either holds exactly
    the value, or names fresh clusters that hold it; it is resident whenever the
    value leaves 512 bytes of the record free. *)
Theorem add_attr_data_correct L LN malloc_ok calloc_ok nr_clusters csize
    scatter_errno write_errno hdr attrs fin slack name uname name_len flags val k (fs : @fstate S) :
  let val_len := Z.of_nat (length val) in
  L = documented_record -> LN = documented_nonres ->
  (forall n, malloc_ok n = true) -> scatter_errno <> None -> write_errno <> None ->
  rec_ok hdr attrs fin slack -> 512 <= field 4 0x1c hdr < 2 ^ 30 -> 0 <= flags < 2 ^ 16 ->
  str2ucs name = inr (uname, name_len) -> name_len <= 4 -> byte_list val -> 0 < val_len ->
  csize = 2 ^ k -> 0 <= k <= 32 -> val_len + csize <= 2 ^ 32 ->
  wf_alloc (g_allocation (fs_alloc fs)) -> 1 <= fs_zone fs <= nr_clusters ->
  (0 < length (fs_dyn fs))%nat ->
  let m := rec_bytes hdr attrs fin slack in
  exists err fs' m',
    add_attr_data L LN malloc_ok calloc_ok false nr_clusters csize scatter_errno write_errno name
      name_len CASE_SENSITIVE flags val val_len fs m = Some ((err, fs'), m') /\
    clusters_kept csize fs fs' /\
    (field 4 0x18 hdr + 24 + val_len <= field 4 0x1c hdr - 512 -> fs' = fs) /\
    match err with
    | None => exists i new, attr_placed 0x80 attrs fin i new m' /\
        stored_value csize nr_clusters 0x80 uname name_len flags (field 2 0x28 hdr) val fs fs' new
    | Some _ => m' = m \/ exists i new, attr_placed 0x80 attrs fin i new m'
    end.
Proof.
  intros val_len -> -> Hmal Hse Hwe Hok Hroom Hfl Hs Hshort Hvb Hvl Hcs Hk Hsm Hwf Hz Hdyn m.
  pose proof (str2ucs_law _ _ _ Hs ltac:(lia)) as Hname.
  assert (0 < csize) as Hc by (rewrite Hcs; apply Z.pow_pos_nonneg; lia).
  pose proof Hok as [_ _ _ Hbiu Hal Hsmall _ _ _].
  destruct (hdr_fields hdr attrs fin slack fs Hok) as [E1 E2].
  unfold add_attr_data. rewrite (fbind_run _ _ _ _ _ _ _ E1), (fbind_run _ _ _ _ _ _ _ E2).
  rewrite !to_u_small by (unfold fits_u; lia). rewrite Z.min_r by lia.
  destruct (Z.ltb_spec (field 4 0x1c hdr - 512) (field 4 0x18 hdr + 24 + val_len)) as [Hbig|Hfit].
  - pose proof (insert_non_resident_run malloc_ok calloc_ok nr_clusters csize scatter_errno
                  write_errno Hmal Hc hdr fin slack attrs 0x80 uname name_len flags val val_len
                  WRITE_STANDARD k Hok ltac:(lia) Hname Hshort Hfl ltac:(lia) Hvl Hcs Hk Hsm name
                  fs Hs Hse Hwe Hwf Hz Hdyn) as E.
    destruct (find_in 0x80 uname CASE_SENSITIVE None 0 attrs) as [i found]. cbv zeta in E.
    destruct (start_error found flags _) as [e|].
    + exists (Some e), fs, m. split; [exact E|]. split; [by split|]. split; [done | by left].
    + destruct E as (err & fs' & m' & E & Hck & Hr). exists err, fs', m'. split; [exact E|].
      split; [done|]. split; [lia|].
      destruct err; [destruct Hr as [|[new ?]]; [by left | right; by exists i, new]|].
      destruct Hr as (rl & new & ? & ? & ? & ?). exists i, new. split; [done|]. right. by exists rl.
  - destruct (insert_resident_placed hdr attrs fin slack 0x80 name uname name_len flags 0 val Hok
                ltac:(lia) Hname Hfl Hvb ltac:(lia) Hs) as (err & m' & E & Hr).
    exists err, fs, m'. split; [exact (on_record_run _ fs _ _ _ E)|]. split; [by split|].
    split; [done|]. destruct err; [by left|]. destruct Hr as (i & new & ? & ? & ?).
    exists i, new. split; [done | by left].
Qed.
End Theorems.

(** ** Inputs the code does not handle *)

(** Without a value there is no runlist, and [rl[i].length] follows the NULL
    pointer as soon as the attribute is new and there is room for it. *)
Lemma insert_non_resident_no_value `{RecordLaws} `{MappingLaws} {S : Type} `{BlockDevLaws S}
    malloc_ok calloc_ok nr_clusters csize scatter_errno write_errno hdr attrs fin slack type name
    uname name_len flags val wt (fs : @fstate S) :
  rec_ok hdr attrs fin slack -> str2ucs name = inr (uname, name_len) -> 0 <= name_len < 256 ->
  let m := rec_bytes hdr attrs fin slack in
  start_error (snd (find_in type uname CASE_SENSITIVE None 0 attrs)) flags m = None ->
  nonres_size name_len 0 <= Z.of_nat (length slack) ->
  insert_non_resident_attr_in_mft_record documented_record documented_nonres malloc_ok calloc_ok
    false nr_clusters csize scatter_errno write_errno type name name_len CASE_SENSITIVE flags val 0
    wt fs m = None.
Proof.
  intros Hok Hs Hn m Hst Hroom.
  pose proof (prepare_run hdr attrs fin slack type name uname name_len flags fs Hok Hs) as Ep.
  cbv zeta in Ep. destruct (find_in type uname CASE_SENSITIVE None 0 attrs) as [i found].
  cbn [snd] in Hst. fold m in Ep. rewrite Hst in Ep.
  unfold insert_non_resident_attr_in_mft_record. rewrite (fbind_run _ _ _ _ _ _ _ Ep).
  cbn [Z.eqb negb andb]. rewrite (fbind_run _ _ fs m None fs m eq_refl). cbn [mapping_size Z.eqb].
  destruct (nonres_size_spec name_len 0 Hn ltac:(lia)) as [Has _].
  destruct (align8_spec name_len ltac:(lia)) as [Ha _]. fold (name_area name_len) in Ha.
  pose proof Hok as Hok'. rewrite <- (take_drop i attrs) in Hok'.
  pose proof (make_room_run _ _ _ _ _ (nonres_size name_len 0) Hok' ltac:(lia)) as Er.
  rewrite (take_drop i attrs) in Er.
  replace (_ <? nonres_size _ _) with false in Er by (symmetry; by apply Z.ltb_ge).
  unfold write_nonres_attr. by rewrite (fbind_run _ _ _ _ _ _ _ (on_record_run _ fs _ _ _ Er)).
Qed.

(** The mask of the allocated size is unsigned: 4 GiB of data have none. *)
Lemma allocated_bytes_wraps : allocated_bytes 4096 (2 ^ 32) = 0.
Proof. reflexivity. Qed.

(** The area for a name of five characters holds eight of its ten bytes; the
    mapping pairs are stored over the rest. *)
Lemma name_area_short : name_area 5 = 8.
Proof. reflexivity. Qed.

(** ** Witnesses *)

(** Two bytes per run, the end, and at most what is asked for. *)
#[local] Instance pair_lib : MappingLib := {
  get_size_for_mapping_pairs := fun rl =>
    let z := Z.of_nat (2 * length rl + 1) in if z <? 2 ^ 30 then inr z else inl ERANGE;
  mapping_pairs_build := fun rl z =>
    let b := concat (map (fun r => [rl_length r mod 256; rl_lcn r mod 256]) rl) ++ [0] in
    (Z.of_nat (length b) <=? z, take (Z.to_nat z) b);
}.

#[local] Instance pair_laws : MappingLaws.
Proof.
  constructor.
  - intros rl z. cbn [get_size_for_mapping_pairs pair_lib].
    destruct (Z.ltb_spec (Z.of_nat (2 * length rl + 1)) (2 ^ 30)); [|done]. intros [= <-]. lia.
  - intros rl z ok b [= <- <-] Hz. split; [rewrite length_take; lia|].
    apply Forall_take, Forall_app. split; [|repeat constructor; lia].
    induction rl as [|r rl IH]; cbn; [constructor|].
    repeat constructor; try done; apply Z.mod_pos_bound; lia.
Qed.

(** Clusters 0 and 1 are taken, of 12 of two bytes each. *)
Definition sample_state : @fstate (device (Z -> Z)) :=
  mkF (mkAstate [mkRun 0 2] 0) 2 [0; 0] sample_dev.

#[local] Existing Instance plain_lib.
#[local] Existing Instance plain_laws.

Lemma insert_non_resident_attr_correct_witness :
  exists err fs' m',
    @insert_non_resident_attr_in_mft_record documented_record documented_nonres _ _ _
      (nkdev_block (cell_io 3)) (fun _ => true) true false 12 2 (Some ENOENT) (Some EIO)
      0x80 None 0 CASE_SENSITIVE 0 [1; 2; 3; 4; 5; 6; 7] 7 WRITE_STANDARD sample_state
      (rec_bytes (sample_hdr 136) [sample_std] sample_end sample_slack) = Some ((err, fs'), m') /\
    @clusters_kept _ _ (nkdev_block_laws _ _ (cell_io_laws 3 ltac:(lia))) 2 sample_state fs'.
Proof.
  destruct (@insert_non_resident_attr_correct plain_lib plain_laws pair_lib pair_laws _
              (nkdev_block (cell_io 3)) (nkdev_block_laws _ _ (cell_io_laws 3 ltac:(lia)))
              documented_record documented_nonres (fun _ => true) true 12 2 (Some ENOENT)
              (Some EIO) (sample_hdr 136) [sample_std] sample_end sample_slack 0x80 None AT_UNNAMED
              0 0 [1; 2; 3; 4; 5; 6; 7] 7 WRITE_STANDARD 1 sample_state eq_refl eq_refl
              ltac:(done) ltac:(done) ltac:(done) sample_ok ltac:(lia) ltac:(lia) eq_refl ltac:(lia)
              ltac:(cbn; lia) ltac:(lia) eq_refl ltac:(lia) ltac:(lia)
              ltac:(unfold wf_alloc; cbn; lia) ltac:(cbn; lia) ltac:(cbn; lia))
    as (err & fs' & m' & E & Hck & _).
  exists err, fs', m'. exact (conj E Hck).
Defined.

Lemma add_attr_data_correct_witness :
  exists err fs' m',
    @add_attr_data documented_record documented_nonres _ _ _ (nkdev_block (cell_io 3))
      (fun _ => true) true false 12 2 (Some ENOENT) (Some EIO) None 0 CASE_SENSITIVE 0
      [1; 2; 3; 4; 5; 6; 7] 7 sample_state
      (rec_bytes (sample_hdr 136) [sample_std] sample_end sample_slack) = Some ((err, fs'), m') /\
    fs' = sample_state.
Proof.
  destruct (@add_attr_data_correct plain_lib plain_laws pair_lib pair_laws _
              (nkdev_block (cell_io 3)) (nkdev_block_laws _ _ (cell_io_laws 3 ltac:(lia)))
              documented_record documented_nonres (fun _ => true) true 12 2 (Some ENOENT)
              (Some EIO) (sample_hdr 136) [sample_std] sample_end sample_slack None AT_UNNAMED
              0 0 [1; 2; 3; 4; 5; 6; 7] 1 sample_state eq_refl eq_refl
              ltac:(done) ltac:(done) ltac:(done) sample_ok ltac:(vm_compute; split; congruence)
              ltac:(lia) eq_refl ltac:(lia) ltac:(apply byte_listb_ok; reflexivity)
              ltac:(cbn; lia) eq_refl ltac:(lia) ltac:(cbn; lia)
              ltac:(unfold wf_alloc; cbn; lia) ltac:(cbn; lia) ltac:(cbn; lia))
    as (err & fs' & m' & E & _ & Hfit & _).
  exists err, fs', m'. split; [exact E|]. apply Hfit. vm_compute. congruence.
Defined.

(** One run of four clusters takes the seven bytes and a byte of padding, behind the
    attribute's header its mapping pairs. *)
Example insert_non_resident_sample :
  match @insert_non_resident_attr_in_mft_record documented_record documented_nonres _ _ _
      (nkdev_block (cell_io 3)) (fun _ => true) true false 12 2 (Some ENOENT) (Some EIO)
      0x80 None 0 CASE_SENSITIVE 0 [1; 2; 3; 4; 5; 6; 7] 7 WRITE_STANDARD sample_state
      (rec_bytes (sample_hdr 136) [sample_std] sample_end sample_slack) with
  | Some ((err, fs'), m') =>
      err = None /\ g_allocation (fs_alloc fs') = [mkRun 0 6] /\
      d_medium (fs_dev fs') <$> seqZ 3 10 = [9; 1; 2; 3; 4; 5; 6; 7; 0; 9] /\
      sl (0x38 + 72 + 64) 4 m' = [4; 2; 0; 7]
  | None => False
  end.
Proof. vm_compute. done. Qed.
