(* ===== verification/MftPositioned.v ===== *)
(** * Attributes at a given place

    [insert_positioned_attr_in_mft_record]: how much of the value reaches clusters,
    and every outcome of the insertion. *)

From S2P Require Import Prelude ClusterAlloc Scatter Runlist Device MkWrite Bytes Mft MftFacts.
From S2P Require Import MftTheorems MftNonRes MftNonResFacts MftNonResTheorems.

(** ** The bytes written *)

(** The bytes of the value that lie in runs with clusters. *)
Fixpoint real_bytes (csize val_len : Z) (rl : list rle) : Z :=
  match rl with
  | [] => 0
  | r :: rl =>
      (if rl_lcn r =? -1 then 0
       else Z.min (rl_length r * csize) (val_len - rl_vcn r * csize)) +
      real_bytes csize val_len rl
  end.

Section Inited.
Context {S : Type} `{BlockDev S} (csize : Z) (g_allocation : list run).

Lemma run_loop_inited wt val fuel : forall length retry (w w' : @rlw S) rest,
  run_loop g_allocation fuel wt val length retry w = Some (inl (rest, w')) ->
  rw_inited w' = rw_inited w + (length - rest) /\ rw_total w' = rw_total w + (length - rest).
Proof.
  induction fuel as [|fuel IH]; intros length retry w w' rest; cbn [run_loop]; [done|].
  destruct (write_chunk _ _ _ _ _ _ _) as [[n buf] s1]. destruct (n =? -1); [done|].
  destruct (n =? 0); destruct (negb _ && _); intros E; try (apply IH in E; cbn in E; lia);
    injection E as <- <-; cbn; lia.
Qed.

Lemma rlwrite_runs_inited wt val val_len : 0 < csize ->
  forall rl v (w w' : @rlw S),
  contiguous v rl -> ends_in_last csize val_len rl -> rw_total w = v * csize ->
  rlwrite_runs csize g_allocation rl wt val val_len w = Some (inl w') ->
  rw_inited w' = rw_inited w + real_bytes csize val_len rl.
Proof.
  intros Hcs. induction rl as [|r rl IH]; intros v w w'; cbn [rlwrite_runs real_bytes].
  { intros _ _ _ [= <-]. lia. }
  intros [Hvcn Hc] (He1 & He2 & He3) Ht. destruct (rl_lcn r =? -1).
  { intros E. apply (IH (v + rl_length r)) in E; cbn in *; [done|done|done|lia]. }
  set (p := if val_len <? _ then _ else _).
  assert (p.1 = Z.min (rl_length r * csize) (val_len - rl_vcn r * csize)) as Hp.
  { unfold p. rewrite Ht, Hvcn. zcase; cbn; lia. }
  destruct p as [len delta]. cbn in Hp. destruct (dev_seek _ _) as [ok s1].
  destruct ok; cbn [negb]; [|done].
  destruct (run_loop _ _ _ _ _ _ _) as [[[rest w2]|s2]|] eqn:El; [|done..].
  apply run_loop_inited in El as [Ei Et]. cbn in Ei, Et.
  destruct (Z.eqb_spec rest 0) as [->|]; cbn [negb]; [|done]. intros E.
  destruct rl as [|r2 rl].
  - cbn in E. injection E as <-. cbn [real_bytes]. lia.
  - specialize (He2 ltac:(done)).
    apply (IH (v + rl_length r)) in E; [lia|done|done|]. nia.
Qed.
End Inited.

Lemma vcns_end v rl : runs_end v rl = v + rl_vcns rl.
Proof.
  revert v. induction rl as [|r rl IH]; intros v; cbn [runs_end]; [cbn; lia|].
  rewrite IH. change (rl_vcns (r :: rl)) with (rl_length r + rl_vcns rl). lia.
Qed.

Lemma real_bytes_range csize val_len rl v :
  0 < csize -> 0 <= v -> Forall (fun r => 0 < rl_length r /\ -1 <= rl_lcn r) rl ->
  contiguous v rl -> ends_in_last csize val_len rl ->
  0 <= real_bytes csize val_len rl <= Z.max 0 (val_len - v * csize).
Proof.
  intros Hc. revert v. induction rl as [|r rl IH]; intros v Hv; cbn [real_bytes]; [lia|].
  intros [[Hl _] Hr]%Forall_cons_1 [Hvcn Hco] (He1 & He2 & He3).
  specialize (IH (v + rl_length r) ltac:(lia) Hr Hco He3).
  destruct rl as [|r2 rl]; [cbn [real_bytes] in *; destruct (rl_lcn r =? -1); nia|].
  specialize (He2 ltac:(done)). destruct (rl_lcn r =? -1); nia.
Qed.

(** ** Every outcome *)

Section Run.
Context `{RecordLaws} `{MappingLaws} {S : Type} `{BlockDevLaws S}.
Context (calloc_ok : bool) (csize : Z) (write_errno : option errno_t).
Context (hdr fin slack : buffer) (attrs : list buffer).
Context (type : Z) (uname : ucs_name) (name_len flags : Z) (rl : list rle) (val : buffer)
  (val_len : Z).
Context (Hok : rec_ok hdr attrs fin slack) (Htype : 0 < type < 0xffffffff)
  (Hname : name_matches uname name_len) (Hshort : name_len <= 4) (Hfl : 0 <= flags < 2 ^ 16)
  (Hcsize : 0 < csize) (Hvl : 0 < val_len) (Hrl : rl_wf csize 0 val_len (live_runs rl)).

Abbreviation m := (rec_bytes hdr attrs fin slack).
Abbreviation vcns := (rl_vcns (live_runs rl)).
Context (Hsmall : vcns * csize < 2 ^ 63).

(** The log file is filled with 0xff, everything else with the value. *)
Definition positioned_type : WRITE_TYPE :=
  if (type =? 0x80) && (field 4 0x2c hdr =? 2) then WRITE_LOGFILE else WRITE_STANDARD.

Context (Hval : positioned_type = WRITE_STANDARD -> val_len <= Z.of_nat (length val)).

(** The write: what changes, and what a full write leaves. *)
Lemma write_positioned_run (fs : @fstate S) b :
  (0 < length (fs_dyn fs))%nat -> val_len <= vcns * csize ->
  exists bw s',
    write_rl calloc_ok false csize rl val val_len positioned_type fs b =
      Some ((bw, mkF (fs_alloc fs) (fs_zone fs) (fs_dyn fs) s'), b) /\
    (forall a, (forall r, r ∈ live_runs rl -> ~ run_addr csize r a) ->
       dcell s' a = dcell (fs_dev fs) a) /\
    (bw = val_len ->
       value_at csize (g_allocation (fs_alloc fs)) positioned_type val val_len (live_runs rl) s' /\
       inited_size false csize rl val val_len positioned_type fs =
         real_bytes csize val_len (live_runs rl)).
Proof.
  intros Hdyn Hcov.
  destruct (rlwrite_spec false csize (g_allocation (fs_alloc fs)) calloc_ok positioned_type val
              val_len (fs_dyn fs) (fs_dev fs) rl) as (bw & s' & E & _ & Hframe & Hdata);
    try done; [lia | by rewrite vcns_end |].
  exists bw, s'. split; [by unfold write_rl; rewrite E|]. split; [exact Hframe|]. intros ->. split.
  - intros r p Hr Hp Hpv. destruct (Hdata ltac:(lia) ltac:(lia) r p Hr Hp) as [Hd _]. by apply Hd.
  - unfold inited_size. unfold ntfs_rlwrite in E.
    destruct (rlwrite_runs_spec csize (g_allocation (fs_alloc fs)) positioned_type val val_len Hcsize
                Hval (live_runs rl) 0 (mkRlw 0 0 0 (fs_dyn fs) (fs_dev fs)) Hrl)
      as [(r & s2 & Er & _ & Hr & _)|(w & Er & _)]; try done; rewrite Er in *.
    { injection E as -> ->. lia. }
    apply (rlwrite_runs_inited _ _ _ _ _ Hcsize _ 0) in Er; try done; apply Hrl.
Qed.

(** The initialised size is the last store. *)
Lemma store_inited_run i asize h t asz nl inst highest alloc v :
  (0x30 <= length hdr)%nat -> 0 <= v < 2 ^ 64 ->
  nonres_hdr type asz nl flags inst highest alloc val_len None h ->
  exists h',
    store64 (Z.of_nat (length (hdr ++ concat (take i attrs))) + n_initialized_size documented_nonres) v
      (placed hdr attrs fin slack i asize (h ++ t)) =
    Some (tt, placed hdr attrs fin slack i asize (h' ++ t)) /\
    nonres_hdr type asz nl flags inst highest alloc val_len (Some v) h'.
Proof.
  intros Hh Hv Hn. pose proof (nh_length _ _ _ _ _ _ _ _ _ _ Hn) as Lh.
  destruct (store_le_mid 8 56 v (inserted_hdr asize hdr) (concat (take i attrs)) h
              (t ++ concat (drop i attrs) ++ fin ++ drop (Z.to_nat asize) slack)
              (Z.of_nat (length (hdr ++ concat (take i attrs))) +
               n_initialized_size documented_nonres)) as (h' & E & St).
  { rewrite length_app, length_inserted by done.
    change (n_initialized_size documented_nonres) with 56. lia. }
  { lia. }
  exists h'. split.
  - unfold placed, rec_bytes. rewrite !concat_app. cbn [concat]. rewrite <- !app_assoc. exact E.
  - destruct Hn. pose proof (stored_length _ _ _ _ _ St).
    constructor; try (rewrite (stored_other _ _ _ _ _ _ _ St) by lia; done); [lia | |].
    + by apply (stored_bytes _ _ _ _ _ St).
    + by apply (stored_same _ _ _ _ _ St).
Qed.

(** From the room on. *)
Lemma write_positioned_attr_run i mpa (fs : @fstate S) :
  (0 < length (fs_dyn fs))%nat -> val_len <= vcns * csize ->
  get_size_for_mapping_pairs rl = inr mpa -> nonres_size name_len mpa <= Z.of_nat (length slack) ->
  exists err s' m' new,
    write_positioned_attr R documented_nonres calloc_ok false csize write_errno
      (Z.of_nat (length (hdr ++ concat (take i attrs)))) type uname name_len flags rl (mret val)
      val_len mpa vcns fs m = Some ((err, mkF (fs_alloc fs) (fs_zone fs) (fs_dyn fs) s'), m') /\
    (forall a, (forall r, r ∈ live_runs rl -> ~ run_addr csize r a) ->
       dcell s' a = dcell (fs_dev fs) a) /\
    attr_placed type attrs fin i new m' /\
    (err = None -> write_errno <> None ->
       nonres_attr csize type uname name_len flags (field 2 0x28 hdr) vcns val_len
         (real_bytes csize val_len (live_runs rl)) rl new /\
       value_at csize (g_allocation (fs_alloc fs)) positioned_type val val_len (live_runs rl) s').
Proof.
  intros Hdyn Hcov Emp Hroom. pose proof Hname as [Hn0 _].
  pose proof (ok_hdr _ _ _ _ Hok) as Hh.
  pose proof (mapping_size_law _ _ Emp) as Hmpa. pose proof (short_name name_len ltac:(lia)) as Hna.
  destruct (nonres_size_spec name_len mpa ltac:(lia) Hmpa) as [Has Hmod].
  assert (1 <= vcns) as Hv1 by nia. assert (vcns <= vcns * csize) by nia.
  pose proof (real_bytes_range csize val_len (live_runs rl) 0 Hcsize ltac:(lia)
                (rf_runs _ _ _ _ Hrl) (rf_contiguous _ _ _ _ Hrl) (rf_ends _ _ _ _ Hrl)) as Hrb.
  destruct (place_nonres_run hdr attrs fin slack i type uname name_len flags (vcns - 1)
              (vcns * csize) val_len None mpa Hok Htype Hname Hna Hfl
              ltac:(lia) ltac:(lia) ltac:(lia) I Hmpa Hroom)
    as (m1 & h & t & Er & Ew & Hhd & Hb & Lt & Hnm).
  unfold write_positioned_attr. rewrite (fbind_run _ _ _ _ _ _ _ (on_record_run _ fs _ _ _ Er)).
  rewrite (fbind_run _ _ _ _ _ _ _ (on_record_run _ fs _ _ _ Ew)).
  rewrite <- Lt in *. set (m2 := placed hdr attrs fin slack i _ (h ++ t)).
  assert (load32 (m_mft_record_number documented_nonres) m2 = Some (field 4 0x2c hdr, m2)) as El.
  { unfold m2, placed, rec_bytes. rewrite <- (inserted_field (Z.of_nat (64 + length t)) hdr) by lia.
    apply (hdr_load _ _ 0x2c 4). rewrite length_inserted by done. lia. }
  rewrite (fbind_run _ _ _ _ _ _ _ (on_record_run _ fs _ _ _ El)).
  change (AT_DATA R) with 0x80. change (FILE_LogFile documented_nonres) with 2.
  fold positioned_type. cbv zeta. do 2 rewrite (fbind_run _ _ fs m2 _ fs m2 eq_refl).
  destruct (write_positioned_run fs m2 Hdyn Hcov) as (bw & s' & Es & Hun & Hd).
  rewrite (fbind_run _ _ _ _ _ _ _ Es).
  destruct (Z.eqb_spec bw val_len) as [->|Hbw]; cbn [negb].
  2:{ exists write_errno, s', m2, (h ++ t). split; [done|]. split; [done|]. split; [|by intros ->].
      eapply placed_ok; try done; lia. }
  destruct (mapping_pairs_build rl mpa) as [ok b] eqn:Eb.
  destruct (mapping_build_law _ _ _ _ Eb ltac:(lia)) as [Lb Bb].
  pose proof (build_pairs_run hdr attrs fin slack i (Z.of_nat (64 + length t)) h t name_len mpa rl
                ok b Hh (nh_length _ _ _ _ _ _ _ _ _ _ Hhd) ltac:(lia)
                ltac:(lia) ltac:(lia) Eb) as Ep.
  rewrite (fbind_run _ _ _ _ _ _ _ (on_record_run _ _ _ _ _ Ep)).
  set (t' := put (Z.to_nat (name_area name_len)) b t) in *.
  assert (length t' = length t) as Lt' by (apply length_put; lia).
  destruct (Hd eq_refl) as [Hva Hin]. rewrite Hin.
  destruct (store_inited_run i (Z.of_nat (64 + length t)) h t' _ _ _ _ _
              (real_bytes csize val_len (live_runs rl)) Hh ltac:(lia) Hhd) as (h' & Ei & Hhd').
  rewrite (fbind_run _ _ _ _ _ _ _ (on_record_run _ _ _ _ _ Ei)).
  exists (if ok then None else Some EPERM), s',
    (placed hdr attrs fin slack i (Z.of_nat (64 + length t)) (h' ++ t')), (h' ++ t').
  split; [done|]. split; [done|]. split.
  - rewrite <- Lt' in *. eapply placed_ok; try done; try lia. by apply byte_list_put.
  - destruct ok; [|done]. intros _ _. split; [|exact Hva].
    eapply nonres_attr_intro; try done. lia.
Qed.

(** The allocator and every byte outside the runs are as before. *)
Definition outside_kept (fs fs' : @fstate S) : Prop :=
  fs_alloc fs' = fs_alloc fs /\ fs_zone fs' = fs_zone fs /\
  forall a, (forall r, r ∈ live_runs rl -> ~ run_addr csize r a) ->
    dcell (fs_dev fs') a = dcell (fs_dev fs) a.

Lemma insert_positioned_run name (fs : @fstate S) :
  str2ucs name = inr (uname, name_len) -> write_errno <> None -> (0 < length (fs_dyn fs))%nat ->
  let '(i, found) := find_in type uname CASE_SENSITIVE None 0 attrs in
  let run := insert_positioned_attr_in_mft_record R documented_nonres calloc_ok false csize
               write_errno type name name_len CASE_SENSITIVE flags rl (mret val) val_len fs m in
  match start_error found flags m with
  | Some e => run = Some ((Some e, fs), m)
  | None =>
      exists err fs' m', run = Some ((err, fs'), m') /\ outside_kept fs fs' /\
      match err with
      | None => val_len <= vcns * csize /\ exists new,
          attr_placed type attrs fin i new m' /\
          nonres_attr csize type uname name_len flags (field 2 0x28 hdr) vcns val_len
            (real_bytes csize val_len (live_runs rl)) rl new /\
          value_at csize (g_allocation (fs_alloc fs)) positioned_type val val_len (live_runs rl)
            (fs_dev fs')
      | Some _ => m' = m \/ exists new, attr_placed type attrs fin i new m'
      end
  end.
Proof.
  intros Hs Hwe Hdyn. pose proof Hname as [Hn0 _].
  pose proof (prepare_run hdr attrs fin slack type name uname name_len flags fs Hok Hs) as Ep.
  cbv zeta in Ep. destruct (find_in type uname CASE_SENSITIVE None 0 attrs) as [i found].
  cbv zeta. unfold insert_positioned_attr_in_mft_record.
  rewrite (fbind_run _ _ _ _ _ _ _ Ep). destruct (start_error found flags m) as [e|]; [done|].
  unfold mapping_size. replace (val_len =? 0) with false by (symmetry; apply Z.eqb_neq; lia).
  assert (outside_kept fs fs) as Hsame by done.
  destruct (get_size_for_mapping_pairs rl) as [e|mpa] eqn:Emp.
  { exists (Some e), fs, m. split; [done|]. split; [done|]. by left. }
  destruct (Z.ltb_spec (vcns * csize) val_len) as [Hshortrl|Hcov].
  { exists (Some EINVAL), fs, m. split; [done|]. split; [done|]. by left. }
  destruct (Z.lt_ge_cases (Z.of_nat (length slack)) (nonres_size name_len mpa)) as [Hfull|Hroom].
  { exists (Some EOPNOTSUPP), fs, m. split; [|split; [done | by left]].
    unfold write_positioned_attr. pose proof (mapping_size_law _ _ Emp) as Hmpa.
    pose proof (no_room_run hdr attrs fin slack i name_len mpa Hok Hn0 Hmpa Hfull) as En.
    by rewrite (fbind_run _ _ _ _ _ _ _ (on_record_run _ fs _ _ _ En)). }
  destruct (write_positioned_attr_run i mpa fs Hdyn Hcov Emp Hroom)
    as (err & s' & m' & new & E & Hun & Hpl & Hok').
  exists err, (mkF (fs_alloc fs) (fs_zone fs) (fs_dyn fs) s'), m'. split; [exact E|].
  split; [done|]. destruct err; [by right; exists new|]. split; [done|].
  destruct (Hok' eq_refl Hwe). by exists new.
Qed.
End Run.

(** [C27] Inserting an attribute with a runlist of its own into a well-formed record.
    Every call ends and stays inside the record.  A missing context, an attribute
    of that type and name, and compressed, encrypted or sparse flags give
    [ENOMEM], [EEXIST] and [EOPNOTSUPP] and change nothing.  Otherwise no cluster
    is taken or given back, and no device byte outside the runs changes; on an
    error the record is as before or has one more well-formed attribute; and on
    success the runs are large enough, the attribute is in its place in the order
    with the sizes and mapping pairs of the runlist, the initialised size counts
    the bytes that went to clusters, and these bytes are on the device (0xff for
    the data of the log file). *)
Theorem insert_positioned_attr_correct `{RecordLaws} `{MappingLaws} {S : Type} `{BlockDevLaws S}
    L LN calloc_ok csize write_errno hdr attrs fin slack type name uname name_len flags rl val
    val_len (fs : @fstate S) :
  L = documented_record -> LN = documented_nonres -> write_errno <> None ->
  rec_ok hdr attrs fin slack -> 0 < type < 0xffffffff -> 0 <= flags < 2 ^ 16 ->
  str2ucs name = inr (uname, name_len) -> name_len <= 4 -> 0 < csize -> 0 < val_len ->
  rl_wf csize 0 val_len (live_runs rl) -> rl_vcns (live_runs rl) * csize < 2 ^ 63 ->
  (0 < length (fs_dyn fs))%nat ->
  let wt := positioned_type hdr type in
  (wt = WRITE_STANDARD -> val_len <= Z.of_nat (length val)) ->
  let m := rec_bytes hdr attrs fin slack in
  let '(i, found) := find_in type uname CASE_SENSITIVE None 0 attrs in
  let run := insert_positioned_attr_in_mft_record L LN calloc_ok false csize write_errno type name
               name_len CASE_SENSITIVE flags rl (mret val) val_len fs m in
  match start_error found flags m with
  | Some e => run = Some ((Some e, fs), m)
  | None =>
      exists err fs' m', run = Some ((err, fs'), m') /\ outside_kept csize rl fs fs' /\
      match err with
      | None => val_len <= rl_vcns (live_runs rl) * csize /\ exists new,
          attr_placed type attrs fin i new m' /\
          (types_sorted attrs -> types_sorted (take i attrs ++ new :: drop i attrs)) /\
          nonres_attr csize type uname name_len flags (field 2 0x28 hdr) (rl_vcns (live_runs rl))
            val_len (real_bytes csize val_len (live_runs rl)) rl new /\
          value_at csize (g_allocation (fs_alloc fs)) wt val val_len (live_runs rl) (fs_dev fs')
      | Some _ => m' = m \/ exists new, attr_placed type attrs fin i new m'
      end
  end.
Proof.
  intros -> -> Hwe Hok Ht Hfl Hs Hshort Hc Hvl Hrl Hsm Hdyn wt Hval. cbv zeta.
  pose proof (str2ucs_law _ _ _ Hs ltac:(lia)) as Hname.
  pose proof (insert_positioned_run calloc_ok csize write_errno hdr fin slack attrs type uname
                name_len flags rl val val_len Hok Ht Hname Hshort Hfl Hc Hvl Hrl Hsm Hval name fs Hs
                Hwe Hdyn) as E.
  pose proof (find_in_order type uname CASE_SENSITIVE None 0 attrs ltac:(lia)) as Hord.
  destruct (find_in type uname CASE_SENSITIVE None 0 attrs) as [i found]. cbv zeta in E.
  destruct (start_error found flags _) as [e|] eqn:Es; [exact E|].
  destruct E as (err & fs' & m' & E & Hun & Hr). exists err, fs', m'. split; [exact E|].
  split; [done|]. destruct err; [done|]. destruct Hr as (Hcov & new & Hpl & Hna & Hva).
  split; [done|]. exists new. split; [done|]. split; [|by split]. intros Hsort.
  destruct found; [unfold start_error in Es; by destruct (get_search_ctx _)|].
  destruct Hpl as (_ & _ & _ & _ & Hty). destruct (Hord Hsort) as (Hb & _ & Ha).
  apply sorted_insert; rewrite ?Hty; auto.
Qed.

(** Two clusters, a hole of one, two clusters: nine bytes of data. *)
Definition holed_rl : list rle := [mkRle 0 4 2; mkRle 2 (-1) 1; mkRle 3 8 2; mkRle 5 0 0].

Lemma holed_wf : rl_wf 2 0 9 (live_runs holed_rl).
Proof.
  constructor; cbn.
  - repeat constructor; cbn; lia.
  - lia.
  - repeat split; intros r a Hr; unfold run_addr;
      repeat (apply elem_of_cons in Hr as [->|Hr]; [cbn; lia|]); by apply not_elem_of_nil in Hr.
  - repeat split; intros; cbn in *; first [lia | congruence].
Qed.

#[local] Existing Instance plain_lib.
#[local] Existing Instance plain_laws.
#[local] Existing Instance pair_lib.
#[local] Existing Instance pair_laws.

Lemma insert_positioned_attr_correct_witness :
  exists err fs' m',
    @insert_positioned_attr_in_mft_record documented_record documented_nonres _ _ _
      (nkdev_block (cell_io 3)) true false 2 (Some EIO) 0x80 None 0 CASE_SENSITIVE 0 holed_rl
      (mret [1; 2; 3; 4; 5; 6; 7; 8; 9]) 9 sample_state
      (rec_bytes (sample_hdr 136) [sample_std] sample_end sample_slack) = Some ((err, fs'), m') /\
    fs_alloc fs' = fs_alloc sample_state.
Proof.
  destruct (@insert_positioned_attr_correct plain_lib plain_laws pair_lib pair_laws _
              (nkdev_block (cell_io 3)) (nkdev_block_laws _ _ (cell_io_laws 3 ltac:(lia)))
              documented_record documented_nonres true 2 (Some EIO) (sample_hdr 136) [sample_std]
              sample_end sample_slack 0x80 None AT_UNNAMED 0 0 holed_rl [1; 2; 3; 4; 5; 6; 7; 8; 9] 9
              sample_state eq_refl eq_refl ltac:(done) sample_ok ltac:(lia) ltac:(lia) eq_refl
              ltac:(lia) ltac:(lia) ltac:(lia) holed_wf ltac:(vm_compute; reflexivity)
              ltac:(cbn; lia) ltac:(cbn; lia))
    as (err & fs' & m' & E & (Ha & _) & _).
  exists err, fs', m'. exact (conj E Ha).
Defined.

(** The bytes in the hole are skipped; the initialised size is 7, below the place of
    the last bytes written. *)
Example insert_positioned_sample :
  match @insert_positioned_attr_in_mft_record documented_record documented_nonres _ _ _
      (nkdev_block (cell_io 3)) true false 2 (Some EIO) 0x80 None 0 CASE_SENSITIVE 0 holed_rl
      (mret [1; 2; 3; 4; 5; 6; 7; 8; 9]) 9 sample_state
      (rec_bytes (sample_hdr 136) [sample_std] sample_end sample_slack) with
  | Some ((err, fs'), m') =>
      err = None /\ d_medium (fs_dev fs') <$> seqZ 7 14 = [9; 1; 2; 3; 4; 9; 9; 9; 9; 7; 8; 9; 0; 9] /\
      field 8 (0x38 + 72 + 48) m' = 9 /\ field 8 (0x38 + 72 + 56) m' = 7
  | None => False
  end.
Proof. vm_compute. done. Qed.
