(* ===== verification/Index.v ===== *)
(** * Directory and view indexes

    Models of src/NTFSModule/bridge/mkntfs/mkntfs.c: [ntfs_index_keys_compare],
    [make_room_for_index_entry_in_index_block], [insert_file_link_in_dir_index],
    [insert_index_entry_in_res_dir_index], [initialize_secure], [initialize_quota],
    [index_obj_id_insert], [create_hardlink] and [create_hardlink_res].

    A resident index lives in the value of an attribute of an MFT record, a large
    one in an index block, a buffer of its own; pointers are offsets and every
    access is bounds checked by the monad of [Bytes].  A routine that works on two
    buffers takes the second one as an argument and returns it.  The offsets and
    constants are those of libntfs-3g's [layout.h] ([record_h], [layout_h] and
    [index_h]). *)

From S2P Require Import Prelude Bytes Sd Mft.

(** ** What the code takes from libntfs-3g and the C library *)

Record index_h := {
  (* INDEX_ENTRY *)
  ie_data_offset : Z; ie_data_length : Z; ie_reservedV : Z; ie_key : Z; sizeof_INDEX_ENTRY : Z;
  (* INDEX_BLOCK *)
  sizeof_INDEX_BLOCK : Z; ib_index : Z;
  (* SDH_INDEX_KEY and the data of $SDH and $SII *)
  sdh_hash : Z; sdh_security_id : Z; sizeof_SDH_INDEX_KEY : Z; sizeof_SII_INDEX_KEY : Z;
  sizeof_SDH_INDEX_DATA : Z; sizeof_SII_INDEX_DATA : Z;
  sd_hash : Z; sd_security_id : Z; sd_offset : Z; sd_length : Z; sd_reserved_II : Z;
  (* QUOTA_CONTROL_ENTRY, QUOTA_O_INDEX_DATA *)
  q_version : Z; q_flags : Z; q_bytes_used : Z; q_change_time : Z; q_threshold : Z; q_limit : Z;
  q_exceeded_time : Z; q_sid : Z; qo_owner_id : Z; qo_unknown : Z;
  QUOTA_FLAG_DEFAULT_LIMITS : Z; QUOTA_FIRST_USER_ID : Z;
  (* GUID, OBJ_ID_INDEX_DATA *)
  sizeof_GUID : Z; sizeof_OBJ_ID_INDEX_DATA : Z; oi_mft_reference : Z;
  (* collation rules, name spaces, names of indexes *)
  COLLATION_NTOFS_ULONG : Z; COLLATION_NTOFS_SID : Z; COLLATION_NTOFS_SECURITY_HASH : Z;
  COLLATION_NTOFS_ULONGS : Z; FILE_NAME_POSIX : Z;
  NTFS_INDEX_I30 : list Z; NTFS_INDEX_SDH : list Z; NTFS_INDEX_SII : list Z;
  NTFS_INDEX_O : list Z; NTFS_INDEX_Q : list Z;
  (* MFT_RECORD *)
  m_link_count : Z
}.

Definition documented_index : index_h := {|
  ie_data_offset := 0; ie_data_length := 2; ie_reservedV := 4; ie_key := 16;
  sizeof_INDEX_ENTRY := 82; sizeof_INDEX_BLOCK := 40; ib_index := 24;
  sdh_hash := 0; sdh_security_id := 4; sizeof_SDH_INDEX_KEY := 8; sizeof_SII_INDEX_KEY := 4;
  sizeof_SDH_INDEX_DATA := 24; sizeof_SII_INDEX_DATA := 20;
  sd_hash := 0; sd_security_id := 4; sd_offset := 8; sd_length := 16; sd_reserved_II := 20;
  q_version := 0; q_flags := 4; q_bytes_used := 8; q_change_time := 16; q_threshold := 24;
  q_limit := 32; q_exceeded_time := 40; q_sid := 48; qo_owner_id := 0; qo_unknown := 4;
  QUOTA_FLAG_DEFAULT_LIMITS := 1; QUOTA_FIRST_USER_ID := 0x100;
  sizeof_GUID := 16; sizeof_OBJ_ID_INDEX_DATA := 56; oi_mft_reference := 0;
  COLLATION_NTOFS_ULONG := 16; COLLATION_NTOFS_SID := 17; COLLATION_NTOFS_SECURITY_HASH := 18;
  COLLATION_NTOFS_ULONGS := 19; FILE_NAME_POSIX := 0;
  NTFS_INDEX_I30 := [0x24; 0x49; 0x33; 0x30]; NTFS_INDEX_SDH := [0x24; 0x53; 0x44; 0x48];
  NTFS_INDEX_SII := [0x24; 0x53; 0x49; 0x49]; NTFS_INDEX_O := [0x24; 0x4f];
  NTFS_INDEX_Q := [0x24; 0x51];
  m_link_count := 0x12
|}.

(** The value [memcmp] answers; the C standard only fixes its sign. *)
Class CLib := { memcmp_value : buffer -> buffer -> Z }.

Class CLibLaws `{CLib} := {
  memcmp_law : forall l1 l2, length l1 = length l2 -> Z.sgn (memcmp_value l1 l2) = memcmp l1 l2;
}.

Section Index.
Context (R : record_h) (L : layout_h) (I : index_h) `{RecordLib} `{CLib}.

(** ** [ntfs_index_keys_compare] *)

(** [le32_to_cpup(key + i)]: [None] outside the memory [key] points into. *)
Definition u32_at (key : buffer) (i : nat) : option Z :=
  if (i + 4 <=? length key)%nat then Some (field 4 i key) else None.

Definition compare_u32 (u1 u2 : Z) : Z := if u1 <? u2 then -1 else if u2 <? u1 then 1 else 0.

Definition compare_lengths (l1 l2 : Z) : Z := if l1 <? l2 then -1 else if l2 <? l1 then 1 else 0.

(** The loop of [COLLATION_NTOFS_ULONGS]; [fuel] is the number of words. *)
Fixpoint compare_ulongs (fuel : nat) (i : nat) (key1 key2 : buffer) (l1 l2 : Z) : option Z :=
  if Z.of_nat i <? Z.min l1 l2 then
    match fuel with
    | O => None
    | S fuel =>
        u1 ← u32_at key1 i; u2 ← u32_at key2 i;
        let c := compare_u32 u1 u2 in
        if c =? 0 then compare_ulongs fuel (i + 4) key1 key2 l1 l2 else Some c
    end
  else Some (compare_lengths l1 l2).

Definition ntfs_index_keys_compare (key1 key2 : buffer) (key1_length key2_length rule : Z)
  : option Z :=
  if rule =? COLLATION_NTOFS_ULONG I then
    u1 ← u32_at key1 0; u2 ← u32_at key2 0; Some (compare_u32 u1 u2)
  else if rule =? COLLATION_NTOFS_ULONGS I then
    compare_ulongs (length key1) 0 key1 key2 key1_length key2_length
  else if rule =? COLLATION_NTOFS_SECURITY_HASH I then
    u1 ← u32_at key1 (Z.to_nat (sdh_hash I)); u2 ← u32_at key2 (Z.to_nat (sdh_hash I));
    let c := compare_u32 u1 u2 in
    if negb (c =? 0) then Some c else
    u1 ← u32_at key1 (Z.to_nat (sdh_security_id I));
    u2 ← u32_at key2 (Z.to_nat (sdh_security_id I));
    Some (compare_u32 u1 u2)
  else if rule =? COLLATION_NTOFS_SID I then
    let n := Z.to_nat (Z.min key1_length key2_length) in
    if (n <=? length key1)%nat && (n <=? length key2)%nat then
      let i := memcmp_value (take n key1) (take n key2) in
      Some (if i =? 0 then compare_lengths key1_length key2_length else i)
    else None
  else Some 0.

(** ** The search loops *)

(** The memory from [p] on. *)
Definition memory_from (p : Z) : M buffer := fun b =>
  if (0 <=? p) && (p <=? Z.of_nat (length b)) then Some (drop (Z.to_nat p) b, b) else None.

(** [while (ie < end && !(ie->ie_flags & INDEX_ENTRY_END))]: [decide] is the body up
    to [do_next]; [None] is [-EEXIST], else the place where the loop ends. *)
Fixpoint entry_loop (fuel : nat) (decide : Z -> M verdict) (ie end_ : Z) : M (option Z) :=
  if ie <? end_ then
    match fuel with
    | O => fun _ => None
    | S fuel =>
        flags ← load16 (ie + ie_flags R);
        if negb (Z.land flags (INDEX_ENTRY_END R) =? 0) then mret (Some ie) else
        v ← decide ie;
        match v with
        | Hit => mret None
        | Stop => mret (Some ie)
        | Miss => len ← load16 (ie + ie_length R); entry_loop fuel decide (ie + len) end_
        end
    end
  else mret (Some ie).

(** The fuel is the size of the buffer: every entry of positive length moves on. *)
Definition find_entry (decide : Z -> M verdict) (ie end_ : Z) : M (option Z) :=
  size ← buffer_size; entry_loop (S size) decide ie end_.

(** Name and name space of a [FILE_NAME_ATTR]. *)
Definition fn_name (fn : buffer) : list Z :=
  bytes_ucs (take (Z.to_nat (2 * field 1 (Z.to_nat (fn_file_name_length R)) fn))
    (drop (Z.to_nat (fn_file_name R)) fn)).
Definition fn_type (fn : buffer) : Z := field 1 (Z.to_nat (fn_file_name_type R)) fn.

(** The comparison of [fn] with the entry at [ie]. *)
Definition decide_file_name (fn : buffer) (ie : Z) : M verdict :=
  let k := ie + ie_key I in
  n ← load8 (k + fn_file_name_length R);
  b ← load_bytes (k + fn_file_name R) (2 * n);
  let i := names_full_collate (fn_name fn) (bytes_ucs b) IGNORE_CASE in
  if i =? -1 then mret Stop else
  if negb (i =? 0) then mret Miss else
  t ← load8 (k + fn_file_name_type R);
  if negb (fn_type fn =? FILE_NAME_POSIX I) || negb (t =? FILE_NAME_POSIX I) then mret Hit else
  let i := names_full_collate (fn_name fn) (bytes_ucs b) CASE_SENSITIVE in
  mret (if i =? 0 then Hit else if i =? -1 then Stop else Miss).

(** The comparison of the key of the entry [idx] with the entry at [ie]. *)
Definition decide_view (idx : buffer) (rule ie : Z) : M verdict :=
  mem ← memory_from (ie + ie_key I);
  len ← load16 (ie + ie_key_length R);
  match ntfs_index_keys_compare (drop (Z.to_nat (ie_key I)) idx) mem
          (field 2 (Z.to_nat (ie_key_length R)) idx) len rule return M verdict with
  | None => fun _ => None
  | Some i => mret (if i =? 0 then Hit else if i =? -1 then Stop else Miss)
  end.

(** ** [make_room_for_index_entry_in_index_block] *)
Definition make_room_for_index_entry_in_index_block (pos size : Z) : M (option errno_t) :=
  if size =? 0 then mret None else
  biu ← load32 (ib_index I + ih_index_length R);
  allocated ← load32 (ib_index I + ih_allocated_size R);
  if allocated <? to_u 32 (biu + size) then mret (Some ENOSPC) else
  memmove (pos + size) pos (biu - (pos - ib_index I));;
  store32 (ib_index I + ih_index_length R) (biu + size);;
  mret None.

(** ** [insert_file_link_in_dir_index], on an index block *)
Definition insert_file_link_in_dir_index (file_ref : Z) (file_name : buffer) (file_name_size : Z)
  : M (option errno_t) :=
  length ← load32 (ib_index I + ih_index_length R);
  offset ← load32 (ib_index I + ih_entries_offset R);
  r ← find_entry (decide_file_name file_name) (ib_index I + offset) (ib_index I + length);
  match r with
  | None => mret (Some EEXIST)
  | Some ie =>
      let i := align8 (sizeof_INDEX_ENTRY_HEADER R + file_name_size) in
      err ← make_room_for_index_entry_in_index_block ie i;
      match err with
      | Some e => mret (Some e)
      | None =>
          store64 (ie + ie_indexed_file R) file_ref;;
          store16 (ie + ie_length R) i;;
          store16 (ie + ie_key_length R) file_name_size;;
          store16 (ie + ie_flags R) 0;;
          store16 (ie + ie_reserved R) 0;;
          store_bytes (ie + ie_key I) (take (Z.to_nat file_name_size) file_name);;
          mret None
      end
  end.

(** ** [insert_index_entry_in_res_dir_index], in an MFT record *)
Definition insert_index_entry_in_res_dir_index (mft_record_size : Z) (idx : buffer)
    (idx_size : Z) (name : ucs_name) (type : Z) : M (option errno_t) := fun m => (
  allocated ← load32 (m_bytes_allocated R);
  if to_u 32 (idx_size + allocated) <? mft_record_size then mret (Some ENOSPC) else
  match get_search_ctx m with
  | None => mret (Some ENOMEM)
  | Some ctx =>
      '(err, ctx) ← mkntfs_attr_lookup R (AT_INDEX_ROOT R) name CASE_SENSITIVE None 0 (Some ctx);
      match err, ctx with
      | None, Some ctx =>
          let a := ctx_attr ctx in
          off ← load16 (a + a_value_offset R);
          rule ← load32 (a + off + ir_collation_rule R);
          let header := a + off + 0x10 in
          offset ← load32 (header + ih_entries_offset R);
          length ← load32 (header + ih_index_length R);
          let entry := header + offset in
          let decide := if type =? AT_FILE_NAME R
                        then decide_file_name (drop (Z.to_nat (ie_key I)) idx)
                        else decide_view idx rule in
          if negb (type =? AT_FILE_NAME R) && negb (type =? AT_UNUSED R) then mret (Some EINVAL) else
          r ← find_entry decide entry (entry + length);
          match r with
          | None => mret (Some EEXIST)
          | Some entry =>
              biu ← load32 (m_bytes_in_use R);
              memmove (entry + idx_size) entry (biu - entry);;
              store_bytes entry (take (Z.to_nat idx_size) idx);;
              store32 (m_bytes_in_use R) (biu + idx_size);;
              len ← load32 (a + a_length R);
              store32 (a + a_length R) (len + idx_size);;
              len ← load32 (a + a_value_length R);
              store32 (a + a_value_length R) (len + idx_size);;
              len ← load32 (header + ih_index_length R);
              store32 (header + ih_index_length R) (len + idx_size);;
              len ← load32 (header + ih_allocated_size R);
              store32 (header + ih_allocated_size R) (len + idx_size);;
              mret None
          end
      | _, _ => mret (Some EEXIST)
      end
  end : M (option errno_t)) m.

(** ** [initialize_secure] *)

(** A [SECURITY_DESCRIPTOR_HEADER] at [p] of the stream. *)
Definition sds_header (sds : buffer) (p : nat) : option (Z * Z * Z * Z) :=
  if (p + Z.to_nat (sizeof_SECURITY_DESCRIPTOR_HEADER L) <=? length sds)%nat then
    Some (field 4 (p + Z.to_nat (sds_hash L)) sds, field 4 (p + Z.to_nat (sds_security_id L)) sds,
          field 8 (p + Z.to_nat (sds_offset L)) sds, field 4 (p + Z.to_nat (sds_length L)) sds)
  else None.

(** The header of an entry of a view index. *)
Definition fill_entry_header (data_offset data_length length key_length : Z) : M unit :=
  store16 (ie_data_offset I) data_offset;;
  store16 (ie_data_length I) data_length;;
  store32 (ie_reservedV I) 0;;
  store16 (ie_length R) length;;
  store16 (ie_key_length R) key_length;;
  store16 (ie_flags R) 0;;
  store16 (ie_reserved R) 0.

(** The stores into the index entry for [$SDH], and for [$SII]. *)
Definition fill_sdh (hash security_id offset length : Z) : M unit :=
  fill_entry_header 0x18 0x14 0x30 0x08;;
  store32 (ie_key I + sdh_hash I) hash;;
  store32 (ie_key I + sdh_security_id I) security_id;;
  data ← load16 (ie_data_offset I);
  store32 (data + sd_hash I) hash;;
  store32 (data + sd_security_id I) security_id;;
  store64 (data + sd_offset I) offset;;
  store32 (data + sd_length I) length;;
  store32 (data + sd_reserved_II I) 0x00490049.

Definition fill_sii (hash security_id offset length : Z) : M unit :=
  fill_entry_header 0x14 0x14 0x28 0x04;;
  store32 (ie_key I) security_id;;
  data ← load16 (ie_data_offset I);
  store32 (data + sd_hash I) hash;;
  store32 (data + sd_security_id I) security_id;;
  store64 (data + sd_offset I) offset;;
  store32 (data + sd_length I) length.

(** The loop over the stream; [sdh] and [sii] are the two allocated entries, used
    again in every round.  Every round moves on by at least 16 bytes. *)
Fixpoint secure_loop (fuel : nat) (mft_record_size : Z) (sds : buffer) (sds_size : Z) (p : nat)
    (sdh sii : buffer) : M (option errno_t) :=
  let sdh_size := sizeof_INDEX_ENTRY_HEADER R + (sizeof_SDH_INDEX_KEY I + sizeof_SDH_INDEX_DATA I) in
  let sii_size := sizeof_INDEX_ENTRY_HEADER R + (sizeof_SII_INDEX_KEY I + sizeof_SII_INDEX_DATA I) in
  if Z.of_nat p <? sds_size then
    match fuel with
    | O => fun _ => None
    | S fuel =>
        match sds_header sds p return M (option errno_t) with
        | None => fun _ => None
        | Some (hash, security_id, offset, length) =>
            if length =? 0 then mret None else
            sdh ← in_struct sdh (fill_sdh hash security_id offset length);
            sii ← in_struct sii (fill_sii hash security_id offset length);
            err ← insert_index_entry_in_res_dir_index mft_record_size sdh sdh_size
                    (Ucs (NTFS_INDEX_SDH I)) (AT_UNUSED R);
            match err with
            | Some e => mret (Some e)
            | None =>
                err ← insert_index_entry_in_res_dir_index mft_record_size sii sii_size
                        (Ucs (NTFS_INDEX_SII I)) (AT_UNUSED R);
                match err with
                | Some e => mret (Some e)
                | None =>
                    secure_loop fuel mft_record_size sds sds_size
                      (p + Z.to_nat (Z.land (to_u 32 (length + 15)) (to_u 32 (Z.lnot 15)))) sdh sii
                end
            end
        end
    end
  else mret None.

(** [calloc_sdh], [calloc_sii]: the allocations succeed. *)
Definition initialize_secure (mft_record_size : Z) (calloc_sdh calloc_sii : bool) (sds : buffer)
    (sds_size : Z) : M (option errno_t) :=
  let zeroed := replicate (Z.to_nat (sizeof_INDEX_ENTRY I)) 0 in
  if negb calloc_sdh || negb calloc_sii then mret (Some ENOMEM) else
  secure_loop (Z.to_nat sds_size) mft_record_size sds sds_size 0 zeroed zeroed.

(** ** [initialize_quota] *)

(** S-1-5-32-544 at [sid]. *)
Definition set_admins_sid (sid : Z) : M unit :=
  set_nt_sid L sid 1 2;;
  set_sub_authority L sid 0 (SECURITY_BUILTIN_DOMAIN_RID L);;
  set_sub_authority L sid 1 (DOMAIN_ALIAS_RID_ADMINS L).

(** The entry of [$Q] for [owner_id], and its control entry without the SID. *)
Definition fill_quota (now data_length length owner_id : Z) : M unit :=
  fill_entry_header 0x14 data_length length 0x04;;
  store32 (ie_key I) owner_id;;
  data ← load16 (ie_data_offset I);
  store32 (data + q_version I) 0x02;;
  store32 (data + q_flags I) (QUOTA_FLAG_DEFAULT_LIMITS I);;
  store64 (data + q_bytes_used I) 0;;
  store64 (data + q_change_time I) now;;
  store64 (data + q_threshold I) (-1);;
  store64 (data + q_limit I) (-1);;
  store64 (data + q_exceeded_time I) 0.

Definition fill_quota_user (now : Z) : M unit :=
  fill_quota now 0x40 0x58 (QUOTA_FIRST_USER_ID I);;
  data ← load16 (ie_data_offset I);
  set_admins_sid (data + q_sid I).

Definition fill_quota_o : M unit :=
  fill_entry_header 0x20 0x04 0x28 0x10;;
  set_admins_sid (ie_key I);;
  data ← load16 (ie_data_offset I);
  store32 (data + qo_owner_id I) (QUOTA_FIRST_USER_ID I);;
  store32 (data + qo_unknown I) 32.

(** [calloc]: the three allocations; a failed one answers [errno], not [-errno],
    which the caller takes for success only if it is 0. *)
Inductive quota_answer := QDone (err : option errno_t) | QErrno (e : errno_t).

Definition initialize_quota (mft_record_size now1 now2 : Z) (calloc : nat -> bool)
  : M quota_answer :=
  let insert entry size name :=
    insert_index_entry_in_res_dir_index mft_record_size entry size (Ucs name) (AT_UNUSED R) in
  if negb (calloc 0%nat) then mret (QErrno ENOMEM) else
  q1 ← in_struct (replicate 0x48 0) (fill_quota now1 0x30 0x48 0x01);
  err ← insert q1 0x48 (NTFS_INDEX_Q I);
  if bool_decide (err <> None) then mret (QDone err) else
  if negb (calloc 1%nat) then mret (QErrno ENOMEM) else
  q2 ← in_struct (replicate 0x58 0) (fill_quota_user now2);
  err ← insert q2 0x58 (NTFS_INDEX_Q I);
  if bool_decide (err <> None) then mret (QDone err) else
  if negb (calloc 2%nat) then mret (QErrno ENOMEM) else
  o ← in_struct (replicate 0x28 0) fill_quota_o;
  err ← insert o 0x28 (NTFS_INDEX_O I);
  mret (QDone err).

(** ** [index_obj_id_insert] *)
Definition index_obj_id_insert (mft_record_size : Z) (calloc_ok : bool) (guid : buffer) (ref : Z)
  : M (option errno_t) :=
  let data_ofs := align8 (sizeof_INDEX_ENTRY_HEADER R + sizeof_GUID I) in
  let idx_size := align8 (data_ofs + sizeof_OBJ_ID_INDEX_DATA I) in
  if negb calloc_ok then mret (Some ENOMEM) else
  entry ← in_struct (replicate (Z.to_nat idx_size) 0) (
    store16 (ie_data_offset I) data_ofs;;
    store16 (ie_data_length I) (sizeof_OBJ_ID_INDEX_DATA I);;
    store16 (ie_length R) idx_size;;
    store16 (ie_key_length R) (sizeof_GUID I);;
    store_bytes (ie_key I) (take (Z.to_nat (sizeof_GUID I)) guid);;
    store64 (data_ofs + oi_mft_reference I) ref);
  insert_index_entry_in_res_dir_index mft_record_size entry idx_size (Ucs (NTFS_INDEX_O I))
    (AT_UNUSED R).

(** ** [create_hardlink] and [create_hardlink_res] *)

(** Undo the increment. *)
Definition undo_link_count : M unit :=
  i ← load16 (m_link_count I); store16 (m_link_count I) (i - 1).

(** From the count of links to the name attribute; [None] is success. *)
Definition add_link_name (fn : buffer) (fn_size : Z) : M (option errno_t) :=
  i ← load16 (m_link_count I);
  if i =? 0xffff then mret (Some EINVAL) else
  store16 (m_link_count I) (i + 1);;
  err ← insert_resident_attr_in_mft_record R (AT_FILE_NAME R) None 0 CASE_SENSITIVE 0
          (RESIDENT_ATTR_IS_INDEXED R) (Some (take (Z.to_nat fn_size) fn)) fn_size;
  match err with
  | Some e => undo_link_count;; mret (Some e)
  | None => mret None
  end.

(** A computation on the other buffer. *)
Definition on_other {A} (other : buffer) (m : M A) : M (A * buffer) := fun b =>
  match m other with Some (x, other') => Some ((x, other'), b) | None => None end.

(** Works on the record of the file; [idx] is the index block of the parent, [fn]
    the allocated name attribute. *)
Definition create_hardlink (now : Z) (fn : option buffer) (idx : buffer)
    (ref_parent ref_file allocated_size data_size flags packed_ea_size reparse_point_tag : Z)
    (file_name : cstring) (file_name_type : Z) : M (option errno_t * buffer) :=
  match fn with
  | None => mret (Some ENOMEM, idx)
  | Some fn =>
      t ← stdinfo_time R now;
      nr ← (if negb (allocated_size =? 0) then non_resident_unnamed_data R else mret false);
      let allocated_size := if (nr : bool) then allocated_size else Z.land (data_size + 7) (-8) in
      match fill_file_name R ref_parent t t t t allocated_size data_size flags packed_ea_size
              reparse_point_tag file_name file_name_type fn
            return M (option errno_t * buffer) with
      | None => fun _ => None
      | Some (inl e, _) => mret (Some e, idx)
      | Some (inr n, fn) =>
          let fn_size := sizeof_FILE_NAME_ATTR R + n * 2 in
          err ← add_link_name fn fn_size;
          match err with
          | Some e => mret (Some e, idx)
          | None =>
              '(err, idx) ← on_other idx (insert_file_link_in_dir_index ref_file fn fn_size);
              (if bool_decide (err <> None) then undo_link_count else mret tt);;
              mret (err, idx)
          end
      end
  end.

(** [m_parent]: the record of the parent; [entry]: whether the new index entry can
    be allocated. *)
Definition create_hardlink_res (now mft_record_size : Z) (fn : option buffer) (entry : bool)
    (m_parent : buffer) (ref_parent ref_file allocated_size data_size flags packed_ea_size
    reparse_point_tag : Z) (file_name : cstring) (file_name_type : Z)
  : M (option errno_t * buffer) :=
  match fn with
  | None => mret (Some ENOMEM, m_parent)
  | Some fn =>
      t ← stdinfo_time R now;
      if negb (packed_ea_size =? 0) then mret (Some EINVAL, m_parent) else
      match fill_file_name R ref_parent t t t t allocated_size data_size flags packed_ea_size
              reparse_point_tag file_name file_name_type fn
            return M (option errno_t * buffer) with
      | None => fun _ => None
      | Some (inl e, _) => mret (Some e, m_parent)
      | Some (inr n, fn) =>
          let fn_size := sizeof_FILE_NAME_ATTR R + n * 2 in
          err ← add_link_name fn fn_size;
          match err with
          | Some e => mret (Some e, m_parent)
          | None =>
              let idx_size := align8 fn_size in
              if negb entry then mret (Some ENOMEM, m_parent) else
              new ← in_struct (replicate (Z.to_nat (idx_size + 0x10)) 0) (
                store64 (ie_indexed_file R) ref_file;;
                store16 (ie_length R) (idx_size + 0x10);;
                store16 (ie_key_length R) fn_size;;
                store_bytes 0x10 (take (Z.to_nat fn_size) fn));
              '(err, m_parent) ← on_other m_parent
                (insert_index_entry_in_res_dir_index mft_record_size new (idx_size + 0x10)
                   (Ucs (NTFS_INDEX_I30 I)) (AT_FILE_NAME R));
              (if bool_decide (err <> None) then undo_link_count else mret tt);;
              mret (err, m_parent)
          end
      end
  end.

End Index.
