(* ===== verification/IndexFacts.v ===== *)
(** * What the operations on indexes do

    An index is a header, a list of entries and an end entry.  The search loops are
    functions of the list, the collation rules are the lexicographic order of the
    decoded keys, and inserting at the place of the search keeps the list sorted.
    The effect on the bytes, for an index block and for an index root inside an MFT
    record. *)

From stdpp Require Import sorting.
From S2P Require Import Prelude Bytes Sd Mft MftFacts Index.

Abbreviation I := documented_index.
Abbreviation L := documented_layout.

(** The offsets of the fields. *)
Ltac index_offsets :=
  cbv beta iota delta [documented_record documented_index m_attrs_offset m_bytes_in_use
    m_bytes_allocated a_length a_value_length a_value_offset ih_entries_offset ih_index_length
    ih_allocated_size ir_collation_rule ie_length ie_key_length ie_flags ie_reserved
    ie_indexed_file ie_key fn_file_name_length fn_file_name_type fn_file_name ib_index].

(** Run the first load of a sequence, at field offset [k] of the part. *)
Ltac read w k :=
  erewrite bind_run; [|solve [eapply (load_part _ _ _ _ k) with (n := w); [index_offsets; lia | lia]]].
Ltac read8 k :=
  erewrite bind_run; [|solve [eapply (load8_part _ _ _ _ k); [index_offsets; lia | lia]]].

(** ** The search as a function of the list of entries *)

(** An entry; the end entry. *)
Record entry_ok (e : buffer) : Prop := {
  en_bytes : byte_list e;
  en_size : (16 <= length e)%nat;
  en_align : Z.of_nat (length e) mod 8 = 0;
  en_length : field 2 8 e = Z.of_nat (length e);
  en_flags : Z.land (field 2 12 e) 2 = 0;
}.

Record end_ok (e : buffer) : Prop := {
  end_bytes : byte_list e;
  end_size : (16 <= length e)%nat;
  end_flags : Z.land (field 2 12 e) 2 <> 0;
}.

(** The number of entries passed over; [None] when an equal one is met. *)
Fixpoint search (dv : buffer -> verdict) (es : list buffer) : option nat :=
  match es with
  | [] => Some O
  | e :: es =>
      match dv e with
      | Hit => None
      | Stop => Some O
      | Miss => S <$> search dv es
      end
  end.

Lemma search_bound dv es i : search dv es = Some i -> (i <= length es)%nat.
Proof.
  revert i. induction es as [|e es IH]; cbn; intros i; [intros [= <-]; lia|].
  destruct (dv e); [done| |intros [= <-]; lia].
  intros (j & Hj & ->)%fmap_Some. specialize (IH _ Hj). lia.
Qed.

Lemma search_none dv es : search dv es = None -> exists e, e ∈ es /\ dv e = Hit.
Proof.
  induction es as [|e es IH]; cbn [search]; [done|].
  destruct (dv e) eqn:E; [|rewrite fmap_None; intros (x & ? & ?)%IH|done].
  - intros _. exists e. split; [constructor | done].
  - exists x. split; [by constructor | done].
Qed.

(** [decide] is a function [dv] of the entry it stands at. *)
Definition decides (decide : Z -> M verdict) (dv : buffer -> verdict) (e : buffer) : Prop :=
  forall pre post, decide (Z.of_nat (length pre)) (pre ++ e ++ post) = Some (dv e, pre ++ e ++ post).

Lemma entry_loop_run decide dv es fin post end_ :
  Forall entry_ok es -> end_ok fin -> Forall (decides decide dv) es ->
  forall fuel pre, (length es < fuel)%nat -> Z.of_nat (length (pre ++ concat es)) < end_ ->
  entry_loop R fuel decide (Z.of_nat (length pre)) end_ (pre ++ concat es ++ fin ++ post) =
    Some ((fun i => Z.of_nat (length (pre ++ concat (take i es)))) <$> search dv es,
          pre ++ concat es ++ fin ++ post).
Proof.
  intros Hes [_ Hfs Hff] Hd. induction Hes as [|e es [_ Hs _ Hlen Hfl] _ IH];
    intros [|fuel] pre Hf Hend; try (cbn in Hf; lia); cbn [entry_loop concat] in *.
  - rewrite app_nil_r in Hend. rewrite (proj2 (Z.ltb_lt _ _)) by lia. cbn [app].
    read 2%nat 12%nat. change (INDEX_ENTRY_END R) with 2.
    rewrite (proj2 (Z.eqb_neq _ _) Hff). cbn. by rewrite app_nil_r.
  - apply Forall_cons in Hd as [Hde Hd].
    rewrite !length_app in Hend. rewrite (proj2 (Z.ltb_lt _ _)) by lia.
    rewrite <- !app_assoc. read 2%nat 12%nat. change (INDEX_ENTRY_END R) with 2.
    rewrite Hfl. cbn [Z.eqb negb]. rewrite (bind_run _ _ _ _ _ (Hde _ _)). cbn [search].
    destruct (dv e); [done| |by cbn; rewrite app_nil_r].
    read 2%nat 8%nat. rewrite Hlen.
    specialize (IH Hd fuel (pre ++ e) ltac:(cbn in Hf; lia) ltac:(rewrite !length_app; lia)).
    rewrite <- !app_assoc in IH. rewrite length_app, Nat2Z.inj_add in IH. rewrite IH.
    destruct (search dv es); [|done]. cbn [fmap option_fmap option_map take concat].
    by rewrite <- !app_assoc.
Qed.

Lemma entries_length es : Forall entry_ok es -> (length es <= length (concat es))%nat.
Proof.
  induction 1 as [|e es [] _ IH]; [done|]. cbn [concat length]. rewrite length_app. lia.
Qed.

Lemma find_entry_run decide dv pre es fin post end_ :
  Forall entry_ok es -> end_ok fin -> Forall (decides decide dv) es ->
  Z.of_nat (length (pre ++ concat es)) < end_ ->
  find_entry R decide (Z.of_nat (length pre)) end_ (pre ++ concat es ++ fin ++ post) =
    Some ((fun i => Z.of_nat (length (pre ++ concat (take i es)))) <$> search dv es,
          pre ++ concat es ++ fin ++ post).
Proof.
  intros Hes Hfin Hd Hend. unfold find_entry.
  rewrite (bind_run buffer_size _ _ _ _ eq_refl). apply entry_loop_run; auto.
  pose proof (entries_length es Hes). rewrite !length_app. lia.
Qed.

(** ** Insertion keeps the order

    [V a b] compares the new entry [a] with [b]; [P] holds for the entries it can
    read. *)
Class EntryOrder (P : buffer -> Prop) (V : buffer -> buffer -> verdict) : Prop := {
  eo_flip a b : P a -> P b -> V a b = Miss -> V b a = Stop;
  eo_trans a b c : P a -> P b -> P c -> V a b = Stop -> V b c = Stop -> V a c = Stop;
}.

Definition before (V : buffer -> buffer -> verdict) (a b : buffer) : Prop := V a b = Stop.

Lemma search_order `{EntryOrder P V} new es :
  P new -> Forall P es -> StronglySorted (before V) es ->
  match search (V new) es with
  | None => exists e, e ∈ es /\ V new e = Hit
  | Some i =>
      Forall (fun e => V new e <> Hit) es /\
      StronglySorted (before V) (take i es ++ new :: drop i es)
  end.
Proof.
  intros Hn. induction es as [|e es IH]; intros HP Hs; cbn [search].
  { split; [constructor|]. cbn. constructor; constructor. }
  apply Forall_cons in HP as [He HP]. apply StronglySorted_inv in Hs as [Hs Hle].
  specialize (IH HP Hs). destruct (V new e) eqn:E.
  - exists e. split; [constructor | done].
  - destruct (search (V new) es) as [i|]; cbn [fmap option_fmap option_map].
    + destruct IH as [IH1 IH2]. split; [constructor; [congruence | done]|].
      cbn [take drop app]. constructor; [done|].
      rewrite <- (take_drop i es) in Hle. apply Forall_app in Hle as [? ?].
      apply Forall_app. split; [done|]. constructor; [|done]. by apply eo_flip.
    + destruct IH as (x & ? & ?). exists x. split; [by constructor | done].
  - assert (Forall (fun b => before V new b) es) as Hall.
    { apply Forall_forall. intros x Hx. rewrite Forall_forall in HP, Hle.
      eapply eo_trans; eauto. by apply Hle. }
    split.
    + constructor; [congruence|]. eapply Forall_impl; [exact Hall|]. unfold before. congruence.
    + cbn [take drop app]. constructor; [by constructor|]. by constructor.
Qed.

(** ** The comparison of file names *)

(** What the code relies on: collation is a total preorder with values -1, 0, 1. *)
Class CollateLaws `{RecordLib} := {
  collate_range n1 n2 ic :
    names_full_collate n1 n2 ic = -1 \/ names_full_collate n1 n2 ic = 0 \/
    names_full_collate n1 n2 ic = 1;
  collate_flip n1 n2 ic : names_full_collate n2 n1 ic = - names_full_collate n1 n2 ic;
  collate_trans n1 n2 n3 ic : names_full_collate n1 n2 ic = -1 ->
    names_full_collate n2 n3 ic = -1 -> names_full_collate n1 n3 ic = -1;
  collate_eq n1 n2 n3 ic : names_full_collate n1 n2 ic = 0 ->
    names_full_collate n1 n3 ic = names_full_collate n2 n3 ic;
}.

Section FileNames.
Context `{RecordLib}.

(** The comparison of two [FILE_NAME_ATTR]s. *)
Definition file_verdict (f1 f2 : buffer) : verdict :=
  let i := names_full_collate (fn_name R f1) (fn_name R f2) IGNORE_CASE in
  if i =? -1 then Stop else
  if negb (i =? 0) then Miss else
  if negb (fn_type R f1 =? 0) || negb (fn_type R f2 =? 0) then Hit else
  let i := names_full_collate (fn_name R f1) (fn_name R f2) CASE_SENSITIVE in
  if i =? 0 then Hit else if i =? -1 then Stop else Miss.

(** The key of an entry. *)
Abbreviation key e := (drop 16 e).

(** The name lies inside the entry. *)
Definition name_fits (e : buffer) : Prop := 82 + 2 * field 1 80 e <= Z.of_nat (length e).

Lemma decide_file_name_run fn e :
  byte_list e -> name_fits e -> decides (decide_file_name R I fn) (fun e => file_verdict fn (key e)) e.
Proof.
  intros Hb Hn pre post. unfold name_fits in Hn.
  assert (82 <= length e)%nat as Hs.
  { destruct (Nat.le_gt_cases 82 (length e)); [done|].
    assert (field 1 80 e >= 0); [|lia].
    assert (0 <= field 1 80 e); [|lia].
    unfold field. pose proof (le_value_range (sl 80 1 e)) as E.
    apply E. unfold sl. by apply Forall_take, Forall_drop. }
  pose proof (field_range 1 80 e Hb ltac:(lia)) as Hr.
  unfold decide_file_name. change (ie_key I) with 16.
  cbn [fn_file_name_length fn_file_name fn_file_name_type documented_record].
  read8 80%nat. run_load_bytes 82%nat.
  assert (bytes_ucs (sl 82 (Z.to_nat (2 * field 1 80 e)) e) = fn_name R (key e)) as ->.
  { unfold fn_name. cbn [fn_file_name_length fn_file_name documented_record].
    rewrite field_drop, drop_drop. done. }
  unfold file_verdict. change (FILE_NAME_POSIX I) with 0.
  assert (fn_type R (key e) = field 1 81 e) as -> by apply field_drop.
  destruct (_ =? -1); [done|]. destruct (negb (_ =? 0)); [done|].
  read8 81%nat. by repeat case_match.
Qed.

#[export] Instance file_order `{!CollateLaws} :
  EntryOrder (fun _ => True) (fun a b => file_verdict (key a) (key b)).
Proof.
  set (c a b := names_full_collate (fn_name R (key a)) (fn_name R (key b))).
  assert (forall a b, file_verdict (key a) (key b) = Stop <->
            c a b IGNORE_CASE = -1 \/
            (c a b IGNORE_CASE = 0 /\ fn_type R (key a) = 0 /\ fn_type R (key b) = 0 /\
             c a b CASE_SENSITIVE = -1)) as Hstop.
  { intros a b. unfold file_verdict. fold (c a b).
    repeat zcase; cbn [negb orb]; intuition (try congruence; try lia). }
  split.
  - intros a b _ _ Hm. apply Hstop. unfold file_verdict in Hm. fold (c a b) in Hm.
    unfold c. rewrite !(collate_flip (fn_name R (key a))). fold (c a b).
    destruct (collate_range (fn_name R (key a)) (fn_name R (key b)) IGNORE_CASE) as [E|[E|E]];
      destruct (collate_range (fn_name R (key a)) (fn_name R (key b)) CASE_SENSITIVE) as [E'|[E'|E']];
      unfold c in *; rewrite E, ?E' in *; cbn in Hm; repeat case_match; zb; try done; auto.
  - intros a b d _ _ _ Hab%Hstop Hbd%Hstop. apply Hstop. unfold c in *.
    destruct Hab as [Hab|(Hab & Ta & Tb & Cab)], Hbd as [Hbd|(Hbd & _ & Td & Cbd)].
    + left. by eapply collate_trans.
    + left. pose proof (collate_flip (fn_name R (key b)) (fn_name R (key d)) IGNORE_CASE) as F.
      rewrite Hbd in F. pose proof (collate_eq _ _ (fn_name R (key a)) _ F) as G.
      rewrite (collate_flip (fn_name R (key a))), (collate_flip (fn_name R (key a)) (fn_name R (key b))) in G. lia.
    + left. by rewrite (collate_eq _ _ _ _ Hab).
    + right. rewrite (collate_eq _ _ _ _ Hab). split_and!; try done. by eapply collate_trans.
Qed.
End FileNames.

(** ** The collation rules of views *)

Section Views.
Context `{CLib} `{!CLibLaws}.

Abbreviation key e := (drop 16 e).
Definition key_length (e : buffer) : Z := field 2 10 e.

(** The words, or bytes, a rule compares. *)
Fixpoint words (n p : nat) (b : buffer) : list Z :=
  match n with
  | O => []
  | S n => field 4 p b :: words n (p + 4) b
  end.

Definition key_words (rule : Z) (e : buffer) : list Z :=
  if rule =? 16 then [field 4 16 e]
  else if rule =? 19 then words (Z.to_nat (key_length e / 4)) 16 e
  else if rule =? 18 then [field 4 16 e; field 4 20 e]
  else if rule =? 17 then sl 16 (Z.to_nat (key_length e)) e
  else [].

(** The key lies inside the entry. *)
Definition key_fits (rule : Z) (e : buffer) : Prop :=
  byte_list e /\ (16 <= length e)%nat /\
  if rule =? 16 then (20 <= length e)%nat
  else if rule =? 19 then 16 + key_length e <= Z.of_nat (length e) /\ key_length e mod 4 = 0
  else if rule =? 18 then (24 <= length e)%nat
  else if rule =? 17 then 16 + key_length e <= Z.of_nat (length e)
  else True.

Lemma u32_at_key e r i :
  (20 + i <= length e)%nat -> u32_at (key e ++ r) i = Some (field 4 (16 + i) e).
Proof.
  intros Hi. unfold u32_at. rewrite length_app, length_drop.
  rewrite (proj2 (Nat.leb_le _ _)) by lia. rewrite field_hdr by (rewrite length_drop; lia).
  by rewrite field_drop.
Qed.

Lemma compare_u32_lex u1 u2 l1 l2 :
  (if compare_u32 u1 u2 =? 0 then lex_compare l1 l2 else compare_u32 u1 u2) =
  lex_compare (u1 :: l1) (u2 :: l2).
Proof. unfold compare_u32. cbn. by repeat zcase. Qed.

Lemma compare_u32_one u1 u2 : compare_u32 u1 u2 = lex_compare [u1] [u2].
Proof. unfold compare_u32. cbn. by repeat zcase. Qed.

Lemma sgn_lex l1 l2 : Z.sgn (lex_compare l1 l2) = lex_compare l1 l2.
Proof. by destruct (lex_compare_sign l1 l2) as [->|[->| ->]]. Qed.

Lemma sgn_lengths l1 l2 : Z.sgn (compare_lengths l1 l2) = compare_lengths l1 l2.
Proof. unfold compare_lengths. by repeat zcase. Qed.

Lemma compare_ulongs_run e1 e2 r1 r2 n1 n2 fuel i :
  (16 + i + 4 * n1 <= length e1)%nat -> (16 + i + 4 * n2 <= length e2)%nat -> (n1 <= fuel)%nat ->
  compare_ulongs fuel i (key e1 ++ r1) (key e2 ++ r2) (Z.of_nat (i + 4 * n1)) (Z.of_nat (i + 4 * n2)) =
    Some (lex_compare (words n1 (16 + i) e1) (words n2 (16 + i) e2)).
Proof.
  revert n2 fuel i. induction n1 as [|n1 IH]; intros n2 fuel i H1 H2 Hf.
  - assert (compare_lengths (Z.of_nat (i + 4 * 0)) (Z.of_nat (i + 4 * n2)) =
            lex_compare [] (words n2 (16 + i) e2)) as E.
    { unfold compare_lengths. destruct n2; cbn; repeat zcase; try done; lia. }
    destruct fuel; cbn [compare_ulongs]; rewrite (proj2 (Z.ltb_ge _ _)) by lia; by rewrite E.
  - destruct fuel as [|fuel]; [lia|]. cbn [compare_ulongs].
    destruct n2 as [|n2].
    { rewrite (proj2 (Z.ltb_ge _ _)) by lia. unfold compare_lengths. cbn.
      repeat zcase; try done; lia. }
    rewrite (proj2 (Z.ltb_lt _ _)) by lia. rewrite !u32_at_key by lia.
    cbn [mbind option_bind words]. rewrite <- compare_u32_lex.
    destruct (_ =? 0); [|done].
    specialize (IH n2 fuel (i + 4)%nat ltac:(lia) ltac:(lia) ltac:(lia)).
    replace (i + 4 * S n1)%nat with (i + 4 + 4 * n1)%nat by lia.
    replace (i + 4 * S n2)%nat with (i + 4 + 4 * n2)%nat by lia.
    rewrite IH. by rewrite <- !Nat.add_assoc.
Qed.

Lemma memcmp_lex l1 l2 :
  let n := Nat.min (length l1) (length l2) in
  lex_compare l1 l2 =
    if memcmp (take n l1) (take n l2) =? 0
    then compare_lengths (Z.of_nat (length l1)) (Z.of_nat (length l2))
    else memcmp (take n l1) (take n l2).
Proof.
  cbv zeta. revert l2. induction l1 as [|x l1 IH]; intros [|y l2]; try done.
  cbn [lex_compare length Nat.min take memcmp]. rewrite IH.
  unfold compare_lengths. repeat zcase; try done; lia.
Qed.

Lemma key_length_range e : byte_list e -> (16 <= length e)%nat -> 0 <= key_length e < 2 ^ 16.
Proof. intros. apply (field_range 2); [done | lia]. Qed.

(** A number with the sign of the lexicographic comparison, and that comparison
    itself where [memcmp] is not involved. *)
Lemma compare_run rule a b :
  key_fits rule a -> key_fits rule b ->
  exists c,
    (forall r1 r2, ntfs_index_keys_compare I (key a ++ r1) (key b ++ r2) (key_length a)
                     (key_length b) rule = Some c) /\
    Z.sgn c = lex_compare (key_words rule a) (key_words rule b) /\
    (rule <> 17 \/ (forall l1 l2, memcmp_value l1 l2 = memcmp l1 l2) -> c = Z.sgn c).
Proof.
  intros (Ba & Sa & Ha) (Bb & Sb & Hb).
  pose proof (key_length_range a Ba Sa) as Ra. pose proof (key_length_range b Bb Sb) as Rb.
  unfold ntfs_index_keys_compare, key_words. cbn [COLLATION_NTOFS_ULONG COLLATION_NTOFS_ULONGS
    COLLATION_NTOFS_SECURITY_HASH COLLATION_NTOFS_SID documented_index].
  destruct (Z.eqb_spec rule 16).
  { eexists. split; [intros; by rewrite !u32_at_key by lia|].
    by rewrite compare_u32_one, sgn_lex. }
  destruct (Z.eqb_spec rule 19).
  { destruct Ha as [Ha Ma], Hb as [Hb Mb].
    assert (exists n1 n2, key_length a = Z.of_nat (0 + 4 * n1) /\ key_length b = Z.of_nat (0 + 4 * n2))
      as (n1 & n2 & E1 & E2).
    { exists (Z.to_nat (key_length a / 4)), (Z.to_nat (key_length b / 4)).
      Z.to_euclidean_division_equations; lia. }
    rewrite E1, E2 in *.
    eexists. split.
    { intros. rewrite (compare_ulongs_run a b r1 r2 n1 n2) by (rewrite ?length_app, ?length_drop; lia).
      reflexivity. }
    replace (Z.to_nat (Z.of_nat (0 + 4 * n1) / 4)) with n1 by (Z.to_euclidean_division_equations; lia).
    replace (Z.to_nat (Z.of_nat (0 + 4 * n2) / 4)) with n2 by (Z.to_euclidean_division_equations; lia).
    by rewrite sgn_lex. }
  destruct (Z.eqb_spec rule 18).
  { change (Z.to_nat (sdh_hash I)) with 0%nat. change (Z.to_nat (sdh_security_id I)) with 4%nat.
    rewrite <- compare_u32_lex. exists
      (if compare_u32 (field 4 16 a) (field 4 16 b) =? 0
       then lex_compare [field 4 20 a] [field 4 20 b]
       else compare_u32 (field 4 16 a) (field 4 16 b)).
    rewrite compare_u32_lex, sgn_lex. split; [|done]. intros.
    rewrite !u32_at_key by lia. cbn [mbind option_bind Nat.add].
    rewrite <- compare_u32_lex, <- compare_u32_one. by destruct (_ =? 0). }
  destruct (Z.eqb_spec rule 17); [|by eexists].
  set (ka := sl 16 (Z.to_nat (key_length a)) a). set (kb := sl 16 (Z.to_nat (key_length b)) b).
  assert (length ka = Z.to_nat (key_length a) /\ length kb = Z.to_nat (key_length b)) as [La Lb]
    by (split; apply length_sl; lia).
  set (m := Z.to_nat (Z.min (key_length a) (key_length b))).
  pose proof (memcmp_lex ka kb) as E. cbv zeta in E.
  replace (Nat.min (length ka) (length kb)) with m in E by lia.
  rewrite La, Lb, !Z2Nat.id in E by lia.
  pose proof (memcmp_law (take m ka) (take m kb) ltac:(rewrite !length_take; lia)) as Law.
  exists (let i := memcmp_value (take m ka) (take m kb) in
          if i =? 0 then compare_lengths (key_length a) (key_length b) else i).
  split; [|split].
  - intros.
    rewrite (proj2 (Nat.leb_le m (length (key a ++ r1)))) by (rewrite length_app, length_drop; lia).
    rewrite (proj2 (Nat.leb_le m (length (key b ++ r2)))) by (rewrite length_app, length_drop; lia).
    cbn [andb]. unfold ka, kb, sl.
    rewrite !take_take, !take_app_le by (rewrite length_drop; lia).
    by rewrite !Nat.min_l by lia.
  - rewrite E, <- Law. destruct (Z.eqb_spec (memcmp_value (take m ka) (take m kb)) 0) as [->|].
    + apply sgn_lengths.
    + cbv zeta. rewrite !(proj2 (Z.eqb_neq _ _)) by lia. done.
  - intros [|Hm]; [done|]. cbv zeta. rewrite Hm in *. destruct (_ =? 0); [|congruence].
    by rewrite sgn_lengths.
Qed.

(** The verdict on an entry [b] for the entry [a]. *)
Definition view_verdict (rule : Z) (a b : buffer) : verdict :=
  match ntfs_index_keys_compare I (key a) (key b) (key_length a) (key_length b) rule with
  | Some i => if i =? 0 then Hit else if i =? -1 then Stop else Miss
  | None => Miss
  end.

Lemma decide_view_run rule new rest e :
  key_fits rule new -> key_fits rule e ->
  decides (decide_view R I (new ++ rest) rule) (view_verdict rule new) e.
Proof.
  intros Hn He pre post. pose proof Hn as (Bn & Sn & _). pose proof He as (Be & Se & _).
  destruct (compare_run rule new e Hn He) as (c & Hc & _).
  unfold decide_view. change (Z.to_nat (ie_key I)) with 16%nat. change (ie_key I) with 16.
  assert (memory_from (Z.of_nat (length pre) + 16) (pre ++ e ++ post) =
          Some (key e ++ post, pre ++ e ++ post)) as Em.
  { unfold memory_from. rewrite !length_app.
    rewrite (proj2 (Z.leb_le _ _)), (proj2 (Z.leb_le _ _)) by lia. cbn [andb].
    rewrite to_nat_shift by lia. change (Z.to_nat 16) with 16%nat.
    by rewrite drop_app_add, drop_app_le by lia. }
  rewrite (bind_run _ _ _ _ _ Em). read 2%nat 10%nat.
  rewrite drop_app_le by lia. change (Z.to_nat (ie_key_length R)) with 10%nat.
  rewrite field_hdr by lia. fold (key_length new) (key_length e). rewrite Hc.
  unfold view_verdict. specialize (Hc [] []). rewrite !app_nil_r in Hc. by rewrite Hc.
Qed.

(** [memcmp] answers -1, 0 or 1 where the rule depends on it. *)
Definition rule_exact (rule : Z) : Prop :=
  rule <> 17 \/ forall l1 l2, memcmp_value l1 l2 = memcmp l1 l2.

Lemma view_verdict_lex rule a b :
  rule_exact rule -> key_fits rule a -> key_fits rule b ->
  view_verdict rule a b =
    let c := lex_compare (key_words rule a) (key_words rule b) in
    if c =? 0 then Hit else if c =? -1 then Stop else Miss.
Proof.
  intros Hx Ha Hb. destruct (compare_run rule a b Ha Hb) as (c & Hc & Hs & He).
  specialize (Hc [] []). rewrite !app_nil_r in Hc. unfold view_verdict. rewrite Hc.
  by rewrite (He Hx), Hs.
Qed.

Lemma view_order rule : rule_exact rule -> EntryOrder (key_fits rule) (view_verdict rule).
Proof.
  intros Hx. split.
  - intros a b Ha Hb. rewrite !view_verdict_lex by done. cbv zeta.
    rewrite (lex_compare_antisym (key_words rule a)).
    by destruct (lex_compare_sign (key_words rule a) (key_words rule b)) as [->|[->| ->]].
  - intros a b c Ha Hb Hc. rewrite !view_verdict_lex by done. cbv zeta.
    intros H1 H2. rewrite (lex_compare_trans _ (key_words rule b)); [done| |];
      repeat case_match; zb; done.
Qed.
End Views.

(** ** Inserting into an index block *)

(** A block: what precedes the entries, the entries, the end entry, the rest. *)
Record block_ok (hdr : buffer) (es : list buffer) (fin slack : buffer) : Prop := {
  bl_hdr_bytes : byte_list hdr;
  bl_hdr : (40 <= length hdr)%nat;
  bl_offset : Z.of_nat (length hdr) = 24 + field 4 24 hdr;
  bl_length : field 4 28 hdr = Z.of_nat (length hdr + length (concat es) + length fin) - 24;
  bl_allocated : field 4 32 hdr = field 4 28 hdr + Z.of_nat (length slack);
  bl_small : Z.of_nat (length hdr + length (concat es) + length fin + length slack) < 2 ^ 31;
  bl_entries : Forall entry_ok es;
  bl_fin : end_ok fin;
  bl_slack : byte_list slack;
}.

Definition grown_block (size : Z) (hdr : buffer) : buffer :=
  put 28 (le_bytes 4 (field 4 28 hdr + size)) hdr.

Lemma room_in_block hdr l1 l2 fin slack size :
  block_ok hdr (l1 ++ l2) fin slack -> 0 < size < 2 ^ 31 ->
  make_room_for_index_entry_in_index_block R I (Z.of_nat (length (hdr ++ concat l1))) size
    (rec_bytes hdr (l1 ++ l2) fin slack) =
  if Z.of_nat (length slack) <? size
  then Some (Some ENOSPC, rec_bytes hdr (l1 ++ l2) fin slack)
  else Some (None,
         grown_block size hdr ++ concat l1 ++
         take (Z.to_nat size) ((concat l2 ++ fin) ++ slack) ++
         (concat l2 ++ fin) ++ drop (Z.to_nat size) slack).
Proof.
  intros [Hb Hh Ho Hl Hal Hsm _ _ _] Hs. rewrite length_concat_app in *.
  unfold make_room_for_index_entry_in_index_block.
  rewrite (proj2 (Z.eqb_neq size 0)) by lia.
  assert (rec_bytes hdr (l1 ++ l2) fin slack = (hdr ++ concat l1) ++ (concat l2 ++ fin) ++ slack) as Em.
  { unfold rec_bytes. by rewrite concat_app, <- !app_assoc. }
  rewrite Em. set (X := concat l2 ++ fin).
  rewrite <- (app_assoc hdr).
  change (ib_index I + ih_index_length R) with (Z.of_nat 28).
  change (ib_index I + ih_allocated_size R) with (Z.of_nat 32).
  rewrite (bind_run _ _ _ _ _ (hdr_load hdr _ 28 4 ltac:(lia))).
  rewrite (bind_run _ _ _ _ _ (hdr_load hdr _ 32 4 ltac:(lia))).
  rewrite Hal, to_u_small by (unfold fits_u; lia).
  destruct (Z.ltb_spec (Z.of_nat (length slack)) size).
  { rewrite (proj2 (Z.ltb_lt _ _)) by lia. done. }
  rewrite (proj2 (Z.ltb_ge _ _)) by lia. rewrite app_assoc.
  erewrite bind_run; [|apply (memmove_up (hdr ++ concat l1) X slack size); [done | done | | lia]].
  2:{ change (ib_index I) with 24. unfold X. rewrite !length_app. lia. }
  rewrite <- app_assoc.
  rewrite (bind_run _ _ _ _ _ (hdr_store hdr _ 28 4 _ ltac:(lia))).
  unfold grown_block. by rewrite Hl.
Qed.

(** The new entry, over what was in the room made ([rest]). *)
Definition link_entry (file_ref size : Z) (v rest : buffer) : buffer :=
  le_bytes 8 file_ref ++ le_bytes 2 size ++ le_bytes 2 (Z.of_nat (length v)) ++ le_bytes 2 0 ++
  le_bytes 2 0 ++ put 0 v rest.

Lemma open16 (J : buffer) :
  (16 <= length J)%nat ->
  exists c0 c1 c2 c3 c4 c5 c6 c7 c8 c9 c10 c11 c12 c13 c14 c15,
    J = [c0;c1;c2;c3;c4;c5;c6;c7;c8;c9;c10;c11;c12;c13;c14;c15] ++ drop 16 J.
Proof.
  intros. do 16 (destruct J as [|? J]; [cbn in *; lia|]). do 16 eexists. cbn [drop app].
  reflexivity.
Qed.

(** One store of [w] bytes at offset [k] of the list in front. *)
#[local] Ltac put16 k w :=
  erewrite bind_run; [|solve [eapply (store_part _ _ _ _ k) with (n := w);
                              [index_offsets; lia | cbn [length]; lia]]];
  eval_put.

(** The stores of [insert_file_link_in_dir_index] into the room [J]. *)
Lemma write_link_run pre J post ref size v extra :
  Z.of_nat (length J) = size -> 16 + Z.of_nat (length v) <= size ->
  let ie := Z.of_nat (length pre) in
  (store64 (ie + ie_indexed_file R) ref;;
   store16 (ie + ie_length R) size;;
   store16 (ie + ie_key_length R) (Z.of_nat (length v));;
   store16 (ie + ie_flags R) 0;;
   store16 (ie + ie_reserved R) 0;;
   store_bytes (ie + ie_key I) (take (Z.to_nat (Z.of_nat (length v))) (v ++ extra));;
   mret None) (pre ++ J ++ post) =
  Some (@None errno_t, pre ++ link_entry ref size v (drop 16 J) ++ post).
Proof.
  intros HJ Hv ie. subst ie. destruct (open16 J ltac:(lia)) as
    (c0&c1&c2&c3&c4&c5&c6&c7&c8&c9&c10&c11&c12&c13&c14&c15&EJ).
  assert (length (drop 16 J) = (length J - 16)%nat) as Lr by (rewrite length_drop; lia).
  set (rest := drop 16 J) in *. rewrite EJ. clear EJ. rewrite <- (app_assoc _ rest post).
  put16 0%nat 8%nat. put16 8%nat 2%nat. put16 10%nat 2%nat. put16 12%nat 2%nat. put16 14%nat 2%nat.
  rewrite Nat2Z.id, take_app_length.
  match goal with |- context [pre ++ ?l ++ rest ++ post] => set (h := l) end.
  assert (h ++ put 0 v rest = link_entry ref size v rest) as <-.
  { unfold link_entry. rewrite !app_assoc. reflexivity. }
  assert (length h = 16%nat) as Lh by reflexivity. clearbody h.
  rewrite (app_assoc h rest).
  erewrite bind_run; [|eapply (store_bytes_part pre (h ++ rest) post _ 16%nat);
                       [index_offsets; lia | rewrite length_app; lia]].
  rewrite put_past by lia. by rewrite Lh.
Qed.

Section Link.
Context `{RecordLib}.

(** The name lies inside the attribute value. *)
Definition attr_fits (v : buffer) : Prop :=
  byte_list v /\ (66 <= length v)%nat /\ 66 + 2 * field 1 64 v <= Z.of_nat (length v).

Lemma file_verdict_app v r f : attr_fits v -> file_verdict (v ++ r) f = file_verdict v f.
Proof.
  intros (Hb & Hs & Hf). pose proof (field_range 1 64 v Hb ltac:(lia)).
  unfold file_verdict.
  assert (fn_name R (v ++ r) = fn_name R v) as ->.
  { unfold fn_name. cbn [fn_file_name_length fn_file_name documented_record].
    change (Z.to_nat 64) with 64%nat. change (Z.to_nat 66) with 66%nat.
    rewrite field_hdr by lia. f_equal. rewrite drop_app_le by lia.
    apply take_app_le. rewrite length_drop. lia. }
  assert (fn_type R (v ++ r) = fn_type R v) as -> by by apply field_hdr.
  done.
Qed.

Definition link_size (v : buffer) : Z := align8 (16 + Z.of_nat (length v)).

Lemma link_size_spec v :
  Z.of_nat (length v) < 32000 -> 16 + Z.of_nat (length v) <= link_size v < 2 ^ 15 /\ link_size v mod 8 = 0.
Proof. intros. destruct (align8_spec (16 + Z.of_nat (length v)) ltac:(lia)). unfold link_size. lia. Qed.

(** Every outcome of the insertion. *)
Lemma insert_link_run hdr es fin slack ref v extra :
  block_ok hdr es fin slack -> Forall name_fits es -> attr_fits v -> Z.of_nat (length v) < 32000 ->
  insert_file_link_in_dir_index R I ref (v ++ extra) (Z.of_nat (length v))
    (rec_bytes hdr es fin slack) =
  match search (fun e => file_verdict v (drop 16 e)) es with
  | None => Some (Some EEXIST, rec_bytes hdr es fin slack)
  | Some i =>
      if Z.of_nat (length slack) <? link_size v
      then Some (Some ENOSPC, rec_bytes hdr es fin slack)
      else Some (None,
             rec_bytes (grown_block (link_size v) hdr)
               (take i es ++
                link_entry ref (link_size v) v
                  (drop 16 (take (Z.to_nat (link_size v)) ((concat (drop i es) ++ fin) ++ slack))) ::
                drop i es) fin (drop (Z.to_nat (link_size v)) slack))
  end.
Proof.
  intros Hok Hes Hv Hlv. pose proof Hok as [Hb Hh Ho Hl Hal Hsm Hent Hfin _].
  destruct (link_size_spec v Hlv) as [Hsz _].
  unfold insert_file_link_in_dir_index.
  change (ib_index I + ih_index_length R) with (Z.of_nat 28).
  change (ib_index I + ih_entries_offset R) with (Z.of_nat 24).
  change (sizeof_INDEX_ENTRY_HEADER R) with 16. fold (link_size v).
  unfold rec_bytes at 1.
  rewrite (bind_run _ _ _ _ _ (hdr_load hdr _ 28 4 ltac:(lia))).
  rewrite (bind_run _ _ _ _ _ (hdr_load hdr _ 24 4 ltac:(lia))).
  change (ib_index I) with 24. rewrite <- Ho, Hl.
  assert (Forall (decides (decide_file_name R I (v ++ extra)) (fun e => file_verdict v (drop 16 e))) es)
    as Hd.
  { rewrite Forall_forall in Hent, Hes. apply Forall_forall. intros e He pre post.
    rewrite (decide_file_name_run (v ++ extra) e) by (try apply Hent; auto).
    by rewrite file_verdict_app. }
  pose proof (end_size _ Hfin).
  erewrite bind_run; [|apply (find_entry_run _ _ _ _ _ _ _ Hent Hfin Hd); rewrite length_app; lia].
  fold (rec_bytes hdr es fin slack).
  destruct (search _ es) as [i|]; cbn [fmap option_fmap option_map]; [|done].
  rewrite <- (take_drop i es) in Hok at 1.
  pose proof (room_in_block _ _ _ _ _ (link_size v) Hok ltac:(lia)) as Er.
  rewrite (take_drop i es) in Er.
  destruct (Z.ltb_spec (Z.of_nat (length slack)) (link_size v));
    rewrite (bind_run _ _ _ _ _ Er); clear Er; [done|].
  assert (length (grown_block (link_size v) hdr) = length hdr) as Lg
    by (apply length_put; rewrite length_le_bytes; lia).
  replace (length (hdr ++ concat (take i es)))
    with (length (grown_block (link_size v) hdr ++ concat (take i es)))
    by (rewrite !length_app; lia).
  rewrite (app_assoc (grown_block _ _)), write_link_run; [| |lia].
  2:{ rewrite length_take, length_app. lia. }
  unfold rec_bytes. rewrite concat_app. cbn [concat]. by rewrite <- !app_assoc.
Qed.

(** The new entry. *)
Lemma link_entry_ok ref v rest :
  attr_fits v -> Z.of_nat (length v) < 32000 -> byte_list rest ->
  Z.of_nat (length rest) + 16 = link_size v ->
  let e := link_entry ref (link_size v) v rest in
  entry_ok e /\ name_fits e /\ Z.of_nat (length e) = link_size v /\
  field 8 0 e = ref mod 2 ^ 64 /\ field 2 10 e = Z.of_nat (length v) /\
  take (length v) (drop 16 e) = v.
Proof.
  intros (Hb & Hs & Hf) Hlv Hr Hlr e. destruct (link_size_spec v Hlv) as [Hsz Hmod].
  assert (drop 16 e = put 0 v rest) as Hk by reflexivity.
  assert (length (put 0 v rest) = length rest) as Lp by (apply length_put; lia).
  assert (length e = (16 + length rest)%nat) as Le.
  { rewrite <- Lp, <- Hk, length_drop.
    assert (16 <= length e)%nat; [|lia]. unfold e, link_entry.
    rewrite !length_app, !length_le_bytes. lia. }
  assert (byte_list e) as He.
  { unfold e, link_entry. repeat (apply Forall_app; split; [apply byte_list_le|]).
    by apply byte_list_put. }
  assert (take (length v) (drop 16 e) = v) as Hv.
  { rewrite Hk. apply (sl_put_same 0 v). lia. }
  assert (forall n k, (k + n <= length v)%nat -> field n (16 + k) e = field n k v) as Hfld.
  { intros n k Hn. rewrite <- field_drop.
    transitivity (field n k (take (length v) (drop 16 e))); [|by rewrite Hv]. unfold field, sl.
    f_equal. rewrite <- (take_drop (length v) (drop 16 e)) at 1.
    assert (k + n <= length (take (length v) (drop 16 e)))%nat by (rewrite length_take, length_drop; lia).
    rewrite drop_app_le by lia. rewrite take_app_le; [done|]. rewrite length_drop. lia. }
  split; [constructor; try done; try lia|].
  - rewrite Le. replace (Z.of_nat (16 + length rest)) with (link_size v) by lia. done.
  - rewrite Le. transitivity (link_size v); [|lia]. apply (le_value_bytes 2). cbn. lia.
  - split_and!; try done; try lia.
    + unfold name_fits. pose proof (Hfld 1%nat 64%nat ltac:(lia)) as E. cbn [Nat.add] in E. rewrite E. lia.
    + transitivity (le_value (le_bytes 8 ref)); [reflexivity|].
      rewrite <- (le_value_bytes 8 (ref mod 2 ^ 64)) by (apply Z.mod_pos_bound; lia).
      f_equal. symmetry. apply (le_bytes_mod 8).
    + apply (le_value_bytes 2). cbn. lia.
Qed.
End Link.

Lemma length_concat_insert i (new : buffer) es :
  length (concat (take i es ++ new :: drop i es)) = (length (concat es) + length new)%nat.
Proof.
  rewrite length_concat_app. cbn [concat]. rewrite length_app.
  rewrite <- (take_drop i es) at 3. rewrite length_concat_app. lia.
Qed.

Lemma entries_insert i new es :
  Forall entry_ok es -> entry_ok new -> Forall entry_ok (take i es ++ new :: drop i es).
Proof.
  intros. apply Forall_app. split; [by apply Forall_take|]. constructor; [done|].
  by apply Forall_drop.
Qed.

(** The block with one more entry is well formed. *)
Lemma block_insert_ok hdr es fin slack i new :
  block_ok hdr es fin slack -> entry_ok new -> (length new <= length slack)%nat ->
  block_ok (grown_block (Z.of_nat (length new)) hdr) (take i es ++ new :: drop i es) fin
    (drop (length new) slack).
Proof.
  intros [Hb Hh Ho Hl Hal Hsm Hent Hfin Hsl] Hnew Hroom.
  destruct (put_stored 4 28 (field 4 28 hdr + Z.of_nat (length new)) hdr ltac:(lia))
    as (Lg & Bg & Sg & Og). fold (grown_block (Z.of_nat (length new)) hdr) in *.
  specialize (Sg ltac:(cbn; lia)).
  constructor; rewrite ?Lg, ?Sg, ?length_concat_insert, ?length_drop;
    try rewrite Og by lia; auto using entries_insert; try lia.
  by apply Forall_drop.
Qed.

(** ** The comparison of an index: of names, or by the rule of the view *)

Section Entries.
Context `{RecordLib} `{CLib}.

Definition entry_verdict (type rule : Z) (a b : buffer) : verdict :=
  if type =? 0x30 then file_verdict (drop 16 a) (drop 16 b) else view_verdict rule a b.

(** The comparison stays inside the entry. *)
Definition entry_fits (type rule : Z) (e : buffer) : Prop :=
  byte_list e /\ if type =? 0x30 then (82 <= length e)%nat /\ name_fits e else key_fits rule e.

Lemma attr_fits_key e : byte_list e -> (82 <= length e)%nat -> name_fits e -> attr_fits (drop 16 e).
Proof.
  unfold name_fits, attr_fits. intros Hb Hs Hn. rewrite length_drop, field_drop.
  cbn [Nat.add]. split; [by apply Forall_drop|]. lia.
Qed.

Lemma entry_decides `{!CLibLaws} type rule new rest es :
  entry_fits type rule new -> Forall (entry_fits type rule) es ->
  Forall (decides (if type =? 0x30 then decide_file_name R I (drop 16 (new ++ rest))
                   else decide_view R I (new ++ rest) rule) (entry_verdict type rule new)) es.
Proof.
  intros [Hb Hn] Hes. eapply Forall_impl; [exact Hes|]. intros e [He Hf] pre post.
  unfold entry_verdict. destruct (type =? 48).
  - destruct Hn as [Hn1 Hn2], Hf as [_ Hf]. rewrite decide_file_name_run by done.
    rewrite drop_app_le by lia. by rewrite file_verdict_app by by apply attr_fits_key.
  - by apply decide_view_run.
Qed.

Lemma entry_order `{!CLibLaws, !CollateLaws} type rule :
  (type = 0x30 \/ rule_exact rule) -> EntryOrder (entry_fits type rule) (entry_verdict type rule).
Proof.
  intros Hx. unfold entry_verdict, entry_fits. destruct (Z.eqb_spec type 0x30) as [|Hne].
  - split.
    + intros a b _ _ Hm. exact (eo_flip (EntryOrder := file_order) a b Logic.I Logic.I Hm).
    + intros a b c _ _ _ E1 E2.
      exact (eo_trans (EntryOrder := file_order) a b c Logic.I Logic.I Logic.I E1 E2).
  - destruct Hx as [|Hx]; [done|]. pose proof (view_order rule Hx) as Ho. split.
    + intros a b [_ Ha] [_ Hb]. by apply eo_flip.
    + intros a b c [_ Ha] [_ Hb] [_ Hc]. by apply eo_trans.
Qed.
End Entries.
