(* ===== verification/IndexRoot.v ===== *)
(** * Inserting into an index root

    A resident index is the value of an attribute of an MFT record: inserting an
    entry moves the rest of the record up and adjusts five lengths. *)

From stdpp Require Import sorting.
From S2P Require Import Prelude Bytes Sd Mft MftFacts Index IndexFacts.

(** ** Well-formed index roots *)

(** The bytes before the entries, the entries, the end entry, the padding of the
    attribute; [hp] is the offset of the [INDEX_HEADER] in the attribute. *)
Definition header_at (ahdr : buffer) : nat := Z.to_nat (field 2 20 ahdr + 16).

Record root_ok (ahdr : buffer) (es : list buffer) (fin pad : buffer) : Prop := {
  rt_bytes : byte_list (ahdr ++ concat es ++ fin ++ pad);
  rt_attr : attr_ok (ahdr ++ concat es ++ fin ++ pad);
  rt_offset : 24 <= field 2 20 ahdr;
  rt_name : 24 <= field 2 10 ahdr /\ field 2 10 ahdr + 2 * field 1 9 ahdr <= field 2 20 ahdr;
  rt_entries : 16 <= field 4 (header_at ahdr) ahdr;
  rt_hdr : Z.of_nat (length ahdr) = field 2 20 ahdr + 16 + field 4 (header_at ahdr) ahdr;
  rt_length : field 4 (header_at ahdr + 4) ahdr =
    field 4 (header_at ahdr) ahdr + Z.of_nat (length (concat es) + length fin);
  rt_allocated : field 4 (header_at ahdr + 8) ahdr = field 4 (header_at ahdr + 4) ahdr;
  rt_value : field 4 16 ahdr = 16 + field 4 (header_at ahdr + 4) ahdr;
  rt_es : Forall entry_ok es;
  rt_fin : end_ok fin;
}.

Definition root_bytes (ahdr : buffer) (es : list buffer) (fin pad : buffer) : buffer :=
  ahdr ++ concat es ++ fin ++ pad.

(** [new] grows the field of four bytes at [k] by [size]. *)
Definition grow (k : nat) (size : Z) (b : buffer) : buffer := put k (le_bytes 4 (field 4 k b + size)) b.

Definition grown_root (size : Z) (ahdr : buffer) : buffer :=
  grow (header_at ahdr + 8) size (grow (header_at ahdr + 4) size (grow 16 size (grow 4 size ahdr))).

Lemma grow_facts k size b :
  (k + 4 <= length b)%nat ->
  length (grow k size b) = length b /\ (byte_list b -> byte_list (grow k size b)) /\
  (0 <= field 4 k b + size < 2 ^ 32 -> field 4 k (grow k size b) = field 4 k b + size) /\
  (forall n j, (j + n <= k \/ k + 4 <= j)%nat -> field n j (grow k size b) = field n j b).
Proof. intros Hk. exact (put_stored 4 k (field 4 k b + size) b Hk). Qed.

(** The field of four bytes at [k] of the list in focus grown by a size: load and
    store. *)
#[local] Ltac grow_at k :=
  erewrite bind_run; [|solve [eapply (load_part _ _ _ _ k) with (n := 4%nat); [index_offsets; lia | lia]]];
  erewrite bind_run; [|solve [eapply (store_part _ _ _ _ k) with (n := 4%nat); [index_offsets; lia | lia]]];
  match goal with |- context [put k (le_bytes 4 (field 4 k ?b + ?s)) ?b] =>
    change (put k (le_bytes 4 (field 4 k b + s)) b) with (grow k s b);
    let L := fresh "L" in
    assert (length (grow k s b) = length b) as L by (apply grow_facts; lia);
    let O := fresh "O" in
    assert (forall n j, (j + n <= k \/ k + 4 <= j)%nat -> field n j (grow k s b) = field n j b) as O
      by (apply grow_facts; lia)
  end.

Section GrownRoot.
Context (ahdr : buffer) (size : Z).
Context (Hb : byte_list ahdr) (Ho : 24 <= field 2 20 ahdr)
  (Hl : (header_at ahdr + 16 <= length ahdr)%nat).

Lemma header_at_bound : (40 <= header_at ahdr)%nat.
Proof. unfold header_at. lia. Qed.

Lemma grown_root_facts :
  length (grown_root size ahdr) = length ahdr /\ byte_list (grown_root size ahdr) /\
  header_at (grown_root size ahdr) = header_at ahdr /\
  (forall n j, (j + n <= 4 \/ 8 <= j /\ j + n <= 16 \/ 20 <= j /\ j + n <= header_at ahdr + 4 \/
                header_at ahdr + 12 <= j)%nat ->
    field n j (grown_root size ahdr) = field n j ahdr) /\
  (forall j, (j = 4 \/ j = 16 \/ j = header_at ahdr + 4 \/ j = header_at ahdr + 8)%nat ->
    0 <= field 4 j ahdr + size < 2 ^ 32 ->
    field 4 j (grown_root size ahdr) = field 4 j ahdr + size).
Proof.
  pose proof header_at_bound as Hh. unfold grown_root.
  destruct (grow_facts 4 size ahdr ltac:(lia)) as (L1 & B1 & S1 & O1).
  set (b1 := grow 4 size ahdr) in *. clearbody b1.
  destruct (grow_facts 16 size b1 ltac:(lia)) as (L2 & B2 & S2 & O2).
  set (b2 := grow 16 size b1) in *. clearbody b2.
  destruct (grow_facts (header_at ahdr + 4) size b2 ltac:(lia)) as (L3 & B3 & S3 & O3).
  set (b3 := grow (header_at ahdr + 4) size b2) in *. clearbody b3.
  destruct (grow_facts (header_at ahdr + 8) size b3 ltac:(lia)) as (L4 & B4 & S4 & O4).
  set (b4 := grow (header_at ahdr + 8) size b3) in *. clearbody b4.
  assert (forall n j, (j + n <= 4 \/ 8 <= j /\ j + n <= 16 \/ 20 <= j /\ j + n <= header_at ahdr + 4 \/
                header_at ahdr + 12 <= j)%nat -> field n j b4 = field n j ahdr) as Hother.
  { intros n j Hj. rewrite O4, O3, O2, O1 by lia. done. }
  split_and!; auto; try lia.
  - unfold header_at. by rewrite Hother by lia.
  - intros j [->|[->|[->| ->]]] Hr.
    + rewrite O4, O3, O2 by lia. by apply S1.
    + rewrite O4, O3, <- (O1 4%nat 16%nat) by lia. apply S2. by rewrite O1 by lia.
    + rewrite O4 by lia. rewrite S3; rewrite O2, O1 by lia; done.
    + rewrite S4; rewrite O3, O2, O1 by lia; done.
Qed.

(** The name is not touched. *)
Lemma grown_root_sl n k :
  (20 <= k)%nat -> (k + n <= header_at ahdr + 4)%nat -> sl k n (grown_root size ahdr) = sl k n ahdr.
Proof.
  intros Hk Hn. pose proof header_at_bound. unfold grown_root.
  assert (length (grow 4 size ahdr) = length ahdr) as L1 by (apply grow_facts; lia).
  assert (length (grow 16 size (grow 4 size ahdr)) = length ahdr) as L2
    by (rewrite <- L1; apply grow_facts; lia).
  assert (length (grow (header_at ahdr + 4) size (grow 16 size (grow 4 size ahdr))) = length ahdr) as L3
    by (rewrite <- L2; apply grow_facts; lia).
  unfold grow at 1. rewrite sl_put_before by lia.
  unfold grow at 1. rewrite sl_put_before by lia.
  unfold grow at 1. rewrite sl_put_after by (rewrite ?length_le_bytes; lia).
  unfold grow at 1. rewrite sl_put_after by (rewrite ?length_le_bytes; lia).
  done.
Qed.
End GrownRoot.

Lemma root_hdr_room ahdr es fin pad :
  root_ok ahdr es fin pad ->
  byte_list ahdr /\ (header_at ahdr + 16 <= length ahdr)%nat /\ (56 <= length ahdr)%nat.
Proof.
  intros []. apply Forall_app in rt_bytes0 as [Hb _]. unfold header_at in *. split; [done|]. lia.
Qed.

(** The root with one more entry is well formed. *)
Lemma root_insert_ok ahdr es fin pad i new :
  root_ok ahdr es fin pad -> entry_ok new ->
  Z.of_nat (length (root_bytes ahdr es fin pad) + length new) < 2 ^ 31 ->
  root_ok (grown_root (Z.of_nat (length new)) ahdr) (take i es ++ new :: drop i es) fin pad.
Proof.
  intros Hok Hnew Hsm. destruct (root_hdr_room _ _ _ _ Hok) as (Hba & Hhl & Hla).
  pose proof Hok as [Hb [_ Hs Hal Hlen Hty Hnm Hval] Ho Hname He Hh Hl Hall Hv Hes Hfin].
  fold (root_bytes ahdr es fin pad) in *. set (size := Z.of_nat (length new)) in *.
  destruct (grown_root_facts ahdr size Hba Ho Hhl) as (Lg & Bg & Ha & Oth & Grw).
  set (g := grown_root size ahdr) in *.
  pose proof (header_at_bound ahdr Ho) as Hh40. pose proof (en_align _ Hnew) as Hna.
  set (a' := g ++ concat (take i es ++ new :: drop i es) ++ fin ++ pad).
  assert (Z.of_nat (length a') = Z.of_nat (length (root_bytes ahdr es fin pad)) + size) as La'.
  { unfold a', root_bytes. rewrite !length_app, length_concat_insert, Lg. lia. }
  assert (Hf : forall n k, (k + n <= length ahdr)%nat ->
            field n k (root_bytes ahdr es fin pad) = field n k ahdr)
    by (intros; by apply field_hdr).
  assert (Hf' : forall n k, (k + n <= length ahdr)%nat -> field n k a' = field n k g)
    by (intros; apply field_hdr; lia).
  unfold attr_type in *. rewrite !Hf in * by lia.
  assert (byte_list a') as Hba'.
  { unfold root_bytes, byte_list in Hb. rewrite !Forall_app in Hb. destruct Hb as (_ & _ & ? & ?).
    unfold a', byte_list. rewrite !Forall_app. split_and!; try done.
    assert (Forall entry_ok (take i es ++ new :: drop i es)) as HE by by apply entries_insert.
    clear -HE. induction HE as [|e l [] _ IH]; [constructor|]. by apply Forall_app. }
  assert (Z.of_nat (length (root_bytes ahdr es fin pad)) =
          Z.of_nat (length ahdr) + Z.of_nat (length (concat es) + length fin + length pad)) as Lroot
    by (unfold root_bytes; rewrite !length_app; lia).
  constructor; rewrite ?Ha, ?Lg; fold a'; auto using entries_insert.
  - constructor; auto; try lia.
    + rewrite La'. clear -Hal Hna. fold size in Hna. Z.to_euclidean_division_equations; lia.
    + rewrite Hf', Grw by lia. lia.
    + unfold attr_type. by rewrite Hf', Oth by lia.
    + rewrite !Hf', !Oth by lia. lia.
    + rewrite !Hf', Oth, Grw by lia. lia.
  - by rewrite Oth by lia.
  - by rewrite !Oth by lia.
  - by rewrite Oth by lia.
  - rewrite !Oth by lia. lia.
  - rewrite length_concat_insert, Grw, Oth by lia. lia.
  - rewrite !Grw by lia. lia.
  - rewrite !Grw by lia. lia.
Qed.

(** Type and name of the attribute do not change. *)
Lemma root_same ahdr es fin pad es' size :
  root_ok ahdr es fin pad ->
  attr_type (root_bytes (grown_root size ahdr) es' fin pad) = attr_type (root_bytes ahdr es fin pad) /\
  field 1 9 (root_bytes (grown_root size ahdr) es' fin pad) = field 1 9 (root_bytes ahdr es fin pad) /\
  name_of (root_bytes (grown_root size ahdr) es' fin pad) = name_of (root_bytes ahdr es fin pad).
Proof.
  intros Hok. destruct (root_hdr_room _ _ _ _ Hok) as (Hba & Hhl & Hla).
  pose proof (rt_offset _ _ _ _ Hok) as Ho. pose proof (rt_name _ _ _ _ Hok) as [Hn1 Hn2].
  destruct (grown_root_facts ahdr size Hba Ho Hhl) as (Lg & _ & _ & Oth & _).
  pose proof (header_at_bound ahdr Ho). pose proof (field_range 1 9 ahdr Hba ltac:(lia)).
  unfold attr_type, name_of, root_bytes. rewrite !field_hdr, !Oth by lia.
  split_and!; try done. f_equal.
  rewrite !sl_app_l by (unfold header_at in *; lia).
  apply grown_root_sl; auto; unfold header_at in *; lia.
Qed.

(** So a search finds the same attribute. *)
Lemma find_in_same `{RecordLib} type name ic attrs k a a' :
  attrs !! k = Some a -> attr_type a' = attr_type a -> field 1 9 a' = field 1 9 a ->
  name_of a' = name_of a ->
  find_in type name ic None 0 (<[k := a']> attrs) = find_in type name ic None 0 attrs.
Proof.
  intros Hk Ht Hl Hn. revert k Hk. induction attrs as [|b attrs IH]; intros [|k] Hk; try done.
  - injection Hk as ->. cbn [insert list_insert find_in].
    assert (name_verdict name ic a' = name_verdict name ic a) as ->
      by (unfold name_verdict; by rewrite Hl, Hn).
    by rewrite Ht.
  - change (<[S k:=a']> (b :: attrs)) with (b :: <[k:=a']> attrs). cbn [find_in].
    by rewrite (IH k Hk).
Qed.

(** ** Inserting *)

(** The record after [new] was put at place [i] of the root. *)
Definition root_inserted (hdr : buffer) (l1 : list buffer) (ahdr : buffer) (es : list buffer)
    (fin pad : buffer) (l2 : list buffer) (mfin slack new : buffer) (i : nat) : buffer :=
  rec_bytes (grown_hdr (Z.of_nat (length new)) hdr)
    (l1 ++ root_bytes (grown_root (Z.of_nat (length new)) ahdr) (take i es ++ new :: drop i es) fin pad
     :: l2) mfin (drop (length new) slack).

Section Insert.
Context (hdr : buffer) (l1 : list buffer) (ahdr : buffer) (es : list buffer)
  (fin pad : buffer) (l2 : list buffer) (mfin slack : buffer).
Abbreviation a := (root_bytes ahdr es fin pad).
Abbreviation m := (rec_bytes hdr (l1 ++ a :: l2) mfin slack).
Context (Hrec : rec_ok hdr (l1 ++ a :: l2) mfin slack) (Hroot : root_ok ahdr es fin pad).

(** The stores after the search, [pre] being what precedes the attribute: the entry
    and the five lengths. *)
Lemma write_entry_run i new rest :
  let size := Z.of_nat (length new) in
  let at_ := Z.of_nat (length (hdr ++ concat l1)) in
  let header := at_ + field 2 20 ahdr + 0x10 in
  let entry := Z.of_nat (length (((hdr ++ concat l1) ++ ahdr) ++ concat (take i es))) in
  (biu ← load32 (m_bytes_in_use R);
   memmove (entry + size) entry (biu - entry);;
   store_bytes entry (take (Z.to_nat size) (new ++ rest));;
   store32 (m_bytes_in_use R) (biu + size);;
   len ← load32 (at_ + a_length R);
   store32 (at_ + a_length R) (len + size);;
   len ← load32 (at_ + a_value_length R);
   store32 (at_ + a_value_length R) (len + size);;
   len ← load32 (header + ih_index_length R);
   store32 (header + ih_index_length R) (len + size);;
   len ← load32 (header + ih_allocated_size R);
   store32 (header + ih_allocated_size R) (len + size);;
   mret None) m =
  if Z.of_nat (length slack) <? size then None
  else Some (@None errno_t, root_inserted hdr l1 ahdr es fin pad l2 mfin slack new i).
Proof.
  intros size at_ header entry. destruct (root_hdr_room _ _ _ _ Hroot) as (Hba & Hhl & Hla).
  pose proof (rt_offset _ _ _ _ Hroot) as Ho.
  pose proof Hrec as [_ Hh _ Hbiu _ _ _ (Lf & _) _].
  set (X := concat (drop i es) ++ fin ++ pad ++ concat l2 ++ mfin).
  set (P := concat l1 ++ ahdr ++ concat (take i es)).
  assert (m = hdr ++ P ++ X ++ slack) as ->.
  { unfold rec_bytes, root_bytes, P, X. rewrite <- (take_drop i es) at 1.
    rewrite !concat_app. cbn [concat]. by rewrite <- !app_assoc. }
  assert (Z.of_nat (length hdr + length (concat (l1 ++ a :: l2)) + 8) =
          Z.of_nat (length (hdr ++ P)) + Z.of_nat (length X)) as Lm.
  { unfold P, X, root_bytes. rewrite length_concat_app. cbn [concat].
    rewrite <- (take_drop i es) at 1. rewrite !concat_app, !length_app. lia. }
  rewrite (bind_run _ _ _ _ _ (hdr_load hdr _ 0x18 4 ltac:(lia))). rewrite Hbiu, Lm, app_assoc.
  assert (entry = Z.of_nat (length (hdr ++ P))) as Ee
    by (unfold entry, P; rewrite !length_app; lia).
  destruct (Z.ltb_spec (Z.of_nat (length slack)) size).
  { unfold mbind at 1, M_bind. by rewrite (memmove_stuck (hdr ++ P) X slack size) by lia. }
  erewrite bind_run; [|apply (memmove_up (hdr ++ P) X slack size); lia].
  set (n := Z.to_nat size). set (J := take n (X ++ slack)).
  assert (length J = length new) as LJ by (unfold J, n; rewrite length_take, length_app; lia).
  assert (n = length new) as En by lia. rewrite En, take_app_length, Ee.
  erewrite bind_run; [|apply (store_bytes_field _ (hdr ++ P) new J); lia].
  rewrite <- app_assoc.
  change (m_bytes_in_use R) with (Z.of_nat 0x18).
  rewrite (bind_run _ _ _ _ _ (hdr_store hdr _ 0x18 4 _ ltac:(lia))).
  replace (put 24 _ hdr) with (grown_hdr size hdr) by (unfold grown_hdr; by rewrite Hbiu, Lm).
  assert (length (grown_hdr size hdr) = length hdr) as Lg by (apply length_grown; lia).
  set (h' := grown_hdr size hdr) in *.
  assert (at_ = Z.of_nat (length (h' ++ concat l1))) as Ea by (unfold at_; rewrite !length_app; lia).
  set (Q := concat (take i es) ++ new ++ X ++ drop (length new) slack).
  replace (h' ++ P ++ new ++ X ++ drop (length new) slack) with ((h' ++ concat l1) ++ ahdr ++ Q)
    by (unfold P, Q; by rewrite <- !app_assoc).
  pose proof (header_at_bound ahdr Ho).
  assert (header = at_ + Z.of_nat (header_at ahdr)) as Eh by (unfold header, header_at; lia).
  clearbody header at_. subst header.
  grow_at 4%nat. grow_at 16%nat. grow_at (header_at ahdr + 4)%nat. grow_at (header_at ahdr + 8)%nat.
  unfold root_inserted. fold size h'. unfold mret, M_ret. do 2 f_equal.
  unfold rec_bytes, root_bytes, Q, X, grown_root.
  rewrite !concat_app. cbn [concat]. by rewrite <- !app_assoc.
Qed.

Context `{RecordLaws} `{CLib}.

(** Every outcome when the attribute is found and the check of the size passes:
    [None] when there is no room for the entry. *)
Lemma insert_res_run mrs name type new rest dv ctx :
  get_search_ctx m = Some ctx ->
  find_in 0x90 (Ucs name) CASE_SENSITIVE None 0 (l1 ++ a :: l2) = (length l1, true) ->
  mrs <= to_u 32 (Z.of_nat (length new) + field 4 0x1c hdr) ->
  type = 0x30 \/ type = 0 -> (16 <= length new)%nat ->
  Forall (decides (if type =? 0x30 then decide_file_name R I (drop 16 (new ++ rest))
                   else decide_view R I (new ++ rest) (field 4 (header_at ahdr - 12) ahdr)) dv) es ->
  insert_index_entry_in_res_dir_index R I mrs (new ++ rest) (Z.of_nat (length new)) (Ucs name) type m =
  match search dv es with
  | None => Some (Some EEXIST, m)
  | Some i =>
      if Z.of_nat (length slack) <? Z.of_nat (length new) then None
      else Some (None, root_inserted hdr l1 ahdr es fin pad l2 mfin slack new i)
  end.
Proof.
  intros Hctx Hfind Hchk Htype Hnew Hd.
  destruct (root_hdr_room _ _ _ _ Hroot) as (Hba & Hhl & Hla).
  pose proof Hroot as [_ _ Ho _ He Hrh Hl _ _ Hes Hfin].
  pose proof (header_at_bound ahdr Ho) as Hhb.
  assert (Z.of_nat (header_at ahdr) = field 2 20 ahdr + 16) as Eha by (unfold header_at; lia).
  pose proof (end_size _ Hfin).
  unfold insert_index_entry_in_res_dir_index.
  rewrite (bind_run _ _ _ _ _ (load_allocated _ _ _ _ Hrec)).
  rewrite (proj2 (Z.ltb_ge _ _)) by lia. rewrite Hctx.
  pose proof (find_fresh _ _ _ _ ctx 0x90 (Ucs name) CASE_SENSITIVE None 0 Hrec ltac:(lia) Hctx) as E.
  rewrite Hfind, take_app_length in E. unfold mkntfs_attr_lookup.
  erewrite bind_run; [|by rewrite (bind_run _ _ _ _ _ E)]. clear E. cbn [ctx_attr].
  assert (m = (hdr ++ concat l1) ++ ahdr ++ (concat es ++ fin ++ pad ++ concat l2 ++ mfin ++ slack))
    as Em.
  { unfold rec_bytes, root_bytes. rewrite concat_app. cbn [concat]. by rewrite <- !app_assoc. }
  rewrite Em. set (at_ := Z.of_nat (length (hdr ++ concat l1))).
  read 2%nat 20%nat.
  read 4%nat (header_at ahdr - 12)%nat.
  read 4%nat (header_at ahdr).
  read 4%nat (header_at ahdr + 4)%nat.
  replace (at_ + field 2 20 ahdr + 16 + field 4 (header_at ahdr) ahdr)
    with (Z.of_nat (length ((hdr ++ concat l1) ++ ahdr)))
    by (rewrite (length_app _ ahdr); unfold at_; lia).
  change (AT_FILE_NAME R) with 0x30. change (AT_UNUSED R) with 0. change (Z.to_nat (ie_key I)) with 16%nat.
  replace (negb (type =? 48) && negb (type =? 0)) with false by (by destruct Htype as [-> | ->]).
  rewrite app_assoc.
  erewrite bind_run; [|apply (find_entry_run _ _ _ _ _ _ _ Hes Hfin Hd); rewrite (length_app _ (concat es)); lia].
  rewrite <- (app_assoc _ ahdr (concat es ++ _)), <- Em.
  destruct (search dv es) as [i|]; cbn [fmap option_fmap option_map]; [|done].
  apply write_entry_run.
Qed.
End Insert.

(** The record is well formed again. *)
Lemma replace_ok hdr attrs mfin slack k a a' :
  rec_ok hdr attrs mfin slack -> attrs !! k = Some a -> attr_ok a' ->
  (length a <= length a')%nat -> (length a' - length a <= length slack)%nat ->
  rec_ok (grown_hdr (Z.of_nat (length a' - length a)) hdr) (<[k := a']> attrs) mfin
    (drop (length a' - length a) slack).
Proof.
  intros [Hb Hh Hoff Hbiu Hal Hsm Hat Hf Hsl] Hk Ha' Hle Hroom.
  set (size := (length a' - length a)%nat) in *.
  assert (length (concat (<[k := a']> attrs)) = (length (concat attrs) + size)%nat) as Lc.
  { rewrite <- (take_drop_middle attrs k a Hk) at 2.
    rewrite (insert_take_drop _ _ _ (lookup_lt_Some _ _ _ Hk)), !length_concat_app.
    cbn [concat]. rewrite !length_app. lia. }
  destruct (put_stored 4 0x18 (field 4 0x18 hdr + Z.of_nat size) hdr ltac:(lia)) as (Lg & Bg & Sg & Og).
  fold (grown_hdr (Z.of_nat size) hdr) in *. specialize (Sg ltac:(cbn; lia)).
  constructor; rewrite ?Lc, ?Lg, ?Sg, ?length_drop; try rewrite Og by lia; auto; try lia.
  - by apply Forall_insert.
  - by apply Forall_drop.
Qed.

(** ** An index in a record *)

(** The index [name] is the root that the search of the record finds. *)
Record index_at `{RecordLib} (attrs : list buffer) (k : nat) (name : list Z) (ahdr : buffer)
    (es : list buffer) (fin pad : buffer) : Prop := {
  ix_attr : attrs !! k = Some (root_bytes ahdr es fin pad);
  ix_root : root_ok ahdr es fin pad;
  ix_find : find_in 0x90 (Ucs name) CASE_SENSITIVE None 0 attrs = (k, true);
}.

(** [name]'s root with [new] at place [i]. *)
Definition with_entry (new : buffer) (i : nat) (ahdr : buffer) (es : list buffer) (fin pad : buffer)
  : buffer :=
  (root_bytes (grown_root (Z.of_nat (length new)) ahdr) (take i es ++ new :: drop i es) fin pad).

(** The collation rule the root declares. *)
Definition rule_of (ahdr : buffer) : Z := field 4 (header_at ahdr - 12) ahdr.

Section IndexAt.
Context (hdr : buffer) (attrs : list buffer) (mfin slack : buffer) (Hrec : rec_ok hdr attrs mfin slack).
Context `{RecordLib} (k : nat) (name : list Z) (ahdr : buffer) (es : list buffer) (fin pad : buffer).
Context (Hix : index_at attrs k name ahdr es fin pad).

Lemma with_entry_ok new i :
  entry_ok new -> (length new <= length slack)%nat ->
  let attrs' := <[k := with_entry new i ahdr es fin pad]> attrs in
  rec_ok (grown_hdr (Z.of_nat (length new)) hdr) attrs' mfin (drop (length new) slack) /\
  index_at attrs' k name (grown_root (Z.of_nat (length new)) ahdr) (take i es ++ new :: drop i es) fin pad /\
  (forall k2 name2 ahdr2 es2 fin2 pad2, k2 <> k ->
    index_at attrs k2 name2 ahdr2 es2 fin2 pad2 -> index_at attrs' k2 name2 ahdr2 es2 fin2 pad2).
Proof.
  intros Hnew Hroom attrs'. destruct Hix as [Hk Hroot Hf].
  destruct (root_hdr_room _ _ _ _ Hroot) as (Hba & Hhl & _).
  pose proof (rt_offset _ _ _ _ Hroot) as Ho.
  set (a' := with_entry new i ahdr es fin pad) in *. unfold with_entry in a'.
  assert (length a' = (length (root_bytes ahdr es fin pad) + length new)%nat) as La'.
  { unfold a', root_bytes. destruct (grown_root_facts ahdr (Z.of_nat (length new)) Hba Ho Hhl) as (Lg & _).
    rewrite !length_app, length_concat_insert, Lg. lia. }
  assert (length (root_bytes ahdr es fin pad) <= length (concat attrs))%nat as Lat.
  { pose proof (length_concat_app (take k attrs) (root_bytes ahdr es fin pad :: drop (S k) attrs)) as E.
    rewrite (take_drop_middle attrs k _ Hk) in E. cbn [concat] in E. rewrite length_app in E. lia. }
  pose proof (ok_small _ _ _ _ Hrec) as Hsm.
  pose proof (root_insert_ok ahdr es fin pad i new Hroot Hnew ltac:(lia)) as Hroot'.
  destruct (root_same ahdr es fin pad (take i es ++ new :: drop i es) (Z.of_nat (length new)) Hroot)
    as (Ht & Hl & Hn). fold a' in Ht, Hl, Hn.
  assert (forall name', find_in 0x90 name' CASE_SENSITIVE None 0 attrs' =
                        find_in 0x90 name' CASE_SENSITIVE None 0 attrs) as Hsame
    by (intros; eapply find_in_same; eauto).
  split; [|split].
  - pose proof (replace_ok hdr attrs mfin slack k _ a' Hrec Hk (rt_attr _ _ _ _ Hroot')
                  ltac:(lia) ltac:(lia)) as E.
    by replace (length a' - length (root_bytes ahdr es fin pad))%nat with (length new) in E by lia.
  - split; [|done|by rewrite Hsame]. apply list_lookup_insert_eq. by eapply lookup_lt_Some.
  - intros k2 name2 ahdr2 es2 fin2 pad2 Hne [Hk2 ? ?]. split; [|done|by rewrite Hsame].
    unfold attrs'. by rewrite list_lookup_insert_ne by done.
Qed.

Lemma rule_of_grown size : rule_of (grown_root size ahdr) = rule_of ahdr.
Proof.
  destruct Hix as [_ Hroot _]. destruct (root_hdr_room _ _ _ _ Hroot) as (Hba & Hhl & _).
  pose proof (rt_offset _ _ _ _ Hroot) as Ho. pose proof (header_at_bound ahdr Ho).
  destruct (grown_root_facts ahdr size Hba Ho Hhl) as (_ & _ & Ha & Oth & _).
  unfold rule_of. by rewrite Ha, Oth by lia.
Qed.

Context `{!RecordLaws} `{CLib}.

Lemma insert_index_run mrs type new rest dv ctx :
  get_search_ctx (rec_bytes hdr attrs mfin slack) = Some ctx ->
  mrs <= to_u 32 (Z.of_nat (length new) + field 4 0x1c hdr) ->
  type = 0x30 \/ type = 0 -> (16 <= length new)%nat ->
  Forall (decides (if type =? 0x30 then decide_file_name R I (drop 16 (new ++ rest))
                   else decide_view R I (new ++ rest) (rule_of ahdr)) dv) es ->
  insert_index_entry_in_res_dir_index R I mrs (new ++ rest) (Z.of_nat (length new)) (Ucs name) type
    (rec_bytes hdr attrs mfin slack) =
  match search dv es with
  | None => Some (Some EEXIST, rec_bytes hdr attrs mfin slack)
  | Some i =>
      if Z.of_nat (length slack) <? Z.of_nat (length new) then None
      else Some (None, rec_bytes (grown_hdr (Z.of_nat (length new)) hdr)
                         (<[k := with_entry new i ahdr es fin pad]> attrs) mfin (drop (length new) slack))
  end.
Proof.
  intros Hctx Hmrs Ht Hn Hd. destruct Hix as [Hk Hroot Hf].
  pose proof (take_drop_middle attrs k _ Hk) as Ea.
  assert (length (take k attrs) = k) as Lk.
  { rewrite length_take. apply lookup_lt_Some in Hk. lia. }
  pose proof (insert_res_run hdr (take k attrs) ahdr es fin pad (drop (S k) attrs) mfin slack) as E.
  rewrite Ea, Lk in E. rewrite (E Hrec Hroot _ _ _ mrs name type new rest dv ctx) by done.
  destruct (search dv es); [|done]. destruct (_ <? _); [done|].
  unfold root_inserted. by rewrite insert_take_drop by (by eapply lookup_lt_Some).
Qed.
End IndexAt.
