(* ===== verification/IndexTheorems.v ===== *)
(** * Theorems about indexes

    The collation of view keys is the lexicographic order of the decoded keys.
    Inserting a name into an index block, or an entry into an index root of an MFT
    record, keeps it well formed and sorted, or changes nothing; but the check of
    the room in a record never refuses. *)

From stdpp Require Import sorting.
From S2P Require Import Prelude Bytes Sd Mft MftFacts MftTheorems Index IndexFacts IndexRoot.

(** The entries stand in the order of the index, no two of them equal. *)
Definition entries_sorted `{RecordLib} `{CLib} (type rule : Z) : list buffer -> Prop :=
  StronglySorted (before (entry_verdict type rule)).

(** The new entry against the ones there. *)
Lemma search_entries `{CollateLaws} `{CLibLaws} type rule new es :
  (type = 0x30 \/ rule_exact rule) -> entry_fits type rule new -> Forall (entry_fits type rule) es ->
  entries_sorted type rule es ->
  match search (entry_verdict type rule new) es with
  | None => exists e, e ∈ es /\ entry_verdict type rule new e = Hit
  | Some i =>
      Forall (fun e => entry_verdict type rule new e <> Hit) es /\
      entries_sorted type rule (take i es ++ new :: drop i es)
  end.
Proof.
  intros Hx Hn Hes Hs. pose proof (entry_order type rule Hx). by eapply search_order.
Qed.

(** The block and the new entry after [insert_file_link_in_dir_index]. *)
Lemma link_inserted `{RecordLib} `{CLib} hdr es fin slack ref v i :
  block_ok hdr es fin slack -> attr_fits v -> Z.of_nat (length v) < 32000 ->
  link_size v <= Z.of_nat (length slack) ->
  let new := link_entry ref (link_size v) v
    (drop 16 (take (Z.to_nat (link_size v)) ((concat (drop i es) ++ fin) ++ slack))) in
  block_ok (grown_block (link_size v) hdr) (take i es ++ new :: drop i es) fin
    (drop (Z.to_nat (link_size v)) slack) /\
  entry_fits 0x30 0 new /\ field 8 0 new = ref mod 2 ^ 64 /\
  key_length new = Z.of_nat (length v) /\ take (length v) (drop 16 new) = v.
Proof.
  intros Hok Hv Hlv Hroom. destruct (link_size_spec v Hlv) as [Hsz _].
  set (J := take (Z.to_nat _) _).
  assert (Z.of_nat (length (drop 16 J)) + 16 = link_size v /\ byte_list (drop 16 J)) as [LJ BJ].
  { unfold J. rewrite length_drop, length_take, length_app. split; [lia|].
    pose proof Hok as [_ _ _ _ _ _ Hent [Hfb _ _] Hsl].
    apply Forall_drop, Forall_take, Forall_app. split; [|done]. apply Forall_app. split; [|done].
    assert (Forall entry_ok (drop i es)) as Hd by by apply Forall_drop.
    induction Hd as [|? ? [] _ IH]; [constructor|]. by apply Forall_app. }
  destruct (link_entry_ok ref v (drop 16 J) Hv Hlv BJ LJ) as (Hne & Hnn & Ln & Fr & Fk & Fv).
  intros new. fold new in Hne, Hnn, Ln, Fr, Fk, Fv. clearbody new.
  assert (entry_fits 0x30 0 new) as Hnew
    by (split; [apply Hne | split; [destruct Hv as (? & ? & ?); lia | done]]).
  assert (Z.to_nat (link_size v) = length new) as -> by lia. rewrite <- Ln.
  split_and!; try done. apply block_insert_ok; auto. lia.
Qed.

(** ** The theorems *)

(** The collation of view keys.  When the keys of both entries lie inside the
    memory, [ntfs_index_keys_compare] reads nothing else, and the sign of its answer
    is that of the lexicographic comparison of what the rule looks at: the 32-bit
    words of the key ([$SII], [$Q]; all of them for [$ObjId]), hash and identifier
    ([$SDH]), the bytes of the SID; so each rule orders its keys totally.  Where the
    answer does not come from [memcmp] it is -1, 0 or 1. *)
Theorem ntfs_index_keys_compare_lex `{CLibLaws} X rule a b r1 r2 :
  X = documented_index -> key_fits rule a -> key_fits rule b ->
  exists c,
    ntfs_index_keys_compare X (drop 16 a ++ r1) (drop 16 b ++ r2) (key_length a) (key_length b)
      rule = Some c /\
    Z.sgn c = lex_compare (key_words rule a) (key_words rule b) /\
    (c = 0 <-> key_words rule a = key_words rule b) /\
    (rule <> COLLATION_NTOFS_SID X -> c = Z.sgn c).
Proof.
  intros -> Ha Hb. destruct (compare_run rule a b Ha Hb) as (c & Hc & Hs & He).
  exists c. split_and!; auto.
  rewrite <- lex_compare_eq, <- Hs. split; [by intros -> | lia].
Qed.

(** [C30] Linking a file into an index block.  No access leaves the block.  A name
    equal to one that is there gives [EEXIST], a lack of room [ENOSPC], and neither
    changes a byte.  Otherwise the block gets one more entry, with the file's
    reference and the name attribute as its key, the entries of before around it;
    the block is well formed again, and if it was sorted by name it still is. *)
Theorem insert_file_link_in_dir_index_correct `{CollateLaws} `{CLibLaws} Y X hdr es fin slack ref v
    extra :
  Y = documented_record -> X = documented_index -> block_ok hdr es fin slack ->
  Forall (entry_fits 0x30 0) es -> attr_fits v -> Z.of_nat (length v) < 32000 ->
  0 <= ref < 2 ^ 64 ->
  let m := rec_bytes hdr es fin slack in
  exists err m',
    insert_file_link_in_dir_index Y X ref (v ++ extra) (Z.of_nat (length v)) m = Some (err, m') /\
    match err with
    | Some e =>
        m' = m /\
        (e = EEXIST /\ (exists x, x ∈ es /\ file_verdict v (drop 16 x) = Hit) \/
         e = ENOSPC /\ Z.of_nat (length slack) < link_size v)
    | None =>
        exists hdr' i new slack',
          m' = rec_bytes hdr' (take i es ++ new :: drop i es) fin slack' /\
          block_ok hdr' (take i es ++ new :: drop i es) fin slack' /\
          field 8 0 new = ref /\ key_length new = Z.of_nat (length v) /\
          take (length v) (drop 16 new) = v /\ entry_fits 0x30 0 new /\
          Z.of_nat (length slack') = Z.of_nat (length slack) - link_size v /\
          (entries_sorted 0x30 0 es ->
            Forall (fun x => file_verdict v (drop 16 x) <> Hit) es /\
            entries_sorted 0x30 0 (take i es ++ new :: drop i es))
    end.
Proof.
  intros -> -> Hok Hes Hv Hlv Href m.
  assert (Forall name_fits es) as Hnf.
  { eapply Forall_impl; [exact Hes|]. by intros e (_ & _ & ?). }
  pose proof (insert_link_run hdr es fin slack ref v extra Hok Hnf Hv Hlv) as E. fold m in E.
  rewrite E. clear E. destruct (link_size_spec v Hlv) as [Hsz _].
  destruct (search _ es) as [i|] eqn:Hs.
  2:{ eexists _, _. split; [reflexivity|]. split; [done|]. left. split; [done|]. by apply search_none. }
  destruct (Z.ltb_spec (Z.of_nat (length slack)) (link_size v)) as [|Hroom].
  { eexists _, _. split; [reflexivity|]. by split; [|right]. }
  destruct (link_inserted hdr es fin slack ref v i Hok Hv Hlv Hroom) as (Hb & Hnew & Fr & Fk & Fv).
  eexists None, _. split; [reflexivity|]. eexists _, i, _, _. split; [reflexivity|].
  set (new := link_entry _ _ _ _) in *. clearbody new.
  split; [exact Hb|]. split; [rewrite Fr; by apply Z.mod_small|]. split_and!; try done.
  { rewrite length_drop. lia. }
  intros Hsort. assert (forall x, entry_verdict 0x30 0 new x = file_verdict v (drop 16 x)) as Hvd.
  { intros x. unfold entry_verdict. cbn [Z.eqb Pos.eqb].
    rewrite <- (take_drop (length v) (drop 16 new)), Fv. by apply file_verdict_app. }
  pose proof (search_entries 0x30 0 new es ltac:(by left) Hnew Hes Hsort) as Ho.
  assert (search (entry_verdict 0x30 0 new) es = Some i) as Es.
  { rewrite <- Hs. clear -Hvd. induction es as [|e es IH]; [done|]. cbn [search]. by rewrite Hvd, IH. }
  rewrite Es in Ho. destruct Ho as [Ho1 Ho2]. split; [|done].
  eapply Forall_impl; [exact Ho1|]. intros x Hx. by rewrite <- Hvd.
Qed.

Section Roots.
Context `{RecordLaws} `{!CollateLaws} `{CLibLaws}.
Context (Y : record_h) (X : index_h) (HY : Y = documented_record) (HX : X = documented_index).
Context (hdr : buffer) (attrs : list buffer) (mfin slack : buffer) (k : nat) (name : list Z)
  (ahdr : buffer) (es : list buffer) (fin pad : buffer) (type : Z) (new rest : buffer).
Context (Hrec : rec_ok hdr attrs mfin slack) (Hix : index_at attrs k name ahdr es fin pad)
  (Htype : type = 0x30 \/ type = 0) (Hnew : entry_ok new)
  (Hfit : entry_fits type (rule_of ahdr) new) (Hes : Forall (entry_fits type (rule_of ahdr)) es).

(** [C29] Inserting an entry into an index root that the MFT record has, when the
    record has room for the entry and there is memory for the search context.  No access leaves the record.  An entry with an equal key gives [EEXIST] and
    changes nothing.  Otherwise the index gets the entry, the entries of before
    around it; all other attributes are unchanged, attribute, index and record are
    well formed again, and if the index was sorted by its collation rule it still
    is. *)
Theorem insert_index_entry_correct ctx :
  get_search_ctx (rec_bytes hdr attrs mfin slack) = Some ctx ->
  (length new <= length slack)%nat ->
  exists err m',
    insert_index_entry_in_res_dir_index Y X (field 4 0x1c hdr) (new ++ rest) (Z.of_nat (length new))
      (Ucs name) type (rec_bytes hdr attrs mfin slack) = Some (err, m') /\
    match err with
    | Some e =>
        e = EEXIST /\ m' = rec_bytes hdr attrs mfin slack /\
        exists x, x ∈ es /\ entry_verdict type (rule_of ahdr) new x = Hit
    | None =>
        exists hdr' attrs' ahdr' i slack',
          m' = rec_bytes hdr' attrs' mfin slack' /\ rec_ok hdr' attrs' mfin slack' /\
          index_at attrs' k name ahdr' (take i es ++ new :: drop i es) fin pad /\
          attrs' = <[k := root_bytes ahdr' (take i es ++ new :: drop i es) fin pad]> attrs /\
          rule_of ahdr' = rule_of ahdr /\
          (entries_sorted type (rule_of ahdr) es -> (type = 0x30 \/ rule_exact (rule_of ahdr)) ->
            Forall (fun x => entry_verdict type (rule_of ahdr) new x <> Hit) es /\
            entries_sorted type (rule_of ahdr) (take i es ++ new :: drop i es))
    end.
Proof.
  intros Hctx Hroom. subst Y X. pose proof (ok_small _ _ _ _ Hrec) as Hsm.
  pose proof (ok_allocated _ _ _ _ Hrec) as Hal.
  rewrite (insert_index_run hdr attrs mfin slack Hrec k name ahdr es fin pad Hix (field 4 0x1c hdr) type new
             rest (entry_verdict type (rule_of ahdr) new) ctx); auto using entry_decides; [|..].
  2:{ rewrite to_u_small by (unfold fits_u; lia). lia. }
  2:{ apply Hnew. }
  destruct (search _ es) as [i|] eqn:Hs.
  2:{ eexists _, _. split; [reflexivity|]. split; [done|]. split; [done|]. by apply search_none. }
  rewrite (proj2 (Z.ltb_ge _ _)) by lia.
  destruct (with_entry_ok hdr attrs mfin slack Hrec k name ahdr es fin pad Hix new i Hnew Hroom)
    as (Hr & Hi & _).
  eexists None, _. split; [reflexivity|]. eexists _, _, _, i, _.
  split; [reflexivity|]. split; [exact Hr|]. split; [exact Hi|]. split; [reflexivity|].
  split; [by eapply rule_of_grown|].
  intros Hsort Hx. pose proof (search_entries type _ new es Hx Hfit Hes Hsort) as Ho.
  by rewrite Hs in Ho.
Qed.

(** The check of the room in [insert_index_entry_in_res_dir_index] compares
    the entry with the record's whole size, the wrong way round: in a record of
    [mft_record_size] bytes it never answers [ENOSPC], and an entry that does not
    fit is moved in all the same, past the end of the record (the model's [None]). *)
Theorem insert_index_entry_no_room ctx i :
  get_search_ctx (rec_bytes hdr attrs mfin slack) = Some ctx ->
  search (entry_verdict type (rule_of ahdr) new) es = Some i ->
  (length slack < length new)%nat -> Z.of_nat (length new) < 2 ^ 31 ->
  insert_index_entry_in_res_dir_index Y X (field 4 0x1c hdr) (new ++ rest) (Z.of_nat (length new))
    (Ucs name) type (rec_bytes hdr attrs mfin slack) = None.
Proof.
  intros Hctx Hs Hroom Hsz. subst Y X. pose proof (ok_small _ _ _ _ Hrec) as Hsm.
  pose proof (ok_allocated _ _ _ _ Hrec) as Hal.
  rewrite (insert_index_run hdr attrs mfin slack Hrec k name ahdr es fin pad Hix (field 4 0x1c hdr) type new
             rest (entry_verdict type (rule_of ahdr) new) ctx); auto using entry_decides; [|..].
  2:{ rewrite to_u_small by (unfold fits_u; lia). lia. }
  2:{ apply Hnew. }
  rewrite Hs. by rewrite (proj2 (Z.ltb_lt _ _)) by lia.
Qed.
End Roots.

(** ** Samples *)

#[local] Existing Instance plain_lib.
#[local] Existing Instance plain_laws.

#[local] Instance plain_collate : CollateLaws.
Proof.
  constructor; cbn [names_full_collate plain_lib].
  - intros n1 n2 _. apply lex_compare_sign.
  - intros n1 n2 _. apply lex_compare_antisym.
  - intros n1 n2 n3 _. apply lex_compare_trans.
  - intros n1 n2 n3 _ ->%lex_compare_eq. done.
Qed.

(** [memcmp] as the sign of the first difference. *)
#[local] Instance plain_clib : CLib := { memcmp_value := memcmp }.

Lemma memcmp_sign l1 l2 : Z.sgn (memcmp l1 l2) = memcmp l1 l2.
Proof. revert l2. induction l1 as [|x l1 IH]; intros [|y l2]; cbn; try done. by repeat zcase. Qed.

#[local] Instance plain_clib_laws : CLibLaws.
Proof. constructor. intros l1 l2 _. apply memcmp_sign. Qed.

(** Checking that bytes are an index. *)
Definition entry_okb (e : buffer) : bool :=
  byte_listb e && (16 <=? Z.of_nat (length e)) && (Z.of_nat (length e) mod 8 =? 0) &&
  (field 2 8 e =? Z.of_nat (length e)) && (Z.land (field 2 12 e) 2 =? 0).

Definition end_okb (e : buffer) : bool :=
  byte_listb e && (16 <=? Z.of_nat (length e)) && negb (Z.land (field 2 12 e) 2 =? 0).

Lemma entry_okb_ok e : entry_okb e = true -> entry_ok e.
Proof. unfold entry_okb. intros. zb. constructor; auto using byte_listb_ok; lia. Qed.

Lemma end_okb_ok e : end_okb e = true -> end_ok e.
Proof. unfold end_okb. intros. zb. constructor; auto using byte_listb_ok; lia. Qed.

Lemma entries_okb_ok es : forallb entry_okb es = true -> Forall entry_ok es.
Proof.
  rewrite forallb_forall. intros Hes. apply Forall_forall.
  intros e He%list_elem_of_In. by apply entry_okb_ok, Hes.
Qed.

Definition root_okb (ahdr : buffer) (es : list buffer) (fin pad : buffer) : bool :=
  let h := header_at ahdr in
  attr_okb (ahdr ++ concat es ++ fin ++ pad) && (24 <=? field 2 20 ahdr) &&
  (24 <=? field 2 10 ahdr) && (field 2 10 ahdr + 2 * field 1 9 ahdr <=? field 2 20 ahdr) &&
  (16 <=? field 4 h ahdr) && (Z.of_nat (length ahdr) =? field 2 20 ahdr + 16 + field 4 h ahdr) &&
  (field 4 (h + 4) ahdr =? field 4 h ahdr + Z.of_nat (length (concat es) + length fin)) &&
  (field 4 (h + 8) ahdr =? field 4 (h + 4) ahdr) && (field 4 16 ahdr =? 16 + field 4 (h + 4) ahdr) &&
  forallb entry_okb es && end_okb fin.

Lemma root_okb_ok ahdr es fin pad : root_okb ahdr es fin pad = true -> root_ok ahdr es fin pad.
Proof.
  unfold root_okb. intros. zb.
  match goal with Ha : attr_okb _ = true |- _ => apply attr_okb_ok in Ha as Hok end.
  constructor; auto using entries_okb_ok, end_okb_ok; try lia. apply Hok.
Qed.

Definition sample_iend : buffer := le_bytes 8 0 ++ le_bytes 2 16 ++ le_bytes 2 0 ++ le_bytes 2 2 ++ le_bytes 2 0.

(** The root of a view with [n] bytes of entries; a name of four characters. *)
Definition sample_ahdr (name : list Z) (rule n : Z) : buffer :=
  resident_hdr 0x90 (80 + n) 4 0 1 0 (48 + n) ++ ucs_bytes name ++
  le_bytes 4 0 ++ le_bytes 4 rule ++ le_bytes 4 4096 ++ [1; 0; 0; 0] ++
  le_bytes 4 16 ++ le_bytes 4 (32 + n) ++ le_bytes 4 (32 + n) ++ [0; 0; 0; 0].

(** An entry of 24 bytes whose key is [id] and four zeroes. *)
Definition sample_entry (key_len id : Z) : buffer :=
  le_bytes 8 0 ++ le_bytes 2 24 ++ le_bytes 2 key_len ++ le_bytes 2 0 ++ le_bytes 2 0 ++
  le_bytes 4 id ++ le_bytes 4 0.

Definition sample_dollar_SII : list Z := [0x24; 0x53; 0x49; 0x49].

Definition sample_root : buffer := sample_ahdr sample_dollar_SII 16 24.

(** A record whose [$SII] holds the identifier 5, with [n] bytes left. *)
Definition sample_attrs : list buffer := [sample_std; root_bytes sample_root [sample_entry 4 5] sample_iend []].
Definition sample_ihdr (n : Z) : buffer := put 0x1c (le_bytes 4 (240 + n)) (sample_hdr 240).

Lemma sample_rec_ok n :
  rec_okb (sample_ihdr (Z.of_nat n)) sample_attrs sample_end (replicate n 7) = true ->
  rec_ok (sample_ihdr (Z.of_nat n)) sample_attrs sample_end (replicate n 7).
Proof. apply rec_okb_ok. Qed.

Lemma sample_index_at :
  index_at sample_attrs 1 sample_dollar_SII sample_root [sample_entry 4 5] sample_iend [].
Proof. split; [done | apply root_okb_ok; vm_compute; done | vm_compute; done]. Qed.

Lemma sample_entry_fits id :
  0 <= id < 2 ^ 32 -> entry_ok (sample_entry 4 id) /\ entry_fits 0 16 (sample_entry 4 id) /\
  key_fits 18 (sample_entry 8 id).
Proof.
  intros Hid. assert (forall k, byte_list (sample_entry k id)) as Hb.
  { intros k. unfold sample_entry, byte_list. rewrite !Forall_app. split_and!; apply byte_list_le. }
  split; [constructor; try done; cbn; lia|].
  split; [split; [done|]; split; [done|]; cbn; lia|]. split; [done|]. cbn; lia.
Qed.

Lemma ntfs_index_keys_compare_lex_witness :
  exists c, ntfs_index_keys_compare documented_index (drop 16 (sample_entry 8 3) ++ [])
              (drop 16 (sample_entry 8 9) ++ []) 8 8 18 = Some c /\ Z.sgn c = -1.
Proof.
  destruct (ntfs_index_keys_compare_lex documented_index 18 (sample_entry 8 3) (sample_entry 8 9) [] []
              eq_refl ltac:(apply sample_entry_fits; lia) ltac:(apply sample_entry_fits; lia))
    as (c & Hc & Hs & _).
  exists c. exact (conj Hc Hs).
Defined.

Lemma insert_index_entry_correct_witness :
  exists err m',
    insert_index_entry_in_res_dir_index documented_record documented_index 1024
      (sample_entry 4 7 ++ []) 24 (Ucs sample_dollar_SII) 0
      (rec_bytes (sample_ihdr 784) sample_attrs sample_end (replicate 784 7)) = Some (err, m').
Proof.
  destruct (insert_index_entry_correct documented_record documented_index eq_refl eq_refl (sample_ihdr 784)
              sample_attrs sample_end (replicate 784 7) 1 sample_dollar_SII sample_root [sample_entry 4 5]
              sample_iend [] 0 (sample_entry 4 7) [] ltac:(apply (sample_rec_ok 784); vm_compute; reflexivity)
              sample_index_at ltac:(by right) ltac:(apply sample_entry_fits; lia)
              ltac:(apply sample_entry_fits; lia)
              ltac:(constructor; [apply sample_entry_fits; lia | constructor])
              (mkCtx 0x38 true) eq_refl ltac:(apply Nat.leb_le; reflexivity)) as (err & m' & E & _).
  exists err, m'. exact E.
Defined.

Lemma insert_index_entry_no_room_witness :
  insert_index_entry_in_res_dir_index documented_record documented_index 256
    (sample_entry 4 7 ++ []) 24 (Ucs sample_dollar_SII) 0
    (rec_bytes (sample_ihdr 16) sample_attrs sample_end (replicate 16 7)) = None.
Proof.
  exact (insert_index_entry_no_room documented_record documented_index eq_refl eq_refl (sample_ihdr 16)
           sample_attrs sample_end (replicate 16 7) 1 sample_dollar_SII sample_root [sample_entry 4 5]
           sample_iend [] 0 (sample_entry 4 7) [] ltac:(apply (sample_rec_ok 16); vm_compute; reflexivity)
           sample_index_at ltac:(by right) ltac:(apply sample_entry_fits; lia)
           ltac:(apply sample_entry_fits; lia)
           ltac:(constructor; [apply sample_entry_fits; lia | constructor])
           (mkCtx 0x38 true) 1 eq_refl ltac:(vm_compute; reflexivity) ltac:(apply Nat.ltb_lt; reflexivity)
           ltac:(cbn; lia)).
Defined.

(** The block of a directory that holds the name B. *)
Definition sample_name (c : Z) : buffer := replicate 64 0 ++ [1; 3; c; 0].
Definition sample_link : buffer := link_entry 5 88 (sample_name 66) (replicate 72 0).
Definition sample_bhdr (n slack : Z) : buffer :=
  replicate 24 0 ++ le_bytes 4 40 ++ le_bytes 4 (56 + n) ++ le_bytes 4 (56 + n + slack) ++
  replicate 28 0.

Lemma sample_block_ok :
  block_ok (sample_bhdr 88 100) [sample_link] sample_iend (replicate 100 0).
Proof.
  constructor; try (vm_compute; lia); try (vm_compute; reflexivity); try (vm_compute; done).
  - apply byte_listb_ok. reflexivity.
  - apply entries_okb_ok. reflexivity.
  - apply end_okb_ok. reflexivity.
  - apply byte_listb_ok. reflexivity.
Qed.

Lemma insert_file_link_in_dir_index_correct_witness :
  exists err m',
    insert_file_link_in_dir_index documented_record documented_index 7 (sample_name 65 ++ []) 68
      (rec_bytes (sample_bhdr 88 100) [sample_link] sample_iend (replicate 100 0)) = Some (err, m').
Proof.
  destruct (insert_file_link_in_dir_index_correct documented_record documented_index (sample_bhdr 88 100)
              [sample_link] sample_iend (replicate 100 0) 7 (sample_name 65) [] eq_refl eq_refl
              sample_block_ok
              ltac:(constructor; [|constructor]; split;
                    [apply byte_listb_ok; reflexivity | split; [apply Nat.leb_le; reflexivity | apply Z.leb_le; reflexivity]])
              ltac:(split; [apply byte_listb_ok; reflexivity | split; [apply Nat.leb_le; reflexivity | apply Z.leb_le; reflexivity]])
              ltac:(apply Z.ltb_lt; reflexivity) ltac:(lia)) as (err & m' & E & _).
  exists err, m'. exact E.
Defined.
