(* ===== verification/IndexSecure.v ===== *)
(** * The indexes of the security descriptors

    [initialize_secure] walks the stream of descriptors and inserts an entry for
    each into the indexes [$SDH] and [$SII] of the record of [$Secure]. *)

From stdpp Require Import sorting.
From S2P Require Import Prelude Bytes Sd Mft MftFacts MftTheorems MftNonResFacts.
From S2P Require Import Index IndexFacts IndexRoot IndexTheorems.

(** ** Filling a structure from front to back *)

Lemma in_struct_run junk m s b : m junk = Some (tt, s) -> in_struct junk m b = Some (s, b).
Proof. unfold in_struct. by intros ->. Qed.

(** One store after what is there. *)
Ltac store_here :=
  erewrite bind_run;
  [|apply store_next; [reflexivity | rewrite ?length_drop; lia]].

Section Fill.
Abbreviation fields l := (concat ((fun '(n, v) => le_bytes n v) <$> l)).

(** The common header of the entries of a view. *)
Definition view_header (data_offset data_length length key_length : Z) : buffer :=
  fields [(2%nat, data_offset); (2%nat, data_length); (4%nat, 0); (2%nat, length);
          (2%nat, key_length); (2%nat, 0); (2%nat, 0)].

(** A descriptor of the stream: hash, identifier, offset and length. *)
Definition desc : Type := Z * Z * Z * Z.
Definition desc_id (d : desc) : Z := d.1.1.2.

Definition sdh_entry (d : desc) : buffer :=
  let '(hash, id, offset, len) := d in
  view_header 0x18 0x14 0x30 0x08 ++ fields [(4%nat, hash); (4%nat, id)] ++
  fields [(4%nat, hash); (4%nat, id); (8%nat, offset); (4%nat, len); (4%nat, 0x00490049)].

Definition sii_entry (d : desc) : buffer :=
  let '(hash, id, offset, len) := d in
  view_header 0x14 0x14 0x28 0x04 ++ fields [(4%nat, id)] ++
  fields [(4%nat, hash); (4%nat, id); (8%nat, offset); (4%nat, len)].

Lemma load_here w p (pre rest : buffer) v :
  (Z.to_nat p + w <= length pre)%nat -> 0 <= p -> field w (Z.to_nat p) pre = v ->
  load_le w p (pre ++ rest) = Some (v, pre ++ rest).
Proof. intros Hp H0 <-. apply (load_part [] pre rest); [cbn; lia | lia]. Qed.

Ltac load_here :=
  erewrite bind_run; [|apply load_here; [cbn; lia | cbn; lia | reflexivity]].

(** The stores gathered into the lists of fields. *)
Ltac gather :=
  rewrite ?drop_drop; cbn [fmap list_fmap concat]; rewrite ?app_nil_r, <- ?app_assoc; reflexivity.

Lemma fill_entry_header_run data_offset data_length len key_length b :
  (16 <= length b)%nat ->
  fill_entry_header R I data_offset data_length len key_length b =
    Some (tt, view_header data_offset data_length len key_length ++ drop 16 b).
Proof.
  intros Hb. unfold fill_entry_header. change b with ([] ++ b) at 1. do 6 store_here.
  rewrite store_next by (reflexivity || (rewrite !length_drop; lia)). unfold view_header. gather.
Qed.

Lemma fill_sdh_run d b :
  (48 <= length b)%nat ->
  fill_sdh R I d.1.1.1 d.1.1.2 d.1.2 d.2 b = Some (tt, sdh_entry d ++ drop 48 b).
Proof.
  destruct d as [[[hash id] offset] len]. intros Hb. unfold fill_sdh. cbn [fst snd].
  rewrite (bind_run _ _ _ _ _ (fill_entry_header_run 0x18 0x14 0x30 0x08 b ltac:(lia))).
  do 2 store_here. load_here. do 4 store_here.
  rewrite store_next by (reflexivity || (rewrite !length_drop; lia)). unfold sdh_entry. gather.
Qed.

Lemma fill_sii_run d b :
  (40 <= length b)%nat ->
  fill_sii R I d.1.1.1 d.1.1.2 d.1.2 d.2 b = Some (tt, sii_entry d ++ drop 40 b).
Proof.
  destruct d as [[[hash id] offset] len]. intros Hb. unfold fill_sii. cbn [fst snd].
  rewrite (bind_run _ _ _ _ _ (fill_entry_header_run 0x14 0x14 0x28 0x04 b ltac:(lia))).
  do 1 store_here. load_here. do 3 store_here.
  rewrite store_next by (reflexivity || (rewrite !length_drop; lia)). unfold sii_entry. gather.
Qed.
End Fill.

(** ** The entries *)

Definition desc_ok (d : desc) : Prop :=
  0 <= d.1.1.1 < 2 ^ 32 /\ 0 <= desc_id d < 2 ^ 32 /\ 0 < d.2 < 2 ^ 31.

Lemma byte_list_fields (l : list (nat * Z)) :
  byte_list (concat ((fun '(n, v) => le_bytes n v) <$> l)).
Proof. induction l as [|[n v] l IH]; [constructor|]. apply Forall_app. split; [apply byte_list_le | done]. Qed.

Lemma sdh_entry_ok d :
  desc_ok d -> entry_ok (sdh_entry d) /\ length (sdh_entry d) = 48%nat /\
  entry_fits 0 18 (sdh_entry d) /\ key_words 18 (sdh_entry d) = [d.1.1.1; desc_id d].
Proof.
  destruct d as [[[hash id] offset] len]. intros (Hh & Hi & _).
  assert (byte_list (sdh_entry (hash, id, offset, len))) as Hb.
  { unfold sdh_entry, view_header. rewrite <- !concat_app, <- !fmap_app. apply byte_list_fields. }
  split; [constructor; try done; cbn; lia|]. split; [done|].
  split; [split; [done|]; split; [done|]; cbn; lia|].
  change (key_words 18 (sdh_entry (hash, id, offset, len))) with
    [le_value (le_bytes 4 hash); le_value (le_bytes 4 id)].
  by rewrite !le_value_bytes.
Qed.

Lemma sii_entry_ok d :
  desc_ok d -> entry_ok (sii_entry d) /\ length (sii_entry d) = 40%nat /\
  entry_fits 0 16 (sii_entry d) /\ key_words 16 (sii_entry d) = [desc_id d].
Proof.
  destruct d as [[[hash id] offset] len]. intros (Hh & Hi & _).
  assert (byte_list (sii_entry (hash, id, offset, len))) as Hb.
  { unfold sii_entry, view_header. rewrite <- !concat_app, <- !fmap_app. apply byte_list_fields. }
  split; [constructor; try done; cbn; lia|]. split; [done|].
  split; [split; [done|]; split; [done|]; cbn; lia|].
  change (key_words 16 (sii_entry (hash, id, offset, len))) with [le_value (le_bytes 4 id)].
  by rewrite !le_value_bytes.
Qed.

(** ** The walk over the stream *)

(** The next header: after the descriptor, on a multiple of 16 bytes. *)
Definition next_header (len : Z) : nat :=
  Z.to_nat (Z.land (to_u 32 (len + 15)) (to_u 32 (Z.lnot 15))).

(** The descriptors from offset [p] on, up to the end or to a zero length. *)
Inductive sds_walk (sds : buffer) (size : Z) : nat -> list desc -> Prop :=
  | walk_end p : size <= Z.of_nat p -> sds_walk sds size p []
  | walk_stop p hash id offset :
      Z.of_nat p < size -> sds_header L sds p = Some (hash, id, offset, 0) -> sds_walk sds size p []
  | walk_next p d ds :
      Z.of_nat p < size -> sds_header L sds p = Some d -> desc_ok d ->
      sds_walk sds size (p + next_header d.2) ds -> sds_walk sds size p (d :: ds).

Lemma next_header_pos d : desc_ok d -> (16 <= next_header d.2)%nat.
Proof.
  intros (_ & _ & Hl). unfold next_header. rewrite to_u_small by (unfold fits_u; lia).
  change 15 with (2 ^ 4 - 1) at 2. rewrite land_clear by lia.
  change (2 ^ 4) with 16. Z.to_euclidean_division_equations; lia.
Qed.

(** ** The loop *)

Section Loop.
Context `{RecordLaws} `{!CollateLaws} `{CLibLaws}.
Context (Hctx : forall b, is_Some (get_search_ctx b)).
Context (k1 k2 : nat) (Hk : k1 <> k2) (fin1 pad1 fin2 pad2 mfin : buffer).

Abbreviation SDH := (NTFS_INDEX_SDH I).
Abbreviation SII := (NTFS_INDEX_SII I).

(** The record when the descriptors [ds] are indexed. *)
Record indexed (hdr : buffer) (attrs : list buffer) (slack ahdr1 : buffer) (es1 : list buffer)
    (ahdr2 : buffer) (es2 : list buffer) (ds : list desc) : Prop := {
  sx_rec : rec_ok hdr attrs mfin slack;
  sx_sdh : index_at attrs k1 SDH ahdr1 es1 fin1 pad1;
  sx_sii : index_at attrs k2 SII ahdr2 es2 fin2 pad2;
  sx_rule1 : rule_of ahdr1 = COLLATION_NTOFS_SECURITY_HASH I;
  sx_rule2 : rule_of ahdr2 = COLLATION_NTOFS_ULONG I;
  sx_es1 : es1 ≡ₚ sdh_entry <$> ds;
  sx_es2 : es2 ≡ₚ sii_entry <$> ds;
  sx_sorted1 : entries_sorted 0 18 es1;
  sx_sorted2 : entries_sorted 0 16 es2;
  sx_ok : Forall desc_ok ds;
}.

(** One entry into one index, when no entry has its key. *)
Lemma insert_view_run hdr attrs slack k name ahdr es fin pad new rest rule :
  rec_ok hdr attrs mfin slack -> index_at attrs k name ahdr es fin pad -> rule_of ahdr = rule ->
  rule <> 17 -> entry_ok new -> entry_fits 0 rule new -> Forall (entry_fits 0 rule) es ->
  entries_sorted 0 rule es -> (length new <= length slack)%nat ->
  (forall e, e ∈ es -> key_words rule new <> key_words rule e) ->
  exists hdr' attrs' ahdr' es',
    insert_index_entry_in_res_dir_index R I (field 4 0x1c hdr) (new ++ rest) (Z.of_nat (length new))
      (Ucs name) 0 (rec_bytes hdr attrs mfin slack) =
      Some (None, rec_bytes hdr' attrs' mfin (drop (length new) slack)) /\
    field 4 0x1c hdr' = field 4 0x1c hdr /\ length hdr' = length hdr /\
    rec_ok hdr' attrs' mfin (drop (length new) slack) /\
    index_at attrs' k name ahdr' es' fin pad /\ rule_of ahdr' = rule /\
    (forall k2 name2 ahdr2 es2 fin2 pad2, k2 <> k ->
      index_at attrs k2 name2 ahdr2 es2 fin2 pad2 -> index_at attrs' k2 name2 ahdr2 es2 fin2 pad2) /\
    es' ≡ₚ new :: es /\ entries_sorted 0 rule es'.
Proof.
  intros Hrec Hix <- Hr Hnew Hfit Hes Hsort Hroom Hkeys.
  destruct (Hctx (rec_bytes hdr attrs mfin slack)) as [ctx Hc].
  pose proof (ok_small _ _ _ _ Hrec) as Hsm. pose proof (ok_allocated _ _ _ _ Hrec) as Hal.
  rewrite (insert_index_run hdr attrs mfin slack Hrec k name ahdr es fin pad Hix (field 4 0x1c hdr) 0 new
             rest (entry_verdict 0 (rule_of ahdr) new) ctx); auto; [|..].
  2:{ rewrite to_u_small by (unfold fits_u; lia). lia. }
  2:{ apply Hnew. }
  2:{ by apply entry_decides. }
  pose proof (search_entries 0 _ new es ltac:(right; by left) Hfit Hes Hsort) as Ho.
  destruct (search _ es) as [i|] eqn:Hs.
  2:{ exfalso. destruct Ho as (e & He & Hv). apply (Hkeys e He).
      rewrite Forall_forall in Hes. destruct (Hes e He) as [_ Hf], Hfit as [_ Hf'].
      unfold entry_verdict in Hv. cbn [Z.eqb] in Hv.
      rewrite view_verdict_lex in Hv by (done || by left). cbv zeta in Hv.
      apply lex_compare_eq. by repeat case_match; zb. }
  rewrite (proj2 (Z.ltb_ge _ _)) by lia.
  destruct (with_entry_ok hdr attrs mfin slack Hrec k name ahdr es fin pad Hix new i Hnew Hroom)
    as (Hr' & Hi' & Hoth).
  pose proof (ok_hdr _ _ _ _ Hrec).
  eexists _, _, _, _. split; [reflexivity|].
  destruct (put_stored 4 0x18 (field 4 0x18 hdr + Z.of_nat (length new)) hdr ltac:(lia)) as (Lg & _ & _ & Og).
  fold (grown_hdr (Z.of_nat (length new)) hdr) in *.
  split; [by apply Og; lia|]. split; [exact Lg|]. split; [exact Hr'|]. split; [exact Hi'|].
  split; [by eapply rule_of_grown|]. split; [exact Hoth|]. split; [|apply Ho].
  rewrite <- (take_drop i es) at 3. by rewrite Permutation_middle.
Qed.

(** The entries of one index, given those of the descriptors. *)
Lemma entries_fit rule (f : desc -> buffer) es ds :
  (forall d, desc_ok d -> entry_fits 0 rule (f d)) -> Forall desc_ok ds -> es ≡ₚ f <$> ds ->
  Forall (entry_fits 0 rule) es.
Proof.
  intros Hf Hds ->. rewrite Forall_fmap. eapply Forall_impl; [exact Hds|]. intros d. apply Hf.
Qed.

(** Both entries of a descriptor whose identifier is new. *)
Lemma index_desc_run hdr attrs slack ahdr1 es1 ahdr2 es2 ds d rest1 rest2 :
  indexed hdr attrs slack ahdr1 es1 ahdr2 es2 ds -> desc_ok d ->
  desc_id d ∉ desc_id <$> ds -> (88 <= length slack)%nat ->
  exists hdr' attrs' ahdr1' es1' ahdr2' es2' m,
    insert_index_entry_in_res_dir_index R I (field 4 0x1c hdr) (sdh_entry d ++ rest1) 48 (Ucs SDH) 0
      (rec_bytes hdr attrs mfin slack) = Some (None, m) /\
    insert_index_entry_in_res_dir_index R I (field 4 0x1c hdr) (sii_entry d ++ rest2) 40 (Ucs SII) 0 m =
      Some (None, rec_bytes hdr' attrs' mfin (drop 88 slack)) /\
    field 4 0x1c hdr' = field 4 0x1c hdr /\
    indexed hdr' attrs' (drop 88 slack) ahdr1' es1' ahdr2' es2' (ds ++ [d]).
Proof.
  intros [Hrec Hx1 Hx2 Hr1 Hr2 He1 He2 Hs1 Hs2 Hds] Hd Hnew Hroom.
  destruct (sdh_entry_ok d Hd) as (Ho1 & L1 & Hf1 & K1).
  destruct (sii_entry_ok d Hd) as (Ho2 & L2 & Hf2 & K2).
  rewrite Forall_forall in Hds.
  destruct (insert_view_run hdr attrs slack k1 SDH ahdr1 es1 fin1 pad1 (sdh_entry d) rest1 18)
    as (hdr1 & attrs1 & ahdr1' & es1' & E1 & A1 & _ & Hrec1 & Hx1' & Hr1' & Hoth1 & P1 & S1); auto; try lia.
  { eapply entries_fit; [|by apply Forall_forall|exact He1]. intros x Hx. by apply sdh_entry_ok. }
  { intros e He. rewrite He1 in He. apply list_elem_of_fmap in He as (x & -> & Hx).
    destruct (sdh_entry_ok x (Hds x Hx)) as (_ & _ & _ & Kx). rewrite K1, Kx. intros [= _ Hid].
    apply Hnew. rewrite Hid. by apply list_elem_of_fmap_2. }
  pose proof (Hoth1 _ _ _ _ _ _ (not_eq_sym Hk) Hx2) as Hx2'.
  destruct (insert_view_run hdr1 attrs1 (drop 48 slack) k2 SII ahdr2 es2 fin2 pad2 (sii_entry d) rest2 16)
    as (hdr2 & attrs2 & ahdr2' & es2' & E2 & A2 & _ & Hrec2 & Hx2'' & Hr2' & Hoth2 & P2 & S2);
    rewrite ?L1, ?L2, ?length_drop in *; auto; try lia.
  { eapply entries_fit; [|by apply Forall_forall|exact He2]. intros x Hx. by apply sii_entry_ok. }
  { intros e He. rewrite He2 in He. apply list_elem_of_fmap in He as (x & -> & Hx).
    destruct (sii_entry_ok x (Hds x Hx)) as (_ & _ & _ & Kx). rewrite K2, Kx. intros [= Hid].
    apply Hnew. rewrite Hid. by apply list_elem_of_fmap_2. }
  rewrite !drop_drop in *. cbn [Nat.add] in *.
  eexists hdr2, attrs2, ahdr1', es1', ahdr2', es2', _.
  split; [exact E1|]. split; [rewrite <- A1; exact E2|]. split; [congruence|].
  constructor; auto.
  - rewrite P1, He1, fmap_app. cbn. by rewrite Permutation_app_comm.
  - rewrite P2, He2, fmap_app. cbn. by rewrite Permutation_app_comm.
  - apply Forall_app. split; [by apply Forall_forall|]. by constructor.
Qed.

Lemma secure_loop_run sds size p ds :
  sds_walk sds size p ds ->
  forall fuel hdr attrs slack ahdr1 es1 ahdr2 es2 done sdh sii,
  indexed hdr attrs slack ahdr1 es1 ahdr2 es2 done -> size - Z.of_nat p <= Z.of_nat fuel ->
  (48 <= length sdh)%nat -> (40 <= length sii)%nat ->
  NoDup (desc_id <$> done ++ ds) -> (88 * length ds <= length slack)%nat ->
  exists hdr' attrs' slack' ahdr1' es1' ahdr2' es2',
    secure_loop R L I fuel (field 4 0x1c hdr) sds size p sdh sii (rec_bytes hdr attrs mfin slack) =
      Some (None, rec_bytes hdr' attrs' mfin slack') /\
    indexed hdr' attrs' slack' ahdr1' es1' ahdr2' es2' (done ++ ds).
Proof.
  induction 1 as [p Hp|p hash id offset Hp Hh|p d ds Hp Hh Hd Hw IH];
    intros fuel hdr attrs slack ahdr1 es1 ahdr2 es2 ds0 sdh sii Hix Hfuel Lsdh Lsii Hnd Hroom.
  - exists hdr, attrs, slack, ahdr1, es1, ahdr2, es2. rewrite app_nil_r. split; [|done].
    destruct fuel; cbn [secure_loop]; by rewrite (proj2 (Z.ltb_ge _ _)) by lia.
  - exists hdr, attrs, slack, ahdr1, es1, ahdr2, es2. rewrite app_nil_r. split; [|done].
    destruct fuel; [lia|]. cbn [secure_loop]. rewrite (proj2 (Z.ltb_lt _ _)) by lia. by rewrite Hh.
  - destruct fuel as [|fuel]; [lia|]. cbn [secure_loop]. rewrite (proj2 (Z.ltb_lt _ _)) by lia.
    rewrite Hh. pose proof (next_header_pos d Hd) as Hpos. pose proof Hd as (_ & _ & Hlen).
    pose proof (fill_sdh_run d sdh Lsdh) as F1. pose proof (fill_sii_run d sii Lsii) as F2.
    cbn [length] in Hroom.
    destruct (index_desc_run hdr attrs slack ahdr1 es1 ahdr2 es2 ds0 d (drop 48 sdh) (drop 40 sii) Hix Hd)
      as (hdr' & attrs' & ahdr1' & es1' & ahdr2' & es2' & m & E1 & E2 & A & Hix'); [|lia|].
    { rewrite fmap_app, fmap_cons in Hnd. apply NoDup_app in Hnd as (_ & Hdis & _).
      intros Hin. apply (Hdis _ Hin). constructor. }
    destruct (sdh_entry_ok d Hd) as (_ & L1 & _). destruct (sii_entry_ok d Hd) as (_ & L2 & _).
    destruct (IH fuel hdr' attrs' (drop 88 slack) ahdr1' es1' ahdr2' es2' (ds0 ++ [d])
                (sdh_entry d ++ drop 48 sdh) (sii_entry d ++ drop 40 sii) Hix')
      as (hdr2 & attrs2 & slack2 & ahdr12 & es12 & ahdr22 & es22 & El & Hix2);
      rewrite ?length_app, ?length_drop, <- ?app_assoc; cbn [app]; try lia; try done.
    exists hdr2, attrs2, slack2, ahdr12, es12, ahdr22, es22. rewrite <- app_assoc in Hix2. split; [|done].
    destruct d as [[[hash id] offset] len]. cbn [fst snd] in *.
    rewrite (proj2 (Z.eqb_neq len 0)) by lia.
    rewrite (bind_run _ _ _ _ _ (in_struct_run _ _ _ _ F1)).
    rewrite (bind_run _ _ _ _ _ (in_struct_run _ _ _ _ F2)).
    rewrite (bind_run _ _ _ _ _ E1). rewrite (bind_run _ _ _ _ _ E2). by rewrite <- A.
Qed.
End Loop.

(** ** The theorem *)

(** [C33] The indexes of [$Secure].  On a well-formed record with empty [$SDH] and
    [$SII] roots and room for 88 bytes of entries per descriptor, a well-formed
    stream of descriptors with distinct identifiers, and memory for its two buffers
    and the search contexts, [initialize_secure] ends and succeeds without leaving record or
    stream: [$SDH] then holds for each descriptor the entry with its hash and
    identifier as key, [$SII] the one with its identifier as key, both with hash,
    identifier, offset and length as data, nothing else, both sorted by their
    collation rules; record and roots are well formed. *)
Theorem initialize_secure_correct `{RecordLaws} `{!CollateLaws} `{CLibLaws} Y X Ls k1 k2 hdr attrs mfin
    slack ahdr1 fin1 pad1 ahdr2 fin2 pad2 sds size ds :
  Y = documented_record -> X = documented_index -> Ls = documented_layout ->
  (forall b, is_Some (get_search_ctx b)) -> k1 <> k2 -> rec_ok hdr attrs mfin slack ->
  index_at attrs k1 (NTFS_INDEX_SDH X) ahdr1 [] fin1 pad1 ->
  index_at attrs k2 (NTFS_INDEX_SII X) ahdr2 [] fin2 pad2 ->
  rule_of ahdr1 = COLLATION_NTOFS_SECURITY_HASH X -> rule_of ahdr2 = COLLATION_NTOFS_ULONG X ->
  sds_walk sds size 0 ds -> NoDup (desc_id <$> ds) -> (88 * length ds <= length slack)%nat ->
  exists hdr' attrs' slack' ahdr1' es1 ahdr2' es2,
    initialize_secure Y Ls X (field 4 0x1c hdr) true true sds size (rec_bytes hdr attrs mfin slack) =
      Some (None, rec_bytes hdr' attrs' mfin slack') /\
    rec_ok hdr' attrs' mfin slack' /\
    index_at attrs' k1 (NTFS_INDEX_SDH X) ahdr1' es1 fin1 pad1 /\
    index_at attrs' k2 (NTFS_INDEX_SII X) ahdr2' es2 fin2 pad2 /\
    es1 ≡ₚ sdh_entry <$> ds /\ entries_sorted 0 (COLLATION_NTOFS_SECURITY_HASH X) es1 /\
    es2 ≡ₚ sii_entry <$> ds /\ entries_sorted 0 (COLLATION_NTOFS_ULONG X) es2.
Proof.
  intros -> -> -> Hctx Hk Hrec Hi1 Hi2 Hr1 Hr2 Hw Hnd Hroom.
  destruct (secure_loop_run Hctx k1 k2 Hk fin1 pad1 fin2 pad2 mfin sds size 0 ds Hw (Z.to_nat size) hdr
              attrs slack ahdr1 [] ahdr2 [] [] (replicate 82 0) (replicate 82 0))
    as (hdr' & attrs' & slack' & ahdr1' & es1 & ahdr2' & es2 & E & [Hrec' Hx1 Hx2 _ _ He1 He2 Hs1 Hs2 _]);
    try done; try (rewrite length_replicate; lia); try lia.
  { constructor; try done; constructor. }
  exists hdr', attrs', slack', ahdr1', es1, ahdr2', es2. by split_and!.
Qed.

(** ** Sample *)

#[local] Existing Instance plain_lib.
#[local] Existing Instance plain_laws.
#[local] Existing Instance plain_collate.
#[local] Existing Instance plain_clib.
#[local] Existing Instance plain_clib_laws.

(** The stream the formatter writes. *)
Definition secure_sds : buffer :=
  match init_secure_sds documented_layout 0 (replicate 0xfc 0) with Some (_, b) => b | None => [] end.

Definition secure_descs : list desc := [(0xF80312F0, 0x100, 0, 0x7c); (0xB32451, 0x101, 0x80, 0x7c)].

Lemma secure_sds_walk : sds_walk secure_sds 0xfc 0 secure_descs.
Proof.
  apply walk_next; [done | vm_compute; reflexivity | repeat split; done |].
  apply walk_next; [done | vm_compute; reflexivity | repeat split; done |].
  apply walk_end. done.
Qed.

Definition secure_root1 : buffer := sample_ahdr [0x24; 0x53; 0x44; 0x48] 18 0.
Definition secure_root2 : buffer := sample_ahdr [0x24; 0x53; 0x49; 0x49] 16 0.
Definition secure_attrs : list buffer :=
  [sample_std; root_bytes secure_root1 [] sample_iend []; root_bytes secure_root2 [] sample_iend []].

Lemma initialize_secure_correct_witness :
  exists m' es1,
    initialize_secure documented_record documented_layout documented_index 1024 true true secure_sds 0xfc
      (rec_bytes (sample_hdr 296) secure_attrs sample_end (replicate 728 7)) = Some (None, m') /\
    es1 ≡ₚ sdh_entry <$> secure_descs.
Proof.
  destruct (initialize_secure_correct documented_record documented_index documented_layout 1 2
              (sample_hdr 296) secure_attrs sample_end (replicate 728 7) secure_root1 sample_iend []
              secure_root2 sample_iend [] secure_sds 0xfc secure_descs eq_refl eq_refl eq_refl
              ltac:(by eexists) ltac:(done) ltac:(apply rec_okb_ok; vm_compute; reflexivity)
              ltac:(split; [done | apply root_okb_ok; vm_compute; done | vm_compute; done])
              ltac:(split; [done | apply root_okb_ok; vm_compute; done | vm_compute; done])
              eq_refl eq_refl secure_sds_walk
              ltac:(apply NoDup_cons; split; [intros Hin%list_elem_of_singleton; done | apply NoDup_singleton])
              ltac:(apply Nat.leb_le; reflexivity))
    as (hdr' & attrs' & slack' & ahdr1' & es1 & ahdr2' & es2 & E & _ & _ & _ & Hp & _).
  eexists _, es1. exact (conj E Hp).
Defined.
