(* ===== verification/IndexLinks.v ===== *)
(** * Hard links

    [create_hardlink] changes the record of the file and the index block of its
    directory: one more link, one more name attribute, one more entry with that
    attribute as its key. *)

From stdpp Require Import sorting.
From S2P Require Import Prelude Bytes Sd Mft MftFacts MftTheorems MftNonResFacts.
From S2P Require Import Index IndexFacts IndexRoot IndexTheorems.

(** ** The link count *)

Definition links (n : Z) (hdr : buffer) : buffer := put 0x12 (le_bytes 2 n) hdr.

(** The record with another link count. *)
Lemma links_facts n hdr :
  (0x30 <= length hdr)%nat ->
  length (links n hdr) = length hdr /\ (byte_list hdr -> byte_list (links n hdr)) /\
  (0 <= n < 2 ^ 16 -> field 2 0x12 (links n hdr) = n) /\
  (forall n' k', (k' + n' <= 0x12 \/ 0x14 <= k')%nat ->
    field n' k' (links n hdr) = field n' k' hdr).
Proof. intros. apply (put_stored 2 0x12). lia. Qed.

Lemma links_ok n hdr attrs fin slack :
  rec_ok hdr attrs fin slack -> rec_ok (links n hdr) attrs fin slack.
Proof.
  intros [Hb Hh Ho Hbiu Hal Hsm Ha Hf Hs]. destruct (links_facts n hdr Hh) as (L & B & _ & O).
  constructor; rewrite ?L; try rewrite O by lia; auto.
Qed.

Lemma load_links hdr post :
  (0x30 <= length hdr)%nat ->
  load16 (m_link_count I) (hdr ++ post) = Some (field 2 0x12 hdr, hdr ++ post).
Proof. intros. apply (hdr_load hdr post 0x12 2). lia. Qed.

Lemma store_links n hdr post :
  (0x30 <= length hdr)%nat ->
  store16 (m_link_count I) n (hdr ++ post) = Some (tt, links n hdr ++ post).
Proof. intros. apply (hdr_store hdr post 0x12 2). lia. Qed.

Lemma undo_link_count_run hdr post :
  (0x30 <= length hdr)%nat ->
  undo_link_count I (hdr ++ post) = Some (tt, links (field 2 0x12 hdr - 1) hdr ++ post).
Proof.
  intros Hh. unfold undo_link_count. rewrite (bind_run _ _ _ _ _ (load_links hdr post Hh)).
  by apply store_links.
Qed.

(** The count taken back after the increment. *)
Lemma links_undo hdr :
  byte_list hdr -> (0x30 <= length hdr)%nat -> field 2 0x12 hdr < 0xffff ->
  links (field 2 0x12 (links (field 2 0x12 hdr + 1) hdr) - 1) (links (field 2 0x12 hdr + 1) hdr) = hdr.
Proof.
  intros Hb Hh Hc. destruct (links_facts (field 2 0x12 hdr + 1) hdr Hh) as (_ & _ & S & _).
  pose proof (field_range 2 0x12 hdr Hb ltac:(lia)) as Hr.
  rewrite S by (change (2 ^ 16) with 0x10000; lia).
  replace (field 2 0x12 hdr + 1 - 1) with (field 2 0x12 hdr) by lia.
  unfold links. apply put_back; [done | lia].
Qed.

Section Links.
Context `{RecordLaws}.

(** ** The times and the kind of the data *)

(** Standard information and unnamed data that is there can be read. *)
Definition info_readable (attrs : list buffer) : Prop :=
  Forall (fun a => attr_type a = 0x10 -> 48 <= field 4 16 a) attrs.

(** The attribute a search by type stops at, and the record seen from it. *)
Lemma find_by_type type hdr attrs fin slack ctx i :
  rec_ok hdr attrs fin slack -> type <> 0 ->
  find_in type NULL_name CASE_SENSITIVE None 0 attrs = (i, true) ->
  get_search_ctx (rec_bytes hdr attrs fin slack) = Some ctx ->
  exists a pre post,
    a ∈ attrs /\ attr_type a = type /\ attr_ok a /\ rec_bytes hdr attrs fin slack = pre ++ a ++ post /\
    mkntfs_attr_find R type NULL_name CASE_SENSITIVE None 0 ctx (rec_bytes hdr attrs fin slack) =
      Some ((None, mkCtx (Z.of_nat (length pre)) false), rec_bytes hdr attrs fin slack).
Proof.
  intros Hok Ht Hf Hc.
  pose proof (find_fresh hdr attrs fin slack ctx type NULL_name CASE_SENSITIVE None 0 Hok ltac:(lia) Hc) as E.
  rewrite Hf in E.
  assert (exists a, attrs !! i = Some a /\ attr_type a = type) as (a & Ha & Hta).
  { clear -Hf Ht. revert i Hf. induction attrs as [|a l IH]; intros i; cbn [find_in]; [done|].
    destruct (find_in type _ _ _ _ l) as [j f]. cbn [name_verdict value_verdict].
    destruct (negb (type =? 0) && _); [done|]. rewrite (proj2 (Z.eqb_neq type 0) Ht).
    destruct (Z.eqb_spec (attr_type a) type); cbn [negb]; intros [= <-]; [by exists a|].
    subst f. destruct (IH j eq_refl) as (b & Hb & Htb). by exists b. }
  pose proof (ok_attrs _ _ _ _ Hok) as Hat. rewrite Forall_lookup in Hat.
  exists a, (hdr ++ concat (take i attrs)), (concat (drop (S i) attrs) ++ fin ++ slack).
  split; [by eapply list_elem_of_lookup_2|]. split; [done|]. split; [by eapply Hat|]. split; [|exact E].
  rewrite <- (take_drop_middle attrs i a Ha) at 1. apply rec_split.
Qed.

Lemma stdinfo_time_run now hdr attrs fin slack :
  rec_ok hdr attrs fin slack -> info_readable attrs -> 0 <= now < 2 ^ 64 ->
  exists t, stdinfo_time R now (rec_bytes hdr attrs fin slack) = Some (t, rec_bytes hdr attrs fin slack) /\
    0 <= t < 2 ^ 64.
Proof.
  intros Hok Hinfo Hnow. unfold stdinfo_time.
  destruct (get_search_ctx _) as [ctx|] eqn:Hc; [|by exists now].
  destruct (find_in 0x10 NULL_name CASE_SENSITIVE None 0 attrs) as [i [|]] eqn:Ef.
  2:{ pose proof (find_fresh hdr attrs fin slack ctx 0x10 NULL_name CASE_SENSITIVE None 0 Hok ltac:(lia) Hc)
        as E. rewrite Ef in E. rewrite (bind_run _ _ _ _ _ E). by exists now. }
  destruct (find_by_type 0x10 hdr attrs fin slack ctx i Hok ltac:(done) Ef Hc)
    as (a & pre & post & Ha & Ht & Haok & Em & E).
  rewrite (bind_run _ _ _ _ _ E), Em. cbn [ctx_attr].
  unfold info_readable in Hinfo. rewrite Forall_forall in Hinfo. specialize (Hinfo _ Ha Ht).
  pose proof Haok as [Hb Hs _ _ _ _ Hv]. pose proof (field_range 2 20 a Hb ltac:(lia)).
  read 2%nat 20%nat.
  exists (field 8 0 (value_of a)). split.
  - erewrite (load_value _ a _ _ 0%nat); [reflexivity | done | lia | cbn; lia].
  - rewrite <- field_value by (done || lia). apply (field_range 8); [done | lia].
Qed.

Lemma non_resident_run hdr attrs fin slack :
  rec_ok hdr attrs fin slack ->
  exists b, non_resident_unnamed_data R (rec_bytes hdr attrs fin slack) =
    Some (b, rec_bytes hdr attrs fin slack).
Proof.
  intros Hok. unfold non_resident_unnamed_data.
  destruct (get_search_ctx _) as [ctx|] eqn:Hc; [|by exists true].
  destruct (find_in 0x80 NULL_name CASE_SENSITIVE None 0 attrs) as [i [|]] eqn:Ef.
  2:{ pose proof (find_fresh hdr attrs fin slack ctx 0x80 NULL_name CASE_SENSITIVE None 0 Hok ltac:(lia) Hc)
        as E. rewrite Ef in E. rewrite (bind_run _ _ _ _ _ E). by exists true. }
  destruct (find_by_type 0x80 hdr attrs fin slack ctx i Hok ltac:(done) Ef Hc)
    as (a & pre & post & Ha & Ht & Haok & Em & E).
  rewrite (bind_run _ _ _ _ _ E), Em. cbn [ctx_attr]. pose proof (ok_size _ Haok).
  erewrite bind_run; [|eapply (load8_part _ _ _ _ 8%nat); [cbn; lia | lia]]. by eexists.
Qed.

(** ** The name attribute *)

(** Every outcome of [add_link_name]: the record as before, or with one more link
    and one more name. *)
Lemma add_link_name_run hdr attrs fin slack uname v rest :
  rec_ok hdr attrs fin slack -> str2ucs None = inr (uname, 0) -> byte_list v ->
  Z.of_nat (length v) < 32000 ->
  exists err m',
    add_link_name R I (v ++ rest) (Z.of_nat (length v)) (rec_bytes hdr attrs fin slack) = Some (err, m') /\
    match err with
    | Some e =>
        m' = rec_bytes hdr attrs fin slack /\ (e = EINVAL \/ e = ENOMEM \/ e = EEXIST \/ e = EOPNOTSUPP)
    | None =>
        field 2 0x12 hdr < 0xffff /\
        exists i hdr' a slack',
          m' = rec_bytes hdr' (take i attrs ++ a :: drop i attrs) fin slack' /\
          rec_ok hdr' (take i attrs ++ a :: drop i attrs) fin slack' /\
          field 2 0x12 hdr' = field 2 0x12 hdr + 1 /\ attr_type a = 0x30 /\ value_of a = v
    end.
Proof.
  intros Hok Hname Hv Hlv. pose proof (ok_hdr _ _ _ _ Hok) as Hh. pose proof (ok_hdr_bytes _ _ _ _ Hok) as Hb.
  pose proof (field_range 2 0x12 hdr Hb ltac:(lia)) as Hr.
  unfold add_link_name. unfold rec_bytes at 1. rewrite (bind_run _ _ _ _ _ (load_links hdr _ Hh)).
  destruct (Z.eqb_spec (field 2 0x12 hdr) 0xffff) as [|Hne];
    [eexists _, _; split; [reflexivity|]; split; [done | by left]|].
  rewrite (bind_run _ _ _ _ _ (store_links _ hdr _ Hh)).
  change (256 ^ Z.of_nat 2) with 0x10000 in Hr.
  set (h1 := links (field 2 0x12 hdr + 1) hdr). fold (rec_bytes h1 attrs fin slack).
  pose proof (links_ok (field 2 0x12 hdr + 1) _ _ _ _ Hok) as Hok1. fold h1 in Hok1.
  assert (name_matches uname 0) as Hnm by (by apply (str2ucs_law None uname 0)).
  assert (val_matches (Some v) (Z.of_nat (length v))) as Hval by done.
  rewrite Nat2Z.id, take_app_length.
  pose proof (insert_resident_run h1 fin slack attrs 0x30 uname 0 0 1 (Some v) (Z.of_nat (length v)) Hok1 Hnm
                Hval ltac:(lia) None Hname) as E.
  destruct (links_facts (field 2 0x12 hdr + 1) hdr Hh) as (L1 & _ & S1 & _). fold h1 in L1, S1.
  pose proof (undo_link_count_run h1 (concat attrs ++ fin ++ slack) ltac:(lia)) as Eu.
  unfold h1 in Eu at 2 3. rewrite (links_undo hdr Hb Hh ltac:(lia)) in Eu.
  fold (rec_bytes h1 attrs fin slack) (rec_bytes hdr attrs fin slack) in Eu.
  set (found := find_in _ _ _ _ _ _) in E.
  destruct (get_search_ctx _) as [ctx|];
    [destruct (snd found); [|destruct (Z.ltb_spec (Z.of_nat (length slack))
                                        (resident_size 0 (Z.of_nat (length v)))) as [|Hroom]]|];
    rewrite (bind_run _ _ _ _ _ E);
    try (rewrite (bind_run _ _ _ _ _ Eu); eexists _, _; split; [reflexivity|]; split; [done | tauto]).
  eexists None, _. split; [reflexivity|]. split; [lia|].
  destruct (new_attr_fields h1 fin slack attrs 0x30 uname 0 0 1 (Some v) (Z.of_nat (length v)) Hok1
              ltac:(lia) Hnm Hval ltac:(lia) (fst found) Hroom ltac:(lia)) as (Ht & Hvl & _).
  eexists (fst found), _, _, _. split; [reflexivity|].
  split; [apply inserted_ok; auto; lia|]. split; [|done].
  rewrite inserted_field by lia. apply S1. change (2 ^ 16) with 0x10000. lia.
Qed.
End Links.

(** ** The theorem *)

Lemma on_other_run {A} (other other' : buffer) (c : M A) x b :
  c other = Some (x, other') -> on_other other c b = Some ((x, other'), b).
Proof. unfold on_other. by intros ->. Qed.

(** The name attribute: the bytes before the name, and the name. *)
Lemma name_attr_facts h u :
  length h = 66%nat -> byte_list h -> field 1 64 h = Z.of_nat (length u) ->
  Forall (fun x => 0 <= x < 2 ^ 16) u -> Z.of_nat (length u) <= 255 ->
  attr_fits (h ++ ucs_bytes u) /\ Z.of_nat (length (h ++ ucs_bytes u)) < 32000 /\
  fn_name R (h ++ ucs_bytes u) = u.
Proof.
  intros Lh Hb Hn Hu Hlu.
  assert (byte_list (ucs_bytes u)) as Hbu.
  { clear. induction u; cbn [ucs_bytes]; [constructor|].
    apply Forall_app. split; [apply byte_list_le | done]. }
  assert (field 1 64 (h ++ ucs_bytes u) = Z.of_nat (length u)) as Hf by (rewrite field_hdr by lia; done).
  unfold attr_fits. rewrite Hf, length_app, length_ucs_bytes. split_and!; try lia.
  { by apply Forall_app. }
  unfold fn_name. cbn [fn_file_name_length fn_file_name documented_record].
  change (Z.to_nat 64) with 64%nat. change (Z.to_nat 66) with 66%nat. rewrite Hf.
  rewrite <- Lh, drop_app_length. rewrite take_ge by (rewrite length_ucs_bytes; lia).
  by apply bytes_ucs_bytes.
Qed.

(** The index refuses the entry: the link is taken back, the attribute stays. *)
Lemma refused_link_run `{RecordLib} hdr attrs fin hdr' i a slack' idx c slack e :
  rec_ok hdr attrs fin slack -> rec_ok hdr' (take i attrs ++ a :: drop i attrs) fin slack' ->
  field 2 0x12 hdr' = field 2 0x12 hdr + 1 -> attr_type a = 0x30 -> e = EEXIST \/ e = ENOSPC ->
  c idx = Some (Some e, idx) ->
  exists m',
    ('(err, idx) ← on_other idx c;
     (if bool_decide (err <> None) then undo_link_count I else mret tt);; mret (err, idx))
      (rec_bytes hdr' (take i attrs ++ a :: drop i attrs) fin slack') = Some ((Some e, idx), m') /\
    exists i hdr' a slack',
      m' = rec_bytes hdr' (take i attrs ++ a :: drop i attrs) fin slack' /\
      rec_ok hdr' (take i attrs ++ a :: drop i attrs) fin slack' /\
      field 2 0x12 hdr' = field 2 0x12 hdr /\ attr_type a = 0x30 /\ (e = EEXIST \/ e = ENOSPC).
Proof.
  intros Hok Hok' Hl Hta He E. rewrite (bind_run _ _ _ _ _ (on_other_run _ _ _ _ _ E)).
  rewrite bool_decide_true by done. unfold rec_bytes.
  pose proof (ok_hdr _ _ _ _ Hok') as Hh'. pose proof (ok_hdr _ _ _ _ Hok) as Hh.
  rewrite (bind_run _ _ _ _ _ (undo_link_count_run hdr' _ Hh')). eexists. split; [reflexivity|].
  eexists i, _, a, slack'. split; [reflexivity|]. split; [by apply links_ok|]. split; [|done].
  destruct (links_facts (field 2 0x12 hdr' - 1) hdr' Hh') as (_ & _ & S1 & _).
  rewrite Hl in *. replace (field 2 18 hdr + 1 - 1) with (field 2 18 hdr) in * by lia. apply S1.
  exact (field_range 2 0x12 hdr (ok_hdr_bytes _ _ _ _ Hok) ltac:(lia)).
Qed.

(** Up to the increment of the count: the record and the index are only read, and
    the name attribute is filled. *)
Lemma filled_name_run `{RecordLaws} hdr attrs fin slack now junk parent asz dsz flags ea tag s ntype u :
  rec_ok hdr attrs fin slack -> info_readable attrs -> mbstoucs s = inr u ->
  (length u <= length s)%nat -> Forall (fun x => 0 <= x < 2 ^ 16) u -> 1 <= Z.of_nat (length u) <= 255 ->
  length junk = (66 + (length s + 1) * 2)%nat -> byte_list junk -> (ea = 0 \/ tag = 0) ->
  0 <= parent < 2 ^ 64 -> 0 <= now < 2 ^ 64 ->
  let m := rec_bytes hdr attrs fin slack in
  exists t b v rest,
    stdinfo_time R now m = Some (t, m) /\
    (if negb (asz =? 0) then non_resident_unnamed_data R else mret false) m = Some (b, m) /\
    fill_file_name R parent t t t t (if (b : bool) then asz else Z.land (dsz + 7) (-8)) dsz flags ea tag s
      ntype junk = Some (inr (Z.of_nat (length u)), v ++ rest) /\
    sizeof_FILE_NAME_ATTR R + Z.of_nat (length u) * 2 = Z.of_nat (length v) /\
    attr_fits v /\ Z.of_nat (length v) < 32000 /\ fn_name R v = u /\ field 8 0 v = parent.
Proof.
  intros Hok Hinfo Hu Hlu Hu16 Hn Hj Hjb Hun Hp Hnow m.
  destruct (stdinfo_time_run now hdr attrs fin slack Hok Hinfo Hnow) as (t & Et & Ht).
  assert (exists b, (if negb (asz =? 0) then non_resident_unnamed_data R else mret false) m = Some (b, m))
    as (b & Eb).
  { destruct (negb (asz =? 0)); [by apply non_resident_run | by exists false]. }
  destruct (fill_file_name_run parent t t t t (if b then asz else Z.land (dsz + 7) (-8)) dsz flags ea tag s
              ntype u junk Hu Hlu Hj Hjb Hun Hn Hp Ht Ht Ht Ht Hu16)
    as (h & rest & Efn & Lh & Hbh & F0 & _ & _ & _ & _ & F5).
  destruct (name_attr_facts h u Lh Hbh F5 Hu16 ltac:(lia)) as (Hfit & Hlv & Hfn).
  exists t, b, (h ++ ucs_bytes u), rest. rewrite <- app_assoc. split_and!; try done.
  - rewrite length_app, length_ucs_bytes, Lh. change (sizeof_FILE_NAME_ATTR R) with 66. lia.
  - by rewrite field_hdr by lia.
Qed.

(** [C32] Adding a link.  Neither record nor index block is accessed outside.  On
    success the record has one more link and one more name attribute, the block one
    more entry, and the entry's key is the attribute's value: the parent given and
    the converted name, the entry's reference the file's.  On failure the block is
    unchanged; so is the record, except when the name could not be put into the
    block ([EEXIST], [ENOSPC]): the link count is taken back, the name attribute
    stays in the record. *)
Theorem create_hardlink_correct `{RecordLaws} `{!CollateLaws} `{CLibLaws} Y X hdr attrs fin slack
    bhdr es bfin bslack now junk uname parent ref asz dsz flags ea tag s ntype u :
  Y = documented_record -> X = documented_index -> rec_ok hdr attrs fin slack -> info_readable attrs ->
  block_ok bhdr es bfin bslack -> Forall (entry_fits 0x30 0) es ->
  str2ucs None = inr (uname, 0) -> mbstoucs s = inr u -> (length u <= length s)%nat ->
  Forall (fun x => 0 <= x < 2 ^ 16) u -> 1 <= Z.of_nat (length u) <= 255 ->
  length junk = (66 + (length s + 1) * 2)%nat -> byte_list junk -> (ea = 0 \/ tag = 0) ->
  0 <= parent < 2 ^ 64 -> 0 <= now < 2 ^ 64 -> 0 <= ref < 2 ^ 64 ->
  let m := rec_bytes hdr attrs fin slack in
  let idx := rec_bytes bhdr es bfin bslack in
  exists err idx' m',
    create_hardlink Y X now (Some junk) idx parent ref asz dsz flags ea tag s ntype m =
      Some ((err, idx'), m') /\
    match err with
    | Some e =>
        idx' = idx /\
        (m' = m \/
         exists i hdr' a slack',
           m' = rec_bytes hdr' (take i attrs ++ a :: drop i attrs) fin slack' /\
           rec_ok hdr' (take i attrs ++ a :: drop i attrs) fin slack' /\
           field 2 0x12 hdr' = field 2 0x12 hdr /\ attr_type a = 0x30 /\ (e = EEXIST \/ e = ENOSPC))
    | None =>
        exists v i hdr' a slack' j bhdr' e bslack',
          m' = rec_bytes hdr' (take i attrs ++ a :: drop i attrs) fin slack' /\
          rec_ok hdr' (take i attrs ++ a :: drop i attrs) fin slack' /\
          field 2 0x12 hdr' = field 2 0x12 hdr + 1 /\ attr_type a = 0x30 /\ value_of a = v /\
          idx' = rec_bytes bhdr' (take j es ++ e :: drop j es) bfin bslack' /\
          block_ok bhdr' (take j es ++ e :: drop j es) bfin bslack' /\
          field 8 0 e = ref /\ take (length v) (drop 16 e) = v /\
          field 8 0 v = parent /\ fn_name Y v = u
    end.
Proof.
  intros -> -> Hok Hinfo Hblk Hes Hname Hu Hlu Hu16 Hn Hj Hjb Hun Hp Hnow Href m idx.
  destruct (filled_name_run hdr attrs fin slack now junk parent asz dsz flags ea tag s ntype u)
    as (t & b & v & rest & Et & Eb & Efn & Ls & Hfit & Hlv & Hfn & Hpar); auto.
  fold m in Et, Eb. unfold create_hardlink. rewrite (bind_run _ _ _ _ _ Et), (bind_run _ _ _ _ _ Eb).
  rewrite Efn, Ls.
  destruct (add_link_name_run hdr attrs fin slack uname v rest Hok Hname (proj1 Hfit) Hlv)
    as (err & m1 & E1 & Hm1).
  fold m in E1. rewrite (bind_run _ _ _ _ _ E1).
  destruct err as [e|].
  { destruct Hm1 as [-> _]. eexists _, _, _. split; [reflexivity|]. split; [done | by left]. }
  destruct Hm1 as (Hc & i & hdr' & a & slack' & -> & Hok' & Hl & Hta & Hva).
  assert (Forall name_fits es) as Hnf.
  { eapply Forall_impl; [exact Hes|]. by intros x (_ & _ & ?). }
  pose proof (insert_link_run bhdr es bfin bslack ref v rest Hblk Hnf Hfit Hlv) as E2.
  fold idx in E2.
  destruct (search _ es) as [j|].
  2:{ destruct (refused_link_run hdr attrs fin hdr' i a slack' _ _ _ EEXIST Hok Hok' Hl Hta ltac:(by left) E2) as (m' & Em & Hx).
      eexists _, _, _. split; [exact Em|]. split; [done | by right]. }
  destruct (Z.ltb_spec (Z.of_nat (length bslack)) (link_size v)) as [|Hroom].
  { destruct (refused_link_run hdr attrs fin hdr' i a slack' _ _ _ ENOSPC Hok Hok' Hl Hta ltac:(by right) E2) as (m' & Em & Hx).
    eexists _, _, _. split; [exact Em|]. split; [done | by right]. }
  rewrite (bind_run _ _ _ _ _ (on_other_run _ _ _ _ _ E2)).
  eexists None, _, _. split; [reflexivity|].
  destruct (link_inserted bhdr es bfin bslack ref v j Hblk Hfit Hlv Hroom) as (Hb' & _ & Fr & _ & Fv).
  eexists v, i, hdr', a, slack', j, _, _, _. split; [reflexivity|].
  split; [exact Hok'|]. split; [exact Hl|]. split; [exact Hta|]. split; [exact Hva|].
  split; [reflexivity|]. split; [exact Hb'|]. split; [rewrite Fr; by apply Z.mod_small|].
  split; [exact Fv|]. by split.
Qed.

(** ** Sample *)

#[local] Existing Instance plain_lib.
#[local] Existing Instance plain_laws.
#[local] Existing Instance plain_collate.
#[local] Existing Instance plain_clib.
#[local] Existing Instance plain_clib_laws.

(** Linking the sample record, as A, into the directory that holds B. *)
Lemma create_hardlink_correct_witness :
  exists err idx' m',
    create_hardlink documented_record documented_index 0 (Some (replicate 70 9))
      (rec_bytes (sample_bhdr 88 100) [sample_link] sample_iend (replicate 100 0)) 5 7 0 0 6 0 0 [65] 3
      (rec_bytes (sample_hdr 136) [sample_std] sample_end sample_slack) = Some ((err, idx'), m').
Proof.
  destruct (create_hardlink_correct documented_record documented_index (sample_hdr 136) [sample_std] sample_end
              sample_slack (sample_bhdr 88 100) [sample_link] sample_iend (replicate 100 0) 0
              (replicate 70 9) AT_UNNAMED 5 7 0 0 6 0 0 [65] 3 [65] eq_refl eq_refl sample_ok
              ltac:(constructor; [intros _; apply Z.leb_le; reflexivity | constructor]) sample_block_ok
              ltac:(constructor; [|constructor]; split;
                    [apply byte_listb_ok; reflexivity | split; [apply Nat.leb_le; reflexivity | apply Z.leb_le; reflexivity]])
              eq_refl eq_refl ltac:(cbn; lia) ltac:(repeat constructor; lia) ltac:(cbn; lia) eq_refl
              ltac:(apply byte_listb_ok; reflexivity) ltac:(by left) ltac:(lia) ltac:(lia) ltac:(lia))
    as (err & idx' & m' & E & _).
  exists err, idx', m'. exact E.
Defined.
