(* ===== verification/IndexLarge.v ===== *)
(** * Large indexes

    Model of src/NTFSModule/bridge/mkntfs/mkntfs.c: [upgrade_to_large_index], which
    moves the entries of an index root into an index block.  Resizing the attribute
    and the update sequence of the block are libntfs-3g's ([LargeLib]). *)

From S2P Require Import Prelude ClusterAlloc Scatter Runlist Device MkWrite Bytes.
From S2P Require Import Sd Mft MftNonRes MftFacts Index IndexFacts IndexTheorems.

(** Fields and flags of [layout.h] only this function uses. *)
Record large_h := {
  ib_magic : Z; ib_usa_ofs : Z; ib_usa_count : Z; ib_lsn : Z; ib_index_block_vcn : Z;
  magic_INDX : Z; NTFS_BLOCK_SIZE : Z; LEAF_NODE : Z; LARGE_INDEX : Z; INDEX_ENTRY_NODE : Z;
  sizeof_VCN : Z
}.

Definition documented_large : large_h := {|
  ib_magic := 0; ib_usa_ofs := 4; ib_usa_count := 6; ib_lsn := 8; ib_index_block_vcn := 16;
  magic_INDX := 0x58444e49; NTFS_BLOCK_SIZE := 512; LEAF_NODE := 0; LARGE_INDEX := 1;
  INDEX_ENTRY_NODE := 1; sizeof_VCN := 8
|}.

(** [ntfs_resident_attr_value_resize(m, a, size)]: errno when it fails, and the
    record; [ntfs_mst_pre_write_fixup], [ntfs_mst_post_write_fixup] on the block. *)
Class LargeLib := {
  resident_attr_value_resize : Z -> Z -> M (option errno_t);
  mst_pre_write_fixup : buffer -> errno_t + buffer;
  mst_post_write_fixup : buffer -> buffer;
}.

Section Block.
Context (R : record_h) (I : index_h) (G : large_h).

(** [usa_count] *)
Definition usa_count (index_block_size : Z) : Z :=
  if NTFS_BLOCK_SIZE G <=? index_block_size then index_block_size / NTFS_BLOCK_SIZE G + 1 else 1.

(** The header of the block, up to the search for the last entry. *)
Definition init_block (index_block_size : Z) : M unit :=
  store32 (ib_magic G) (magic_INDX G);;
  store16 (ib_usa_ofs G) (sizeof_INDEX_BLOCK I);;
  store16 (ib_usa_count G) (usa_count index_block_size);;
  ofs ← load16 (ib_usa_ofs G);
  store16 ofs 1;;
  store64 (ib_lsn G) 0;;
  store64 (ib_index_block_vcn G) 0;;
  store8 (ib_index I + ih_ih_flags R) (LEAF_NODE G);;
  count ← load16 (ib_usa_count G);
  store32 (ib_index I + ih_entries_offset R) (align8 (sizeof_INDEX_HEADER R + count * 2));;
  store32 (ib_index I + ih_allocated_size R)
    (index_block_size - (sizeof_INDEX_BLOCK I - sizeof_INDEX_HEADER R)).

(** The entries of the root, the end entry included. *)
Definition fill_block (entries : buffer) : M unit :=
  offset ← load32 (ib_index I + ih_entries_offset R);
  store_bytes (ib_index I + offset) entries;;
  offset ← load32 (ib_index I + ih_entries_offset R);
  store32 (ib_index I + ih_index_length R) (Z.of_nat (length entries) + offset).

(** The end entry moved to the front and made a node, the root emptied; [r] and [re]
    are the root and its first entry, [last] the end entry. *)
Definition empty_root (r re last : Z) : M unit :=
  (if re <? last then len ← load16 (last + ie_length R); memmove re last len else mret tt);;
  store8 (r + ir_index R + ih_ih_flags R) (LARGE_INDEX G);;
  flags ← load16 (re + ie_flags R);
  store16 (re + ie_flags R) (Z.lor flags (INDEX_ENTRY_NODE G));;
  len ← load16 (re + ie_length R);
  (if len <? sizeof_INDEX_ENTRY_HEADER R + sizeof_VCN G
   then store16 (re + ie_length R) (len + sizeof_VCN G) else mret tt);;
  offset ← load32 (r + ir_index R + ih_entries_offset R);
  len ← load16 (re + ie_length R);
  store32 (r + ir_index R + ih_index_length R) (offset + len);;
  length ← load32 (r + ir_index R + ih_index_length R);
  store32 (r + ir_index R + ih_allocated_size R) length.
End Block.

Section Upgrade.
Context (R : record_h) (N : nonres_h) (I : index_h) (G : large_h) `{RecordLib} `{MappingLib}
  `{LargeLib} {S : Type} `{BlockDev S}.
Context (malloc_ok : nat -> bool) (calloc_ok no_action : bool) (nr_clusters csize : Z)
  (scatter_errno write_errno : option errno_t).

#[local] Instance F_ret : MRet (F (S := S)) := fun A x fs => mret (x, fs).
#[local] Instance F_bind : MBind (F (S := S)) := fun A B k m fs => '(x, fs) ← m fs; k x fs.

(** From the empty root to the end; [a], [r] and [re] are the attribute, the root and
    its first entry, [ia_val] the block. *)
Definition move_to_block (name : option cstring) (name_len : Z) (ic : IGNORE_CASE_BOOL)
    (a r re last : Z) (ia_val : buffer) (index_block_size : Z)
  : F (S := S) (option errno_t * option buffer) :=
  _ ← on_record (empty_root R G r re last);
  allocated ← on_record (load32 (r + ir_index R + ih_allocated_size R));
  err ← on_record (resident_attr_value_resize a
          (sizeof_INDEX_ROOT R - sizeof_INDEX_HEADER R + allocated));
  match err with
  | Some e => mret (Some e, None)
  | None =>
      len ← on_record (load16 (re + ie_length R));
      _ ← on_record (store64 (re + len - sizeof_VCN G) 0);
      match mst_pre_write_fixup ia_val with
      | inl e => mret (Some e, None)
      | inr ia_val =>
          err ← add_attr_index_alloc R N malloc_ok calloc_ok no_action nr_clusters csize
                  scatter_errno write_errno name name_len ic ia_val index_block_size;
          mret (match err with
                | Some e => (Some e, None)
                | None => (None, Some (mst_post_write_fixup ia_val))
                end)
      end
  end.

(** [block_ok]: the allocation of the block succeeds.  The second component of the
    answer is [*idx]. *)
Definition upgrade_to_large_index (block_ok : bool) (name : option cstring) (name_len : Z)
    (ic : IGNORE_CASE_BOOL) : F (S := S) (option errno_t * option buffer) :=
  match str2ucs name with
  | inl e => mret (Some e, None)
  | inr (uname, _) => with_ctx (fun ctx =>
      match ctx with
      | None => mret (Some ENOMEM, None)
      | Some ctx =>
          if bool_decide (ic = IGNORE_CASE) then mret (Some EOPNOTSUPP, None) else
          '(err, ctx) ← on_record (mkntfs_attr_lookup R (AT_INDEX_ROOT R) uname ic None 0 (Some ctx));
          match err, ctx with
          | None, Some ctx =>
              let a := ctx_attr ctx in
              non_resident ← on_record (load8 (a + a_non_resident R));
              flags ← on_record (load16 (a + a_flags R));
              if negb (non_resident =? 0) || negb (flags =? 0) then mret (Some EINVAL, None) else
              offset ← on_record (load16 (a + a_value_offset R));
              let r := a + offset in
              value_length ← on_record (load32 (a + a_value_length R));
              entries_offset ← on_record (load32 (r + ir_index R + ih_entries_offset R));
              let re_start := r + ir_index R + entries_offset in
              index_block_size ← on_record (load32 (r + ir_index_block_size R));
              err ← add_attr_bitmap R N malloc_ok calloc_ok no_action nr_clusters csize
                      scatter_errno write_errno name name_len ic [1; 0; 0; 0; 0; 0; 0; 0] 8;
              if bool_decide (err <> None) then mret (err, None) else
              if negb block_ok then mret (Some ENOMEM, None) else
              ia_val ← on_record (in_struct (replicate (Z.to_nat index_block_size) 0)
                         (init_block R I G index_block_size));
              last ← on_record (find_entry R (fun _ => mret Miss) re_start (r + value_length));
              match last with
              | None => fun _ _ => None    (* the loop compares nothing *)
              | Some last =>
                  len ← on_record (load16 (last + ie_length R));
                  entries ← on_record (load_bytes re_start (last - re_start + len));
                  ia_val ← on_record (in_struct ia_val (fill_block R I entries));
                  move_to_block name name_len ic a r re_start last ia_val index_block_size
              end
          | _, _ => mret (Some ENOTDIR, None)
          end
      end)
  end.
End Upgrade.

(** ** The block *)

Abbreviation G := documented_large.

Lemma usa_bounds ibs :
  0 < ibs < 2 ^ 24 ->
  1 <= usa_count G ibs < 2 ^ 15 + 2 /\
  24 <= align8 (16 + 2 * usa_count G ibs) < 2 ^ 17 /\ align8 (16 + 2 * usa_count G ibs) mod 8 = 0.
Proof.
  intros Hi. assert (1 <= usa_count G ibs < 2 ^ 15 + 2) as Hu.
  { unfold usa_count. change (NTFS_BLOCK_SIZE G) with 512. zcase; [|lia].
    assert (0 <= ibs / 512 < 2 ^ 15); [|lia].
    split; [apply Z.div_pos; lia | apply Z.div_lt_upper_bound; lia]. }
  destruct (align8_spec (16 + 2 * usa_count G ibs) ltac:(lia)) as [Ha Hm].
  split_and!; try lia. rewrite align8_eq by lia. Z.to_euclidean_division_equations; lia.
Qed.

(** The header of the zeroed block. *)
Lemma init_block_run ibs :
  0 < ibs < 2 ^ 24 -> 24 + align8 (16 + 2 * usa_count G ibs) <= ibs ->
  exists h rest,
    init_block R I G ibs (replicate (Z.to_nat ibs) 0) = Some (tt, h ++ rest) /\
    Z.of_nat (length h) = 24 + align8 (16 + 2 * usa_count G ibs) /\ byte_list h /\
    rest = replicate (Z.to_nat ibs - length h) 0 /\
    field 4 0 h = magic_INDX G /\ field 2 4 h = 40 /\ field 2 6 h = usa_count G ibs /\
    field 2 40 h = 1 /\ field 8 16 h = 0 /\ field 1 36 h = 0 /\
    field 4 24 h = align8 (16 + 2 * usa_count G ibs) /\ field 4 32 h = ibs - 24.
Proof.
  intros Hi Hfit. destruct (usa_bounds ibs Hi) as (Hu & He & _).
  set (eo := align8 (16 + 2 * usa_count G ibs)) in *. set (u := usa_count G ibs) in *.
  set (hl := Z.to_nat (24 + eo)).
  assert (replicate (Z.to_nat ibs) 0 = replicate hl 0 ++ replicate (Z.to_nat ibs - hl) 0) as ->.
  { rewrite <- replicate_add. f_equal. lia. }
  assert (length (replicate hl 0) = hl) as Lh by apply length_replicate.
  assert (byte_list (replicate hl 0)) as Bh
    by (apply Forall_forall; by intros x [-> _]%elem_of_replicate).
  set (h := replicate hl 0) in *. clearbody h.
  set (rest := replicate _ 0). assert (rest = replicate (Z.to_nat ibs - hl) 0) as Er by done.
  clearbody rest. unfold init_block. fold u.
  front_store (ib_magic G) 0%nat 4%nat. front_store (ib_usa_ofs G) 4%nat 2%nat.
  front_store (ib_usa_count G) 6%nat 2%nat.
  change (ib_usa_ofs G) with (Z.of_nat 4). change (ib_usa_count G) with (Z.of_nat 6).
  match goal with |- context [load16 (Z.of_nat 4)] => idtac end.
  erewrite bind_run; [|apply hdr_load; lia].
  match goal with St : stored 2 6 _ _ ?x |- _ =>
    assert (field 2 4 x = Z.of_nat 40) as -> by (stored_field; reflexivity) end.
  front_store (Z.of_nat 40) 40%nat 2%nat.
  front_store (ib_lsn G) 8%nat 8%nat. front_store (ib_index_block_vcn G) 16%nat 8%nat.
  front_store8 (ib_index I + ih_ih_flags R) 36%nat.
  erewrite bind_run; [|apply hdr_load; lia].
  match goal with St : stored 1 36 _ _ ?x |- _ =>
    assert (field 2 6 x = u) as -> by stored_field end.
  replace (align8 (sizeof_INDEX_HEADER R + u * 2)) with eo
    by (unfold eo; f_equal; change (sizeof_INDEX_HEADER R) with 16; lia).
  front_store (ib_index I + ih_entries_offset R) 24%nat 4%nat.
  change (ib_index I + ih_allocated_size R) with (Z.of_nat 32).
  match goal with St : stored 4 24 _ _ ?x |- _ =>
    destruct (store_le_front 4 32 (ibs - (sizeof_INDEX_BLOCK I - sizeof_INDEX_HEADER R)) x rest ltac:(lia))
      as (g & Eg & Sg) end.
  pose proof (stored_length _ _ _ _ _ Sg) as Lg.
  exists g, rest. split; [exact Eg|]. split; [lia|].
  split; [eauto 15 using stored_bytes|]. split; [rewrite Er; f_equal; lia|].
  split_and!; stored_field.
Qed.

(** [C31] The block made of an index root: a buffer of the block's size, zeroed, gets
    a header with room for the update sequence array (one entry per sector and one
    for the number), and the entries of the root with the end entry.  The stores
    stay inside; what results is a well-formed leaf block with the same entries, as
    [insert_file_link_in_dir_index] expects. *)
Theorem large_block_correct Y X W ibs es fin :
  Y = documented_record -> X = documented_index -> W = documented_large ->
  Forall entry_ok es -> end_ok fin -> 0 < ibs < 2 ^ 24 ->
  24 + align8 (16 + 2 * usa_count W ibs) + Z.of_nat (length (concat es ++ fin)) <= ibs ->
  exists bhdr slack,
    (init_block Y X W ibs;; fill_block Y X (concat es ++ fin)) (replicate (Z.to_nat ibs) 0) =
      Some (tt, rec_bytes bhdr es fin slack) /\
    block_ok bhdr es fin slack /\ length (rec_bytes bhdr es fin slack) = Z.to_nat ibs /\
    Z.of_nat (length bhdr) = 24 + align8 (16 + 2 * usa_count W ibs) /\
    field 4 0 bhdr = magic_INDX W /\ field 2 4 bhdr = sizeof_INDEX_BLOCK X /\
    field 2 6 bhdr = usa_count W ibs /\ field 2 40 bhdr = 1 /\ field 8 16 bhdr = 0 /\
    field 1 36 bhdr = LEAF_NODE W.
Proof.
  intros -> -> -> Hes Hfin Hibs Hfit.
  destruct (init_block_run ibs Hibs ltac:(lia)) as (bhdr & slack & E & Lb & Bb & Ls & F1 & F2 & F3 & F4 & F5 & F6 & F7 & F8).
  set (eo := align8 (16 + 2 * usa_count G ibs)) in *.
  rewrite (bind_run _ _ _ _ _ E). clear E.
  destruct (usa_bounds ibs Hibs) as (Hu & Heo & _). fold eo in Heo.
  set (data := concat es ++ fin) in *.
  assert (length slack = (Z.to_nat ibs - length bhdr)%nat) as Lsl by (by rewrite Ls, length_replicate).
  unfold fill_block. change (ib_index I) with 24.
  change (24 + ih_entries_offset R) with (Z.of_nat 24). change (24 + ih_index_length R) with (Z.of_nat 28).
  rewrite (bind_run _ _ _ _ _ (hdr_load bhdr slack 24 4 ltac:(lia))), F7.
  replace (24 + eo) with (Z.of_nat (length bhdr)) by lia.
  assert (store_bytes (Z.of_nat (length bhdr)) data (bhdr ++ slack) =
          Some (tt, bhdr ++ data ++ drop (length data) slack)) as Es.
  { rewrite <- (take_drop (length data) slack) at 1.
    apply store_bytes_field; [done|]. rewrite length_take. lia. }
  rewrite (bind_run _ _ _ _ _ Es).
  rewrite (bind_run _ _ _ _ _ (hdr_load bhdr _ 24 4 ltac:(lia))), F7.
  rewrite hdr_store by lia.
  destruct (put_stored 4 28 (Z.of_nat (length data) + eo) bhdr ltac:(lia)) as (Lg & Bg & Sg & Og).
  set (g := put 28 _ bhdr) in *. specialize (Sg ltac:(cbn; lia)). clearbody g.
  assert (length data = (length (concat es) + length fin)%nat) as Ld by apply length_app.
  exists g, (drop (length data) slack).
  split; [unfold rec_bytes, data; by rewrite <- app_assoc|].
  split; [constructor; rewrite ?Lg, ?Sg, ?length_drop; try rewrite Og by lia; auto; try lia|].
  { apply Forall_drop. rewrite Ls. apply Forall_forall. by intros x [-> _]%elem_of_replicate. }
  rewrite !Og by lia. split_and!; try done; try lia.
  unfold rec_bytes. rewrite !length_app, length_drop. lia.
Qed.

(** The block of 4096 bytes made of a root with one entry. *)
Lemma large_block_correct_witness :
  exists bhdr slack,
    (init_block documented_record documented_index documented_large 4096;;
     fill_block documented_record documented_index (concat [sample_entry 4 5] ++ sample_iend))
      (replicate (Z.to_nat 4096) 0) =
      Some (tt, rec_bytes bhdr [sample_entry 4 5] sample_iend slack) /\ field 2 6 bhdr = 9.
Proof.
  destruct (large_block_correct documented_record documented_index documented_large 4096 [sample_entry 4 5]
              sample_iend eq_refl eq_refl eq_refl
              ltac:(constructor; [apply sample_entry_fits; lia | constructor])
              ltac:(apply end_okb_ok; reflexivity) ltac:(lia) ltac:(apply Z.leb_le; reflexivity))
    as (bhdr & slack & E & _ & _ & _ & _ & _ & Hu & _).
  exists bhdr, slack. exact (conj E Hu).
Defined.
