(* ===== verification/Boot.v ===== *)
(** * The boot sector

    [mkntfs/boot.c]: the bytes of [$Boot] before they are filled in, and the part of
    [mkntfs_create_root_structures] (src/NTFSModule/bridge/mkntfs/mkntfs.c) that
    stores the geometry of the volume into them; the decoder of the NTFS format says
    what a driver reads back.  The offsets of [NTFS_BOOT_SECTOR] are those of
    libntfs-3g's [layout.h], [ntfs_boot_sector_is_ntfs] is its function. *)

From S2P Require Import Prelude Bytes Options Layout LayoutArith LayoutTheorems Mft MftFacts.

(** One row per string of the source; the array has 4136 bytes, the rest of it is
    zero. *)
Definition boot_array_text : list Z := concat [
  [235; 82; 144];
  [78; 84; 70; 83; 32; 32; 32; 32; 0];
  [0; 0; 0; 0; 0; 0; 0; 0; 0; 0; 0; 0];
  [0; 0; 0; 0; 0; 0; 0; 0; 0; 0; 0; 0];
  [0; 0; 0; 0; 0; 0; 0; 0; 0; 0; 0; 0];
  [0; 0; 0; 0; 0; 0; 0; 0; 0; 0; 0; 0];
  [0; 0; 0; 0; 0; 0; 0; 0; 0; 0; 0; 0];
  [0; 0; 0; 0; 0; 0; 0; 0; 0; 0; 0; 0];
  [14];
  [31];
  [190; 113; 124];
  [172];
  [34; 192];
  [116; 11];
  [86];
  [180; 14];
  [187; 7; 0];
  [205; 16];
  [94];
  [235; 240];
  [50; 228];
  [205; 22];
  [205; 25];
  [235; 254];
  [84; 104; 105; 115; 32; 105; 115; 32; 110; 111; 116; 32; 97; 32; 98; 111; 111; 116; 97; 98; 108; 101; 32; 100; 105; 115; 107; 46; 32; 80; 108; 101; 97; 115; 101; 32; 105; 110; 115; 101; 114; 116; 32; 97; 32; 98; 111; 111; 116; 97; 98; 108; 101; 32; 102; 108; 111; 112; 112; 121; 32; 97; 110; 100; 13; 10];
  [112; 114; 101; 115; 115; 32; 97; 110; 121; 32; 107; 101; 121; 32; 116; 111; 32; 116; 114; 121; 32; 97; 103; 97; 105; 110; 32; 46; 46; 46; 32; 13; 10];
  [0; 0; 0; 0; 0; 0; 0; 0; 0; 0; 0; 0];
  [0; 0; 0; 0; 0; 0; 0; 0; 0; 0; 0; 0];
  [0; 0; 0; 0; 0; 0; 0; 0; 0; 0; 0; 0];
  [0; 0; 0; 0; 0; 0; 0; 0; 0; 0; 0; 0];
  [0; 0; 0; 0; 0; 0; 0; 0; 0; 0; 0; 0];
  [0; 0; 0; 0; 0; 0; 0; 0; 0; 0; 0; 0];
  [0; 0; 0; 0; 0; 0; 0; 0; 0; 0; 0; 0];
  [0; 0; 0; 0; 0; 0; 0; 0; 0; 0; 0; 0];
  [0; 0; 0; 0; 0; 0; 0; 0; 0; 0; 0; 0];
  [0; 0; 0; 0; 0; 0; 0; 0; 0; 0; 0; 0];
  [0; 0; 0; 0; 0; 0; 0; 0; 0; 0; 0; 0];
  [0; 0; 0; 0; 0; 0; 0; 0; 0; 0; 0; 0];
  [0; 0; 0; 0; 0; 0; 0; 0; 0; 0; 0; 0];
  [0; 0; 0; 0; 0; 0; 0; 0; 0; 0; 0; 0];
  [0; 0; 0; 0; 0; 0; 0; 0; 0; 0; 0; 0];
  [0; 0; 0; 0; 0; 0; 0; 0; 0; 0; 0; 0];
  [0; 0; 0; 0; 0; 0; 0; 0; 0; 0; 0; 0];
  [0; 0; 0; 0; 0; 0; 0; 0; 0; 0; 0; 0];
  [0; 0; 0; 0; 0; 0; 0; 0; 0; 0; 0; 0];
  [0; 0; 0; 0; 0; 0; 0; 0; 0; 0; 0; 0];
  [0; 0; 0; 0; 0; 0; 0; 0; 0; 0; 0; 0];
  [0; 0; 0; 0; 0; 0; 0; 0; 0; 0; 0; 0];
  [0; 0; 0; 0; 0; 0; 0; 0; 0; 0; 0; 0];
  [0; 0; 0; 0; 0; 0; 0; 0; 0; 0; 0; 0];
  [0; 0; 0; 0; 0; 0; 0; 0; 0; 0];
  [85; 170]].

Definition BOOTCODE_SIZE : nat := 4136.

Definition boot_array : list Z :=
  boot_array_text ++ replicate (BOOTCODE_SIZE - length boot_array_text) 0.

(** ** Filling in the sector *)

Record boot_h := {
  b_bytes_per_sector : Z; b_sectors_per_cluster : Z; b_media_type : Z; b_sectors_per_track : Z;
  b_heads : Z; b_hidden_sectors : Z; b_physical_drive : Z; b_extended_boot_signature : Z;
  b_number_of_sectors : Z; b_mft_lcn : Z; b_mftmirr_lcn : Z; b_clusters_per_mft_record : Z;
  b_clusters_per_index_record : Z; b_volume_serial_number : Z; b_checksum : Z
}.

Definition documented_boot : boot_h := {|
  b_bytes_per_sector := 0x0b; b_sectors_per_cluster := 0x0d; b_media_type := 0x15;
  b_sectors_per_track := 0x18; b_heads := 0x1a; b_hidden_sectors := 0x1c;
  b_physical_drive := 0x24; b_extended_boot_signature := 0x26; b_number_of_sectors := 0x28;
  b_mft_lcn := 0x30; b_mftmirr_lcn := 0x38; b_clusters_per_mft_record := 0x40;
  b_clusters_per_index_record := 0x44; b_volume_serial_number := 0x48; b_checksum := 0x50
|}.

Section MakeBoot.
Context (B : boot_h) (is_ntfs : buffer -> bool).

(** [bs->bpb.sectors_per_cluster] *)
Definition sectors_per_cluster_byte (sectors : Z) : Z :=
  if 128 <? sectors then 257 - ffs sectors else sectors.

(** The record sizes: in clusters, or minus the power of two of the bytes;
    [false]: the calculated value is wrong. *)
Definition set_clusters_per_mft_record (vol : mkvol) : M bool :=
  if cluster_size vol <=? mft_record_size vol then
    store8 (b_clusters_per_mft_record B) (mft_record_size vol / cluster_size vol);; mret true
  else
    store8 (b_clusters_per_mft_record B) (- (ffs (mft_record_size vol) - 1));;
    v ← load8 (b_clusters_per_mft_record B);
    mret (to_u 32 (Z.shiftl 1 (- to_s 8 v)) =? mft_record_size vol).

Definition set_clusters_per_index_record (vol : mkvol) : M bool :=
  if cluster_size vol <=? indx_record_size vol then
    store8 (b_clusters_per_index_record B) (indx_record_size vol / cluster_size vol);; mret true
  else
    store8 (b_clusters_per_index_record B) (- indx_record_size_bits vol);;
    v ← load8 (b_clusters_per_index_record B);
    mret (to_s 32 (Z.shiftl 1 (- to_s 8 v)) =? to_s 32 (indx_record_size vol)).

(** From [memcpy] to the check of the sector, on the zeroed [bs]; [r1] and [r2] are
    the random numbers. *)
Definition make_boot_sector (o : mkntfs_options) (vol : mkvol) (mft_lcn mftmirr_lcn r1 r2 : Z)
  : M bool :=
  store_bytes 0 boot_array;;
  store16 (b_bytes_per_sector B) (sector_size o);;
  store8 (b_sectors_per_cluster B) (sectors_per_cluster_byte (cluster_size vol / sector_size o));;
  store8 (b_media_type B) 0xf8;;
  store16 (b_sectors_per_track B) (sectors_per_track o);;
  store16 (b_heads B) (heads o);;
  store32 (b_hidden_sectors B) (part_start_sect o);;
  store8 (b_physical_drive B) 0x80;;
  store8 (b_extended_boot_signature B) 0x80;;
  store64 (b_number_of_sectors B) (num_sectors o);;
  store64 (b_mft_lcn B) mft_lcn;;
  store64 (b_mftmirr_lcn B) mftmirr_lcn;;
  ok ← set_clusters_per_mft_record vol;
  if negb ok then mret false else
  ok ← set_clusters_per_index_record vol;
  if negb ok then mret false else
  store64 (b_volume_serial_number B) (Z.lor (Z.shiftl (to_u 64 r1) 32) (Z.land (to_u 64 r2) 0xffffffff));;
  store32 (b_checksum B) 0;;
  ((fun b => Some (is_ntfs b, b)) : M bool).
End MakeBoot.

(** ** The format, as a decoder *)

Record geometry_t := mkGeometry {
  dg_sector : Z; dg_cluster : Z; dg_sectors : Z; dg_mft : Z; dg_mftmirr : Z; dg_record : Z;
  dg_index : Z
}.

(** A byte that counts clusters, or is minus the power of two of a number of bytes. *)
Definition decode_size (v cluster : Z) : Z := if v <? 128 then v * cluster else 2 ^ (256 - v).

(** The sector must name the file system ([NTFS] and four spaces) and end in its
    signature. *)
Definition decode_boot (b : buffer) : option geometry_t :=
  if (field 8 3 b =? 0x202020205346544e) && (field 2 0x1fe b =? 0xaa55) then
    let sector := field 2 0x0b b in
    let spc := field 1 0x0d b in
    let cluster := sector * (if spc <=? 128 then spc else 2 ^ (256 - spc)) in
    Some (mkGeometry sector cluster (field 8 0x28 b) (field 8 0x30 b) (field 8 0x38 b)
            (decode_size (field 1 0x40 b) cluster) (decode_size (field 1 0x44 b) cluster))
  else None.

(** ** Proofs *)

Abbreviation B := documented_boot.

Lemma store8_congr p v w b : v mod 256 = w mod 256 -> store8 p v b = store8 p w b.
Proof. unfold store8. by intros ->. Qed.

(** The two record sizes: what is stored decodes to the size, and the check of the
    code passes. *)
Lemma clusters_byte_run (p cbits rbits : Z) (k : nat) (size : Z) (h rest : buffer) :
  p = Z.of_nat k -> (k + 1 <= length h)%nat -> 8 <= cbits -> 8 <= rbits <= 12 -> size = 2 ^ rbits ->
  exists v h',
    (if 2 ^ cbits <=? size then store8 p (size / 2 ^ cbits) (h ++ rest) else store8 p (- rbits) (h ++ rest)) =
      Some (tt, h' ++ rest) /\
    stored 1 k v h h' /\ 0 <= v < 256 /\ decode_size v (2 ^ cbits) = size /\
    (size < 2 ^ cbits -> to_s 8 v = - rbits).
Proof.
  intros -> Hk Hc Hr ->. zcase.
  - assert (cbits <= rbits) as Hle by (apply (Z.pow_le_mono_r_iff 2); lia).
    rewrite <- Z.pow_sub_r by lia.
    assert (1 <= 2 ^ (rbits - cbits) <= 2 ^ 4) as Hv.
    { split; [apply (Z.pow_le_mono_r 2 0); lia | apply Z.pow_le_mono_r; lia]. }
    destruct (store8_front k (2 ^ (rbits - cbits)) h rest Hk) as (h' & E & S).
    exists (2 ^ (rbits - cbits)), h'. split_and!; try done; try lia.
    unfold decode_size. rewrite (proj2 (Z.ltb_lt _ _)) by lia. rewrite <- Z.pow_add_r by lia. f_equal. lia.
  - rewrite (store8_congr _ _ (256 - rbits)).
    2:{ rewrite <- (Z_mod_plus_full (- rbits) 1 256). f_equal. lia. }
    destruct (store8_front k (256 - rbits) h rest Hk) as (h' & E & S).
    exists (256 - rbits), h'. split_and!; try done; try lia.
    + unfold decode_size. rewrite (proj2 (Z.ltb_ge _ _)) by lia. f_equal. lia.
    + intros _. unfold to_s. change (2 ^ (8 - 1)) with 128. change (2 ^ 8) with 256.
      replace (256 - rbits + 128) with (128 - rbits + 1 * 256) by lia.
      rewrite Z_mod_plus_full, Z.mod_small by lia. lia.
Qed.

(** The bytes the fields are stored over: the part with the fields, and the rest. *)
Lemma boot_start :
  exists rest,
    store_bytes 0 boot_array (replicate (Z.to_nat 8192) 0) = Some (tt, take 84 boot_array_text ++ rest) /\
    length rest = (Z.to_nat 8192 - 84)%nat /\ field 2 426 rest = 0xaa55.
Proof.
  assert (length boot_array = BOOTCODE_SIZE) as L.
  { unfold boot_array. rewrite length_app, length_replicate.
    assert (length boot_array_text = 512%nat) as -> by reflexivity. unfold BOOTCODE_SIZE. lia. }
  set (zeros := replicate (Z.to_nat 8192) 0).
  assert (length zeros = Z.to_nat 8192) as Lz by apply length_replicate.
  exists (drop 84 boot_array_text ++ replicate (BOOTCODE_SIZE - length boot_array_text) 0 ++
          drop BOOTCODE_SIZE zeros).
  split; [|split].
  - pose proof (store_bytes_part [] zeros [] 0 0%nat eq_refl boot_array ltac:(rewrite L, Lz; unfold BOOTCODE_SIZE; lia)) as E.
    cbn [app] in E. rewrite !app_nil_r in E. rewrite E. unfold put. cbn [take app Nat.add]. rewrite L.
    unfold boot_array. rewrite <- (take_drop 84 boot_array_text) at 1. by rewrite <- !app_assoc.
  - rewrite !length_app, !length_drop, length_replicate, Lz.
    assert (length boot_array_text = 512%nat) as -> by reflexivity. unfold BOOTCODE_SIZE. lia.
  - rewrite field_hdr by (apply Nat.leb_le; reflexivity). reflexivity.
Qed.

(** The byte with the sectors of a cluster. *)
Lemma sectors_byte_spec s c :
  8 <= s -> s <= c <= s + 12 ->
  let v := sectors_per_cluster_byte (2 ^ c / 2 ^ s) in
  0 <= v < 256 /\ 2 ^ s * (if v <=? 128 then v else 2 ^ (256 - v)) = 2 ^ c.
Proof.
  intros Hs Hc v. subst v. rewrite <- Z.pow_sub_r by lia. unfold sectors_per_cluster_byte.
  assert (1 <= 2 ^ (c - s)) by (apply (Z.pow_le_mono_r 2 0); lia).
  destruct (Z.ltb_spec 128 (2 ^ (c - s))).
  - assert (c <> s) by (intros ->; rewrite Z.sub_diag in *; lia).
    rewrite ffs_pow2 by lia. split; [lia|]. rewrite (proj2 (Z.leb_gt _ _)) by lia.
    rewrite <- Z.pow_add_r by lia. f_equal. lia.
  - split; [lia|]. rewrite (proj2 (Z.leb_le _ _)) by lia. rewrite <- Z.pow_add_r by lia. f_equal. lia.
Qed.

Lemma mft_size_run vol h rest cbits rbits :
  (65 <= length h)%nat -> cluster_size vol = 2 ^ cbits -> 8 <= cbits -> 8 <= rbits <= 12 ->
  mft_record_size vol = 2 ^ rbits ->
  exists v h',
    set_clusters_per_mft_record B vol (h ++ rest) = Some (true, h' ++ rest) /\ stored 1 64 v h h' /\
    0 <= v < 256 /\ decode_size v (2 ^ cbits) = mft_record_size vol.
Proof.
  intros Hl Hc Hcb Hr Hsz.
  destruct (clusters_byte_run (b_clusters_per_mft_record B) cbits rbits 64 _ h rest eq_refl ltac:(lia) Hcb Hr Hsz)
    as (v & h' & E & S & Hv & Hd & Ht).
  exists v, h'. split; [|done]. unfold set_clusters_per_mft_record. rewrite Hc.
  assert (ffs (mft_record_size vol) - 1 = rbits) as -> by (rewrite Hsz, ffs_pow2; lia).
  destruct (Z.leb_spec (2 ^ cbits) (mft_record_size vol)) as [|Hlt]; [by rewrite (bind_run _ _ _ _ _ E)|].
  rewrite (bind_run _ _ _ _ _ E).
  erewrite bind_run; [|apply (load8_part [] h' rest _ 64%nat); [done | rewrite (stored_length _ _ _ _ _ S); lia]].
  rewrite (stored_same _ _ _ _ _ S), Ht by (cbn; lia). rewrite Z.opp_involutive, Z.shiftl_mul_pow2, Z.mul_1_l by lia.
  rewrite <- Hsz, to_u_small, Z.eqb_refl; [done|]. unfold fits_u. rewrite Hsz.
  split; [lia | apply Z.pow_lt_mono_r; lia].
Qed.

Lemma index_size_run vol h rest cbits rbits :
  (69 <= length h)%nat -> cluster_size vol = 2 ^ cbits -> 8 <= cbits -> 8 <= rbits <= 12 ->
  indx_record_size vol = 2 ^ rbits -> indx_record_size_bits vol = rbits ->
  exists v h',
    set_clusters_per_index_record B vol (h ++ rest) = Some (true, h' ++ rest) /\ stored 1 68 v h h' /\
    0 <= v < 256 /\ decode_size v (2 ^ cbits) = indx_record_size vol.
Proof.
  intros Hl Hc Hcb Hr Hsz Hbits.
  destruct (clusters_byte_run (b_clusters_per_index_record B) cbits rbits 68 _ h rest eq_refl ltac:(lia) Hcb Hr Hsz)
    as (v & h' & E & S & Hv & Hd & Ht).
  exists v, h'. split; [|done]. unfold set_clusters_per_index_record. rewrite Hc, Hbits.
  destruct (Z.leb_spec (2 ^ cbits) (indx_record_size vol)) as [|Hlt]; [by rewrite (bind_run _ _ _ _ _ E)|].
  rewrite (bind_run _ _ _ _ _ E).
  erewrite bind_run; [|apply (load8_part [] h' rest _ 68%nat); [done | rewrite (stored_length _ _ _ _ _ S); lia]].
  rewrite (stored_same _ _ _ _ _ S), Ht by (cbn; lia). rewrite Z.opp_involutive, Z.shiftl_mul_pow2, Z.mul_1_l by lia.
  rewrite <- Hsz, Z.eqb_refl. done.
Qed.

(** Every store of [make_boot_sector], over the first 84 bytes [h]. *)
Lemma make_boot_run is_ntfs o vol mft_lcn mftmirr_lcn r1 r2 cbits mbits ibits :
  256 <= sector_size o < 2 ^ 16 -> 0 <= num_sectors o < 2 ^ 64 -> 0 <= part_start_sect o < 2 ^ 32 ->
  0 <= sectors_per_track o <= 65535 -> 0 <= heads o <= 65535 -> 0 <= mft_lcn < 2 ^ 64 ->
  0 <= mftmirr_lcn < 2 ^ 64 -> 0 <= sectors_per_cluster_byte (cluster_size vol / sector_size o) < 256 ->
  cluster_size vol = 2 ^ cbits -> 8 <= cbits -> 8 <= mbits <= 12 -> mft_record_size vol = 2 ^ mbits ->
  8 <= ibits <= 12 -> indx_record_size vol = 2 ^ ibits -> indx_record_size_bits vol = ibits ->
  exists h rest v w,
    make_boot_sector B is_ntfs o vol mft_lcn mftmirr_lcn r1 r2 (replicate (Z.to_nat 8192) 0) =
      Some (is_ntfs (h ++ rest), h ++ rest) /\
    length h = 84%nat /\ length rest = (Z.to_nat 8192 - 84)%nat /\ field 2 426 rest = 0xaa55 /\
    field 8 3 h = 0x202020205346544e /\ field 2 0x0b h = sector_size o /\
    field 1 0x0d h = sectors_per_cluster_byte (cluster_size vol / sector_size o) /\
    field 2 0x18 h = sectors_per_track o /\ field 2 0x1a h = heads o /\
    field 4 0x1c h = part_start_sect o /\ field 8 0x28 h = num_sectors o /\ field 8 0x30 h = mft_lcn /\
    field 8 0x38 h = mftmirr_lcn /\ field 1 0x40 h = v /\ field 1 0x44 h = w /\
    decode_size v (2 ^ cbits) = mft_record_size vol /\ decode_size w (2 ^ cbits) = indx_record_size vol.
Proof.
  intros Hss Hns Hps Hspt Hhd Hm Hmm Hspc Hc Hcb Hmb Hmr Hib Hir Hirb.
  destruct boot_start as (rest & E & Lr & Fsig). unfold make_boot_sector.
  rewrite (bind_run _ _ _ _ _ E). clear E.
  set (h := take 84 boot_array_text). assert (length h = 84%nat) as Lh by reflexivity.
  assert (field 8 3 h = 0x202020205346544e) as Fid by reflexivity. clearbody h.
  front_store (b_bytes_per_sector B) 11%nat 2%nat. front_store8 (b_sectors_per_cluster B) 13%nat.
  front_store8 (b_media_type B) 21%nat. front_store (b_sectors_per_track B) 24%nat 2%nat.
  front_store (b_heads B) 26%nat 2%nat. front_store (b_hidden_sectors B) 28%nat 4%nat.
  front_store8 (b_physical_drive B) 36%nat. front_store8 (b_extended_boot_signature B) 38%nat.
  front_store (b_number_of_sectors B) 40%nat 8%nat. front_store (b_mft_lcn B) 48%nat 8%nat.
  front_store (b_mftmirr_lcn B) 56%nat 8%nat.
  match goal with St : stored 8 56 _ _ ?x |- _ =>
    destruct (mft_size_run vol x rest cbits mbits ltac:(lia) Hc Hcb Hmb Hmr) as (v & g1 & Em & Sm & Hv & Dv) end.
  rewrite (bind_run _ _ _ _ _ Em). cbn [negb]. pose proof (stored_length _ _ _ _ _ Sm) as Lm.
  destruct (index_size_run vol g1 rest cbits ibits ltac:(lia) Hc Hcb Hib Hir Hirb) as (w & g2 & Ei & Si & Hw & Dw).
  rewrite (bind_run _ _ _ _ _ Ei). cbn [negb]. pose proof (stored_length _ _ _ _ _ Si) as Li.
  front_store (b_volume_serial_number B) 72%nat 8%nat. front_store (b_checksum B) 80%nat 4%nat.
  match goal with St : stored 4 80 _ _ ?x |- _ => exists x, rest, v, w end.
  split; [reflexivity|]. split; [lia|]. split_and!; try done; try (stored_field; done).
Qed.

Lemma bits_between n : 256 <= 2 ^ n <= 4096 -> 8 <= n <= 12.
Proof.
  intros Hn. destruct (Z.lt_ge_cases n 0); [rewrite Z.pow_neg_r in Hn by done; lia|].
  split; apply (Z.pow_le_mono_r_iff 2); lia.
Qed.

(** [C38] The boot sector.  For every geometry [mkntfs_override_vol_params] accepts,
    the stores stay inside the buffer, the calculated sizes of the records pass the
    check, and what remains is the library's check; the sector written names the
    file system, ends in the signature and decodes to the sector size, the cluster
    size (of up to 4096 sectors), the number of sectors, the places of [$MFT] and
    [$MFTMirr] and the sizes of MFT and index records. *)
Theorem make_boot_sector_correct X is_ntfs max_cs o vol mft_lcn mftmirr_lcn r1 r2 :
  X = documented_boot -> params_ok max_cs o vol -> 0 <= mft_lcn < 2 ^ 64 -> 0 <= mftmirr_lcn < 2 ^ 64 ->
  exists b,
    make_boot_sector X is_ntfs o vol mft_lcn mftmirr_lcn r1 r2 (replicate (Z.to_nat 8192) 0) =
      Some (is_ntfs b, b) /\
    length b = Z.to_nat 8192 /\
    decode_boot b = Some (mkGeometry (sector_size o) (cluster_size vol) (num_sectors o) mft_lcn mftmirr_lcn
                            (mft_record_size vol) (indx_record_size vol)) /\
    field 4 0x1c b = part_start_sect o /\ field 2 0x18 b = sectors_per_track o /\
    field 2 0x1a b = heads o.
Proof.
  intros -> [(sb & Hsb & Hs) [Hc0 Hc] Hcl Hvol _ (Hr & Hi & Hr2 & Hi2) (Hps & Hspt & Hhd)] Hm Hmm.
  assert (256 <= sector_size o <= 4096) as Hsr.
  { rewrite Hs. split; [apply (Z.pow_le_mono_r 2 8) | apply (Z.pow_le_mono_r 2 _ 12)]; lia. }
  set (cb := cluster_size_bits vol) in *.
  assert (sb <= cb <= sb + 12) as Hcb.
  { rewrite Hc, Hs in Hcl. split; [apply (Z.pow_le_mono_r_iff 2); lia|].
    apply (Z.pow_le_mono_r_iff 2); [lia|lia|]. rewrite Z.pow_add_r by lia. lia. }
  destruct (sectors_byte_spec sb cb ltac:(lia) Hcb) as [Hspc Hdec]. rewrite <- Hs, <- Hc in Hspc, Hdec.
  assert (8 <= mft_record_size_bits vol <= 12) as Hmb.
  { apply bits_between. lia. }
  assert (8 <= indx_record_size_bits vol <= 12) as Hib.
  { apply bits_between. lia. }
  assert (0 <= num_sectors o < 2 ^ 64) as Hns by (unfold INT64_MAX in Hvol; nia).
  assert (256 <= sector_size o < 2 ^ 16) as Hss by (change (2 ^ 16) with 65536; lia).
  destruct (make_boot_run is_ntfs o vol mft_lcn mftmirr_lcn r1 r2 cb (mft_record_size_bits vol)
              (indx_record_size_bits vol) Hss Hns Hps Hspt Hhd Hm Hmm Hspc Hc ltac:(lia) Hmb Hr2 Hib Hi2 eq_refl) as
    (h & rest & v & w & E & Lh & Lr & Fs & Fid & F1 & F2 & F3 & F4 & F5 & F6 & F7 & F8 & F9 & F10 & Dv & Dw).
  exists (h ++ rest). split; [exact E|]. split; [rewrite length_app, Lh, Lr; lia|].
  assert (field 2 0x1fe (h ++ rest) = 0xaa55) as Fsig.
  { rewrite <- Fs. change 0x1fe%nat with (84 + 426)%nat. rewrite <- field_drop.
    rewrite <- Lh, drop_app_length. done. }
  unfold decode_boot. rewrite Fsig. rewrite !field_hdr by lia.
  rewrite Fid, F1, F2, F6, F7, F8, F9, F10, Hdec. cbn [Z.eqb Pos.eqb andb].
  rewrite Hc at 2 3. rewrite Dv, Dw. by split_and!.
Qed.

(** A disk of 204800 sectors of 512 bytes, with the parameters chosen by default. *)
Definition sample_vol : mkvol := mkVol 4096 12 25599 1024 10 4096 12.
Definition sample_opts : mkntfs_options :=
  set_num_sectors 204799 (set_sector_size 512 (set_part_start_sect 63 (set_sectors_per_track 63
    (set_heads 255 mkntfs_init_options)))).

Lemma sample_params_ok : params_ok (2 ^ 21) sample_opts sample_vol.
Proof.
  apply (override_params_spec (2 ^ 21) (disk512 204800) mkntfs_init_options 0 sample_opts sample_vol true).
  vm_compute. reflexivity.
Qed.

Lemma make_boot_sector_correct_witness :
  exists b,
    make_boot_sector documented_boot (fun _ => true) sample_opts sample_vol 4 12799 1 2
      (replicate (Z.to_nat 8192) 0) = Some (true, b) /\
    decode_boot b = Some (mkGeometry 512 4096 204799 4 12799 1024 4096).
Proof.
  destruct (make_boot_sector_correct documented_boot (fun _ => true) (2 ^ 21) sample_opts sample_vol 4 12799
              1 2 eq_refl sample_params_ok ltac:(lia) ltac:(lia)) as (b & E & _ & D & _).
  exists b. exact (conj E D).
Defined.
