(* ===== verification/Sized.v ===== *)
(** * The size of the buffers, and the device without action

    Every function on a record ([Mft], [MftNonRes], [Index], [IndexLarge]) keeps the
    length of its buffer, whatever it does to the bytes: so the formatting run keeps
    the size of [g_buf], and each record stays where it is.  With [no_action] none of
    them changes a byte of the device.  The tactics [sized] and [keepsF] prove it for a
    function from the lemmas of the functions it calls. *)

From S2P Require Import Prelude ClusterAlloc Scatter Runlist Device MkWrite Bytes Sd Mft MftNonRes Index IndexLarge.

Definition sized {A} (m : M A) : Prop :=
  forall b x b', m b = Some (x, b') -> length b' = length b.

Create HintDb sized.

Lemma sized_ret {A} (x : A) : sized (mret x).
Proof. by intros b y b' [= _ <-]. Qed.

Lemma sized_none {A} : sized (fun _ => @None (A * buffer)).
Proof. done. Qed.

Lemma sized_bind {A B} (m : M A) (k : A -> M B) :
  sized m -> (forall x, sized (k x)) -> sized (m ≫= k).
Proof.
  intros Hm Hk b y b'. unfold mbind, M_bind. destruct (m b) as [[x b1]|] eqn:E; [|done].
  intros Ek. rewrite (Hk _ _ _ _ Ek). by eapply Hm.
Qed.

(** A computation that first looks at the whole buffer. *)
Lemma sized_self {A} (m : M A) : (forall b, exists f : M A, f b = m b /\ sized f) -> sized m.
Proof. intros H b x b'. destruct (H b) as (f & <- & Hf). apply Hf. Qed.

Lemma sized_same {A} (m : M A) : (forall b x b', m b = Some (x, b') -> b' = b) -> sized m.
Proof. intros H b x b' E. by rewrite (H _ _ _ E). Qed.

Lemma sized_load8 p : sized (load8 p).
Proof.
  apply sized_same. unfold load8. intros b x b'. destruct (in_buffer b p); [|done].
  destruct (b !! _); [|done]. by intros [= _ <-].
Qed.

Lemma sized_store8 p v : sized (store8 p v).
Proof.
  intros b x b'. unfold store8. destruct (in_buffer b p); [|done]. intros [= _ <-].
  apply length_insert.
Qed.

#[export] Hint Resolve sized_ret sized_none sized_load8 sized_store8 : sized.

Lemma sized_load_le n p : sized (load_le n p).
Proof. revert p. induction n; intros; cbn [load_le]; auto using sized_bind with sized. Qed.

Lemma sized_store_le n p v : sized (store_le n p v).
Proof. revert p v. induction n; intros; cbn [store_le]; auto using sized_bind with sized. Qed.

Lemma sized_load_bytes p n : sized (load_bytes p n).
Proof.
  apply sized_same. intros b x b'. unfold load_bytes. destruct (_ && _); [|done]. by intros [= _ <-].
Qed.

Lemma sized_store_bytes p l : sized (store_bytes p l).
Proof.
  intros b x b'. unfold store_bytes. destruct (_ && _) eqn:E; [|done]. intros [= _ <-].
  apply andb_prop in E as [E1 E2]. apply Z.leb_le in E1, E2.
  rewrite !length_app, length_take, length_drop. lia.
Qed.

Lemma sized_size : sized buffer_size.
Proof. apply sized_same. by intros b x b' [= _ <-]. Qed.

Lemma sized_memory p : sized (memory_from p).
Proof. apply sized_same. unfold memory_from. intros b x b'. repeat case_match; naive_solver. Qed.

Lemma sized_in_struct junk m : sized (in_struct junk m).
Proof. apply sized_same. unfold in_struct. intros b x b'. by destruct (m junk) as [[]|]; [intros [= _ <-]|]. Qed.

Lemma sized_on_other {A} other (m : M A) : sized (on_other other m).
Proof. apply sized_same. unfold on_other. intros b x b'. by destruct (m other) as [[]|]; [intros [= _ <-]|]. Qed.

#[export] Hint Resolve sized_load_le sized_store_le sized_load_bytes sized_store_bytes sized_size
  sized_memory sized_in_struct sized_on_other : sized.

Ltac sized_step :=
  match goal with
  | |- sized (mbind _ _) => apply sized_bind; [|intro]
  | |- sized (let _ := _ in _) => cbv zeta
  | |- sized (match ?x with _ => _ end) => destruct x
  | |- sized (match ?x with _ => _ end _) => destruct x
  | |- sized (fun b => _ b) => apply sized_self; intro; eexists; split;
      [lazymatch goal with |- ?e ?b = _ =>
         cbv beta; lazymatch goal with |- _ = ?g b => unify e g; reflexivity end end|]
  end.
Ltac sized := intros; repeat first [solve [eauto with sized] | sized_step]; eauto with sized.

Lemma sized_memmove dst src n : sized (memmove dst src n).
Proof. unfold memmove. sized. Qed.
#[export] Hint Resolve sized_memmove : sized.

Section Record.
Context (R : record_h) `{RecordLib}.

Lemma sized_load_name a : sized (load_name R a).
Proof. unfold load_name. sized. Qed.
Hint Resolve sized_load_name : sized.

Lemma sized_match_name name ic a : sized (match_name R name ic a).
Proof. unfold match_name. sized. Qed.

Lemma sized_match_value val len a : sized (match_value R val len a).
Proof. unfold match_value. sized. Qed.
Hint Resolve sized_match_name sized_match_value : sized.

Lemma sized_find_loop fuel type name ic val len : forall a attr,
  sized (attr_find_loop R fuel type name ic val len a attr).
Proof. induction fuel; cbn [attr_find_loop]; sized. Qed.
Hint Resolve sized_find_loop : sized.

Lemma sized_find type name ic val len ctx : sized (mkntfs_attr_find R type name ic val len ctx).
Proof. unfold mkntfs_attr_find. sized. Qed.
Hint Resolve sized_find : sized.

Lemma sized_lookup type name ic val len ctx : sized (mkntfs_attr_lookup R type name ic val len ctx).
Proof. unfold mkntfs_attr_lookup. sized. Qed.

Lemma sized_make_room pos size : sized (make_room_for_attribute R pos size).
Proof. unfold make_room_for_attribute. sized. Qed.

Lemma sized_write_resident a type asize uname nl flags rf val len :
  sized (write_resident_attr R a type asize uname nl flags rf val len).
Proof. unfold write_resident_attr. sized. Qed.
Hint Resolve sized_lookup sized_make_room sized_write_resident : sized.

Lemma sized_insert_resident type name nl ic flags rf val len :
  sized (insert_resident_attr_in_mft_record R type name nl ic flags rf val len).
Proof. unfold insert_resident_attr_in_mft_record. sized. Qed.
Hint Resolve sized_insert_resident : sized.

Lemma sized_std_info now flags id junk : sized (add_attr_std_info R now flags id junk).
Proof. unfold add_attr_std_info. sized. Qed.

Lemma sized_non_resident : sized (non_resident_unnamed_data R).
Proof. unfold non_resident_unnamed_data. sized. Qed.

Lemma sized_stdinfo_time now : sized (stdinfo_time R now).
Proof. unfold stdinfo_time. sized. Qed.

Lemma sized_file_name fn parent al size flags ea tag name type :
  sized (add_attr_file_name R fn parent al size flags ea tag name type).
Proof. unfold add_attr_file_name. sized. Qed.

Lemma sized_object_id id : sized (add_attr_object_id R id).
Proof. unfold add_attr_object_id. sized. Qed.

Lemma sized_vol_name name : sized (add_attr_vol_name R name).
Proof. unfold add_attr_vol_name. sized. Qed.

Lemma sized_vol_info flags major minor : sized (add_attr_vol_info R flags major minor).
Proof. unfold add_attr_vol_info. sized. Qed.

Lemma sized_index_root cs ss r name nl ic type rule ibs :
  sized (add_attr_index_root R cs ss r name nl ic type rule ibs).
Proof. unfold add_attr_index_root. sized. Qed.
End Record.

#[export] Hint Resolve sized_find sized_lookup sized_make_room sized_insert_resident
  sized_std_info sized_non_resident sized_stdinfo_time sized_file_name sized_object_id
  sized_vol_name sized_vol_info sized_index_root : sized.

(** ** Attributes in clusters *)

Section NonRes.
Context (R : record_h) (N : nonres_h) `{RecordLib} `{MappingLib} {S : Type} `{BlockDevLaws S}.

(** The same for the computations that also change the allocator and the device; and
    without action ([na]) the device keeps its bytes. *)
Definition keepsF (na : bool) {A} (m : F (S := S) A) : Prop := forall fs b x fs' b',
  m fs b = Some ((x, fs'), b') ->
  length b' = length b /\ (na = true -> forall a, dcell (fs_dev fs') a = dcell (fs_dev fs) a).

Lemma keepsF_ask na {A} (f : fstate -> A) : keepsF na (fun fs => mret (f fs, fs)).
Proof. by intros fs b y fs' b' [= _ <- <-]. Qed.

Lemma keepsF_ret na {A} (x : A) : keepsF na (fun fs => mret (x, fs)).
Proof. apply keepsF_ask. Qed.

Lemma keepsF_bind na {A B} (m : F A) (k : A -> F B) :
  keepsF na m -> (forall x, keepsF na (k x)) -> keepsF na (fun fs => '(x, fs) ← m fs; k x fs).
Proof.
  intros Hm Hk fs b y fs' b'. unfold mbind, M_bind.
  destruct (m fs b) as [[[x fs1] b1]|] eqn:E; [|done]. intros Ek.
  destruct (Hm _ _ _ _ _ E) as [L1 D1]. destruct (Hk _ _ _ _ _ _ Ek) as [L2 D2].
  split; [congruence|]. intros Hna a. by rewrite D2, D1.
Qed.

Lemma keepsF_record na {A} (m : M A) : sized m -> keepsF na (on_record m).
Proof.
  intros Hm fs b x fs' b'. unfold on_record, mbind, M_bind.
  destruct (m b) as [[y b1]|] eqn:E; [|done]. intros [= _ <- <-]. split; [by eapply Hm | done].
Qed.

Lemma keepsF_ctx na {A} (k : option search_ctx -> F A) :
  (forall ctx, keepsF na (k ctx)) -> keepsF na (with_ctx k).
Proof. intros Hk fs b. unfold with_ctx. apply Hk. Qed.

Lemma keepsF_none na {A} : keepsF na (fun _ _ => @None (A * fstate * buffer)).
Proof. done. Qed.
End NonRes.

#[export] Hint Resolve keepsF_ask keepsF_none : sized.

Ltac keepsF_step :=
  match goal with
  | |- keepsF _ (mbind _ _) => apply keepsF_bind; [|intro]
  | |- keepsF _ (mret _) => apply keepsF_ret
  | |- keepsF _ (on_record _) => apply keepsF_record; sized
  | |- keepsF _ (with_ctx _) => apply keepsF_ctx; intro
  | |- keepsF _ (let _ := _ in _) => cbv zeta
  | |- keepsF _ (match ?x with _ => _ end) => destruct x
  end.
Ltac keepsF := intros; repeat first [solve [eauto with sized] | keepsF_step]; eauto with sized.

Section NonRes2.
Context (R : record_h) (N : nonres_h) `{RecordLib} `{MappingLib} {S : Type} `{BlockDevLaws S}.
Context (malloc_ok : nat -> bool) (calloc_ok no_action : bool) (nr_clusters csize : Z)
  (scatter_errno write_errno : option errno_t).

Lemma keepsF_allocate n : keepsF (S := S) no_action (allocate malloc_ok nr_clusters n).
Proof.
  intros fs b x fs' b'. unfold allocate.
  destruct (allocate_scattered_clusters _ _ _ _ _) as [[[rl zone] al]|]; [|done].
  by intros [= _ <- <-].
Qed.

Lemma keepsF_write_rl rl val len wt : keepsF (S := S) no_action (write_rl calloc_ok no_action csize rl val len wt).
Proof.
  intros fs b x fs' b'. unfold write_rl.
  destruct (ntfs_rlwrite _ _ _ _ _ _ _ _ _ _) as [[bw d]|] eqn:E; [|done].
  intros [= _ <- <-]. split; [done|]. intros Hna. unfold ntfs_rlwrite in E. rewrite Hna in E.
  by injection E as _ <-.
Qed.

Lemma keepsF_prepare type name ic flags : keepsF (S := S) no_action (prepare R N type name ic flags).
Proof. unfold prepare. keepsF. Qed.
Hint Resolve keepsF_allocate keepsF_write_rl keepsF_prepare : sized.

Lemma sized_write_hdr a type asize uname nl flags h al len init :
  sized (write_nonres_hdr R N a type asize uname nl flags h al len init).
Proof. unfold write_nonres_hdr. sized. Qed.

Lemma sized_build a nl mpa rl : sized (build_mapping_pairs a nl mpa rl).
Proof. unfold build_mapping_pairs. sized. Qed.
Hint Resolve sized_write_hdr sized_build : sized.

Lemma keepsF_write_nonres a type uname nl flags rl val len wt mpa :
  keepsF (S := S) no_action (write_nonres_attr R N calloc_ok no_action csize write_errno a type uname nl flags rl
            val len wt mpa).
Proof. unfold write_nonres_attr. keepsF. Qed.
Hint Resolve keepsF_write_nonres : sized.

Lemma keepsF_insert_nonres type name nl ic flags val len wt :
  keepsF (S := S) no_action (insert_non_resident_attr_in_mft_record R N malloc_ok calloc_ok no_action nr_clusters
            csize scatter_errno write_errno type name nl ic flags val len wt).
Proof. unfold insert_non_resident_attr_in_mft_record. keepsF. Qed.

(** The value is read from the buffer, which it leaves as it is. *)
Lemma keepsF_write_positioned a type uname nl flags rl val len mpa h :
  sized val ->
  keepsF (S := S) no_action (write_positioned_attr R N calloc_ok no_action csize write_errno a type uname nl flags rl
            val len mpa h).
Proof. intros Hv. unfold write_positioned_attr. keepsF. Qed.
Hint Resolve keepsF_insert_nonres keepsF_write_positioned : sized.

Lemma keepsF_insert_positioned type name nl ic flags rl val len :
  sized val ->
  keepsF (S := S) no_action (insert_positioned_attr_in_mft_record R N calloc_ok no_action csize write_errno type
            name nl ic flags rl val len).
Proof. intros Hv. unfold insert_positioned_attr_in_mft_record. keepsF. Qed.
End NonRes2.

#[export] Hint Resolve keepsF_write_rl keepsF_insert_nonres keepsF_insert_positioned : sized.

Section Adding.
Context (R : record_h) (N : nonres_h) `{RecordLib} `{MappingLib} {S : Type} `{BlockDevLaws S}.
Context (malloc_ok : nat -> bool) (calloc_ok no_action : bool) (nr_clusters csize : Z)
  (scatter_errno write_errno : option errno_t).

Lemma keepsF_sd sd len :
  keepsF (S := S) no_action (add_attr_sd R N malloc_ok calloc_ok no_action nr_clusters csize scatter_errno
            write_errno sd len).
Proof. unfold add_attr_sd. keepsF. Qed.

Lemma keepsF_data name nl ic flags val len :
  keepsF (S := S) no_action (add_attr_data R N malloc_ok calloc_ok no_action nr_clusters csize scatter_errno
            write_errno name nl ic flags val len).
Proof. unfold add_attr_data. keepsF. Qed.

Lemma keepsF_bitmap name nl ic val len :
  keepsF (S := S) no_action (add_attr_bitmap R N malloc_ok calloc_ok no_action nr_clusters csize scatter_errno
            write_errno name nl ic val len).
Proof. unfold add_attr_bitmap. keepsF. Qed.

Lemma keepsF_index_alloc name nl ic val len :
  keepsF (S := S) no_action (add_attr_index_alloc R N malloc_ok calloc_ok no_action nr_clusters csize scatter_errno
            write_errno name nl ic val len).
Proof. unfold add_attr_index_alloc. keepsF. Qed.

Lemma keepsF_data_positioned name nl ic flags rl val len :
  sized val ->
  keepsF (S := S) no_action (add_attr_data_positioned R N calloc_ok no_action csize write_errno name nl ic flags rl
            val len).
Proof. unfold add_attr_data_positioned. keepsF. Qed.

Lemma keepsF_bitmap_positioned name nl ic rl val len :
  keepsF (S := S) no_action (add_attr_bitmap_positioned R N calloc_ok no_action csize write_errno name nl ic rl val
            len).
Proof. unfold add_attr_bitmap_positioned. keepsF. Qed.
End Adding.

#[export] Hint Resolve keepsF_sd keepsF_data keepsF_bitmap keepsF_index_alloc
  keepsF_data_positioned keepsF_bitmap_positioned : sized.

(** ** Indexes *)

Section Indexes.
Context (R : record_h) (L : layout_h) (I : index_h) `{RecordLib} `{CLib}.

Lemma sized_decide_file_name fn ie : sized (decide_file_name R I fn ie).
Proof. unfold decide_file_name. sized. Qed.

Lemma sized_decide_view idx rule ie : sized (decide_view R I idx rule ie).
Proof. unfold decide_view. sized. Qed.

Lemma sized_entry_loop fuel decide e :
  (forall ie, sized (decide ie)) -> forall ie, sized (entry_loop R fuel decide ie e).
Proof. intros Hd. induction fuel; cbn [entry_loop]; sized. Qed.
Hint Resolve sized_entry_loop : sized.

Lemma sized_find_entry decide ie e :
  (forall ie, sized (decide ie)) -> sized (find_entry R decide ie e).
Proof. intros Hd. unfold find_entry. sized. Qed.
Hint Resolve sized_decide_file_name sized_decide_view sized_find_entry : sized.

Lemma sized_insert_entry mrs idx size name type :
  sized (insert_index_entry_in_res_dir_index R I mrs idx size name type).
Proof.
  unfold insert_index_entry_in_res_dir_index. sized. apply sized_find_entry. sized.
Qed.
Hint Resolve sized_insert_entry : sized.

Lemma sized_secure_loop mrs sds size fuel : forall p sdh sii,
  sized (secure_loop R L I fuel mrs sds size p sdh sii).
Proof. induction fuel; cbn [secure_loop]; sized. Qed.
Hint Resolve sized_secure_loop : sized.

Lemma sized_initialize_secure mrs c1 c2 sds size :
  sized (initialize_secure R L I mrs c1 c2 sds size).
Proof. unfold initialize_secure. sized. Qed.

Lemma sized_initialize_quota mrs now1 now2 calloc :
  sized (initialize_quota R L I mrs now1 now2 calloc).
Proof. unfold initialize_quota. sized. Qed.

Lemma sized_obj_id mrs calloc guid ref : sized (index_obj_id_insert R I mrs calloc guid ref).
Proof. unfold index_obj_id_insert. sized. Qed.

Lemma sized_undo : sized (undo_link_count I).
Proof. unfold undo_link_count. sized. Qed.
Hint Resolve sized_undo : sized.

Lemma sized_add_link fn size : sized (add_link_name R I fn size).
Proof. unfold add_link_name. sized. Qed.
Hint Resolve sized_add_link : sized.

Lemma sized_hardlink now fn idx parent file al size flags ea tag name type :
  sized (create_hardlink R I now fn idx parent file al size flags ea tag name type).
Proof. unfold create_hardlink. sized. Qed.

(** The record of the parent keeps its size too. *)
Definition gives {A} (Q : A -> Prop) (m : M A) : Prop := forall b x b', m b = Some (x, b') -> Q x.

Lemma gives_ret {A} (Q : A -> Prop) x : Q x -> gives Q (mret x).
Proof. by intros Hx b y b' [= <- _]. Qed.

Lemma gives_bind {A B} (Q' : A -> Prop) (Q : B -> Prop) (m : M A) (k : A -> M B) :
  gives Q' m -> (forall x, Q' x -> gives Q (k x)) -> gives Q (m ≫= k).
Proof.
  intros Hm Hk b y b'. unfold mbind, M_bind. destruct (m b) as [[x b1]|] eqn:E; [|done].
  apply Hk. by eapply Hm.
Qed.

Lemma gives_any {A B} (Q : B -> Prop) (m : M A) (k : A -> M B) :
  (forall x, gives Q (k x)) -> gives Q (m ≫= k).
Proof. intros Hk. by apply (gives_bind (fun _ => True)). Qed.

Lemma gives_other {A} other (m : M A) :
  sized m -> gives (fun r => length r.2 = length other) (on_other other m).
Proof.
  intros Hm b [x other'] b'. unfold on_other. destruct (m other) as [[y o']|] eqn:E; [|done].
  intros [= <- <- _]. by eapply Hm.
Qed.

Lemma hardlink_res_parent now mrs fn e mp parent file al size flags ea tag name type :
  gives (fun r => length r.2 = length mp)
    (create_hardlink_res R I now mrs fn e mp parent file al size flags ea tag name type).
Proof.
  unfold create_hardlink_res. destruct fn; [|by apply gives_ret]. apply gives_any. intros t.
  case_match; [by apply gives_ret|].
  destruct (fill_file_name _ _ _ _ _ _ _ _ _ _ _ _ _ _) as [[[e'|n] fn']|]; [by apply gives_ret| |done].
  cbv zeta. apply gives_any. intros [err|]; [by apply gives_ret|]. case_match; [by apply gives_ret|].
  apply gives_any. intros new. eapply gives_bind; [apply gives_other, sized_insert_entry|].
  intros [err p'] Hp. apply gives_any. intros _. by apply gives_ret.
Qed.

Lemma sized_hardlink_res now mrs fn e mp parent file al size flags ea tag name type :
  sized (create_hardlink_res R I now mrs fn e mp parent file al size flags ea tag name type).
Proof. unfold create_hardlink_res. sized. Qed.
End Indexes.

#[export] Hint Resolve sized_find_entry sized_initialize_secure sized_initialize_quota sized_obj_id
  sized_hardlink sized_hardlink_res : sized.

Section Large.
Context (R : record_h) (N : nonres_h) (I : index_h) (G : large_h) `{RecordLib} `{MappingLib}
  `{LargeLib} {S : Type} `{BlockDevLaws S}.

(** The library's function moves what follows the attribute inside the record. *)
Context (Hresize : forall a size, sized (resident_attr_value_resize a size)).

Lemma sized_empty_root r re last : sized (empty_root R G r re last).
Proof. unfold empty_root. sized. Qed.
Hint Resolve sized_empty_root Hresize : sized.

Lemma keepsF_move malloc_ok c na nr cs se we name nl ic a r re last ia ibs :
  keepsF (S := S) na (move_to_block R N G malloc_ok c na nr cs se we name nl ic a r re last ia ibs).
Proof. unfold move_to_block. keepsF. Qed.
Hint Resolve keepsF_move : sized.

Lemma keepsF_upgrade malloc_ok c na nr cs se we block name nl ic :
  keepsF (S := S) na (upgrade_to_large_index R N I G malloc_ok c na nr cs se we block name nl ic).
Proof. unfold upgrade_to_large_index. keepsF. Qed.
End Large.

#[export] Hint Resolve keepsF_upgrade : sized.
