(* ===== verification/Format.v ===== *)
(** * The formatting run

    Models the part of src/NTFSModule/bridge/mkntfs/mkntfs.c that makes the volume
    out of the pieces of the other files: [mkntfs_fill_device_with_zeroes],
    [mkntfs_sync_index_record], [create_file_volume], [create_backup_boot_sector],
    [mkntfs_create_root_structures] file by file, and the writing of the index, the
    bitmap, the MFT and its mirror in [mkntfs_redirect].  The MFT is one buffer,
    [g_buf]; a record is a part of it.  Answers of the system (the clock, the heap,
    errno) come from [sys], one [answers] per call. *)

From Stdlib Require Import String Ascii.
From S2P Require Import Prelude ClusterAlloc Scatter Runlist Device MkWrite Options Layout Bytes Sd AttrDef Mft MftNonRes Index IndexLarge Boot.

(** Fields, flags and numbers of [layout.h] only the functions here use. *)
Record format_h := {
  m_sequence_number : Z; m_flags : Z;
  MFT_RECORD_IN_USE : Z; MFT_RECORD_IS_DIRECTORY : Z; MFT_RECORD_IS_4 : Z;
  MFT_RECORD_IS_VIEW_INDEX : Z;
  FILE_ATTR_HIDDEN : Z; FILE_ATTR_SYSTEM : Z; FILE_ATTR_ARCHIVE : Z; FILE_ATTR_COMPRESSED : Z;
  FILE_ATTR_NOT_CONTENT_INDEXED : Z; FILE_ATTR_I30_INDEX_PRESENT : Z;
  FILE_ATTR_VIEW_INDEX_PRESENT : Z; FILE_NAME_WIN32_AND_DOS : Z; VOLUME_IS_DIRTY : Z;
  FILE_MFT : Z; FILE_MFTMirr : Z; FILE_Volume : Z; FILE_root : Z; FILE_Bitmap : Z;
  FILE_BadClus : Z; FILE_UpCase : Z
}.

Definition documented_format : format_h := {|
  m_sequence_number := 0x10; m_flags := 0x16;
  MFT_RECORD_IN_USE := 1; MFT_RECORD_IS_DIRECTORY := 2; MFT_RECORD_IS_4 := 4;
  MFT_RECORD_IS_VIEW_INDEX := 8;
  FILE_ATTR_HIDDEN := 2; FILE_ATTR_SYSTEM := 4; FILE_ATTR_ARCHIVE := 0x20;
  FILE_ATTR_COMPRESSED := 0x800; FILE_ATTR_NOT_CONTENT_INDEXED := 0x2000;
  FILE_ATTR_I30_INDEX_PRESENT := 0x10000000; FILE_ATTR_VIEW_INDEX_PRESENT := 0x20000000;
  FILE_NAME_WIN32_AND_DOS := 3; VOLUME_IS_DIRTY := 1;
  FILE_MFT := 0; FILE_MFTMirr := 1; FILE_Volume := 3; FILE_root := 5; FILE_Bitmap := 6;
  FILE_BadClus := 8; FILE_UpCase := 10
|}.

(** What libntfs-3g and the device do for the functions here. *)
Class FormatLib (S : Type) := {
  (** [ntfs_mft_record_layout(g_vol, 0, m)] on the bytes of [m]; [None]: it fails. *)
  mft_record_layout : buffer -> option buffer;
  (** [ntfs_bit_set(bitmap, bit, 1)] *)
  bit_set : buffer -> Z -> buffer;
  (** [ntfs_mapping_pairs_decompress(g_vol, a, NULL)] on the bytes from [a] on. *)
  mapping_pairs_decompress : buffer -> option (list rle);
  (** [ntfs_mst_pwrite(dev, pos, 1, size, b)]: the answer, and [b] and the device
      afterwards. *)
  mst_pwrite : Z -> buffer -> S -> Z * buffer * S;
  (** [ntfs_mft_usn_dec]; [None]: it fails. *)
  mft_usn_dec : buffer -> option buffer;
  (** [seek(dev, off, SEEK_CUR)] and [sync(dev)] (whether it succeeds). *)
  dev_seek_cur : Z -> S -> bool * S;
  dev_sync : S -> bool * S;
}.

(** The answers of the system during one call: the clock, the allocations and what
    fresh memory holds, the padding of a write, and errno of a failed allocation of
    clusters or write ([None] when it is 0). *)
Record answers := mkAnswers {
  ans_now : nat -> Z; ans_heap : nat -> bool; ans_junk : nat -> Z; ans_padding : bool;
  ans_scatter : option errno_t; ans_write : option errno_t
}.

Definition stack_mem (a : answers) (size : Z) : buffer := ans_junk a <$> seq 0 (Z.to_nat size).

Definition heap_mem (a : answers) (k : nat) (size : Z) : option buffer :=
  if ans_heap a k then Some (stack_mem a size) else None.

(** The characters of a C string. *)
Definition chars (s : string) : cstring := code <$> list_ascii_of_string s.

(** [MK_LE_MREF] *)
Definition MK_LE_MREF (m s : Z) : Z := Z.lor (Z.shiftl s 48) m.

(** The variable [err]: 0, [-errno], or a positive [errno]. *)
Inductive rc := Done | Err (e : errno_t) | Errno (e : errno_t).

Definition of_err (err : option errno_t) : rc :=
  match err with None => Done | Some e => Err e end.

(** [err < 0] *)
Definition negative (err : rc) : bool := match err with Err _ => true | _ => false end.

Section Format.
Context (RH : record_h) (NH : nonres_h) (IH : index_h) (GH : large_h) (BH : boot_h)
  (SH : layout_h) (FH : format_h) (is_ntfs : buffer -> bool)
  `{RecordLib} `{MappingLib} `{CLib} `{LargeLib} {S : Type} `{BlockDev S} `{FormatLib S}.

(** The options, the volume and its layout; [malloc_ok]: the allocations of the
    cluster allocator. *)
Context (o : mkntfs_options) (vol : mkvol) (g : globals) (malloc_ok : nat -> bool)
  (sys : nat -> answers).

(** ** Zeroing the device *)

(** [append_to_bad_blocks]: [None] is FALSE. *)
Definition append_to_bad_blocks (realloc_ok : bool) (bad : list Z) (block : Z) : option (list Z) :=
  if (Z.land (Z.of_nat (length bad)) 15 =? 0) && negb realloc_ok then None
  else Some (bad ++ [block]).

Section Fill.
(** [eio k]: [errno == EIO] after the write number [k] has failed. *)
Context (eio realloc_ok : Z -> bool) (buf : buffer).

(** The clusters from [position] on, [n] of them; [inl] is FALSE. *)
Fixpoint fill_clusters (n : nat) (position : Z) (bad : list Z) (s : S)
  : option (unit + list Z) * S :=
  match n with
  | O => (Some (inr bad), s)
  | Datatypes.S n =>
      match mkntfs_write (no_action o) buf (cluster_size vol) s with
      | None => (None, s)
      | Some (bw, s) =>
          if bw =? cluster_size vol then fill_clusters n (position + 1) bad s else
          if negb (bw =? -1) || negb (eio position) then (Some (inl tt), s) else
          if position =? 0 then (Some (inl tt), s) else
          match append_to_bad_blocks (realloc_ok position) bad position with
          | None => (Some (inl tt), s)
          | Some bad =>
              let '(_, s) := dev_seek ((position + 1) * cluster_size vol) s in
              fill_clusters n (position + 1) bad s
          end
      end
  end.

(** The sectors after the last cluster, from [i] on; [false] is FALSE. *)
Fixpoint fill_sectors (n : nat) (i position : Z) (s : S) : option bool * S :=
  match n with
  | O => (Some true, s)
  | Datatypes.S n =>
      match mkntfs_write (no_action o) buf (sector_size o) s with
      | None => (None, s)
      | Some (bw, s) =>
          if bw =? sector_size o then fill_sectors n (i + 1) position s else
          if negb (bw =? -1) || negb (eio (nr_clusters vol + i)) then (Some false, s) else
          if i + 1 =? position then (Some false, s) else
          let '(_, s) := dev_seek_cur (sector_size o) s in
          fill_sectors n (i + 1) position s
      end
  end.

Definition volume_size : Z := to_u 64 (Z.shiftl (nr_clusters vol) (cluster_size_bits vol)).

Definition tail_sectors : Z := Z.land volume_size (cluster_size vol - 1) / sector_size o.

(** The list of bad clusters, or FALSE. *)
Definition mkntfs_fill_device_with_zeroes (s : S) : option (unit + list Z) * S :=
  match fill_clusters (Z.to_nat (nr_clusters vol)) 0 [] s with
  | (Some (inr bad), s) =>
      match fill_sectors (Z.to_nat tail_sectors) 0 tail_sectors s with
      | (Some true, s) => (Some (inr bad), s)
      | (Some false, s) => (Some (inl tt), s)
      | (None, s) => (None, s)
      end
  | res => res
  end.
End Fill.

(** ** The state and its monad *)

(** [g_buf], [*g_index_block], [g_mft_bitmap], the static arrays of
    [init_system_file_sd] and [init_root_sd], and what the insertions change. *)
Record fmt := mkFmt {
  f_buf : buffer; f_idx : buffer; f_bmp : buffer; f_sd : buffer; f_root_sd : buffer;
  f_fs : fstate (S := S)
}.

Definition P (A : Type) : Type := fmt -> option (A * fmt).

#[local] Instance P_ret : MRet P := fun A x st => Some (x, st).
#[local] Instance P_bind : MBind P := fun A B k m st =>
  match m st with Some (x, st) => k x st | None => None end.

Definition set_buf (b : buffer) (fs : fstate) (st : fmt) : fmt :=
  mkFmt b (f_idx st) (f_bmp st) (f_sd st) (f_root_sd st) fs.

Definition set_idx (idx : buffer) (st : fmt) : fmt :=
  mkFmt (f_buf st) idx (f_bmp st) (f_sd st) (f_root_sd st) (f_fs st).

Definition set_bmp (bmp : buffer) (st : fmt) : fmt :=
  mkFmt (f_buf st) (f_idx st) bmp (f_sd st) (f_root_sd st) (f_fs st).

Definition modify (f : fmt -> fmt) : P unit := fun st => Some (tt, f st).

Abbreviation rec_pos i := (Z.to_nat (i * mft_record_size vol)).
Abbreviation rec_len := (Z.to_nat (mft_record_size vol)).

(** The record at [g_buf + i * g_vol->mft_record_size], and the buffer with another
    one in its place. *)
Definition record_of (i : Z) (b : buffer) : buffer := take rec_len (drop (rec_pos i) b).

Definition with_record_of (i : Z) (b r : buffer) : buffer :=
  take (rec_pos i) b ++ r ++ drop (rec_pos i + rec_len) b.

(** A computation on record [i] and the allocator and the device. *)
Definition on_rec {A} (i : Z) (m : F (S := S) A) : P A := fun st =>
  if (Z.to_nat (i * mft_record_size vol) + rec_len <=? length (f_buf st))%nat then
    match m (f_fs st) (record_of i (f_buf st)) with
    | Some ((x, fs), r) => Some (x, set_buf (with_record_of i (f_buf st) r) fs st)
    | None => None
    end
  else None.

Definition rec {A} (i : Z) (m : M A) : P A := on_rec i (on_record m).

(** The same with the index block at hand. *)
Definition rec_idx {A} (i : Z) (m : buffer -> M (A * buffer)) : P A := fun st =>
  match rec i (m (f_idx st)) st with
  | Some ((x, idx), st) => Some (x, set_idx idx st)
  | None => None
  end.

(** A computation on the device that no record takes part in. *)
Definition on_device {A} (m : F (S := S) A) : P A := fun st =>
  match m (f_fs st) [] with
  | Some ((x, fs), _) => Some (x, set_buf (f_buf st) fs st)
  | None => None
  end.

(** [if (!err) err = k;] *)
Definition next (err : rc) (k : P rc) : P rc :=
  match err with Done => k | _ => mret err end.

(** [if (err < 0) return FALSE;], and a step that starts with such an answer. *)
Definition checked (err : rc) : P (option rc) :=
  mret (if negative err then None else Some err).

Definition and_then {A B} (m : P (option A)) (k : A -> P (option B)) : P (option B) :=
  r ← m; match r with Some x => k x | None => mret None end.

(** ** The calls of [mkntfs_create_root_structures], number [k] *)

Abbreviation csize := (cluster_size vol).

Definition or_flags (i flag : Z) : P unit :=
  rec i (flags ← load16 (m_flags FH); store16 (m_flags FH) (Z.lor flags flag)).

Definition root_ref : Z := MK_LE_MREF (FILE_root FH) (FILE_root FH).
Definition extend_ref : Z := MK_LE_MREF 11 11.
Definition hidden_system : Z := Z.lor (FILE_ATTR_HIDDEN FH) (FILE_ATTR_SYSTEM FH).

(** [(size + cluster_size - 1) & ~(cluster_size - 1)]; [cluster_size] is [u32]. *)
Definition whole_clusters (size : Z) : Z :=
  Z.land (size + csize - 1) (to_u 32 (Z.lnot (csize - 1))).

Definition data (k : nat) (i : Z) (name : option cstring) (val : buffer) (val_len : Z) : P rc :=
  err ← on_rec i (add_attr_data RH NH malloc_ok (ans_padding (sys k)) (no_action o)
                    (nr_clusters vol) csize (ans_scatter (sys k)) (ans_write (sys k)) name
                    (match name with Some s => Z.of_nat (length s) | None => 0 end)
                    CASE_SENSITIVE 0 val val_len);
  mret (of_err err).

Definition data_positioned (k : nat) (i : Z) (name : option cstring) (rl : list rle)
    (val : buffer -> M buffer) (val_len : Z) : P rc := fun st => (
  err ← on_rec i (add_attr_data_positioned RH NH (ans_padding (sys k)) (no_action o) csize
                    (ans_write (sys k)) name
                    (match name with Some s => Z.of_nat (length s) | None => 0 end)
                    CASE_SENSITIVE 0 rl (val (f_buf st)) val_len);
  mret (of_err err) : P rc) st.

(** [g_buf] as the value, while record [i], which lies in it, is worked on. *)
Definition whole_buf (i : Z) (b : buffer) : M buffer := fun r => Some (with_record_of i b r, r).

Definition system_file_sd_attr (k : nat) (i : Z) : P rc := fun st =>
  match init_system_file_sd SH i (f_sd st) with
  | Some ((Some p, len), sd) =>
      (err ← on_rec i (add_attr_sd RH NH malloc_ok (ans_padding (sys k)) (no_action o)
                         (nr_clusters vol) csize (ans_scatter (sys k)) (ans_write (sys k))
                         (take (Z.to_nat len) (drop (Z.to_nat p) sd)) len);
       mret (of_err err) : P rc)
      (mkFmt (f_buf st) (f_idx st) (f_bmp st) sd (f_root_sd st) (f_fs st))
  | _ => None
  end.

Definition index_root (k : nat) (i : Z) (name : cstring) (type rule : Z) : P rc :=
  err ← rec i (add_attr_index_root RH csize (sector_size o)
                 (heap_mem (sys k) 0 (sizeof_INDEX_ROOT RH + sizeof_INDEX_ENTRY_HEADER RH))
                 (Some name) (Z.of_nat (length name)) CASE_SENSITIVE type rule
                 (indx_record_size vol));
  mret (of_err err).

(** The memory of a [FILE_NAME_ATTR] for a name. *)
Definition fn_mem (k : nat) (name : cstring) : option buffer :=
  heap_mem (sys k) 0 (sizeof_FILE_NAME_ATTR RH + (Z.of_nat (length name) + 1) * 2).

(** [create_hardlink] of record [i] into the root directory. *)
Definition hardlink (k : nat) (i seq allocated_size data_size flags : Z) (name : cstring) : P rc :=
  err ← rec_idx i (fun idx => create_hardlink RH IH (ans_now (sys k) 0) (fn_mem k name) idx
                     root_ref (MK_LE_MREF i seq) allocated_size data_size flags 0 0 name
                     (FILE_NAME_WIN32_AND_DOS FH));
  mret (of_err err).

(** [create_hardlink_res] of record [i] into $Extend, record 11. *)
Definition hardlink_res (k : nat) (i seq flags : Z) (name : cstring) : P rc := fun st => (
  '(err, parent) ← rec i (create_hardlink_res RH IH (ans_now (sys k) 0) (mft_record_size vol)
                     (fn_mem k name) (ans_heap (sys k) 1) (record_of 11 (f_buf st)) extend_ref
                     (MK_LE_MREF i seq) 0 0 flags 0 0 name (FILE_NAME_WIN32_AND_DOS FH));
  _ ← rec 11 (fun _ => Some (tt, parent));
  mret (of_err err) : P rc) st.

(** ** The records *)

(** One empty record; [false] when [ntfs_mft_record_layout] fails. *)
Definition layout_record (i : Z) : P bool :=
  rec i (fun b => match mft_record_layout b with
                  | Some r => Some (true, r)
                  | None => Some (false, b)
                  end).

(** [for (i = 0; i < nr_sysfiles; i++)]: the records of the system files. *)
Fixpoint layout_sysfiles (n : nat) (i : Z) : P bool :=
  match n with
  | O => mret true
  | Datatypes.S n =>
      ok ← layout_record i;
      if negb ok then mret false else
      _ ← rec i (store16 (m_sequence_number FH) (if (i =? 0) || (23 <? i) then 1 else i));
      layout_sysfiles n (i + 1)
  end.

(** The rest of [g_buf]: formatted records not in use. *)
Fixpoint layout_rest (fuel : nat) (i : Z) : P bool :=
  if i * mft_record_size vol <? g_mft_size g then
    match fuel with
    | O => fun _ => None
    | Datatypes.S fuel =>
        ok ← layout_record i;
        if negb ok then mret false else
        _ ← rec i (store16 (m_flags FH) 0;; store16 (m_sequence_number FH) i);
        layout_rest fuel (i + 1)
    end
  else mret true.

(** [file_attrs] and the security id of system file [i]. *)
Definition base_attrs (i : Z) : Z :=
  if i =? FILE_root FH then
    let a := Z.lor hidden_system (FILE_ATTR_ARCHIVE FH) in
    let a := if disable_indexing o then Z.lor a (FILE_ATTR_NOT_CONTENT_INDEXED FH) else a in
    if enable_compression o then Z.lor a (FILE_ATTR_COMPRESSED FH) else a
  else hidden_system.

Definition sysfile_attrs (i : Z) : Z * Z :=
  let a := base_attrs i in
  if bool_decide (i ∈ [0; 1; 2; 6; 8; 10]) then (a, 0x0100) else
  if i =? 9 then (Z.lor a (FILE_ATTR_VIEW_INDEX_PRESENT FH), 0x0101) else
  if i =? 11 then (a, 0x0101) else
  if bool_decide (i ∈ [24; 25; 26]) then
    (Z.lor (Z.lor a (FILE_ATTR_ARCHIVE FH)) (FILE_ATTR_VIEW_INDEX_PRESENT FH), 0x0101)
  else (a, 0).

Definition in_use (i : Z) : bool := (i <? 16) || (23 <? i).

(** Number, flag and bit of the bitmap of a record in use. *)
Definition mark_in_use (i : Z) : P unit :=
  _ ← rec i (store32 (m_mft_record_number NH) i);
  _ ← or_flags i (MFT_RECORD_IN_USE FH);
  modify (fun st => set_bmp (bit_set (f_bmp st) i) st).

(** The second loop over the system files; what [add_attr_std_info] answers is not
    looked at. *)
Fixpoint mark_sysfiles (n : nat) (i : Z) : P unit :=
  match n with
  | O => mret tt
  | Datatypes.S n =>
      _ ← (if in_use i then mark_in_use i else mret tt);
      let '(attrs, security_id) := sysfile_attrs i in
      let k := (100 + Z.to_nat i)%nat in
      _ ← rec i (add_attr_std_info RH (ans_now (sys k) 0) attrs security_id
                   (stack_mem (sys k) (sizeof_STANDARD_INFORMATION RH)));
      mark_sysfiles n (i + 1)
  end.

Definition nr_sysfiles : nat := 27.

Definition layout_records : P bool :=
  ok ← layout_sysfiles nr_sysfiles 0;
  if negb ok then mret false else
  ok ← layout_rest (Z.to_nat (g_mft_size g)) (Z.of_nat nr_sysfiles);
  if negb (ok : bool) then mret false else
  _ ← mark_sysfiles nr_sysfiles 0;
  mret true.

(** ** The files *)

(** [insert_file_link_in_dir_index] of the root's own name; the answer is FALSE
    when the name is not found. *)
Definition link_root : P (option rc) := fun st => (
  '(found, idx) ← rec 5 (fun m => (
    match get_search_ctx m with
    | None => mret (None, f_idx st)
    | Some ctx =>
        '(err, ctx) ← mkntfs_attr_lookup RH (AT_FILE_NAME RH) AT_UNNAMED CASE_SENSITIVE None 0
                        (Some ctx);
        match err, ctx with
        | None, Some ctx =>
            let a := ctx_attr ctx in
            offset ← load16 (a + a_value_offset RH);
            length ← load32 (a + a_value_length RH);
            name ← load_bytes (a + offset) length;
            '(err, idx) ← on_other (f_idx st)
                            (insert_file_link_in_dir_index RH IH root_ref name length);
            mret (Some err, idx)
        | _, _ => mret (None, f_idx st)
        end
    end : M (option (option errno_t) * buffer)) m);
  _ ← modify (set_idx idx);
  mret (of_err <$> found) : P (option rc)) st.

Definition dollar_I30 : cstring := chars "$I30".

(** [upgrade_to_large_index] of the root directory, into [g_index_block]. *)
Definition upgrade_root (k : nat) : P rc := fun st => (
  '(err, idx) ← on_rec 5 (upgrade_to_large_index RH NH IH GH malloc_ok (ans_padding (sys k))
                   (no_action o) (nr_clusters vol) csize (ans_scatter (sys k))
                   (ans_write (sys k)) (ans_heap (sys k) 0) (Some dollar_I30) 4 CASE_SENSITIVE);
  _ ← modify (fun st => match idx with Some b => set_idx b st | None => st end);
  mret (of_err err) : P rc) st.

Definition root_sd_attr (k : nat) : P rc := fun st =>
  match init_root_sd SH (f_root_sd st) with
  | Some ((p, len), sd) =>
      (err ← on_rec 5 (add_attr_sd RH NH malloc_ok (ans_padding (sys k)) (no_action o)
                         (nr_clusters vol) csize (ans_scatter (sys k)) (ans_write (sys k))
                         (take (Z.to_nat len) (drop (Z.to_nat p) sd)) len);
       mret (of_err err) : P rc)
      (mkFmt (f_buf st) (f_idx st) (f_bmp st) (f_sd st) sd (f_fs st))
  | None => None
  end.

(** Any [err] but 0 is an error here. *)
Definition create_root_directory : P (option rc) :=
  _ ← or_flags 5 (MFT_RECORD_IS_DIRECTORY FH);
  _ ← rec 5 (count ← load16 (m_link_count IH); store16 (m_link_count IH) (count + 1));
  err ← rec 5 (add_attr_file_name RH (fn_mem 1 (chars ".")) root_ref 0 0
                 (Z.lor hidden_system (FILE_ATTR_I30_INDEX_PRESENT FH)) 0 0 (chars ".")
                 (FILE_NAME_WIN32_AND_DOS FH));
  err ← next (of_err err) (root_sd_attr 2);
  err ← next err (index_root 3 5 dollar_I30 (AT_FILE_NAME RH) (COLLATION_FILE_NAME RH));
  err ← next err (upgrade_root 4);
  and_then (match err with Done => link_root | _ => mret (Some err) end)
    (fun err => mret (match err with Done => Some err | _ => None end)).

Definition create_mft : P (option rc) :=
  err ← data_positioned 5 0 None (g_rl_mft g) (whole_buf 0) (g_mft_size g);
  err ← next err (hardlink 6 (FILE_MFT FH) 1 (Z.lor (g_mft_size g - 1) (csize - 1) + 1)
                    (g_mft_size g) hidden_system (chars "$MFT"));
  err ← next err (fun st => (
    err ← on_rec 0 (add_attr_bitmap_positioned RH NH (ans_padding (sys 7)) (no_action o) csize
            (ans_write (sys 7)) None 0 CASE_SENSITIVE (g_rl_mft_bmp g) (f_bmp st)
            (g_mft_bitmap_byte_size g));
    mret (of_err err) : P rc) st);
  checked err.

(** [g_rl_mftmirr[0].length * g_vol->cluster_size] *)
Definition mirror_bytes : Z :=
  match g_rl_mftmirr g with r :: _ => rl_length r * csize | [] => 0 end.

Definition create_mftmirr : P (option rc) :=
  err ← data_positioned 8 1 None (g_rl_mftmirr g) (whole_buf 1) mirror_bytes;
  err ← next err (hardlink 9 (FILE_MFTMirr FH) (FILE_MFTMirr FH) mirror_bytes mirror_bytes
                    hidden_system (chars "$MFTMirr"));
  checked err.

Definition create_logfile : P (option rc) :=
  err ← data_positioned 10 2 None (g_rl_logfile g) (fun _ => mret []) (g_logfile_size g);
  err ← next err (hardlink 11 (FILE_LogFile NH) (FILE_LogFile NH) (g_logfile_size g)
                    (g_logfile_size g) hidden_system (chars "$LogFile"));
  checked err.

(** [attrdef]: [g_vol->attrdef] and its length. *)
Definition create_attrdef (attrdef : buffer * Z) : P (option rc) :=
  err ← data 12 4 None attrdef.1 attrdef.2;
  err ← next err (hardlink 13 (FILE_AttrDef SH) (FILE_AttrDef SH) (whole_clusters attrdef.2)
                    attrdef.2 hidden_system (chars "$AttrDef"));
  err ← next err (system_file_sd_attr 14 (FILE_AttrDef SH));
  checked err.

Definition create_bitmap (err : rc) : P (option rc) :=
  err ← next err (
    err ← on_rec 6 (insert_non_resident_attr_in_mft_record RH NH malloc_ok (ans_padding (sys 15))
            (no_action o) (nr_clusters vol) csize (ans_scatter (sys 15)) (ans_write (sys 15))
            (AT_DATA RH) None 0 CASE_SENSITIVE 0 [] (g_lcn_bitmap_byte_size g) WRITE_BITMAP);
    mret (of_err err));
  err ← next err (hardlink 16 (FILE_Bitmap FH) (FILE_Bitmap FH)
                    (whole_clusters (g_lcn_bitmap_byte_size g)) (g_lcn_bitmap_byte_size g)
                    hidden_system (chars "$Bitmap"));
  checked err.

(** [create_backup_boot_sector]: whether it succeeds. *)
Definition create_backup_boot_sector (bs : buffer) : P bool := fun st =>
  let size := Z.max 512 (sector_size o) in
  let '(ok, s) := dev_seek ((num_sectors o + 1) * sector_size o - size) (fs_dev (f_fs st)) in
  let fs := f_fs st in
  let at_dev s := set_buf (f_buf st) (mkF (fs_alloc fs) (fs_zone fs) (fs_dyn fs) s) st in
  if negb ok then Some (false, at_dev s) else
  let size := Z.min size 8192 in
  match mkntfs_write (no_action o) bs size s with
  | None => None
  | Some (bw, s) => Some (bw =? size, at_dev s)
  end.

(** [r1], [r2]: the random numbers of the serial number.  The second component of
    the answer is [volume_flags]. *)
Definition create_boot (r1 r2 : Z) : P (option (rc * Z)) :=
  if negb (ans_heap (sys 17) 0) then mret None else
  match make_boot_sector BH is_ntfs o vol (g_mft_lcn g) (g_mftmirr_lcn g) r1 r2
          (replicate (Z.to_nat 8192) 0) return P (option (rc * Z)) with
  | None => fun _ => None
  | Some (false, _) => mret None
  | Some (true, bs) =>
      err ← data_positioned 18 7 None (g_rl_boot g) (fun _ => mret bs) 8192;
      err ← next err (hardlink 19 (FILE_Boot SH) (FILE_Boot SH) (whole_clusters 8192) 8192
                        hidden_system (chars "$Boot"));
      err ← next err (system_file_sd_attr 20 (FILE_Boot SH));
      if negative err then mret None else
      ok ← create_backup_boot_sector bs;
      mret (Some (err, if (ok : bool) then 0 else VOLUME_IS_DIRTY FH))
  end.

(** [vol_name]: [g_vol->vol_name]; [major_ver] and [minor_ver] are 3 and 1. *)
Definition create_file_volume (fl : Z) (vol_name : option cstring) (volume_guid : buffer)
  : P (option rc) :=
  err ← hardlink 21 (FILE_Volume FH) (FILE_Volume FH) 0 0 hidden_system (chars "$Volume");
  err ← next err (system_file_sd_attr 22 (FILE_Volume FH));
  err ← next err (data 23 3 None [] 0);
  err ← next err (err ← rec 3 (add_attr_vol_name RH vol_name); mret (of_err err));
  err ← next err (err ← rec 3 (add_attr_vol_info RH fl 3 1); mret (of_err err));
  err ← (if with_uuid o
         then next err (err ← rec 3 (add_attr_object_id RH volume_guid); mret (of_err err))
         else mret err);
  checked err.

Definition create_badclus : P (option rc) :=
  err ← data_positioned 24 8 (Some (chars "$Bad")) (g_rl_bad g) (fun _ => mret [])
          (nr_clusters vol * csize);
  err ← next err (data 25 8 None [] 0);
  err ← next err (hardlink 26 (FILE_BadClus FH) (FILE_BadClus FH) 0 0 hidden_system
                    (chars "$BadClus"));
  checked err.

Definition secure_indexes (sds : buffer) (err : rc) : P rc :=
  err ← next err (data 28 9 (Some (chars "$SDS")) sds (Z.of_nat (length sds)));
  err ← next err (index_root 29 9 (chars "$SDH") (AT_UNUSED RH) (COLLATION_NTOFS_SECURITY_HASH IH));
  err ← next err (index_root 30 9 (chars "$SII") (AT_UNUSED RH) (COLLATION_NTOFS_ULONG IH));
  next err (
    err ← rec 9 (initialize_secure RH SH IH (mft_record_size vol) (ans_heap (sys 31) 0)
            (ans_heap (sys 31) 1) sds buf_sds_first_size);
    mret (of_err err)).

Definition create_secure (err : rc) : P (option rc) :=
  _ ← or_flags 9 (MFT_RECORD_IS_VIEW_INDEX FH);
  err ← next err (hardlink 27 9 9 0 0 (Z.lor hidden_system (FILE_ATTR_VIEW_INDEX_PRESENT FH))
                    (chars "$Secure"));
  match err with
  | Done =>
      if negb (ans_heap (sys 28) 0) then mret None else
      match secure_stream SH return P (option rc) with
      | None => fun _ => None
      | Some sds => err ← secure_indexes sds Done; checked err
      end
  | _ => checked err
  end.

(** [upcase]: the table; [info]: the stream [$Info]. *)
Definition create_upcase (upcase info : buffer) (upcase_len : Z) : P (option rc) :=
  err ← data 32 10 None upcase (Z.shiftl upcase_len 1);
  err ← next err (data 33 10 (Some (chars "$Info")) info 32);
  err ← next err (hardlink 34 (FILE_UpCase FH) (FILE_UpCase FH)
                    (whole_clusters (Z.shiftl upcase_len 1)) (Z.shiftl upcase_len 1)
                    hidden_system (chars "$UpCase"));
  checked err.

Definition create_extend (err : rc) : P (option rc) :=
  _ ← or_flags 11 (MFT_RECORD_IS_DIRECTORY FH);
  err ← next err (hardlink 35 11 11 0 0 (Z.lor hidden_system (FILE_ATTR_I30_INDEX_PRESENT FH))
                    (chars "$Extend"));
  err ← next err (index_root 36 11 dollar_I30 (AT_FILE_NAME RH) (COLLATION_FILE_NAME RH));
  checked err.

(** Records 0xc to 0xf. *)
Fixpoint create_reserved (n : nat) (i : Z) (err : rc) : P (option rc) :=
  match n with
  | O => mret (Some err)
  | Datatypes.S n =>
      err ← data (Z.to_nat (60 + i)) i None [] 0;
      err ← next err (system_file_sd_attr (Z.to_nat (80 + i)) i);
      if negative err then mret None else create_reserved n (i + 1) err
  end.

Definition extend_flags : Z :=
  Z.lor (Z.lor hidden_system (FILE_ATTR_ARCHIVE FH)) (FILE_ATTR_VIEW_INDEX_PRESENT FH).

(** The flags of records 24 to 26. *)
Definition view_flags (i : Z) : P unit :=
  _ ← or_flags i (MFT_RECORD_IS_4 FH); or_flags i (MFT_RECORD_IS_VIEW_INDEX FH).

Definition of_quota (q : quota_answer) : rc :=
  match q with QDone err => of_err err | QErrno e => Errno e end.

(** The file and its empty indexes. *)
Definition quota_indexes (err : rc) : P rc :=
  _ ← view_flags 24;
  err ← next err (hardlink_res 37 24 1 extend_flags (chars "$Quota"));
  err ← next err (index_root 38 24 (chars "$Q") (AT_UNUSED RH) (COLLATION_NTOFS_ULONG IH));
  next err (index_root 39 24 (chars "$O") (AT_UNUSED RH) (COLLATION_NTOFS_SID IH)).

Definition create_quota (err : rc) : P (option rc) :=
  err ← quota_indexes err;
  err ← next err (
    q ← rec 24 (initialize_quota RH SH IH (mft_record_size vol) (ans_now (sys 40) 0)
          (ans_now (sys 40) 1) (ans_heap (sys 40)));
    mret (of_quota q));
  checked err.

Definition create_objid (vol_guid : buffer) (err : rc) : P (option rc) :=
  _ ← view_flags 25;
  err ← next err (hardlink_res 41 25 1 extend_flags (chars "$ObjId"));
  err ← next err (index_root 42 25 (chars "$O") (AT_UNUSED RH) (COLLATION_NTOFS_ULONGS IH));
  err ← (if with_uuid o then next err (
           err ← rec 25 (index_obj_id_insert RH IH (mft_record_size vol) (ans_heap (sys 43) 0)
                   vol_guid (MK_LE_MREF (FILE_Volume FH) (FILE_Volume FH)));
           mret (of_err err))
         else mret err);
  checked err.

Definition create_reparse (err : rc) : P (option rc) :=
  _ ← view_flags 26;
  err ← next err (hardlink_res 44 26 1 extend_flags (chars "$Reparse"));
  err ← next err (index_root 45 26 (chars "$R") (AT_UNUSED RH) (COLLATION_NTOFS_ULONGS IH));
  checked err.

(** ** [mkntfs_create_root_structures] *)

(** What the run takes from outside: [g_vol->attrdef] and its length, the upper-case
    table (its bytes and its length in characters) and its [$Info], the name of the
    volume, the generated GUID and the random numbers. *)
Record inputs := mkInputs {
  in_attrdef : buffer * Z; in_upcase : buffer; in_upcase_len : Z; in_info : buffer;
  in_name : option cstring; in_guid : buffer; in_r1 : Z; in_r2 : Z
}.

Definition vol_guid (x : inputs) : buffer :=
  if use_epoch_time o then replicate 16 0 else in_guid x.

(** From [$Quota] on: the files in $Extend. *)
Definition create_extended (guid : buffer) (err : rc) : P (option rc) :=
  and_then (create_quota err) (fun err =>
  and_then (create_objid guid err) (fun err =>
  create_reparse err)).

Definition create_files (x : inputs) : P (option rc) :=
  and_then create_root_directory (fun _ =>
  and_then create_mft (fun _ =>
  and_then create_mftmirr (fun _ =>
  and_then create_logfile (fun _ =>
  and_then (create_attrdef (in_attrdef x)) (fun err =>
  and_then (create_bitmap err) (fun _ =>
  and_then (create_boot (in_r1 x) (in_r2 x)) (fun '(_, volume_flags) =>
  and_then (create_file_volume volume_flags (in_name x) (vol_guid x)) (fun _ =>
  and_then create_badclus (fun err =>
  and_then (create_secure err) (fun _ =>
  and_then (create_upcase (in_upcase x) (in_info x) (in_upcase_len x)) (fun err =>
  and_then (create_extend err) (fun err =>
  and_then (create_reserved 4 0xc err) (fun err =>
  create_extended (vol_guid x) err))))))))))))).

Definition mkntfs_create_root_structures (x : inputs) : P bool :=
  ok ← layout_records;
  if negb ok then mret false else
  r ← create_files x;
  mret (bool_decide (r <> None)).

(** ** Writing the volume *)

(** The runlist of a non-resident attribute of record [i]; [None] when the context,
    the attribute or the runlist is missing, or [test] refuses the attribute. *)
Definition runlist_of (i type : Z) (name : ucs_name) (test : Z -> M bool) : P (option (list rle)) :=
  rec i (fun m => (
    match get_search_ctx m with
    | None => mret None
    | Some ctx =>
        '(err, ctx) ← mkntfs_attr_lookup RH type name CASE_SENSITIVE None 0 (Some ctx);
        match err, ctx with
        | None, Some ctx =>
            ok ← test (ctx_attr ctx);
            if negb ok then mret None else
            mret (mapping_pairs_decompress (drop (Z.to_nat (ctx_attr ctx)) m))
        | _, _ => mret None
        end
    end : M (option (list rle))) m).

(** [mkntfs_sync_index_record] of [g_index_block], the index [name] of record [i]. *)
Definition mkntfs_sync_index_record (k : nat) (i : Z) (name : list Z) : P bool := fun st => (
  rl ← runlist_of i (AT_INDEX_ALLOCATION RH) (Ucs name) (fun a =>
         v ← load_le 8 (a + n_initialized_size NH); mret (negb (to_s 64 v <? 10)));
  match rl with
  | None => mret false
  | Some rl =>
      match load32 (ib_index IH + ih_allocated_size RH) (f_idx st) return P bool with
      | None => fun _ => None
      | Some (allocated, _) =>
          let n := sizeof_INDEX_BLOCK IH - sizeof_INDEX_HEADER RH + allocated in
          if Z.of_nat (length (f_idx st)) <? n then fun _ => None else
          match mst_pre_write_fixup (take (Z.to_nat n) (f_idx st)) with
          | inl _ => mret false
          | inr b =>
              _ ← modify (set_idx (b ++ drop (Z.to_nat n) (f_idx st)));
              lw ← on_device (write_rl (ans_padding (sys k)) (no_action o) csize rl b n
                                WRITE_STANDARD);
              mret (lw =? n)
          end
      end
  end : P bool) st.

(** The clusters of the bitmap, written again with the final allocations. *)
Definition sync_bitmap (k : nat) : P bool :=
  rl ← runlist_of 6 (AT_DATA RH) AT_UNNAMED (fun a =>
         v ← load8 (a + a_non_resident RH); mret (negb (v =? 0)));
  match rl with
  | None => mret false
  | Some rl =>
      lw ← on_device (write_rl (ans_padding (sys k)) (no_action o) csize rl []
                        (g_lcn_bitmap_byte_size g) WRITE_BITMAP);
      mret (lw =? g_lcn_bitmap_byte_size g)
  end.

(** [ntfs_mst_pwrite] of record [i]; [lw] is 1 before. *)
Definition pwrite_record (i pos : Z) : P Z :=
  if no_action o then mret 1 else
  on_rec i (fun fs r =>
    let '(lw, r, s) := mst_pwrite pos r (fs_dev fs) in
    Some ((lw, mkF (fs_alloc fs) (fs_zone fs) (fs_dyn fs) s), r)).

(** [n] records from record [i] on, to [pos]. *)
Fixpoint write_mft (n : nat) (i pos : Z) : P bool :=
  match n with
  | O => mret true
  | Datatypes.S n =>
      lw ← pwrite_record i pos;
      if negb (lw =? 1) then mret false
      else write_mft n (i + 1) (pos + mft_record_size vol)
  end.

(** [ntfs_mft_usn_dec] of record [i]: whether it succeeds. *)
Definition usn_dec_record (i : Z) : P bool :=
  rec i (fun r => match mft_usn_dec r with
                  | Some r => Some (true, r)
                  | None => Some (false, r)
                  end).

Fixpoint write_mirror (n : nat) (i pos : Z) : P bool :=
  match n with
  | O => mret true
  | Datatypes.S n =>
      ok ← usn_dec_record i;
      if negb ok then mret false else
      lw ← pwrite_record i pos;
      if negb (lw =? 1) then mret false
      else write_mirror n (i + 1) (pos + mft_record_size vol)
  end.

Definition mft_records : Z := g_mft_size g / mft_record_size vol.
Definition mirror_records : Z := mirror_bytes / mft_record_size vol.

(** The MFT, then its mirror. *)
Definition write_records : P bool :=
  ok ← write_mft (Z.to_nat mft_records) 0 (g_mft_lcn g * csize);
  if negb ok then mret false else
  write_mirror (Z.to_nat mirror_records) 0 (g_mftmirr_lcn g * csize).

Definition sync_device : P bool := on_device (fun fs r =>
  let '(ok, s) := dev_sync (fs_dev fs) in
  Some ((ok, mkF (fs_alloc fs) (fs_zone fs) (fs_dyn fs) s), r)).

Definition write_volume : P bool :=
  ok ← mkntfs_sync_index_record 50 5 (NTFS_INDEX_I30 IH);
  if negb (ok : bool) then mret false else
  ok ← sync_bitmap 51;
  if negb (ok : bool) then mret false else
  ok ← write_records;
  if negb (ok : bool) then mret false else
  sync_device.

(** [mkntfs_fill_device_with_zeroes] unless [quick_format]; the list of bad clusters
    is not used. *)
Definition fill_device (eio realloc_ok : Z -> bool) : P bool := fun st =>
  if quick_format o then Some (true, st) else
  let fs := f_fs st in
  match mkntfs_fill_device_with_zeroes eio realloc_ok (f_buf st) (fs_dev fs) with
  | (None, _) => None
  | (Some r, s) =>
      Some (match r with inr _ => true | inl _ => false end,
            set_buf (f_buf st) (mkF (fs_alloc fs) (fs_zone fs) (fs_dyn fs) s) st)
  end.

(** From the layout to the end. *)
Definition format_volume (eio realloc_ok : Z -> bool) (x : inputs) : P bool :=
  ok ← fill_device eio realloc_ok;
  if negb ok then mret false else
  ok ← mkntfs_create_root_structures x;
  if negb (ok : bool) then mret false else
  write_volume.
End Format.
