(* ===== verification/FormatFacts.v ===== *)
(** * Facts about the formatting run

    The records as parts of [g_buf]; and, step by step, that the run keeps the size
    of [g_buf] and, without action, the bytes of the device.  The tactic [keepsP]
    proves it for a step from the lemmas of the steps it calls. *)

From S2P Require Import Prelude ClusterAlloc Scatter Runlist Device MkWrite Options Layout Bytes Sd AttrDef Mft MftNonRes Index IndexLarge Boot Sized Format.

(** What the run relies on of the library and the device: a record is formatted in
    place; [ntfs_mst_pwrite], when it answers 1, writes the protected form of the
    record and nothing else, and leaves it in memory with the next update number,
    which [ntfs_mft_usn_dec] takes back, so that the protected form is the same
    again; flushing changes no byte. *)
Class FormatLaws (S : Type) `{BlockDevLaws S} `{!FormatLib S} := {
  mst_protect : buffer -> buffer;
  layout_law : forall b r, mft_record_layout b = Some r -> length r = length b;
  pwrite_law : forall pos b s b' s', mst_pwrite pos b s = (1, b', s') ->
    length b' = length b /\ length (mst_protect b) = length b /\
    (forall k, (k < length b)%nat -> mst_protect b !! k = Some (dcell s' (pos + Z.of_nat k))) /\
    (forall a, ~ (pos <= a < pos + Z.of_nat (length b)) -> dcell s' a = dcell s a);
  usn_dec_law : forall pos b s b' s' c, mst_pwrite pos b s = (1, b', s') ->
    mft_usn_dec b' = Some c -> length c = length b /\ mst_protect c = mst_protect b;
  usn_dec_length : forall b c, mft_usn_dec b = Some c -> length c = length b;
  sync_law : forall s ok s', dev_sync s = (ok, s') -> forall a, dcell s' a = dcell s a
}.

(** ** Records *)

Lemma lookup_put_out k l (a : buffer) j :
  (k + length l <= length a)%nat -> ~ (k <= j < k + length l)%nat -> put k l a !! j = a !! j.
Proof.
  intros Hl Hj. unfold put. assert (length (take k a) = k) as Lt by (rewrite length_take; lia).
  destruct (Nat.lt_ge_cases j k).
  - rewrite lookup_app_l by lia. by rewrite lookup_take_lt by lia.
  - rewrite !lookup_app_r by lia. rewrite lookup_drop. f_equal. lia.
Qed.

Lemma lookup_put_in k l (a : buffer) j :
  (k + length l <= length a)%nat -> (k <= j < k + length l)%nat -> put k l a !! j = l !! (j - k)%nat.
Proof.
  intros Hl Hj. unfold put. assert (length (take k a) = k) as Lt by (rewrite length_take; lia).
  rewrite lookup_app_r by lia. by rewrite lookup_app_l, Lt by lia.
Qed.

Section Records.
Context (vol : mkvol).
Abbreviation rs := (mft_record_size vol).

Lemma length_with_record i b r :
  (Z.to_nat (i * rs) + Z.to_nat rs <= length b)%nat -> length r = Z.to_nat rs ->
  length (with_record_of vol i b r) = length b.
Proof.
  intros Hb Hr. unfold with_record_of. rewrite !length_app, length_take, length_drop. lia.
Qed.

Lemma length_record i b :
  (Z.to_nat (i * rs) + Z.to_nat rs <= length b)%nat -> length (record_of vol i b) = Z.to_nat rs.
Proof. intros Hb. unfold record_of. rewrite length_take, length_drop. lia. Qed.

Lemma lookup_record i b j :
  (j < Z.to_nat rs)%nat -> record_of vol i b !! j = b !! (Z.to_nat (i * rs) + j)%nat.
Proof. intros Hj. unfold record_of. by rewrite lookup_take_lt, lookup_drop by lia. Qed.

(** Only what differs from the old record differs in the buffer. *)
Lemma with_record_same i b r k :
  (Z.to_nat (i * rs) + Z.to_nat rs <= length b)%nat -> length r = Z.to_nat rs ->
  with_record_of vol i b r !! k <> b !! k ->
  exists j, k = (Z.to_nat (i * rs) + j)%nat /\ (j < Z.to_nat rs)%nat /\ r !! j <> record_of vol i b !! j.
Proof.
  intros Hb Hr Hk. replace (with_record_of vol i b r) with (put (Z.to_nat (i * rs)) r b) in Hk
    by (unfold put, with_record_of; by rewrite Hr).
  destruct (decide (Z.to_nat (i * rs) <= k < Z.to_nat (i * rs) + length r)%nat) as [Hin|Hout].
  - exists (k - Z.to_nat (i * rs))%nat. split; [lia|]. split; [lia|].
    rewrite lookup_put_in in Hk by lia. rewrite lookup_record by lia.
    by replace (Z.to_nat (i * rs) + (k - Z.to_nat (i * rs)))%nat with k by lia.
  - by rewrite lookup_put_out in Hk by lia.
Qed.

Lemma record_same i b r :
  (Z.to_nat (i * rs) + Z.to_nat rs <= length b)%nat -> length r = Z.to_nat rs ->
  record_of vol i (with_record_of vol i b r) = r.
Proof.
  intros Hb Hr. unfold record_of, with_record_of.
  rewrite drop_app_length' by (rewrite length_take; lia). by rewrite <- Hr, take_app_length.
Qed.

Lemma record_other i j b r :
  0 < rs -> 0 <= i -> 0 <= j -> i <> j -> (Z.to_nat (i * rs) + Z.to_nat rs <= length b)%nat ->
  length r = Z.to_nat rs ->
  record_of vol j (with_record_of vol i b r) = record_of vol j b.
Proof.
  intros Hrs Hi Hj Hne Hb Hr. unfold record_of, with_record_of.
  destruct (Z.lt_ge_cases j i) as [Hlt|Hge].
  - assert (Z.to_nat (j * rs) + Z.to_nat rs <= Z.to_nat (i * rs))%nat as Hle by nia.
    rewrite drop_app_le by (rewrite length_take; lia).
    rewrite take_app_le by (rewrite length_drop, length_take; lia).
    rewrite skipn_firstn_comm.
    rewrite take_take. f_equal. lia.
  - assert (Z.to_nat (i * rs) + Z.to_nat rs <= Z.to_nat (j * rs))%nat as Hle by nia.
    rewrite app_assoc, drop_app_ge by (rewrite length_app, length_take; lia).
    rewrite drop_drop, length_app, length_take. f_equal. f_equal. lia.
Qed.
End Records.

(** ** The size of [g_buf] *)

Section Sizes.
Context (RH : record_h) (NH : nonres_h) (IH : index_h) (GH : large_h) (BH : boot_h)
  (SH : layout_h) (FH : format_h) (is_ntfs : buffer -> bool)
  `{RecordLib} `{MappingLib} `{CLib} `{LargeLib} {S : Type} `{FormatLaws S}.
Context (o : mkntfs_options) (vol : mkvol) (g : globals) (malloc_ok : nat -> bool)
  (sys : nat -> answers).
Context (Hresize : forall a size, sized (resident_attr_value_resize a size)).

(** [g_buf] keeps its size and, without action, the device its bytes. *)
Definition keepsP (na : bool) {A} (m : P (S := S) A) : Prop := forall st x st',
  m st = Some (x, st') ->
  length (f_buf st') = length (f_buf st) /\
  (na = true -> forall a, dcell (fs_dev (f_fs st')) a = dcell (fs_dev (f_fs st)) a).

Lemma keepsP_ret na {A} (x : A) : keepsP na (fun st => Some (x, st)).
Proof. by intros st y st' [= _ <-]. Qed.

Lemma keepsP_none na {A} : keepsP na (fun _ => @None (A * fmt)).
Proof. done. Qed.

Lemma keepsP_bind na {A B} (m : P A) (k : A -> P B) :
  keepsP na m -> (forall x, keepsP na (k x)) ->
  keepsP na (fun st => match m st with Some (x, st) => k x st | None => None end).
Proof.
  intros Hm Hk st y st'. destruct (m st) as [[x st1]|] eqn:E; [|done]. intros Ek.
  destruct (Hm _ _ _ E) as [L1 D1]. destruct (Hk _ _ _ _ Ek) as [L2 D2].
  split; [congruence|]. intros Hna a. by rewrite D2, D1.
Qed.

Lemma keepsP_self na {A} (m : P A) :
  (forall st, exists f : P A, f st = m st /\ keepsP na f) -> keepsP na m.
Proof. intros H' st x st'. destruct (H' st) as (f & <- & Hf). apply Hf. Qed.

(** What a computation on record [i] does. *)
Lemma on_rec_inv {A} i (m : F (S := S) A) st x st' :
  on_rec vol i m st = Some (x, st') ->
  (Z.to_nat (i * mft_record_size vol) + Z.to_nat (mft_record_size vol) <= length (f_buf st))%nat /\
  exists fs r, m (f_fs st) (record_of vol i (f_buf st)) = Some ((x, fs), r) /\
    st' = set_buf (with_record_of vol i (f_buf st) r) fs st.
Proof.
  unfold on_rec. destruct (_ <=? _)%nat eqn:E; [|done]. apply Nat.leb_le in E.
  destruct (m _ _) as [[[y fs] r]|] eqn:Em; [|done]. intros [= <- <-]. split; [lia|]. by exists fs, r.
Qed.

(** A computation that leaves the record as it is leaves the state as it is. *)
Lemma rec_same_state {A} i (m : M A) x (st : fmt (S := S)) :
  (Z.to_nat (i * mft_record_size vol) + Z.to_nat (mft_record_size vol) <= length (f_buf st))%nat ->
  m (record_of vol i (f_buf st)) = Some (x, record_of vol i (f_buf st)) ->
  rec vol i m st = Some (x, st).
Proof.
  intros Hb Em. unfold rec, on_rec. rewrite (proj2 (Nat.leb_le _ _)) by lia.
  unfold on_record, mbind, M_bind. rewrite Em. cbn [mret M_ret]. f_equal. f_equal.
  destruct st as [buf idx bmp sd rsd fs]. unfold set_buf. cbn. f_equal.
  unfold with_record_of, record_of. rewrite <- drop_drop, take_drop. apply take_drop.
Qed.

Lemma keepsP_on_rec na {A} i (m : F (S := S) A) : keepsF na m -> keepsP na (on_rec vol i m).
Proof.
  intros Hm st x st' E. apply on_rec_inv in E as (Hb & fs & r & E & ->). cbn [f_buf f_fs set_buf].
  destruct (Hm _ _ _ _ _ E) as [L D]. split; [|done].
  apply length_with_record; [done|]. rewrite L. by apply length_record.
Qed.

Lemma keepsP_rec na {A} i (m : M A) : sized m -> keepsP na (rec vol i m).
Proof. intros Hm. by apply keepsP_on_rec, keepsF_record. Qed.

Lemma keepsP_rec_idx na {A} i (m : buffer -> M (A * buffer)) :
  (forall idx, sized (m idx)) -> keepsP na (rec_idx vol i m).
Proof.
  intros Hm st x st'. unfold rec_idx.
  destruct (rec vol i (m (f_idx st)) st) as [[[y idx] st1]|] eqn:E; [|done]. intros [= <- <-].
  by apply (keepsP_rec na i _ (Hm _)) in E.
Qed.

Lemma keepsP_on_device na {A} (m : F (S := S) A) : keepsF na m -> keepsP na (on_device m).
Proof.
  intros Hm st x st'. unfold on_device. destruct (m _ _) as [[[y fs] r]|] eqn:E; [|done].
  intros [= <- <-]. split; [done|]. apply (Hm _ _ _ _ _ E).
Qed.

Lemma keepsP_modify na f :
  (forall st, f_buf (f st) = f_buf st /\ f_fs (f st) = f_fs st) -> keepsP na (modify f).
Proof. intros Hf st x st' [= _ <-]. destruct (Hf st) as [-> ->]. done. Qed.

Lemma keepsP_and_then na {A B} (m : P (option A)) (k : A -> P (option B)) :
  keepsP na m -> (forall x, keepsP na (k x)) -> keepsP na (and_then m k).
Proof. intros Hm Hk. apply keepsP_bind; [done|]. intros [x|]; [done | apply keepsP_ret]. Qed.

Lemma keepsP_next na err k : keepsP na k -> keepsP na (next err k).
Proof. intros Hk. destruct err; [exact Hk | apply keepsP_ret..]. Qed.
End Sizes.

#[export] Hint Resolve keepsP_ret keepsP_none keepsP_on_device keepsP_on_rec keepsP_rec keepsP_rec_idx : sized.

Ltac keepsP_step :=
  match goal with
  | |- keepsP _ (mbind _ _) => apply keepsP_bind; [|intro]
  | |- keepsP _ (mret _) => apply keepsP_ret
  | |- keepsP _ (next _ _) => apply keepsP_next
  | |- keepsP _ (and_then _ _) => apply keepsP_and_then; [|intro]
  | |- keepsP _ (rec _ _ _) => apply keepsP_rec; sized
  | |- keepsP _ (on_rec _ _ _) => apply keepsP_on_rec; keepsF
  | |- keepsP _ (on_device _) => apply keepsP_on_device; keepsF
  | |- keepsP _ (rec_idx _ _ _) => apply keepsP_rec_idx; sized
  | |- keepsP _ (modify _) => apply keepsP_modify; intro; repeat case_match; by split
  | |- keepsP _ (let _ := _ in _) => cbv zeta
  | |- keepsP _ (match ?x with _ => _ end) => destruct x
  | |- keepsP _ (fun st => _ st) => apply keepsP_self; intro; eexists; split;
      [lazymatch goal with |- ?e ?b = _ =>
         cbv beta; lazymatch goal with |- _ = ?g b => unify e g; reflexivity end end|]
  end.
Ltac keepsP := intros; repeat first [solve [eauto with sized] | keepsP_step]; eauto with sized.

Section Files.
Context (RH : record_h) (NH : nonres_h) (IH : index_h) (GH : large_h) (BH : boot_h)
  (SH : layout_h) (FH : format_h) (is_ntfs : buffer -> bool)
  `{RecordLib} `{MappingLib} `{CLib} `{LargeLib} {S : Type} `{FormatLaws S}.
Context (o : mkntfs_options) (vol : mkvol) (g : globals) (malloc_ok : nat -> bool)
  (sys : nat -> answers).
Context (Hresize : forall a size, sized (resident_attr_value_resize a size)).

Lemma keepsP_or_flags i flag : keepsP (S := S) (no_action o) (or_flags FH vol i flag).
Proof. unfold or_flags. keepsP. Qed.

Lemma keepsP_checked err : keepsP (S := S) (no_action o) (checked err).
Proof. unfold checked. keepsP. Qed.
Hint Resolve keepsP_or_flags keepsP_checked : sized.

Lemma keepsP_data k i name val len : keepsP (S := S) (no_action o) (data RH NH o vol malloc_ok sys k i name val len).
Proof. unfold data. keepsP. Qed.

Lemma keepsP_data_positioned k i name rl val len :
  (forall b, sized (val b)) ->
  keepsP (S := S) (no_action o) (data_positioned RH NH o vol sys k i name rl val len).
Proof. unfold data_positioned. keepsP. Qed.

Lemma sized_whole_buf i b : sized (whole_buf vol i b).
Proof. apply sized_same. by intros r x r' [= _ <-]. Qed.
Hint Resolve keepsP_data keepsP_data_positioned sized_whole_buf : sized.

Lemma keepsP_system_sd k i : keepsP (S := S) (no_action o) (system_file_sd_attr RH NH SH o vol malloc_ok sys k i).
Proof.
  intros st x st'. unfold system_file_sd_attr.
  destruct (init_system_file_sd SH i (f_sd st)) as [[[[p|] len] sd]|]; [|done..].
  match goal with |- ?m ?st1 = _ -> _ => assert (keepsP (no_action o) m) as Hm by keepsP; intros E; apply Hm in E end.
  exact E.
Qed.

Lemma keepsP_root_sd k : keepsP (S := S) (no_action o) (root_sd_attr RH NH SH o vol malloc_ok sys k).
Proof.
  intros st x st'. unfold root_sd_attr. destruct (init_root_sd SH (f_root_sd st)) as [[[p len] sd]|]; [|done].
  match goal with |- ?m ?st1 = _ -> _ => assert (keepsP (no_action o) m) as Hm by keepsP; intros E; apply Hm in E end.
  exact E.
Qed.

Lemma keepsP_index_root k i name type rule : keepsP (S := S) (no_action o) (index_root RH o vol sys k i name type rule).
Proof. unfold index_root. keepsP. Qed.

Lemma keepsP_hardlink k i seq al size flags name :
  keepsP (S := S) (no_action o) (hardlink RH IH FH vol sys k i seq al size flags name).
Proof. unfold hardlink. keepsP. Qed.
Hint Resolve keepsP_system_sd keepsP_root_sd keepsP_index_root keepsP_hardlink : sized.

Lemma keepsP_hardlink_res k i seq flags name :
  keepsP (S := S) (no_action o) (hardlink_res RH IH FH vol sys k i seq flags name).
Proof.
  intros st x st'. unfold hardlink_res, mbind, P_bind.
  destruct (rec vol i _ st) as [[[err parent] st1]|] eqn:E; [|done].
  apply on_rec_inv in E as (Hb & fs & r & E & ->).
  unfold on_record, mbind, M_bind in E.
  destruct (create_hardlink_res _ _ _ _ _ _ _ _ _ _ _ _ _ _ _ _ _) as [[y r']|] eqn:E'; [|done].
  injection E as -> <- ->.
  pose proof (sized_hardlink_res _ _ _ _ _ _ _ _ _ _ _ _ _ _ _ _ _ _ _ E') as Lr. rename E' into E.
  apply hardlink_res_parent in E. cbn [snd] in E.
  destruct (rec vol 11 _ _) as [[u st2]|] eqn:E2; [|done]. intros [= <- <-].
  apply on_rec_inv in E2 as (Hb2 & fs2 & r2 & E2 & ->). injection E2 as <- <- <-.
  cbn [f_buf set_buf] in *. rewrite length_record in Lr by lia.
  pose proof (length_with_record vol i (f_buf st) r Hb Lr) as Lb.
  rewrite length_with_record; [done|done|].
  rewrite E. apply length_record. lia.
Qed.

Lemma keepsP_layout_record i : keepsP (S := S) (no_action o) (layout_record vol i).
Proof.
  unfold layout_record. apply keepsP_rec. intros b x b'.
  destruct (mft_record_layout b) eqn:E; intros [= <- <-]; [by apply layout_law|done].
Qed.
Hint Resolve keepsP_hardlink_res keepsP_layout_record : sized.

Lemma keepsP_layout_sysfiles n : forall i, keepsP (S := S) (no_action o) (layout_sysfiles FH vol n i).
Proof. induction n; cbn [layout_sysfiles]; keepsP. Qed.

Lemma keepsP_layout_rest n : forall i, keepsP (S := S) (no_action o) (layout_rest FH vol g n i).
Proof. induction n; cbn [layout_rest]; keepsP. Qed.

Lemma keepsP_mark_in_use i : keepsP (S := S) (no_action o) (mark_in_use NH FH vol i).
Proof. unfold mark_in_use. keepsP. Qed.
Hint Resolve keepsP_layout_sysfiles keepsP_layout_rest keepsP_mark_in_use : sized.

Lemma keepsP_mark_sysfiles n : forall i, keepsP (S := S) (no_action o) (mark_sysfiles RH NH FH o vol sys n i).
Proof. induction n; cbn [mark_sysfiles]; keepsP. Qed.
Hint Resolve keepsP_mark_sysfiles : sized.

Lemma keepsP_layout_records : keepsP (S := S) (no_action o) (layout_records RH NH FH o vol g sys).
Proof. unfold layout_records. keepsP. Qed.

Lemma keepsP_link_root : keepsP (S := S) (no_action o) (link_root RH IH FH vol).
Proof. unfold link_root. keepsP. Qed.

Lemma keepsP_upgrade_root k : keepsP (S := S) (no_action o) (upgrade_root RH NH IH GH o vol malloc_ok sys k).
Proof.
  unfold upgrade_root. apply keepsP_self. intros st. eexists. split; [reflexivity|].
  apply keepsP_bind; [apply keepsP_on_rec, keepsF_upgrade; done|]. intros [err idx].
  keepsP.
Qed.
Hint Resolve keepsP_layout_records keepsP_link_root keepsP_upgrade_root : sized.

Lemma keepsP_root_directory :
  keepsP (S := S) (no_action o) (create_root_directory RH NH IH GH SH FH o vol malloc_ok sys).
Proof. unfold create_root_directory. keepsP. Qed.

Lemma keepsP_backup bs : keepsP (S := S) (no_action o) (create_backup_boot_sector o bs).
Proof.
  intros st x st'. unfold create_backup_boot_sector.
  destruct (dev_seek _ _) as [ok s] eqn:E. pose proof (seek_frame _ _ _ _ E) as Hs. destruct ok.
  - cbn [negb]. destruct (mkntfs_write _ _ _ _) as [[bw s1]|] eqn:Ew; [|done].
    intros [= <- <-]. split; [done|]. intros Hna a. unfold mkntfs_write in Ew. rewrite Hna in Ew.
    injection Ew as _ <-. apply Hs.
  - intros [= <- <-]. by split.
Qed.
Hint Resolve keepsP_root_directory keepsP_backup : sized.

Lemma keepsP_mft : keepsP (S := S) (no_action o) (create_mft RH NH IH FH o vol g sys).
Proof. unfold create_mft. keepsP. Qed.

Lemma keepsP_mftmirr : keepsP (S := S) (no_action o) (create_mftmirr RH NH IH FH o vol g sys).
Proof. unfold create_mftmirr. keepsP. Qed.

Lemma keepsP_logfile : keepsP (S := S) (no_action o) (create_logfile RH NH IH FH o vol g sys).
Proof. unfold create_logfile. keepsP. Qed.

Lemma keepsP_attrdef a : keepsP (S := S) (no_action o) (create_attrdef RH NH IH SH FH o vol malloc_ok sys a).
Proof. unfold create_attrdef. keepsP. Qed.

Lemma keepsP_create_bitmap err : keepsP (S := S) (no_action o) (create_bitmap RH NH IH FH o vol g malloc_ok sys err).
Proof. unfold create_bitmap. keepsP. Qed.

Lemma keepsP_boot r1 r2 :
  keepsP (S := S) (no_action o) (create_boot RH NH IH BH SH FH is_ntfs o vol g malloc_ok sys r1 r2).
Proof. unfold create_boot. keepsP. Qed.

Lemma keepsP_volume fl name guid :
  keepsP (S := S) (no_action o) (create_file_volume RH NH IH SH FH o vol malloc_ok sys fl name guid).
Proof. unfold create_file_volume. keepsP. Qed.

Lemma keepsP_badclus : keepsP (S := S) (no_action o) (create_badclus RH NH IH FH o vol g malloc_ok sys).
Proof. unfold create_badclus. keepsP. Qed.

Lemma keepsP_secure err : keepsP (S := S) (no_action o) (create_secure RH NH IH SH FH o vol malloc_ok sys err).
Proof. unfold create_secure, secure_indexes. keepsP. Qed.

Lemma keepsP_upcase u i n : keepsP (S := S) (no_action o) (create_upcase RH NH IH FH o vol malloc_ok sys u i n).
Proof. unfold create_upcase. keepsP. Qed.

Lemma keepsP_extend err : keepsP (S := S) (no_action o) (create_extend RH IH FH o vol sys err).
Proof. unfold create_extend. keepsP. Qed.

Lemma keepsP_reserved n : forall i err,
  keepsP (S := S) (no_action o) (create_reserved RH NH SH o vol malloc_ok sys n i err).
Proof. induction n; cbn [create_reserved]; keepsP. Qed.

Lemma keepsP_view_flags i : keepsP (S := S) (no_action o) (view_flags FH vol i).
Proof. unfold view_flags. keepsP. Qed.
Hint Resolve keepsP_view_flags : sized.

Lemma keepsP_extended guid err : keepsP (S := S) (no_action o) (create_extended RH IH SH FH o vol sys guid err).
Proof. unfold create_extended, create_quota, quota_indexes, create_objid, create_reparse. keepsP. Qed.
Hint Resolve keepsP_mft keepsP_mftmirr keepsP_logfile keepsP_attrdef keepsP_create_bitmap keepsP_boot
  keepsP_volume keepsP_badclus keepsP_secure keepsP_upcase keepsP_extend keepsP_reserved
  keepsP_extended : sized.

Lemma keepsP_root_structures x :
  keepsP (S := S) (no_action o) (mkntfs_create_root_structures RH NH IH GH BH SH FH is_ntfs o vol g malloc_ok sys x).
Proof. unfold mkntfs_create_root_structures, create_files. keepsP. Qed.

Lemma keepsP_runlist_of i type name test :
  (forall a, sized (test a)) -> keepsP (S := S) (no_action o) (runlist_of RH vol i type name test).
Proof. unfold runlist_of. keepsP. Qed.

Lemma keepsP_sync_index k i name : keepsP (S := S) (no_action o) (mkntfs_sync_index_record RH NH IH o vol sys k i name).
Proof.
  unfold mkntfs_sync_index_record. apply keepsP_self. intros st. eexists. split; [reflexivity|].
  apply keepsP_bind; [apply keepsP_runlist_of; sized|]. keepsP.
Qed.

Lemma keepsP_sync_bitmap k : keepsP (S := S) (no_action o) (sync_bitmap RH o vol g sys k).
Proof.
  unfold sync_bitmap. apply keepsP_bind; [apply keepsP_runlist_of; sized|]. keepsP.
Qed.

(** Zeroing without action: every write is taken for done. *)
Lemma fill_clusters_dry eio realloc_ok buf n : forall pos bad (s : S),
  no_action o = true -> fill_clusters o vol eio realloc_ok buf n pos bad s = (Some (inr bad), s).
Proof.
  induction n as [|n IHn]; intros pos bad s Hna; cbn [fill_clusters]; [done|].
  unfold mkntfs_write. rewrite Hna, Z.eqb_refl. by apply IHn.
Qed.

Lemma fill_sectors_dry eio buf n : forall i pos (s : S),
  no_action o = true -> fill_sectors o vol eio buf n i pos s = (Some true, s).
Proof.
  induction n as [|n IHn]; intros i pos s Hna; cbn [fill_sectors]; [done|].
  unfold mkntfs_write. rewrite Hna, Z.eqb_refl. by apply IHn.
Qed.

Lemma keepsP_fill eio realloc : keepsP (S := S) (no_action o) (fill_device o vol eio realloc).
Proof.
  intros st x st'. unfold fill_device. destruct (quick_format o); [by intros [= <- <-]|].
  destruct (mkntfs_fill_device_with_zeroes _ _ _ _ _ _) as [[r|] s] eqn:E; [|done].
  intros [= <- <-]. split; [done|]. intros Hna a. unfold mkntfs_fill_device_with_zeroes in E.
  rewrite fill_clusters_dry, fill_sectors_dry in E by done. by injection E as _ <-.
Qed.


(** Writing the records: not at all without action. *)
Lemma pwrite_record_dry i pos (st : fmt (S := S)) :
  no_action o = true -> pwrite_record o vol i pos st = Some (1, st).
Proof. intros Hna. unfold pwrite_record. by rewrite Hna. Qed.

Lemma write_mft_dry n : forall i pos (st : fmt (S := S)),
  no_action o = true -> write_mft o vol n i pos st = Some (true, st).
Proof.
  induction n as [|n IHn]; intros i pos st Hna; cbn [write_mft]; [done|].
  unfold mbind, P_bind. rewrite pwrite_record_dry by done. by apply IHn.
Qed.

Lemma keepsP_mirror_dry n : forall i pos,
  no_action o = true -> keepsP (S := S) true (write_mirror o vol n i pos).
Proof.
  induction n as [|n IHn]; intros i pos Hna; cbn [write_mirror]; [apply keepsP_ret|].
  apply keepsP_bind; [|intros [|]; [|apply keepsP_ret]].
  - unfold usn_dec_record. apply keepsP_rec. intros b x b'.
    destruct (mft_usn_dec b) eqn:E; intros [= <- <-]; [by apply usn_dec_length|done].
  - apply keepsP_bind; [|intros lw; destruct (negb (lw =? 1)); [apply keepsP_ret | by apply IHn]].
    intros st x st'. rewrite pwrite_record_dry by done. by intros [= <- <-].
Qed.

Lemma keepsP_records_dry : no_action o = true -> keepsP (S := S) true (write_records o vol g).
Proof.
  intros Hna st x st'. unfold write_records, mbind, P_bind. rewrite write_mft_dry by done.
  by apply keepsP_mirror_dry.
Qed.

Lemma keepsP_sync na : keepsP (S := S) na sync_device.
Proof.
  apply keepsP_on_device. intros fs b x fs' b'. destruct (dev_sync (fs_dev fs)) as [ok s] eqn:E.
  intros [= <- <- <-]. split; [done|]. intros _. by apply (sync_law _ _ _ E).
Qed.

(** The whole run. *)
Lemma keepsP_format eio realloc_ok x :
  no_action o = true ->
  keepsP (S := S) true (format_volume RH NH IH GH BH SH FH is_ntfs o vol g malloc_ok sys eio realloc_ok x).
Proof.
  intros Hna. unfold format_volume, write_volume.
  pose proof keepsP_fill as Kf. pose proof keepsP_root_structures as Kr.
  pose proof keepsP_sync_index as Ki. pose proof keepsP_sync_bitmap as Kb.
  rewrite Hna in Kf, Kr, Ki, Kb.
  repeat first [apply Kf | apply Kr | apply Ki | apply Kb | by apply keepsP_records_dry
               | apply keepsP_sync | apply keepsP_ret
               | apply keepsP_bind; [|intros [|]; cbn [negb]]].
Qed.
End Files.
