(* ===== verification/FormatTheorems.v ===== *)
(** * The MFT and its mirror

    What a successful formatting run leaves on the device: the MFT holds the
    protected records, and the mirror the same bytes as the first records of the
    MFT. *)

From S2P Require Import Prelude ClusterAlloc Scatter Runlist Device MkWrite Options Layout LayoutTheorems Bytes Sd AttrDef Mft MftFacts MftNonRes Index IndexLarge Boot Sized Format FormatFacts.

(** ** Devices with the same bytes *)

Section SameCells.
Context {S : Type} `{BlockDevLaws S}.

(** Two states of the device that differ in their position, if at all. *)
Definition same_cells (s s' : S) : Prop := forall a, dcell s' a = dcell s a.

#[export] Instance same_cells_equiv : Equivalence same_cells.
Proof.
  split.
  - by intros s a.
  - by intros s s' E a.
  - intros s1 s2 s3 E1 E2 a. by rewrite E2, E1.
Qed.

(** The bytes [b] from byte [pos] of the device on. *)
Definition on_medium (s : S) (pos : Z) (b : buffer) : Prop :=
  forall k, (k < length b)%nat -> b !! k = Some (dcell s (pos + Z.of_nat k)).

Lemma on_medium_same s s' pos b :
  on_medium s pos b -> (forall a, pos <= a < pos + Z.of_nat (length b) -> dcell s' a = dcell s a) ->
  on_medium s' pos b.
Proof. intros Hb Hs k Hk. rewrite (Hb k Hk), Hs by lia. done. Qed.

#[export] Instance on_medium_proper : Proper (same_cells ==> eq ==> eq ==> iff) on_medium.
Proof.
  intros s s' E pos _ <- b _ <-.
  split; intros Hb; (eapply on_medium_same; [exact Hb|]); intros a _; [apply E | symmetry; apply E].
Qed.
End SameCells.

Section WriteRecords.
Context {S : Type} `{FormatLaws S} (o : mkntfs_options) (vol : mkvol).
Abbreviation rs := (mft_record_size vol).
Context (Hrs : 0 < rs) (Hact : no_action o = false).

Abbreviation dev st := (fs_dev (f_fs st)).

(** One record written. *)
Lemma pwrite_record_run i pos (st st' : fmt) :
  pwrite_record o vol i pos st = Some (1, st') ->
  let b := record_of vol i (f_buf st) in
  (Z.to_nat (i * rs) + Z.to_nat rs <= length (f_buf st))%nat /\
  exists r, f_buf st' = with_record_of vol i (f_buf st) r /\ length r = Z.to_nat rs /\
    length (mst_protect b) = Z.to_nat rs /\
    on_medium (dev st') pos (mst_protect b) /\
    (forall a, ~ (pos <= a < pos + rs) -> dcell (dev st') a = dcell (dev st) a) /\
    (forall c, mft_usn_dec r = Some c -> mst_protect c = mst_protect b).
Proof.
  unfold pwrite_record. rewrite Hact. intros E. set (b := record_of vol i (f_buf st)).
  apply on_rec_inv in E as (Hb & fs & r & E & ->). split; [done|].
  destruct (mst_pwrite pos (record_of vol i (f_buf st)) (dev st)) as [[lw r'] s'] eqn:Ep.
  injection E as -> <- ->. pose proof (length_record vol i _ Hb) as Lb. fold b in Lb, Ep.
  destruct (pwrite_law _ _ _ _ _ Ep) as (Lr & Lp & Hd & Hf).
  exists r. cbn [f_buf set_buf f_fs fs_dev]. split_and!; try done; try lia.
  - intros k Hk. apply Hd. lia.
  - intros a Ha. apply Hf. lia.
  - intros c Hc. by apply (usn_dec_law _ _ _ _ _ _ Ep Hc).
Qed.

(** The loop over the MFT: every record is on the device in its protected form, and
    in memory with the next update number. *)
Lemma write_mft_run base n : forall i (st st' : fmt),
  0 <= i -> write_mft o vol n i (base + i * rs) st = Some (true, st') ->
  length (f_buf st') = length (f_buf st) /\
  (forall j, i <= j < i + Z.of_nat n ->
     let b := record_of vol j (f_buf st) in
     length (mst_protect b) = Z.to_nat rs /\ on_medium (dev st') (base + j * rs) (mst_protect b) /\
     forall c, mft_usn_dec (record_of vol j (f_buf st')) = Some c -> mst_protect c = mst_protect b) /\
  (forall j, 0 <= j < i -> record_of vol j (f_buf st') = record_of vol j (f_buf st)) /\
  (forall a, ~ (base + i * rs <= a < base + (i + Z.of_nat n) * rs) ->
     dcell (dev st') a = dcell (dev st) a).
Proof.
  induction n as [|n IH]; intros i st st' Hi; cbn [write_mft].
  { intros [= <-]. split; [done|]. split; [lia|]. done. }
  unfold mbind, P_bind. destruct (pwrite_record o vol i _ st) as [[lw st1]|] eqn:Ep; [|done].
  destruct (Z.eqb_spec lw 1) as [->|]; [|done]. cbn [negb].
  replace (base + i * rs + rs) with (base + (i + 1) * rs) by lia. intros E.
  apply pwrite_record_run in Ep as (Hb & r & Eb & Lr & Lp & Hm & Hf & Hu).
  pose proof (length_with_record vol i (f_buf st) r Hb Lr) as Lb. rewrite <- Eb in Lb.
  apply IH in E as (L & Hr & Hs & Hfr); [|lia]. split; [lia|]. split; [|split].
  - intros j Hj. cbv zeta in *. destruct (Z.eq_dec j i) as [->|Hne].
    + split; [done|]. split.
      * eapply on_medium_same; [exact Hm|]. intros a Ha. apply Hfr. rewrite Lp in Ha. nia.
      * rewrite Hs by lia. rewrite Eb, record_same by done. exact Hu.
    + destruct (Hr j ltac:(lia)) as (J1 & J2 & J3).
      rewrite Eb, record_other in J1, J2, J3 by (done || lia). done.
  - intros j Hj. rewrite Hs by lia. rewrite Eb. apply record_other; (done || lia).
  - intros a Ha. rewrite Hfr by nia. apply Hf. nia.
Qed.

Lemma write_mirror_run base n : forall i (st st' : fmt),
  0 <= i -> write_mirror o vol n i (base + i * rs) st = Some (true, st') ->
  (i + Z.of_nat n) * rs <= Z.max (i * rs) (Z.of_nat (length (f_buf st))) /\
  (forall j, i <= j < i + Z.of_nat n ->
     exists c, mft_usn_dec (record_of vol j (f_buf st)) = Some c /\
       length (mst_protect c) = Z.to_nat rs /\ on_medium (dev st') (base + j * rs) (mst_protect c)) /\
  (forall a, ~ (base + i * rs <= a < base + (i + Z.of_nat n) * rs) ->
     dcell (dev st') a = dcell (dev st) a).
Proof.
  induction n as [|n IH]; intros i st st' Hi; cbn [write_mirror].
  { intros [= <-]. split; [lia|]. split; [lia|]. done. }
  unfold mbind, P_bind. destruct (usn_dec_record vol i st) as [[ok st0]|] eqn:Eu; [|done].
  destruct ok; [|done]. cbn [negb].
  destruct (pwrite_record o vol i _ st0) as [[lw st1]|] eqn:Ep; [|done].
  destruct (Z.eqb_spec lw 1) as [->|]; [|done]. cbn [negb].
  replace (base + i * rs + rs) with (base + (i + 1) * rs) by lia. intros E.
  apply on_rec_inv in Eu as (Hb & fs & c & Eu & ->). unfold on_record, mbind, M_bind in Eu.
  destruct (mft_usn_dec (record_of vol i (f_buf st))) as [c'|] eqn:Ec; [|done].
  injection Eu as <- <-.
  assert (length c' = Z.to_nat rs) as Lc by (rewrite (usn_dec_length _ _ Ec); by apply length_record).
  pose proof (length_with_record vol i (f_buf st) c' Hb Lc) as L0.
  apply pwrite_record_run in Ep as (Hb1 & r & Eb & Lr & Lp & Hm & Hf & _).
  cbn [f_buf set_buf f_fs] in Hb1, Eb, Lp, Hm, Hf. rewrite record_same in Lp, Hm by done.
  pose proof (length_with_record vol i _ r Hb1 Lr) as Lb. rewrite <- Eb in Lb.
  apply IH in E as (Hbd & Hr & Hfr); [|lia]. split; [nia|]. split.
  - intros j Hj. destruct (Z.eq_dec j i) as [->|Hne].
    + exists c'. split; [done|]. split; [done|].
      eapply on_medium_same; [exact Hm|]. intros a Ha. apply Hfr. nia.
    + destruct (Hr j ltac:(lia)) as (c & E1 & J). exists c.
      rewrite Eb, !record_other in E1 by (done || lia). done.
  - intros a Ha. rewrite Hfr by nia. apply Hf. nia.
Qed.
End WriteRecords.

Section Mirror.
Context {S : Type} `{FormatLaws S} (o : mkntfs_options) (vol : mkvol) (g : globals).
Abbreviation rs := (mft_record_size vol).
Abbreviation cs := (cluster_size vol).
Abbreviation mft_pos := (g_mft_lcn g * cs).
Abbreviation mirr_pos := (g_mftmirr_lcn g * cs).
Context (Hrs : 0 < rs) (Hact : no_action o = false).

(** The two places, apart and large enough. *)
Record mft_places : Prop := {
  mp_mft : mft_records vol g * rs <= (region (g_rl_mft g)).2 * cs;
  mp_apart : mft_pos + (region (g_rl_mft g)).2 * cs <= mirr_pos \/
             mirr_pos + mirror_bytes vol g <= mft_pos;
  mp_sizes : 0 <= g_mft_size g /\ 0 <= mirror_bytes vol g
}.

(** Records of [buf] on the device, in their protected form. *)
Definition records_at (s : S) (pos n : Z) (buf : buffer) : Prop :=
  forall j, 0 <= j < n ->
    length (mst_protect (record_of vol j buf)) = Z.to_nat rs /\
    on_medium s (pos + j * rs) (mst_protect (record_of vol j buf)).

#[export] Instance records_at_proper : Proper (same_cells ==> eq ==> eq ==> eq ==> iff) records_at.
Proof.
  intros s s' E pos _ <- n _ <- buf _ <-. unfold records_at.
  split; intros Hr j Hj; destruct (Hr j Hj); split; [done| |done|]; [by rewrite <- E | by rewrite E].
Qed.

Lemma write_records_run (st st' : fmt) :
  mft_places -> write_records o vol g st = Some (true, st') ->
  Z.of_nat (length (f_buf st)) = g_mft_size g ->
  mirror_records vol g <= mft_records vol g /\
  records_at (fs_dev (f_fs st')) mft_pos (mft_records vol g) (f_buf st) /\
  records_at (fs_dev (f_fs st')) mirr_pos (mirror_records vol g) (f_buf st).
Proof.
  intros [Hp1 Hp2 [Hs1 Hs2]]. unfold write_records, mbind, P_bind.
  destruct (write_mft o vol _ 0 mft_pos st) as [[ok st1]|] eqn:E1; [|done].
  destruct ok; [|done]. cbn [negb]. intros E2 HL.
  assert (0 <= mft_records vol g) by (apply Z.div_pos; lia).
  assert (0 <= mirror_records vol g) by (apply Z.div_pos; lia).
  replace mft_pos with (mft_pos + 0 * rs) in E1 by lia.
  replace mirr_pos with (mirr_pos + 0 * rs) in E2 by lia.
  destruct (write_mft_run o vol Hrs Hact mft_pos _ 0 st st1 ltac:(lia) E1) as (L1 & R1 & _ & _).
  destruct (write_mirror_run o vol Hrs Hact mirr_pos _ 0 st1 st' ltac:(lia) E2) as (Hb & R2 & F2).
  rewrite !Z2Nat.id in * by lia.
  assert (mirror_records vol g <= mft_records vol g) as Hle.
  { apply Z.div_le_lower_bound; [lia|]. rewrite L1, HL in Hb. lia. }
  assert (mirror_records vol g * rs <= mirror_bytes vol g) as Hmb.
  { rewrite Z.mul_comm. apply Z.mul_div_le. lia. }
  split; [done|]. split; intros j Hj.
  - destruct (R1 j ltac:(lia)) as (Lp & Hm & _). split; [done|].
    eapply on_medium_same; [exact Hm|]. intros a Ha. rewrite Lp in Ha. apply F2. nia.
  - destruct (R1 j ltac:(lia)) as (Lp & _ & Hu). destruct (R2 j ltac:(lia)) as (c & Ec & _ & Hm).
    rewrite (Hu c Ec) in Hm. done.
Qed.

(** Two places that hold the same records hold the same bytes. *)
Lemma records_same_bytes s p1 p2 n1 n2 buf a :
  records_at s p1 n1 buf -> records_at s p2 n2 buf -> n1 <= n2 -> 0 <= a < n1 * rs ->
  dcell s (p1 + a) = dcell s (p2 + a).
Proof.
  intros H1' H2' Hn Ha. pose proof (Z.div_mod a rs ltac:(lia)) as Hdm.
  pose proof (Z.mod_pos_bound a rs Hrs). set (j := a / rs) in *. set (k := a mod rs) in *.
  assert (0 <= j < n1) as Hj by nia.
  destruct (H1' j Hj) as (L & M1). destruct (H2' j ltac:(lia)) as (_ & M2).
  specialize (M1 (Z.to_nat k) ltac:(lia)). specialize (M2 (Z.to_nat k) ltac:(lia)).
  rewrite M2 in M1. injection M1 as M1. replace (p1 + a) with (p1 + j * rs + Z.of_nat (Z.to_nat k)) by lia.
  rewrite <- M1. f_equal. lia.
Qed.
End Mirror.

(** ** A failed allocation for $Quota *)

Section Quota.
Context (RH : record_h) (NH : nonres_h) (IH : index_h) (SH : layout_h)
  `{RecordLib} `{CLib} {S : Type} `{BlockDev S} `{!FormatLib S}.
Context (o : mkntfs_options) (vol : mkvol) (sys : nat -> answers).
Abbreviation rs := (mft_record_size vol).
Abbreviation FH := documented_format.

(** Only the flags of record [i] may differ. *)
Definition flags_changed (i : Z) (st st' : fmt (S := S)) : Prop :=
  f_idx st' = f_idx st /\ f_fs st' = f_fs st /\ length (f_buf st') = length (f_buf st) /\
  forall k, f_buf st' !! k <> f_buf st !! k -> i * rs + 0x16 <= Z.of_nat k < i * rs + 0x18.

Lemma or_flags_run i flag (st : fmt) :
  0 <= i -> 24 <= rs -> (i + 1) * rs <= Z.of_nat (length (f_buf st)) ->
  exists st', or_flags FH vol i flag st = Some (tt, st') /\ flags_changed i st st'.
Proof.
  intros Hi Hrs Hb. assert (Z.to_nat (i * rs) + Z.to_nat rs <= length (f_buf st))%nat as Hb' by nia.
  unfold or_flags, rec, on_rec. rewrite (proj2 (Nat.leb_le _ _)) by lia.
  set (r := record_of vol i (f_buf st)). pose proof (length_record vol i _ Hb') as Lr. fold r in Lr.
  unfold on_record, mbind, M_bind. change (m_flags FH) with (Z.of_nat 0x16).
  pose proof (hdr_load r [] 0x16 2 ltac:(lia)) as El. rewrite app_nil_r in El. rewrite El.
  pose proof (hdr_store r [] 0x16 2 (Z.lor (field 2 0x16 r) flag) ltac:(lia)) as Es.
  rewrite !app_nil_r in Es. rewrite Es. eexists. split; [reflexivity|].
  set (r' := put _ _ r). assert (length r' = length r) as Lr' by (apply length_put; cbn; lia).
  split; [done|]. split; [done|]. split; [apply length_with_record; lia|]. cbn [f_buf set_buf].
  intros k Hk. apply with_record_same in Hk as (j & -> & Hj & Hne); [|lia|lia]. fold r in Hne.
  destruct (decide (0x16 <= j < 0x18)%nat); [nia|]. exfalso. apply Hne.
  apply lookup_put_out; rewrite length_le_bytes; lia.
Qed.

Lemma flags_changed_trans i j (st1 st2 st3 : fmt) k :
  flags_changed i st1 st2 -> flags_changed j st2 st3 -> f_buf st3 !! k <> f_buf st1 !! k ->
  (i * rs + 0x16 <= Z.of_nat k < i * rs + 0x18) \/ (j * rs + 0x16 <= Z.of_nat k < j * rs + 0x18).
Proof.
  intros (_ & _ & _ & H1') (_ & _ & _ & H2') Hk.
  destruct (decide (f_buf st2 !! k = f_buf st1 !! k)) as [E|Hne]; [|left; by apply H1'].
  right. apply H2'. by rewrite E.
Qed.

Lemma view_flags_run i (st : fmt) :
  0 <= i -> 24 <= rs -> (i + 1) * rs <= Z.of_nat (length (f_buf st)) ->
  exists st', view_flags FH vol i st = Some (tt, st') /\ flags_changed i st st'.
Proof.
  intros Hi Hrs Hb. unfold view_flags, mbind, P_bind.
  destruct (or_flags_run i (MFT_RECORD_IS_4 FH) st Hi Hrs Hb) as (st1 & -> & C1).
  pose proof C1 as (X1 & F1 & L1 & _).
  destruct (or_flags_run i (MFT_RECORD_IS_VIEW_INDEX FH) st1 Hi Hrs ltac:(lia)) as (st2 & -> & C2).
  exists st2. split; [done|]. pose proof C2 as (X2 & F2 & L2 & _).
  split; [congruence|]. split; [congruence|]. split; [congruence|]. intros k Hk.
  destruct (flags_changed_trans _ _ _ _ _ _ C1 C2 Hk); lia.
Qed.
End Quota.

(** [C35] A failed allocation goes unnoticed.  When the memory for the first entry of
    the quota index is missing, [initialize_quota] answers a positive errno; the
    caller tests for negative values only.  So [$ObjId] and [$Reparse] get no name
    and no index (only their flags are set, nothing else of the MFT, the root's
    index, the device and the allocations changes any more), and yet the files in
    [$Extend] count as created: FALSE, [None], is not answered. *)
Theorem quota_failure_ignored `{RecordLib} `{CLib} {S : Type} `{BlockDev S} `{!FormatLib S}
    RH IH SH FH o vol sys guid (st st1 : fmt (S := S)) :
  FH = documented_format ->
  24 <= mft_record_size vol -> 27 * mft_record_size vol <= Z.of_nat (length (f_buf st1)) ->
  quota_indexes RH IH FH o vol sys Done st = Some (Done, st1) ->
  ans_heap (sys 40%nat) 0 = false ->
  exists st2,
    create_extended RH IH SH FH o vol sys guid Done st = Some (Some (Errno ENOMEM), st2) /\
    f_idx st2 = f_idx st1 /\ f_fs st2 = f_fs st1 /\
    forall k, f_buf st2 !! k <> f_buf st1 !! k -> exists i, (i = 25 \/ i = 26) /\
      i * mft_record_size vol + 0x16 <= Z.of_nat k < i * mft_record_size vol + 0x18.
Proof.
  intros -> Hrs Hl Eq Hheap.
  destruct (view_flags_run vol 25 st1) as (st2 & E2 & C2); [lia..|].
  pose proof C2 as (X2 & F2 & L2 & _).
  destruct (view_flags_run vol 26 st2) as (st3 & E3 & C3); [lia..|].
  pose proof C3 as (X3 & F3 & _). exists st3. split; [|split; [congruence|split; [congruence|]]].
  2:{ intros k Hk. destruct (flags_changed_trans _ _ _ _ _ _ _ C2 C3 Hk); eauto. }
  unfold create_extended, and_then, create_quota, create_objid, create_reparse, mbind, P_bind.
  rewrite Eq. unfold next at 1.
  rewrite (rec_same_state vol 24 _ (QErrno ENOMEM)) by (first [lia | unfold initialize_quota; by rewrite Hheap]).
  cbn [mret P_ret of_quota checked negative]. rewrite E2.
  destruct (with_uuid o); cbn; by rewrite E3.
Qed.

(** ** The whole run *)

Section Run.
Context (RH : record_h) (NH : nonres_h) (IH : index_h) (GH : large_h) (BH : boot_h)
  (SH : layout_h) (FH : format_h) (is_ntfs : buffer -> bool)
  `{RecordLib} `{MappingLib} `{CLib} `{LargeLib} {S : Type} `{FormatLaws S}.
Context (o : mkntfs_options) (vol : mkvol) (g : globals) (malloc_ok : nat -> bool)
  (sys : nat -> answers).
Context (Hresize : forall a size, sized (resident_attr_value_resize a size)).

(** A run that succeeds has written the records of a buffer of the size of the first
    one, and nothing afterwards. *)
Lemma format_volume_inv eio realloc_ok x (st st' : fmt) :
  format_volume RH NH IH GH BH SH FH is_ntfs o vol g malloc_ok sys eio realloc_ok x st =
    Some (true, st') ->
  exists st1 st2, length (f_buf st1) = length (f_buf st) /\
    write_records o vol g st1 = Some (true, st2) /\
    same_cells (fs_dev (f_fs st2)) (fs_dev (f_fs st')).
Proof.
  unfold format_volume, write_volume, mbind, P_bind.
  destruct (fill_device o vol eio realloc_ok st) as [[[] s1]|] eqn:E1; try done.
  cbn [negb].
  destruct (mkntfs_create_root_structures RH NH IH GH BH SH FH is_ntfs o vol g malloc_ok sys x s1) as [[[] s2]|] eqn:E2; try done.
  cbn [negb].
  destruct (mkntfs_sync_index_record RH NH IH o vol sys 50 5 (NTFS_INDEX_I30 IH) s2) as [[[] s3]|] eqn:E3; try done. cbn [negb].
  destruct (sync_bitmap RH o vol g sys 51 s3) as [[[] s4]|] eqn:E4; try done. cbn [negb].
  destruct (write_records o vol g s4) as [[[] s5]|] eqn:E5; try done. cbn [negb]. intros E6.
  exists s4, s5. split; [|split; [done|]].
  - destruct (keepsP_sync_bitmap _ _ _ _ _ _ _ _ _ E4) as [? _].
    destruct (keepsP_sync_index _ _ _ _ _ _ _ _ _ _ _ _ E3) as [? _].
    destruct (keepsP_root_structures RH NH IH GH BH SH FH is_ntfs o vol g malloc_ok sys
                Hresize x _ _ _ E2) as [? _].
    destruct (keepsP_fill _ _ _ _ _ _ _ E1) as [? _]. congruence.
  - intros a. unfold sync_device, on_device in E6.
    destruct (dev_sync (fs_dev (f_fs s5))) as [ok s6] eqn:Es. injection E6 as -> <-.
    cbn [f_fs set_buf fs_dev]. by apply (sync_law _ _ _ Es).
Qed.

(** Without action nothing is written. *)
Lemma format_volume_dry eio realloc_ok x (st st' : fmt) ok :
  no_action o = true ->
  format_volume RH NH IH GH BH SH FH is_ntfs o vol g malloc_ok sys eio realloc_ok x st =
    Some (ok, st') ->
  forall a, dcell (fs_dev (f_fs st')) a = dcell (fs_dev (f_fs st)) a.
Proof.
  intros Hna E. apply (keepsP_format RH NH IH GH BH SH FH is_ntfs o vol g malloc_ok sys Hresize
                         eio realloc_ok x Hna _ _ _ E). done.
Qed.
End Run.

(** The places of the layout. *)
Lemma laid_out_mirror_bytes vol g :
  laid_out vol g -> mirror_bytes vol g = (region (g_rl_mftmirr g)).2 * cluster_size vol.
Proof.
  intros [Hruns _ _ _ _ _ _ _ _ _].
  do 3 apply Forall_cons in Hruns as [_ Hruns]. apply Forall_cons in Hruns as [(lcn & j & E) _].
  unfold mirror_bytes. by rewrite E.
Qed.

Lemma laid_out_places vol g :
  laid_out vol g -> 0 < cluster_size vol -> 0 < mft_record_size vol -> mft_places vol g.
Proof.
  intros Hl Hcs Hrs. pose proof (laid_out_mirror_bytes vol g Hl) as Eb.
  destruct Hl as [_ Hin Hap _ _ _ Hmft Hmirr _ _].
  unfold regions in Hin, Hap. cbn [fmap list_fmap] in Hin, Hap.
  apply Forall_cons in Hin as (_ & Hin). apply Forall_cons in Hin as (_ & Hin).
  apply Forall_cons in Hin as (I1 & Hin). apply Forall_cons in Hin as (I2 & _).
  inversion_clear Hap as [|? ? _ Hap1]. inversion_clear Hap1 as [|? ? _ Hap2].
  inversion_clear Hap2 as [|? ? Hm _]. apply Forall_cons in Hm as (Hm & _).
  destruct Hmft as (M1 & M2 & M3 & _). destruct Hmirr as (R1 & R2).
  unfold apart in Hm. rewrite M1, R1 in Hm. constructor.
  - unfold mft_records. pose proof (Z.mul_div_le (g_mft_size g) (mft_record_size vol) Hrs). lia.
  - rewrite Eb. nia.
  - rewrite Eb. lia.
Qed.
