(* ===== verification/FormatZero.v ===== *)
(** * Zeroing the device

    [mkntfs_fill_device_with_zeroes]: every cluster is zero or in the list of bad
    clusters; the sectors after the last cluster are never reached. *)

From S2P Require Import Prelude ClusterAlloc Scatter Runlist Device MkWrite Options Layout Bytes Sd AttrDef Mft MftNonRes Index IndexLarge Boot Format.

Section Zero.
Context {S : Type} `{BlockDevLaws S} `{!FormatLib S}.
Context (o : mkntfs_options) (vol : mkvol) (eio realloc_ok : Z -> bool) (N : nat).
Abbreviation cs := (cluster_size vol).
Abbreviation nr := (nr_clusters vol).
Context (Hact : no_action o = false) (Hcs : 0 < cs <= Z.of_nat N).
Context (Hseek : forall off (s : S), 0 <= off -> fst (dev_seek off s) = true).

(** One write of a cluster of zeroes. *)
Lemma write_cluster_run s :
  exists n s', mkntfs_write (no_action o) (repeat 0 N) cs s = Some (n, s') /\
    (forall a, ~ (dpos s <= a < dpos s + cs) -> dcell s' a = dcell s a) /\
    (n = cs -> dpos s' = dpos s + cs /\ forall a, dpos s <= a < dpos s + cs -> dcell s' a = 0) /\
    (progresses (S := S) -> n = -1 \/ n = cs).
Proof.
  unfold mkntfs_write. rewrite Hact.
  destruct (write_loop_zeros N (Z.to_nat cs + 4) cs 0 0 s)
    as (n & s' & -> & _ & Hf & Hz & Hp & Hd); [lia..|].
  exists n, s'. split; [done|]. split; [done|]. split.
  - intros ->. rewrite Hd by lia. split; [lia|]. by apply Hz.
  - intros Hpr. destruct (Hp Hpr); lia.
Qed.

(** The loop over the clusters, from [position] on. *)
Lemma fill_clusters_run n : forall position bad s,
  0 <= position -> dpos s = position * cs ->
  Forall (fun k => 0 < k < position) bad ->
  exists r s', fill_clusters o vol eio realloc_ok (repeat 0 N) n position bad s = (Some r, s') /\
    (forall a, ~ (position * cs <= a < (position + Z.of_nat n) * cs) -> dcell s' a = dcell s a) /\
    match r with
    | inr bad' =>
        Forall (fun k => 0 < k < position + Z.of_nat n) bad' /\ (exists new, bad' = bad ++ new) /\
        forall a, position * cs <= a < (position + Z.of_nat n) * cs -> a / cs ∉ bad' -> dcell s' a = 0
    | inl _ => True
    end.
Proof.
  induction n as [|n IH]; intros position bad s Hp Hd Hbad; cbn [fill_clusters].
  { exists (inr bad), s. split; [done|]. split; [done|].
    split; [by rewrite Z.add_0_r|]. split; [exists []; by rewrite app_nil_r|]. lia. }
  destruct (write_cluster_run s) as (bw & s1 & -> & Hf & Hz & _).
  destruct (Z.eqb_spec bw cs) as [->|Hne].
  - destruct (Hz eq_refl) as [Hd1 Hz1].
    destruct (IH (position + 1) bad s1) as (r & s' & E & Hf' & Hr); [lia|rewrite Hd1; lia| |].
    { eapply Forall_impl; [exact Hbad|]. cbn. lia. }
    exists r, s'. split; [exact E|]. split; [intros a Ha; rewrite Hf' by nia; apply Hf; nia|].
    destruct r as [|bad']; [done|]. destruct Hr as (Hb' & Hnew & Hc). split; [|split; [done|]].
    + eapply Forall_impl; [exact Hb'|]. cbn. lia.
    + intros a Ha Hnb. destruct (Z.lt_ge_cases a ((position + 1) * cs)).
      * rewrite Hf' by lia. apply Hz1. nia.
      * apply Hc; [nia|done].
  - assert (forall a, ~ (position * cs <= a < (position + Z.of_nat (Datatypes.S n)) * cs) -> dcell s1 a = dcell s a)
      as Hf1 by (intros a Ha; apply Hf; nia).
    destruct (negb (bw =? -1) || negb (eio position)); [exists (inl tt), s1; split_and!; (done || exact Hf1)|].
    destruct (Z.eqb_spec position 0); [exists (inl tt), s1; split_and!; (done || exact Hf1)|].
    unfold append_to_bad_blocks.
    destruct (_ && _); [exists (inl tt), s1; split_and!; (done || exact Hf1)|].
    assert (0 <= (position + 1) * cs) as Hpos by nia.
    destruct (dev_seek ((position + 1) * cs) s1) as [ok s2] eqn:Es.
    pose proof (Hseek ((position + 1) * cs) s1 Hpos) as Hok. rewrite Es in Hok. cbn in Hok. subst ok.
    destruct (seek_law _ _ _ Hpos Es) as [Hd2 Hc2].
    destruct (IH (position + 1) (bad ++ [position]) s2) as (r & s' & E & Hf' & Hr); [lia|done| |].
    { apply Forall_app. split; [|by repeat constructor; lia].
      eapply Forall_impl; [exact Hbad|]. cbn. lia. }
    exists r, s'. split; [exact E|]. split; [intros a Ha; rewrite Hf' by nia; rewrite Hc2; apply Hf1; lia|].
    destruct r as [|bad']; [done|]. destruct Hr as (Hb' & (new & ->) & Hc). split; [|split].
    + eapply Forall_impl; [exact Hb'|]. cbn. lia.
    + exists (position :: new). by rewrite <- app_assoc.
    + intros a Ha Hnb. apply Hc; [|done]. split; [|lia].
      destruct (Z.lt_ge_cases a ((position + 1) * cs)); [|lia]. exfalso. apply Hnb.
      assert (a / cs = position) as -> by (symmetry; apply (Z.div_unique_pos a cs position (a - position * cs)); nia).
      rewrite elem_of_app. left. rewrite elem_of_app. right. by apply list_elem_of_singleton.
Qed.

(** The number of sectors after the last cluster is computed from the size of the
    clusters, so it is always 0. *)
Lemma tail_sectors_zero :
  0 <= cluster_size_bits vol -> cs = 2 ^ cluster_size_bits vol -> 0 <= nr -> nr * cs < 2 ^ 64 ->
  tail_sectors o vol = 0.
Proof.
  intros Hb Hc Hn Hsz. unfold tail_sectors, volume_size.
  rewrite Z.shiftl_mul_pow2, <- Hc, to_u_small by (unfold fits_u; lia).
  replace (cs - 1) with (Z.ones (cluster_size_bits vol)) by (rewrite Z.ones_equiv; lia).
  rewrite Z.land_ones by lia. by rewrite <- Hc, Z.mod_mul, Zdiv_0_l by lia.
Qed.
End Zero.

(** [C34] Zeroing the device.  From position 0, with a buffer of zeroes of at least a
    cluster, on any device that takes seeks: the function ends; it changes no byte
    from the end of the last cluster on (the loop for the sectors there never runs,
    since their number is computed from the size of the clusters); and when it
    answers TRUE every byte of the clusters is zero, except in the clusters listed
    as bad, which are never cluster 0 and lie in the volume. *)
Theorem fill_device_with_zeroes_correct {S : Type} `{BlockDevLaws S} `{!FormatLib S} o vol eio
    realloc_ok (N : nat) (s : S) :
  no_action o = false -> 0 < cluster_size vol <= Z.of_nat N ->
  0 <= cluster_size_bits vol -> cluster_size vol = 2 ^ cluster_size_bits vol ->
  0 <= nr_clusters vol -> nr_clusters vol * cluster_size vol < 2 ^ 64 ->
  (forall off (s : S), 0 <= off -> fst (dev_seek off s) = true) -> dpos s = 0 ->
  exists r s',
    mkntfs_fill_device_with_zeroes o vol eio realloc_ok (repeat 0 N) s = (Some r, s') /\
    (forall a, ~ (0 <= a < nr_clusters vol * cluster_size vol) -> dcell s' a = dcell s a) /\
    match r with
    | inr bad =>
        Forall (fun k => 0 < k < nr_clusters vol) bad /\
        forall a, 0 <= a < nr_clusters vol * cluster_size vol -> a / cluster_size vol ∉ bad ->
          dcell s' a = 0
    | inl _ => True
    end.
Proof.
  intros Hact Hcs Hb Hc Hn Hsz Hseek Hd.
  destruct (fill_clusters_run o vol eio realloc_ok N Hact Hcs Hseek (Z.to_nat (nr_clusters vol)) 0 [] s)
    as (r & s' & E & Hf & Hr); [lia|lia|constructor|].
  rewrite Z2Nat.id, Z.add_0_l, Z.mul_0_l in * by lia.
  unfold mkntfs_fill_device_with_zeroes. rewrite E, (tail_sectors_zero o vol N) by done.
  exists r, s'. destruct r as [|bad]; [done|]. split; [done|]. split; [done|].
  destruct Hr as (Hb' & _ & Hz). done.
Qed.
