(* ===== verification/ToyFormat.v ===== *)
(** * A small library to run the formatter on

    Executable stand-ins for the functions of libntfs-3g the formatting run calls,
    so that it can be evaluated: an empty record, moving what follows an attribute,
    runlists as pairs of numbers, a record protected by its update number alone. *)

From S2P Require Import Prelude ClusterAlloc Runlist Device MkWrite Bytes Mft MftFacts MftNonRes IndexLarge Sized Format FormatFacts.

(** [ntfs_mft_record_layout]: the header, the end marker, zeroes. *)
Definition record_head (n : Z) : buffer :=
  le_bytes 4 0x454c4946 ++ le_bytes 2 0x30 ++ le_bytes 2 (n / 512 + 1) ++
  replicate 12 0 ++ le_bytes 2 0x38 ++ le_bytes 2 0 ++ le_bytes 4 0x40 ++ le_bytes 4 n ++
  replicate 24 0 ++ le_bytes 4 0xffffffff ++ replicate 4 0.

Definition empty_record (b : buffer) : option buffer :=
  if (length b <? 64)%nat then None
  else Some (record_head (Z.of_nat (length b)) ++ replicate (length b - 64) 0).

(** [ntfs_resident_attr_value_resize] *)
Definition resize_value (a size : Z) : M (option errno_t) :=
  off ← load16 (a + 20);
  len ← load32 (a + 4);
  biu ← load32 0x18;
  allocated ← load32 0x1c;
  let len' := align8 (off + size) in
  if allocated <? biu - len + len' then mret (Some ENOSPC) else
  memmove (a + len') (a + len) (biu - (a + len));;
  store32 0x18 (biu - len + len');;
  store32 (a + 4) len';;
  store32 (a + 16) size;;
  mret None.

#[export] Instance toy_large : LargeLib := {
  resident_attr_value_resize := resize_value;
  mst_pre_write_fixup := inr;
  mst_post_write_fixup := id
}.

Lemma toy_resize_sized a size : sized (resident_attr_value_resize a size).
Proof. unfold resident_attr_value_resize, toy_large, resize_value. sized. Qed.

(** Runlists: the length and the place of each run, four bytes each. *)
Definition encode_runs (rl : list rle) : buffer :=
  concat ((fun r => le_bytes 4 (rl_length r) ++ le_bytes 4 (to_u 32 (rl_lcn r))) <$> live_runs rl) ++ [0; 0; 0; 0].

#[export] Instance toy_pairs : MappingLib := {
  get_size_for_mapping_pairs rl :=
    let z := Z.of_nat (length (encode_runs rl)) in if z <? 2 ^ 30 then inr z else inl ERANGE;
  mapping_pairs_build rl z :=
    (Z.of_nat (length (encode_runs rl)) <=? z, take (Z.to_nat z) (encode_runs rl))
}.

(** Four bytes of 0 end the list. *)
Fixpoint decode_runs (fuel : nat) (vcn : Z) (b : buffer) : option (list rle) :=
  match fuel with
  | O => None
  | Datatypes.S fuel =>
      let n := field 4 0 b in
      if n =? 0 then Some [mkRle vcn (-1) 0] else
      match decode_runs fuel (vcn + n) (drop 8 b) with
      | Some rl => Some (mkRle vcn (to_s 32 (field 4 4 b)) n :: rl)
      | None => None
      end
  end.

(** The update number is the first byte; protecting a record counts it up. *)
Definition count_up (b : buffer) : buffer :=
  match b with x :: b => (x + 1) mod 256 :: b | [] => [] end.

Definition count_down (b : buffer) : buffer :=
  match b with x :: b => (x - 1) mod 256 :: b | [] => [] end.

Lemma count_up_down b : count_up (count_down (count_up b)) = count_up b.
Proof.
  destruct b as [|x b]; [done|]. cbn. f_equal.
  rewrite Z.add_mod_idemp_l, Z.sub_add by lia. by rewrite Z.mod_mod by lia.
Qed.

Section ToyDevice.
Context {S : Type} `{BlockDev S}.

Definition toy_pwrite (pos : Z) (b : buffer) (s : S) : Z * buffer * S :=
  if pos <? 0 then (-1, b, s) else
  let '(ok, s) := dev_seek pos s in
  if negb ok then (-1, b, s) else
  let '(n, s) := dev_write (count_up b) s in
  (if n =? Z.of_nat (length b) then 1 else -1, count_up b, s).

#[export] Instance toy_format : FormatLib S := {
  mft_record_layout := empty_record;
  bit_set b i := alter (fun v => Z.lor v (2 ^ (i mod 8))) (Z.to_nat (i / 8)) b;
  mapping_pairs_decompress b :=
    let n := Z.to_nat (field 2 32 b) in decode_runs (length b) 0 (drop n b);
  mst_pwrite := toy_pwrite;
  mft_usn_dec b := Some (count_down b);
  dev_seek_cur _ s := (true, s);
  dev_sync s := (true, s)
}.

Lemma length_count_up b : length (count_up b) = length b.
Proof. by destruct b. Qed.

#[export] Instance toy_format_laws `{!BlockDevLaws S} : FormatLaws S.
Proof.
  unshelve refine {| mst_protect := count_up |}.
  - intros b r. cbn [mft_record_layout toy_format]. unfold empty_record.
    destruct (Nat.ltb_spec (length b) 64); [done|].
    intros E. assert (r = record_head (Z.of_nat (length b)) ++ replicate (length b - 64) 0) as -> by congruence.
    rewrite length_app, length_replicate. change (length (record_head _)) with 64%nat. lia.
  - intros pos b s b' s'. cbn [mst_pwrite toy_format]. unfold toy_pwrite.
    destruct (Z.ltb_spec pos 0); [done|]. destruct (dev_seek pos s) as [[] s1] eqn:E1; [|done].
    cbn [negb]. destruct (dev_write (count_up b) s1) as [n s2] eqn:E2.
    destruct (Z.eqb_spec n (Z.of_nat (length b))) as [->|]; [|done]. intros [= <- <-].
    destruct (seek_law _ _ _ ltac:(eassumption) E1) as [Hp Hc].
    destruct (write_law _ _ _ _ E2 ltac:(lia)) as (_ & _ & Hk).
    pose proof (write_frame _ _ _ _ E2) as Hf. rewrite (proj2 (Z.eqb_neq _ _)) in Hf by lia.
    rewrite Hp in Hk, Hf. rewrite length_count_up. split_and!; [done|done| |].
    + intros k Hlt. apply Hk. lia.
    + intros a Ha. rewrite Hf by done. apply Hc.
  - intros pos b s b' s' c. cbn [mst_pwrite mft_usn_dec toy_format]. unfold toy_pwrite.
    destruct (pos <? 0); [done|]. destruct (dev_seek pos s) as [[] s1]; [|done]. cbn [negb].
    destruct (dev_write (count_up b) s1) as [n s2]. destruct (n =? _); [|done].
    intros [= <- <-] [= <-]. rewrite count_up_down. split; [|done]. by destruct b.
  - intros b c [= <-]. by destruct b.
  - by intros s ok s' [= _ <-].
Defined.
End ToyDevice.
