(* ===== verification/Mkntfs.v ===== *)
(** * The whole of mkntfs

    Models [mkntfs_open_partition], [mkntfs_redirect] and [nk_mkntfs_main] of
    src/NTFSModule/bridge/mkntfs/mkntfs.c: the options ([Options]), the parameters
    and the layout ([Layout]) and the formatting run ([Format]) put together. *)

From Stdlib Require Import String.
From S2P Require Import Prelude ClusterAlloc Scatter Runlist Device MkWrite Crc64 Options Layout Bytes Sd AttrDef Mft MftNonRes Index IndexLarge Boot Format.

(** ** [mkntfs_open_partition] *)

(** The device: whether one can be made; [open] (for reading only or not); [stat]
    (a block device, [st_size], [st_blocks]); whether [ntfs_check_if_mounted]
    answers, and that it is mounted. *)
Record partition (S : Type) := mkPartition {
  pt_device : bool; pt_open : bool -> S -> bool * S;
  pt_stat : option (bool * Z * Z); pt_mounted : option bool
}.
Arguments mkPartition {S}.
Arguments pt_device {S}.
Arguments pt_open {S}.
Arguments pt_stat {S}.
Arguments pt_mounted {S}.

(** The number and the size of the sectors of something that is not a block device;
    [None]: refused. *)
Definition forced_sectors (o : mkntfs_options) (st_size st_blocks : Z) : option mkntfs_options :=
  if negb (force o) then None else
  if negb (num_sectors o =? 0) then Some o else
  if (st_size =? 0) && (st_blocks =? 0) then None else
  if negb (sector_size o =? 0) then
    Some (set_num_sectors (if negb (st_size =? 0) then Z.quot st_size (sector_size o)
                           else Z.quot (Z.shiftl st_blocks 9) (sector_size o)) o)
  else
    Some (set_sector_size 512
            (set_num_sectors (if negb (st_size =? 0) then Z.quot st_size 512 else st_blocks) o)).

(** TRUE is [Some], with the options. *)
Definition mkntfs_open_partition {S} (p : partition S) (o : mkntfs_options) (s : S)
  : option mkntfs_options * S :=
  if negb (pt_device p) then (None, s) else
  let '(ok, s) := pt_open p (no_action o) s in
  if negb ok then (None, s) else
  match pt_stat p with
  | None => (None, s)
  | Some (block_device, st_size, st_blocks) =>
      match (if (block_device : bool) then Some o else forced_sectors o st_size st_blocks) with
      | None => (None, s)
      | Some o =>
          match pt_mounted p with
          | Some true => (if force o then Some o else None, s)
          | _ => (Some o, s)
          end
      end
  end.

(** ** [mkntfs_redirect] *)

(** [struct UPCASEINFO]: its length and the checksum of the table. *)
Definition upcaseinfo (crc : Z) : buffer :=
  le_bytes 4 32 ++ le_bytes 4 0 ++ le_bytes 8 crc ++ replicate 16 0.

Section Redirect.
Context (RH : record_h) (NH : nonres_h) (IH : index_h) (GH : large_h) (BH : boot_h)
  (SH : layout_h) (FH : format_h) (is_ntfs : buffer -> bool)
  `{RecordLib} `{MappingLib} `{CLib} `{LargeLib} {S : Type} `{BlockDev S} `{FormatLib S}.

(** The machine: the allocator's heap, the other answers of the system, the
    allocations of [mkntfs_redirect] itself, EIO and the list of bad blocks while zeroing. *)
Context (malloc_ok : nat -> bool) (sys : nat -> answers) (setup : nat -> bool)
  (eio realloc_ok : Z -> bool).

(** The largest cluster size, the geometry of the device, the device, and the upper-
    case table of [ntfs_upcase_build_default] with its length, a GUID and two random
    numbers. *)
Context (max_cs : Z) (d : devinfo) (p : partition S) (fuel : nat)
  (upcase : buffer) (upcase_len : Z) (guid : buffer) (r1 r2 : Z).

(** The state in which the formatting run starts; the static arrays are zero in the
    first run. *)
Definition fresh_fmt (g : globals) (sd root_sd : buffer) (s : S) : fmt :=
  mkFmt (replicate (Z.to_nat (g_mft_size g)) 0) []
    (replicate (Z.to_nat (g_mft_bitmap_byte_size g)) 0) sd root_sd
    (mkF (g_alloc g) (g_mft_zone_end g) (replicate (Z.to_nat (g_dynamic_buf_size g)) 0) s).

Definition format_inputs (o : mkntfs_options) (table : list Z) (attrdef : buffer * Z) : inputs :=
  mkInputs attrdef upcase upcase_len (upcaseinfo (fst (crc64 table 0 (Some upcase))))
    (match label o with Some l => Some (chars l) | None => None end) guid r1 r2.

(** [result], 0 for success, and the device; [None] is a run that never ends or
    leaves its memory. *)
Definition mkntfs_redirect (opts2 : option mkntfs_options) (g : globals) (table : list Z)
    (sd root_sd : buffer) (s : S) : option (Z * S) :=
  match opts2 with
  | None => Some (1, s)
  | Some o =>
      if negb (setup 0%nat) then Some (1, s) else
      if bool_decide (label o <> None) && negb (setup 1%nat) then Some (1, s) else
      if (upcase_len =? 0) || negb (setup 2%nat) then Some (1, s) else
      let table := snd (crc64 table 0 None) in
      match attrdef_of_volume (setup 3%nat) with
      | None => Some (1, s)
      | Some attrdef =>
          match mkntfs_open_partition p o s with
          | (None, s) => Some (1, s)
          | (Some o, s) =>
              match mkntfs_plan malloc_ok max_cs d fuel o g with
              | None => None
              | Some None => Some (1, s)
              | Some (Some (o, vol, g)) =>
                  if negb (setup 4%nat) then Some (1, s) else
                  match format_volume RH NH IH GH BH SH FH is_ntfs o vol g malloc_ok sys eio
                          realloc_ok (format_inputs o table attrdef) (fresh_fmt g sd root_sd s) with
                  | None => None
                  | Some (ok, st) => Some (if (ok : bool) then 0 else 1, fs_dev (f_fs st))
                  end
              end
          end
      end
  end.

(** [nk_mkntfs_main] over the answers of [getopt_long]. *)
Definition nk_mkntfs_main (log_option : string -> bool) (gs : list getopt_result) (g : globals)
    (table : list Z) (sd root_sd : buffer) (s : S) : option (Z * S) :=
  let '(result, o) := mkntfs_parse_options log_option gs mkntfs_init_options in
  if result <? 0 then mkntfs_redirect (Some o) g table sd root_sd s else Some (result, s).
End Redirect.
