(* ===== verification/MkntfsTheorems.v ===== *)
(** * The whole of mkntfs, proved

    What a run that answers success leaves on the device: a sound layout, and the MFT
    and its mirror with the same records. *)

From S2P Require Import Prelude ClusterAlloc Scatter Runlist Device MkWrite Options Layout LayoutTheorems Bytes Sd AttrDef Mft MftFacts MftNonRes Index IndexLarge Boot Sized Format FormatFacts FormatTheorems Mkntfs.

(** ** The options that reach the formatting run *)

Lemma forced_sectors_keeps o st_size st_blocks o' :
  forced_sectors o st_size st_blocks = Some o' ->
  no_action o' = no_action o /\ vol_cluster_size o' = vol_cluster_size o.
Proof. unfold forced_sectors. intros E. repeat case_match; simplify_eq; done. Qed.

Lemma open_partition_keeps {S} (p : partition S) o s o' s' :
  mkntfs_open_partition p o s = (Some o', s') ->
  no_action o' = no_action o /\ vol_cluster_size o' = vol_cluster_size o.
Proof.
  unfold mkntfs_open_partition. intros E.
  repeat case_match; simplify_eq; (done || by eapply forced_sectors_keeps).
Qed.

(** Opening the device without action leaves it as it was. *)
Lemma open_partition_same {S : Type} `{BlockDevLaws S} (p : partition S) o s r s' :
  no_action o = true ->
  (forall s ok s', pt_open p true s = (ok, s') -> forall a, dcell s' a = dcell s a) ->
  mkntfs_open_partition p o s = (r, s') -> forall a, dcell s' a = dcell s a.
Proof.
  intros Hact Hopen. unfold mkntfs_open_partition. destruct (pt_device p); cbn [negb]; [|by intros [= _ <-]].
  rewrite Hact. destruct (pt_open p true s) as [ok s1] eqn:E. intros E' a.
  rewrite <- (Hopen _ _ _ E a). repeat case_match; by simplify_eq.
Qed.

Lemma override_keeps max_cs d o cs o' vol w :
  mkntfs_override_vol_params max_cs d o cs = Some (o', vol, w) -> no_action o' = no_action o.
Proof.
  unfold mkntfs_override_vol_params.
  destruct (override_sectors d o) as [o1|] eqn:E1; [|done].
  destruct (override_geometry d o1) as [[o2 w']|] eqn:E2; [|done].
  destruct (_ <? _); [done|]. destruct (override_cluster_size _ _ _ _) as [cs'|]; [|done].
  destruct (override_compression cs' o2) as [o3|] eqn:E3; [|done].
  destruct (_ || _ || _); [done|]. destruct (negb _); [done|]. intros [= <- _ _].
  transitivity (no_action o2); [|transitivity (no_action o1)].
  - unfold override_compression in E3. repeat case_match; by simplify_eq.
  - unfold override_geometry in E2. repeat case_match; by simplify_eq.
  - unfold override_sectors in E1. repeat case_match; by simplify_eq.
Qed.

Lemma mkntfs_plan_keeps malloc_ok max_cs d fuel o g o' vol g' :
  mkntfs_plan malloc_ok max_cs d fuel o g = Some (Some (o', vol, g')) ->
  no_action o' = no_action o.
Proof.
  unfold mkntfs_plan.
  destruct (mkntfs_override_vol_params _ _ _ _) as [[[o1 vol1] w]|] eqn:E; [|done].
  destruct (mkntfs_layout _ _ _ _ _ _) as [[g1|]|]; [|done..]. intros [= <- <- <-].
  by eapply override_keeps.
Qed.

Lemma params_ok_sizes max_cs o vol :
  params_ok max_cs o vol -> 0 < cluster_size vol /\ 0 < mft_record_size vol.
Proof.
  intros Hp. split.
  - destruct (po_bits _ _ _ Hp) as [Hb ->]. lia.
  - destruct (po_records _ _ _ Hp) as [-> _]. lia.
Qed.

(** ** Success *)

Section Redirect.
Context (RH : record_h) (NH : nonres_h) (IH : index_h) (GH : large_h) (BH : boot_h)
  (SH : layout_h) (FH : format_h) (is_ntfs : buffer -> bool)
  `{RecordLib} `{MappingLib} `{CLib} `{LargeLib} {S : Type} `{FormatLaws S}.
Context (malloc_ok : nat -> bool) (sys : nat -> answers) (setup : nat -> bool)
  (eio realloc_ok : Z -> bool).
Context (max_cs : Z) (d : devinfo) (p : partition S) (fuel : nat)
  (upcase : buffer) (upcase_len : Z) (guid : buffer) (r1 r2 : Z).
Abbreviation redirect :=
  (mkntfs_redirect RH NH IH GH BH SH FH is_ntfs malloc_ok sys setup eio realloc_ok max_cs d p fuel
     upcase upcase_len guid r1 r2).

(** A run that answers success has gone through every stage. *)
Lemma redirect_stages o g table sd root_sd s s' :
  redirect (Some o) g table sd root_sd s = Some (0, s') ->
  exists o1 s1 o' vol g' x st,
    mkntfs_open_partition p o s = (Some o1, s1) /\
    mkntfs_plan malloc_ok max_cs d fuel o1 g = Some (Some (o', vol, g')) /\
    format_volume RH NH IH GH BH SH FH is_ntfs o' vol g' malloc_ok sys eio realloc_ok x
      (fresh_fmt g' sd root_sd s1) = Some (true, st) /\
    s' = fs_dev (f_fs st).
Proof.
  unfold mkntfs_redirect. destruct (setup 0%nat); [|done]. cbn [negb].
  destruct (bool_decide (label o <> None) && negb (setup 1%nat)); [done|].
  destruct ((upcase_len =? 0) || negb (setup 2%nat)); [done|].
  destruct (attrdef_of_volume (setup 3%nat)) as [attrdef|]; [|done].
  destruct (mkntfs_open_partition p o s) as [[o1|] s1] eqn:E1; [|done].
  destruct (mkntfs_plan malloc_ok max_cs d fuel o1 g) as [[[[o' vol] g']|]|] eqn:E2; [|done..].
  destruct (setup 4%nat); [|done]. cbn [negb].
  destruct (format_volume _ _ _ _ _ _ _ _ _ _ _ _ _ _ _ _ _) as [[[] st]|] eqn:E3; [|done..].
  intros [= <-]. by do 7 eexists.
Qed.
End Redirect.

(** [C15] The MFT and its mirror agree.  A run of mkntfs that answers success (on a
    device that is written to, with memory available, in a first run whose cluster
    size is at most 1 MiB) has laid the volume out soundly, and the device holds at
    the place of $MFT all the records of one buffer of the size of the MFT, each in
    its protected form, and at the place of $MFTMirr the first of them, at least
    four: the two places agree byte by byte, whatever the functions in between did,
    for any medium and any library whose protection writes what it announces. *)
Theorem mkntfs_redirect_mirrors RH NH IH GH BH SH FH is_ntfs
    `{RecordLib} `{MappingLib} `{CLib} `{LargeLib} {S : Type} `{FormatLaws S}
    malloc_ok sys setup eio realloc_ok max_cs d (p : partition S) fuel upcase upcase_len guid r1 r2
    o g table sd root_sd (s : S) :
  (forall k, malloc_ok k = true) -> max_cs <= 2 ^ 21 -> vol_cluster_size o <= 2 ^ 20 ->
  LayoutTheorems.fresh g -> (2 <= fuel)%nat -> no_action o = false ->
  (forall a size, sized (resident_attr_value_resize a size)) ->
  match mkntfs_redirect RH NH IH GH BH SH FH is_ntfs malloc_ok sys setup eio realloc_ok max_cs d p
          fuel upcase upcase_len guid r1 r2 (Some o) g table sd root_sd s with
  | Some (0, s') =>
      exists o1 o' vol g' buf,
        (mkntfs_open_partition p o s).1 = Some o1 /\
        mkntfs_plan malloc_ok max_cs d fuel o1 g = Some (Some (o', vol, g')) /\ laid_out vol g' /\
        Z.of_nat (length buf) = g_mft_size g' /\ 27 <= mft_records vol g' /\
        records_at vol s' (g_mft_lcn g' * cluster_size vol) (mft_records vol g') buf /\
        4 <= mirror_records vol g' /\
        forall a, 0 <= a < mirror_records vol g' * mft_record_size vol ->
          dcell s' (g_mftmirr_lcn g' * cluster_size vol + a) =
          dcell s' (g_mft_lcn g' * cluster_size vol + a)
  | _ => True
  end.
Proof.
  intros Hm Hmax Hcs Hg Hf Hact Hresize.
  destruct (mkntfs_redirect _ _ _ _ _ _ _ _ _ _ _ _ _ _ _ _ _ _ _ _ _ _ _ _ _ _ _ _)
    as [[[] s']|] eqn:E; [|done..].
  apply redirect_stages in E as (o1 & s1 & o' & vol & g' & x & st & E1 & E2 & E3 & ->).
  destruct (open_partition_keeps _ _ _ _ _ E1) as [Ha1 Hc1].
  pose proof (mkntfs_plan_keeps _ _ _ _ _ _ _ _ _ E2) as Ha2.
  destruct (mkntfs_plan_spec malloc_ok max_cs d fuel o1 g) as (r & Er & Hr); [done..|congruence|done|done|].
  rewrite E2 in Er. injection Er as <-. destruct (Hr _ _ _ eq_refl) as [Hp Hl].
  destruct (params_ok_sizes _ _ _ Hp) as [Hc Hrs].
  pose proof (laid_out_places _ _ Hl Hc Hrs) as Hpl.
  destruct (format_volume_inv RH NH IH GH BH SH FH is_ntfs o' vol g' malloc_ok sys Hresize _ _ _ _ _ E3)
    as (st1 & st2 & Hlen & Ew & Hs).
  pose proof (mp_sizes _ _ Hpl) as [Hsz _].
  assert (Z.of_nat (length (f_buf st1)) = g_mft_size g') as HL.
  { rewrite Hlen. cbn [fresh_fmt f_buf]. rewrite length_replicate. lia. }
  destruct (write_records_run o' vol g' Hrs ltac:(congruence) st1 st2 Hpl Ew HL) as (Hle & Rm & Rr).
  rewrite Hs in Rm, Rr. pose proof (laid_out_mirror_bytes _ _ Hl) as Emb.
  destruct (lo_mft _ _ Hl) as (_ & H27 & _). destruct (lo_mirr _ _ Hl) as [_ H4'].
  exists o1, o', vol, g', (f_buf st1). rewrite E1. split_and!; try done.
  - by apply Z.div_le_lower_bound; lia.
  - apply Z.div_le_lower_bound; [done|]. lia.
  - intros a Ha. by eapply records_same_bytes.
Qed.

(** [C16] A dry run changes nothing.  With [no_action] (the option -n) no byte of the
    device differs after the run from what it was before, whatever the answers of the
    system and whether or not the run succeeds: opening the device (which it does for
    reading only), zeroing, the files, the index, the bitmap, the MFT and its mirror,
    and flushing. *)
Theorem mkntfs_redirect_dry RH NH IH GH BH SH FH is_ntfs
    `{RecordLib} `{MappingLib} `{CLib} `{LargeLib} {S : Type} `{FormatLaws S}
    malloc_ok sys setup eio realloc_ok max_cs d (p : partition S) fuel upcase upcase_len guid r1 r2
    o g table sd root_sd (s : S) :
  no_action o = true ->
  (forall s ok s', pt_open p true s = (ok, s') -> forall a, dcell s' a = dcell s a) ->
  (forall a size, sized (resident_attr_value_resize a size)) ->
  match mkntfs_redirect RH NH IH GH BH SH FH is_ntfs malloc_ok sys setup eio realloc_ok max_cs d p
          fuel upcase upcase_len guid r1 r2 (Some o) g table sd root_sd s with
  | Some (_, s') => forall a, dcell s' a = dcell s a
  | None => True
  end.
Proof.
  intros Hact Hopen Hresize. unfold mkntfs_redirect.
  destruct (negb (setup 0%nat)); [done|].
  destruct (bool_decide (label o <> None) && negb (setup 1%nat)); [done|].
  destruct ((upcase_len =? 0) || negb (setup 2%nat)); [done|].
  destruct (attrdef_of_volume (setup 3%nat)) as [attrdef|]; [|done].
  destruct (mkntfs_open_partition p o s) as [o1 s1] eqn:E1.
  pose proof (open_partition_same p o s o1 s1 Hact Hopen E1) as Hs1.
  destruct o1 as [o1|]; [|done].
  destruct (open_partition_keeps _ _ _ _ _ E1) as [Ha1 _].
  destruct (mkntfs_plan malloc_ok max_cs d fuel o1 g) as [[[[o' vol] g']|]|] eqn:E2; [|done..].
  pose proof (mkntfs_plan_keeps _ _ _ _ _ _ _ _ _ E2) as Ha2.
  destruct (setup 4%nat); [|done]. cbn [negb].
  destruct (format_volume _ _ _ _ _ _ _ _ _ _ _ _ _ _ _ _ _) as [[ok st]|] eqn:E3; [|done].
  intros a. rewrite <- Hs1.
  apply (format_volume_dry RH NH IH GH BH SH FH is_ntfs o' vol g' malloc_ok sys Hresize
           _ _ _ _ _ _ ltac:(congruence) E3).
Qed.
