(* ===== verification/FormatSamples.v ===== *)
(** * The formatting run on small inputs

    Witnesses of the theorems of [FormatTheorems], [FormatZero] and [MkntfsTheorems], on the library of
    [ToyFormat] and a device that is a function. *)

From Stdlib Require Import String.
From S2P Require Import Prelude ClusterAlloc Scatter Runlist Device MkWrite Options Layout LayoutTheorems Bytes Sd AttrDef Mft MftFacts MftTheorems MftNonRes Index IndexTheorems IndexLarge Boot Sized Format FormatFacts FormatTheorems FormatZero ToyFormat Mkntfs MkntfsTheorems.

#[local] Existing Instance plain_lib.
#[local] Existing Instance plain_clib.

(** A device that takes every write whole. *)
#[local] Instance cells : BlockDev (device (Z -> Z)) := nkdev_block (cell_io (2 ^ 20)).
#[local] Instance cells_laws : BlockDevLaws (device (Z -> Z)) :=
  nkdev_block_laws _ _ (cell_io_laws (2 ^ 20) ltac:(lia)).

Definition blank_device : device (Z -> Z) := mkDev false true false 0 (fun _ => 9).

(** ** Quota *)

(** Records of 512 bytes. *)
Definition tiny_vol : mkvol := mkVol 4096 12 511 512 9 4096 12.

(** The clock stands still, and the heap fails in call 40. *)
Definition tiny_sys (k : nat) : answers :=
  mkAnswers (fun _ => 77) (fun _ => negb (k =? 40)%nat) (fun _ => 0) true (Some ENOSPC) (Some EIO).

(** A formatted record with its standard information, and what [more] adds. *)
Definition started (more : M (option errno_t)) : buffer :=
  match empty_record (replicate 512 0) with
  | Some b =>
      match (_ ← add_attr_std_info documented_record 77 6 0x101 (replicate 72 0); more) b with
      | Some (_, b) => b
      | None => []
      end
  | None => []
  end.

Definition tiny_extend : buffer :=
  started (add_attr_index_root documented_record 4096 512 (Some (replicate 64 0)) (Some dollar_I30) 4
             CASE_SENSITIVE 0x30 1 4096).

Definition tiny_fmt : fmt (S := device (Z -> Z)) :=
  mkFmt (replicate (11 * 512) 0 ++ tiny_extend ++ replicate (12 * 512) 0 ++ started (mret None) ++
         replicate (2 * 512) 0) [] [] [] [] (mkF (mkAstate [] 0) 0 [] blank_device).

Abbreviation tiny_quota :=
  (quota_indexes documented_record documented_index documented_format mkntfs_init_options tiny_vol
     tiny_sys Done tiny_fmt).

Definition is_done (r : option (rc * fmt (S := device (Z -> Z)))) : bool :=
  match r with Some (Done, st) => 27 * 512 <=? Z.of_nat (length (f_buf st)) | _ => false end.

Lemma tiny_quota_done : is_done tiny_quota = true.
Proof. vm_compute. reflexivity. Qed.

Lemma quota_failure_ignored_witness :
  exists st1 st2, tiny_quota = Some (Done, st1) /\
    create_extended documented_record documented_index documented_layout documented_format
      mkntfs_init_options tiny_vol tiny_sys [] Done tiny_fmt = Some (Some (Errno ENOMEM), st2).
Proof.
  pose proof tiny_quota_done as Hd. unfold is_done in Hd.
  destruct tiny_quota as [[e st1]|] eqn:E; [|discriminate Hd].
  destruct e; [|discriminate Hd..]. apply Z.leb_le in Hd.
  destruct (quota_failure_ignored documented_record documented_index documented_layout
              documented_format mkntfs_init_options tiny_vol tiny_sys [] tiny_fmt st1)
    as (st2 & E2 & _); [reflexivity | by apply Z.leb_le | exact Hd | exact E | reflexivity|].
  exists st1, st2. exact (conj eq_refl E2).
Defined.

(** ** Zeroes *)

(** Three clusters of four bytes and a device that ends after the second: the third
    cluster is bad. *)
Lemma cells_seek off (s : device (Z -> Z)) : 0 <= off -> fst (dev_seek off s) = true.
Proof.
  intros Ho. cbn [dev_seek cells nkdev_block]. unfold nkdev_seek.
  rewrite Z.add_0_l, (proj2 (Z.ltb_ge off 0)) by lia. cbn. by rewrite (proj2 (Z.eqb_neq off (-1))) by lia.
Qed.

Definition three_clusters : mkvol := mkVol 4 2 3 2 1 4 2.

Lemma fill_device_with_zeroes_correct_witness :
  exists bad s',
    mkntfs_fill_device_with_zeroes mkntfs_init_options three_clusters (fun _ => true) (fun _ => true)
      (repeat 0 4) blank_device = (Some (inr bad), s') /\ bad = [] /\
    d_medium s' 11 = 0 /\ d_medium s' 12 = 9.
Proof.
  destruct (fill_device_with_zeroes_correct mkntfs_init_options three_clusters (fun _ => true)
              (fun _ => true) 4 blank_device) as (r & s' & E & Hf & Hr);
    [reflexivity | cbn; lia | cbn; lia | reflexivity | cbn; lia | cbn; lia | exact cells_seek | reflexivity|].
  destruct r as [u|bad]; [exfalso; vm_compute in E; discriminate E|].
  assert (bad = []) as -> by (vm_compute in E; congruence).
  exists [], s'. split; [exact E|]. split; [done|]. split.
  - destruct Hr as [_ Hr]. apply (Hr 11); [cbn; lia|]. by intros ?%not_elem_of_nil.
  - apply (Hf 12). cbn. lia.
Defined.

(** ** The whole run *)

(** A device of 2049 sectors of 512 bytes, and the options [nk_format] passes, with
    and without -n. *)
Definition toy_partition : partition (device (Z -> Z)) :=
  mkPartition true (fun _ s => (true, s)) (Some (true, 0, 0)) (Some false).

Definition toy_options : mkntfs_options := nk_format_options (Some "Disk"%string).

(** Everything on this machine succeeds; the arrays are zero. *)
Abbreviation toy_run o :=
  (mkntfs_redirect documented_record documented_nonres documented_index documented_large documented_boot
     documented_layout documented_format (fun _ => true) (fun _ => true) tiny_sys (fun _ => true)
     (fun _ => false) (fun _ => true) (2 ^ 21) (disk512 2049) toy_partition 2%nat [65; 0; 66; 0] 2
     (replicate 16 1) 5 6 (Some o)
     globals0 [] (replicate 104 0) (replicate (Z.to_nat 0x102c) 0)
     blank_device).

Lemma mkntfs_redirect_mirrors_witness :
  match toy_run toy_options with
  | Some (0, s') =>
      exists o1 o' vol g' buf,
        (mkntfs_open_partition toy_partition toy_options blank_device).1 = Some o1 /\
        mkntfs_plan (fun _ => true) (2 ^ 21) (disk512 2049) 2 o1 globals0 = Some (Some (o', vol, g')) /\
        laid_out vol g' /\ Z.of_nat (length buf) = g_mft_size g' /\ 27 <= mft_records vol g' /\
        records_at vol s' (g_mft_lcn g' * cluster_size vol) (mft_records vol g') buf /\
        4 <= mirror_records vol g' /\
        forall a, 0 <= a < mirror_records vol g' * mft_record_size vol ->
          dcell s' (g_mftmirr_lcn g' * cluster_size vol + a) =
          dcell s' (g_mft_lcn g' * cluster_size vol + a)
  | _ => True
  end.
Proof.
  apply (mkntfs_redirect_mirrors documented_record documented_nonres documented_index documented_large documented_boot
           documented_layout documented_format (fun _ => true) (fun _ => true) tiny_sys (fun _ => true)
           (fun _ => false) (fun _ => true) (2 ^ 21) (disk512 2049) toy_partition 2%nat [65; 0; 66; 0] 2
           (replicate 16 1) 5 6 toy_options
           globals0 [] (replicate 104 0) (replicate (Z.to_nat 0x102c) 0)
           blank_device);
    [done | done | done | exact fresh_globals0 | lia | reflexivity | exact toy_resize_sized].
Defined.

Lemma mkntfs_redirect_dry_witness :
  match toy_run (set_no_action true toy_options) with
  | Some (_, s') => forall a, dcell s' a = dcell blank_device a
  | None => True
  end.
Proof.
  apply (mkntfs_redirect_dry documented_record documented_nonres documented_index documented_large documented_boot
           documented_layout documented_format (fun _ => true) (fun _ => true) tiny_sys (fun _ => true)
           (fun _ => false) (fun _ => true) (2 ^ 21) (disk512 2049) toy_partition 2%nat [65; 0; 66; 0] 2
           (replicate 16 1) 5 6 (set_no_action true toy_options)
           globals0 [] (replicate 104 0) (replicate (Z.to_nat 0x102c) 0)
           blank_device);
    [reflexivity | by intros s ok s' [= _ <-] | exact toy_resize_sized].
Defined.
