(* ===== verification/FormatBitmap.v ===== *)
(** * The bitmap of the clusters on the device

    [sync_bitmap], which writes the data of $Bitmap again when everything is
    allocated: what it leaves on the device, and a sample. *)

From S2P Require Import Prelude ClusterAlloc Scatter Runlist Device MkWrite Options Layout Bytes Sd AttrDef Mft MftFacts MftTheorems MftNonRes Index IndexTheorems IndexLarge Boot Sized Format FormatFacts FormatTheorems ToyFormat.

(** Every byte of the data lies in a run. *)
Lemma run_holding csize p rl : forall v,
  0 < csize -> contiguous v rl -> v * csize <= p < runs_end v rl * csize ->
  exists x, x ∈ rl /\ rl_vcn x * csize <= p < (rl_vcn x + rl_length x) * csize.
Proof.
  induction rl as [|r rl IH]; intros v Hc Hv Hp; cbn [runs_end] in Hp; [nia|].
  destruct Hv as [Hv Hl]. destruct (Z.lt_ge_cases p ((v + rl_length r) * csize)) as [Hlt|Hge].
  - exists r. split; [left|]. rewrite Hv. lia.
  - destruct (IH (v + rl_length r) Hc Hl ltac:(lia)) as (x & Hx & Hin). exists x. split; [by right | done].
Qed.

Section SyncBitmap.
Context (RH : record_h) `{RecordLib} `{MappingLib} `{CLib} `{LargeLib} {S : Type} `{FormatLaws S}.
Context (o : mkntfs_options) (vol : mkvol) (g : globals) (sys : nat -> answers).
Abbreviation cs := (cluster_size vol).
Abbreviation size := (g_lcn_bitmap_byte_size g).
Abbreviation dev st := (fs_dev (f_fs st)).

(** The runlist of $Bitmap, as [sync_bitmap] finds it in record 6. *)
Definition bitmap_runs : P (option (list rle)) :=
  runlist_of RH vol 6 (AT_DATA RH) AT_UNNAMED
    (fun a => v ← load8 (a + a_non_resident RH); mret (negb (v =? 0))).

(** [C37] The bitmap on the device is the bitmap of the allocator.  When the record of
    $Bitmap leads to a runlist without holes that holds the data, [sync_bitmap] ends;
    it changes neither the records nor the allocations, and no byte of the device
    outside those runs; and when it answers TRUE the device has, at the place the
    runlist gives for the byte of any cluster, that cluster's bit set if and only if
    the cluster is allocated, the bits behind the end of the volume included. *)
Theorem sync_bitmap_correct k (st st1 : fmt) rl :
  no_action o = false -> 0 < cs -> 0 <= size -> (0 < length (fs_dyn (f_fs st1)))%nat ->
  bitmap_runs st = Some (Some rl, st1) ->
  rl_wf cs 0 size (live_runs rl) -> size <= runs_end 0 (live_runs rl) * cs ->
  (forall x, x ∈ live_runs rl -> 0 <= rl_lcn x) ->
  exists ok st', sync_bitmap RH o vol g sys k st = Some (ok, st') /\
    f_buf st' = f_buf st1 /\ fs_alloc (f_fs st') = fs_alloc (f_fs st1) /\
    (forall a, (forall x, x ∈ live_runs rl -> ~ run_addr cs x a) -> dcell (dev st') a = dcell (dev st1) a) /\
    (ok = true -> forall c, 0 <= c < 8 * size -> exists x, x ∈ live_runs rl /\ in_real_run cs x (c / 8) /\
       Z.testbit (dcell (dev st') (addr_of cs x (c / 8))) (c mod 8) =
         bool_decide (allocated (g_allocation (fs_alloc (f_fs st1))) c)).
Proof.
  intros Hact Hcs Hsz Hdyn Erl Hwf Hcov Hreal.
  destruct (rlwrite_spec false cs (g_allocation (fs_alloc (f_fs st1))) (ans_padding (sys k)) WRITE_BITMAP
              [] size (fs_dyn (f_fs st1)) (dev st1) rl) as (lw & s' & E & _ & Hframe & Hdata); try done.
  unfold sync_bitmap. unfold mbind at 1, P_bind at 1. unfold bitmap_runs in Erl. rewrite Erl.
  unfold mbind, P_bind, on_device, write_rl. rewrite Hact, E. do 2 eexists. split; [reflexivity|].
  split; [done|]. split; [done|]. split; [exact Hframe|].
  intros Hok%Z.eqb_eq c Hc.
  assert (0 <= c / 8 < size) as Hp by (Z.to_euclidean_division_equations; lia).
  destruct (run_holding cs (c / 8) (live_runs rl) 0 Hcs (rf_contiguous _ _ _ _ Hwf) ltac:(lia))
    as (x & Hx & Hin).
  assert (in_real_run cs x (c / 8)) as Hr by (split; [by apply Hreal | done]).
  exists x. split; [done|]. split; [done|].
  destruct (Hdata ltac:(lia) ltac:(lia) x (c / 8) Hx Hr) as [Hd _].
  specialize (Hd (proj2 Hp) (c mod 8) ltac:(apply Z.mod_pos_bound; lia)). rewrite <- Z.div_mod in Hd by lia.
  exact Hd.
Qed.
End SyncBitmap.

(** ** A sample

    Two-byte clusters, 24 of them and a few behind the end; $Bitmap has clusters 6
    and 3. *)

#[local] Existing Instance plain_lib.
#[local] Existing Instance plain_clib.
#[local] Instance bitmap_cells : BlockDev (device (Z -> Z)) := nkdev_block (cell_io 3).
#[local] Instance bitmap_cells_laws : BlockDevLaws (device (Z -> Z)) :=
  nkdev_block_laws _ _ (cell_io_laws 3 ltac:(lia)).

Definition bitmap_vol : mkvol := mkVol 2 1 24 256 8 4096 12.

Definition bitmap_globals : globals :=
  mkGlobals 4 0 2048 8 0 0 0 0 0 [] [] [] [] [] [] (mkAstate [] 0).

(** A record with one non-resident attribute. *)
Definition bitmap_record : buffer :=
  le_bytes 4 0x454c4946 ++ replicate 16 0 ++ le_bytes 2 0x38 ++ le_bytes 2 1 ++ le_bytes 4 168 ++
  le_bytes 4 256 ++ replicate 24 0 ++
  le_bytes 4 0x80 ++ le_bytes 4 104 ++ [1; 0] ++ le_bytes 2 64 ++ replicate 20 0 ++ le_bytes 2 64 ++
  replicate 30 0 ++ encode_runs [mkRle 0 6 1; mkRle 1 3 1] ++ replicate 20 0 ++
  le_bytes 4 0xffffffff ++ replicate 4 0.

Definition bitmap_fmt : fmt (S := device (Z -> Z)) :=
  mkFmt (replicate (6 * 256) 0 ++ bitmap_record ++ replicate (256 - length bitmap_record) 0) [] [] [] []
    (mkF (mkAstate [mkRun 3 4; mkRun 6 7; mkRun 10 21; mkRun 24 32] 0) 0 [0; 0; 0]
       (mkDev false true false 0 (fun _ => 9))).

Abbreviation bitmap_synced :=
  (sync_bitmap documented_record mkntfs_init_options bitmap_vol bitmap_globals
     (fun _ => mkAnswers (fun _ => 77) (fun _ => true) (fun _ => 0) true None None) 0%nat bitmap_fmt).

Definition bitmap_rl : list rle := [mkRle 0 6 1; mkRle 1 3 1; mkRle 2 (-1) 0].

Lemma bitmap_rl_wf : rl_wf 2 0 4 (live_runs bitmap_rl).
Proof.
  constructor; cbn.
  - repeat constructor; cbn; lia.
  - lia.
  - split; [|split; [|done]]; [|by intros r' a ?%not_elem_of_nil].
    intros r' a Hin. apply list_elem_of_singleton in Hin as ->. unfold run_addr. cbn. lia.
  - repeat split; intros; cbn in *; first [lia | congruence].
Qed.

(** What the sample finds in its record, and that it succeeds. *)
Definition found_runs (r : option (option (list rle) * fmt (S := device (Z -> Z)))) : bool :=
  match r with
  | Some (Some rl, st) =>
      bool_decide (rl_lcn <$> rl = [6; 3; -1]) && bool_decide (rl_vcn <$> rl = [0; 1; 2]) &&
      bool_decide (rl_length <$> rl = [1; 1; 0]) && (length (fs_dyn (f_fs st)) =? 3)%nat &&
      bool_decide (allocated (g_allocation (fs_alloc (f_fs st))) 29)
  | _ => false
  end.

Lemma bitmap_runs_found : found_runs (bitmap_runs documented_record bitmap_vol bitmap_fmt) = true.
Proof. vm_compute. reflexivity. Qed.

Lemma bitmap_synced_true : match bitmap_synced with Some (ok, _) => ok | None => false end = true.
Proof. vm_compute. reflexivity. Qed.

Lemma runs_of_columns (rl : list rle) :
  rl_lcn <$> rl = [6; 3; -1] -> rl_vcn <$> rl = [0; 1; 2] -> rl_length <$> rl = [1; 1; 0] -> rl = bitmap_rl.
Proof.
  destruct rl as [|[] [|[] [|[] [|? ?]]]]; try discriminate. intros [= -> -> ->] [= -> -> ->] [= -> -> ->].
  reflexivity.
Qed.

Lemma sync_bitmap_correct_witness :
  exists st' x, bitmap_synced = Some (true, st') /\ x ∈ live_runs bitmap_rl /\ in_real_run 2 x 3 /\
    Z.testbit (dcell (fs_dev (f_fs st')) (addr_of 2 x 3)) 5 = true.
Proof.
  pose proof bitmap_runs_found as Hf. unfold found_runs in Hf.
  destruct (bitmap_runs documented_record bitmap_vol bitmap_fmt) as [[[rl|] st1]|] eqn:E; try discriminate Hf.
  apply andb_prop in Hf as [Hf Hal%bool_decide_eq_true_1]. apply andb_prop in Hf as [Hf Hd%Nat.eqb_eq].
  apply andb_prop in Hf as [Hf Hlen%bool_decide_eq_true_1].
  apply andb_prop in Hf as [Hlcn%bool_decide_eq_true_1 Hvcn%bool_decide_eq_true_1].
  rewrite (runs_of_columns rl Hlcn Hvcn Hlen) in E.
  destruct (sync_bitmap_correct documented_record mkntfs_init_options bitmap_vol bitmap_globals
              (fun _ => mkAnswers (fun _ => 77) (fun _ => true) (fun _ => 0) true None None) 0 bitmap_fmt st1
              bitmap_rl eq_refl ltac:(cbn; lia) ltac:(cbn; lia) ltac:(lia) E bitmap_rl_wf ltac:(cbn; lia))
    as (ok & st' & Es & _ & _ & _ & Hbits).
  { intros x. cbn. rewrite elem_of_cons, list_elem_of_singleton. intros [-> | ->]; cbn; lia. }
  pose proof bitmap_synced_true as Ht. rewrite Es in Ht. subst ok.
  destruct (Hbits eq_refl 29 ltac:(cbn; lia)) as (x & Hx & Hr & Hb).
  exists st', x. split; [exact Es|]. split; [exact Hx|]. split; [exact Hr|].
  rewrite bool_decide_eq_true_2 in Hb by exact Hal. exact Hb.
Defined.
