(* ===== verification/FormatRecords.v ===== *)
(** * The records before the files are made

    What [layout_records] leaves in [g_buf]: well-formed records, the system files
    among them numbered, in use and with their standard information, and the bits of
    the MFT bitmap. *)

From S2P Require Import Prelude ClusterAlloc Scatter Runlist Device MkWrite Options Layout Bytes Sd AttrDef Mft MftFacts MftNonRes Index IndexSecure IndexLarge Boot Sized Format FormatFacts.

(** Bit [i] of a bitmap. *)
Definition bit_at (b : buffer) (i : Z) : bool := Z.testbit (default 0 (b !! Z.to_nat (i / 8))) (i mod 8).

(** An empty record with sequence number [seq], flags [flags] and the attributes
    [attrs]; the number only of a record in use. *)
Definition record_ready (seq flags : Z) (number : option Z) (attrs : list buffer) (r : buffer) : Prop :=
  exists hdr fin slack,
    r = rec_bytes hdr attrs fin slack /\ rec_ok hdr attrs fin slack /\
    (length hdr <= 0x200)%nat /\ field 2 0x10 hdr = seq /\ field 2 0x16 hdr = flags /\
    (forall n, number = Some n -> field 4 0x2c hdr = n).

(** What the run relies on: [ntfs_mft_record_layout] makes an empty record of at most
    512 bytes of header with no flags, or fails and leaves the buffer as it is;
    [ntfs_bit_set] sets one bit. *)
Class RecordLayoutLaws (S : Type) `{FormatLib S} := {
  record_layout_law : forall b r, Z.of_nat (length b) < 2 ^ 31 -> mft_record_layout b = Some r ->
    length r = length b /\ exists seq, record_ready seq 0 None [] r;
  bit_set_law : forall b i, 0 <= i < 8 * Z.of_nat (length b) ->
    length (bit_set b i) = length b /\
    forall j, 0 <= j -> bit_at (bit_set b i) j = (j =? i) || bit_at b j
}.

(** A field of the header away from the sizes is stored. *)
Lemma put_hdr_ok n k v hdr attrs fin slack :
  rec_ok hdr attrs fin slack -> (k + n <= length hdr)%nat ->
  (k + n <= 0x14 \/ 0x16 <= k /\ k + n <= 0x18 \/ 0x20 <= k)%nat ->
  rec_ok (put k (le_bytes n v) hdr) attrs fin slack.
Proof.
  intros [Hb Hh Ho Hbiu Hal Hsm Ha Hf Hs] Hk Hd.
  destruct (put_stored n k v hdr Hk) as (L & B & _ & O).
  constructor; rewrite ?L; try rewrite O by lia; auto.
Qed.

(** ** The standard information *)

Lemma std_info_run `{RecordLaws} hdr fin slack now flags sid junk uname :
  rec_ok hdr [] fin slack -> (96 <= length slack)%nat ->
  length junk = 72%nat -> byte_list junk -> 0 <= flags < 2 ^ 32 -> 0 <= sid < 2 ^ 32 ->
  str2ucs None = inr (uname, 0) ->
  exists err hdr' attrs slack',
    add_attr_std_info documented_record now flags sid junk (rec_bytes hdr [] fin slack) =
      Some (err, rec_bytes hdr' attrs fin slack') /\
    rec_ok hdr' attrs fin slack' /\ length hdr' = length hdr /\
    length (rec_bytes hdr' attrs fin slack') = length (rec_bytes hdr [] fin slack) /\
    (forall n k, (k + n <= 0x18 \/ 0x2a <= k)%nat -> field n k hdr' = field n k hdr) /\
    match err with
    | Some e => e = ENOMEM /\ attrs = [] /\ hdr' = hdr /\ slack' = slack /\
        get_search_ctx (rec_bytes hdr [] fin slack) = None
    | None => exists a, attrs = [a] /\ attr_type a = 0x10 /\
        length (value_of a) = (if sid =? 0 then 48%nat else 72%nat) /\
        field 4 32 (value_of a) = flags /\ (sid <> 0 -> field 4 52 (value_of a) = sid)
    end.
Proof.
  intros Hok Hsl Hj Hjb Hf Hid Hn. unfold add_attr_std_info.
  assert (exists si, (store64 (si_creation_time R) now;; store64 (si_last_data_change_time R) now;;
    store64 (si_last_mft_change_time R) now;; store64 (si_last_access_time R) now;;
    store32 (si_file_attributes R) flags;; store32 (si_maximum_versions R) 0;;
    store32 (si_version_number R) 0;; store32 (si_class_id R) 0;;
    store32 (si_security_id R) sid;; store32 (si_owner_id R) 0;;
    store64 (si_quota_charged R) 0;; store64 (si_usn R) 0) junk = Some (tt, si) /\
    length si = 72%nat /\ byte_list si /\ field 4 32 si = flags /\ field 4 52 si = sid)
    as (si & Es & Ls & Bs & Fs & Is).
  { rewrite <- (app_nil_r junk). remember (@nil Z) as rest eqn:Er.
    front_store (si_creation_time R) 0%nat 8%nat. front_store (si_last_data_change_time R) 8%nat 8%nat.
    front_store (si_last_mft_change_time R) 16%nat 8%nat. front_store (si_last_access_time R) 24%nat 8%nat.
    front_store (si_file_attributes R) 32%nat 4%nat. front_store (si_maximum_versions R) 36%nat 4%nat.
    front_store (si_version_number R) 40%nat 4%nat. front_store (si_class_id R) 44%nat 4%nat.
    front_store (si_security_id R) 52%nat 4%nat. front_store (si_owner_id R) 48%nat 4%nat.
    front_store (si_quota_charged R) 56%nat 8%nat.
    change (si_usn R) with (Z.of_nat 64).
    destruct (store_le_front 8 64 0 h9 rest ltac:(lia)) as (si & -> & Su). subst rest.
    exists si. rewrite app_nil_r. pose proof (stored_length _ _ _ _ _ Su). split; [done|]. split; [lia|].
    split; [repeat (eapply stored_bytes; [eassumption|]); done|]. split; stored_field. }
  rewrite (bind_run _ _ _ _ _ (in_struct_run _ _ _ _ Es)).
  set (sd := if sid =? 0 then 48 else 72). set (v := take (Z.to_nat sd) si).
  assert (sd = 48 \/ sd = 72) as Hsd by (unfold sd; case_match; auto).
  assert (length v = Z.to_nat sd) as Lv by (unfold v; rewrite length_take; lia).
  assert (name_matches uname 0) as Hnm by (by apply (str2ucs_law None uname 0)).
  assert (val_matches (Some v) sd) as Hval by (split; [lia | by apply Forall_take]).
  pose proof (insert_resident_run hdr fin slack [] 0x10 uname 0 0 0 (Some v) sd Hok Hnm Hval ltac:(lia)
                None Hn) as E. change (AT_STANDARD_INFORMATION R) with 0x10. rewrite E.
  cbn [find_in fst snd].
  assert (resident_size 0 sd <= Z.of_nat (length slack)) as Hroom
    by (destruct Hsd as [-> | ->]; change (resident_size 0 _) with 72 || change (resident_size 0 _) with 96; lia).
  destruct (get_search_ctx _) eqn:Ec.
  2:{ exists (Some ENOMEM), hdr, [], slack. split_and!; done. }
  rewrite (proj2 (Z.ltb_ge _ _)) by lia. cbn [fst].
  assert (resident_size 0 sd < 2 ^ 31) as Hrs by (destruct Hsd as [-> | ->]; done).
  pose proof (new_attr_fields hdr fin slack [] 0x10 uname 0 0 0 (Some v) sd Hok ltac:(lia) Hnm Hval
                ltac:(lia) 0%nat Hroom ltac:(lia)) as (Ht & Hv & _).
  pose proof (inserted_ok hdr fin slack [] 0x10 uname 0 0 0 (Some v) sd Hok ltac:(lia) Hnm Hval
                ltac:(lia) 0%nat Hroom) as Hok'.
  pose proof (length_inserted_rec hdr fin slack [] 0x10 uname 0 0 0 (Some v) sd Hok Hnm Hval
                ltac:(lia) 0%nat Hroom) as Hlen.
  pose proof (ok_hdr _ _ _ _ Hok) as Hh.
  exists None. do 3 eexists. split; [reflexivity|]. split; [exact Hok'|].
  split; [by apply length_inserted|]. split; [exact Hlen|].
  split; [intros n k Hk; apply inserted_field; lia|].
  eexists. split; [reflexivity|]. split; [exact Ht|]. rewrite Hv. cbn [default from_option id]. split.
  { rewrite Lv. unfold sd. destruct (sid =? 0); reflexivity. }
  assert (forall k, (k + 4 <= Z.to_nat sd)%nat -> field 4 k v = field 4 k si) as Hfv.
  { intros k Hk. unfold v. rewrite <- (take_drop (Z.to_nat sd) si) at 2.
    rewrite field_hdr; [done|]. rewrite length_take. lia. }
  split; [rewrite Hfv by lia; done|]. intros Hne. rewrite Hfv; [done|].
  unfold sd. rewrite (proj2 (Z.eqb_neq _ _)) by done. lia.
Qed.

(** ** One record at a time *)

Section Records.
Context `{RecordLaws} {S : Type} `{RecordLayoutLaws S}.
Context (o : mkntfs_options) (vol : mkvol) (g : globals) (sys : nat -> answers).
Abbreviation rs := (mft_record_size vol).
Abbreviation fmt := (fmt (S := S)).
Abbreviation F := documented_format.
Abbreviation N := documented_nonres.
Context (Hrs : 1024 <= rs < 2 ^ 31).

(** Record [i] in [g_buf]. *)
Abbreviation at_ i st := (record_of vol i (f_buf st)).

(** Only records from [lo] to below [hi] may differ. *)
Definition only (lo hi : Z) (st st' : fmt) : Prop :=
  length (f_buf st') = length (f_buf st) /\
  forall j, 0 <= j -> ~ (lo <= j < hi) -> at_ j st' = at_ j st.

Lemma only_refl lo hi st : only lo hi st st.
Proof. done. Qed.

Lemma only_trans lo hi st1 st2 st3 : only lo hi st1 st2 -> only lo hi st2 st3 -> only lo hi st1 st3.
Proof. intros [L1 O1] [L2 O2]. split; [congruence|]. intros j Hj Ho. by rewrite O2, O1. Qed.

Lemma only_wider lo hi lo' hi' st st' : only lo hi st st' -> lo' <= lo -> hi <= hi' -> only lo' hi' st st'.
Proof. intros [L O] ? ?. split; [done|]. intros j Hj Ho. apply O; lia. Qed.

(** Work on record [i], then on the records after it. *)
Lemma only_step i n st1 st2 st3 :
  only i (i + 1) st1 st2 -> only (i + 1) (i + 1 + Z.of_nat n) st2 st3 ->
  only i (i + Z.of_nat (Datatypes.S n)) st1 st3.
Proof.
  intros O1 O2. eapply only_trans.
  - eapply only_wider; [exact O1 | lia | lia].
  - eapply only_wider; [exact O2 | lia | lia].
Qed.

(** A computation on record [i] that leaves it at its size. *)
Lemma rec_run {A} i (m : M A) x r (st : fmt) :
  0 <= i -> (i + 1) * rs <= Z.of_nat (length (f_buf st)) ->
  m (at_ i st) = Some (x, r) -> length r = length (at_ i st) ->
  exists st', Format.rec vol i m st = Some (x, st') /\ only i (i + 1) st st' /\ at_ i st' = r /\
    f_bmp st' = f_bmp st.
Proof.
  intros Hi Hb E L. assert (Z.to_nat (i * rs) + Z.to_nat rs <= length (f_buf st))%nat as Hb' by nia.
  rewrite length_record in L by done.
  unfold Format.rec, on_rec. rewrite (proj2 (Nat.leb_le _ _)) by lia.
  unfold on_record, mbind, M_bind. rewrite E. eexists. split; [reflexivity|].
  cbn [f_buf f_bmp set_buf]. split; [split; [by apply length_with_record|]|].
  - intros j Hj Ho. apply record_other; (done || lia).
  - split; [by apply record_same | done].
Qed.

(** A field of the header of record [i]. *)
Lemma header_run {A} i (m : M A) x n k v hdr attrs fin slack (st : fmt) :
  0 <= i -> (i + 1) * rs <= Z.of_nat (length (f_buf st)) ->
  at_ i st = rec_bytes hdr attrs fin slack -> rec_ok hdr attrs fin slack ->
  (k + n <= 0x14 \/ 0x16 <= k /\ k + n <= 0x18 \/ 0x20 <= k /\ k + n <= 0x30)%nat ->
  m (hdr ++ concat attrs ++ fin ++ slack) =
    Some (x, put k (le_bytes n v) hdr ++ concat attrs ++ fin ++ slack) ->
  exists st', Format.rec vol i m st = Some (x, st') /\ only i (i + 1) st st' /\
    at_ i st' = rec_bytes (put k (le_bytes n v) hdr) attrs fin slack /\
    rec_ok (put k (le_bytes n v) hdr) attrs fin slack /\ f_bmp st' = f_bmp st.
Proof.
  intros Hi Hb Er Hok Hk Em. pose proof (ok_hdr _ _ _ _ Hok) as Hh.
  destruct (put_stored n k v hdr ltac:(lia)) as (L & _).
  destruct (rec_run i m x (rec_bytes (put k (le_bytes n v) hdr) attrs fin slack) st Hi Hb)
    as (st' & E & Ho & Ea & Hm).
  { rewrite Er. exact Em. }
  { rewrite Er. unfold rec_bytes. by rewrite !length_app, L. }
  exists st'. split_and!; try done. apply put_hdr_ok; (done || lia).
Qed.

(** What a store into the header does to [record_ready]. *)
Lemma store_seq_run i v fl num attrs seq (st : fmt) :
  0 <= i -> (i + 1) * rs <= Z.of_nat (length (f_buf st)) -> 0 <= v < 2 ^ 16 ->
  record_ready seq fl num attrs (at_ i st) ->
  exists st', Format.rec vol i (store16 (m_sequence_number F) v) st = Some (tt, st') /\
    only i (i + 1) st st' /\ f_bmp st' = f_bmp st /\ record_ready v fl num attrs (at_ i st').
Proof.
  intros Hi Hb Hv (hdr & fin & slack & Er & Hok & Hl & Hs & Hf & Hn).
  pose proof (ok_hdr _ _ _ _ Hok) as Hh. destruct (put_stored 2 0x10 v hdr ltac:(lia)) as (L & _ & P & O).
  destruct (header_run i (store16 (m_sequence_number F) v) tt 2 0x10 v _ _ _ _ st Hi Hb Er Hok
              ltac:(lia) (hdr_store hdr _ 0x10 2 v ltac:(lia))) as (st' & E & Ho & Ea & Hok' & Hm).
  exists st'. split_and!; try done. do 3 eexists. split; [exact Ea|]. split; [done|]. split; [lia|].
  split; [by apply P|]. split; [rewrite O by lia; done|]. intros n ->. rewrite O by lia. by apply Hn.
Qed.

Lemma flags_run {A} i (m : M A) x v fl num attrs seq (st : fmt) :
  0 <= i -> (i + 1) * rs <= Z.of_nat (length (f_buf st)) -> 0 <= v < 2 ^ 16 ->
  record_ready seq fl num attrs (at_ i st) ->
  (forall hdr post, (0x30 <= length hdr)%nat -> field 2 0x16 hdr = fl ->
    m (hdr ++ post) = Some (x, put 0x16 (le_bytes 2 v) hdr ++ post)) ->
  exists st', Format.rec vol i m st = Some (x, st') /\
    only i (i + 1) st st' /\ f_bmp st' = f_bmp st /\ record_ready seq v num attrs (at_ i st').
Proof.
  intros Hi Hb Hv (hdr & fin & slack & Er & Hok & Hl & Hs & Hf & Hn) Hm.
  pose proof (ok_hdr _ _ _ _ Hok) as Hh. destruct (put_stored 2 0x16 v hdr ltac:(lia)) as (L & _ & P & O).
  destruct (header_run i m x 2 0x16 v _ _ _ _ st Hi Hb Er Hok ltac:(lia) (Hm _ _ Hh Hf))
    as (st' & E & Ho & Ea & Hok' & Hb').
  exists st'. split_and!; try done. do 3 eexists. split; [exact Ea|]. split; [done|]. split; [lia|].
  split; [rewrite O by lia; done|]. split; [by apply P|]. intros n ->. rewrite O by lia. by apply Hn.
Qed.

Lemma number_run i fl num attrs seq (st : fmt) :
  0 <= i < 2 ^ 32 -> (i + 1) * rs <= Z.of_nat (length (f_buf st)) ->
  record_ready seq fl num attrs (at_ i st) ->
  exists st', Format.rec vol i (store32 (m_mft_record_number N) i) st = Some (tt, st') /\
    only i (i + 1) st st' /\ f_bmp st' = f_bmp st /\ record_ready seq fl (Some i) attrs (at_ i st').
Proof.
  intros Hi Hb (hdr & fin & slack & Er & Hok & Hl & Hs & Hf & Hn).
  pose proof (ok_hdr _ _ _ _ Hok) as Hh. destruct (put_stored 4 0x2c i hdr ltac:(lia)) as (L & _ & P & O).
  destruct (header_run i (store32 (m_mft_record_number N) i) tt 4 0x2c i _ _ _ _ st ltac:(lia) Hb Er Hok
              ltac:(lia) (hdr_store hdr _ 0x2c 4 i ltac:(lia))) as (st' & E & Ho & Ea & Hok' & Hb').
  exists st'. split_and!; try done. do 3 eexists. split; [exact Ea|]. split; [done|]. split; [lia|].
  split; [rewrite O by lia; done|]. split; [rewrite O by lia; done|]. intros n [= <-]. by apply P.
Qed.

Lemma layout_record_run i (st : fmt) :
  0 <= i -> (i + 1) * rs <= Z.of_nat (length (f_buf st)) ->
  exists ok st', layout_record vol i st = Some (ok, st') /\ only i (i + 1) st st' /\
    f_bmp st' = f_bmp st /\
    ((forall b, length b = Z.to_nat rs -> mft_record_layout b <> None) -> ok = true) /\
    (ok = true -> exists seq, record_ready seq 0 None [] (at_ i st')).
Proof.
  intros Hi Hb. unfold layout_record.
  assert (length (at_ i st) = Z.to_nat rs) as Hlen by (apply length_record; nia).
  set (m := fun b : buffer => match mft_record_layout b with Some r => Some (true, r) | None => Some (false, b) end).
  destruct (mft_record_layout (at_ i st)) as [r|] eqn:El.
  - destruct (record_layout_law (at_ i st) r ltac:(rewrite Hlen; lia) El) as [L Hr].
    destruct (rec_run i m true r st Hi Hb ltac:(unfold m; by rewrite El) L) as (st' & E & Ho & Ea & Hm).
    exists true, st'. split_and!; try done. by rewrite Ea.
  - destruct (rec_run i m false (at_ i st) st Hi Hb ltac:(unfold m; by rewrite El) eq_refl)
      as (st' & E & Ho & Ea & Hm).
    exists false, st'. split_and!; try done. intros Hall. by destruct (Hall _ Hlen El).
Qed.

(** The two fields of a record after the system files. *)
Lemma rest_fields_run i fl num attrs seq (st : fmt) :
  0 <= i < 2 ^ 16 -> (i + 1) * rs <= Z.of_nat (length (f_buf st)) ->
  record_ready seq fl num attrs (at_ i st) ->
  exists st', Format.rec vol i (store16 (m_flags F) 0;; store16 (m_sequence_number F) i) st = Some (tt, st') /\
    only i (i + 1) st st' /\ f_bmp st' = f_bmp st /\ record_ready i 0 num attrs (at_ i st').
Proof.
  intros Hi Hb (hdr & fin & slack & Er & Hok & Hl & Hs & Hf & Hn).
  pose proof (ok_hdr _ _ _ _ Hok) as Hh.
  destruct (put_stored 2 0x16 0 hdr ltac:(lia)) as (L & _ & P & O).
  pose proof (put_hdr_ok 2 0x16 0 hdr attrs fin slack Hok ltac:(lia) ltac:(lia)) as Hok'.
  set (hdr' := put 0x16 (le_bytes 2 0) hdr) in *.
  destruct (put_stored 2 0x10 i hdr' ltac:(lia)) as (L' & _ & P' & O').
  destruct (rec_run i (store16 (m_flags F) 0;; store16 (m_sequence_number F) i) tt
              (rec_bytes (put 0x10 (le_bytes 2 i) hdr') attrs fin slack) st ltac:(lia) Hb)
    as (st' & E & Ho & Ea & Hm).
  { rewrite Er. unfold rec_bytes.
    rewrite (bind_run _ _ _ _ _ (hdr_store hdr _ 0x16 2 0 ltac:(lia))).
    apply (hdr_store hdr' _ 0x10 2). lia. }
  { rewrite Er. unfold rec_bytes. by rewrite !length_app, L', L. }
  exists st'. split_and!; try done. do 3 eexists. split; [exact Ea|].
  split; [apply put_hdr_ok; (done || lia)|]. split; [lia|]. split; [by apply P'|].
  split; [rewrite O' by lia; by apply P|]. intros n ->. rewrite O', O by lia. by apply Hn.
Qed.

(** [m->flags |= flag] *)
Lemma or_flags_ready i flag num attrs seq (st : fmt) :
  0 <= i -> (i + 1) * rs <= Z.of_nat (length (f_buf st)) -> 0 <= flag < 2 ^ 16 ->
  record_ready seq 0 num attrs (at_ i st) ->
  exists st', or_flags F vol i flag st = Some (tt, st') /\
    only i (i + 1) st st' /\ f_bmp st' = f_bmp st /\ record_ready seq flag num attrs (at_ i st').
Proof.
  intros Hi Hb Hf Hr. apply (flags_run i _ tt flag 0 _ _ _ st Hi Hb Hf Hr).
  intros hdr post Hh E. rewrite (bind_run _ _ _ _ _ (hdr_load hdr post 0x16 2 ltac:(lia))), E.
  apply (hdr_store hdr post 0x16 2). lia.
Qed.

(** ** The loops *)

(** The sequence number of system file [i]: its number, 1 for $MFT and for the
    files of $Extend. *)
Definition sysfile_seq (i : Z) : Z := if (i =? 0) || (23 <? i) then 1 else i.

Lemma layout_sysfiles_run n : forall i (st : fmt),
  0 <= i -> i + Z.of_nat n <= 2 ^ 16 -> (i + Z.of_nat n) * rs <= Z.of_nat (length (f_buf st)) ->
  exists ok st', layout_sysfiles F vol n i st = Some (ok, st') /\ only i (i + Z.of_nat n) st st' /\
    f_bmp st' = f_bmp st /\
    ((forall b, length b = Z.to_nat rs -> mft_record_layout b <> None) -> ok = true) /\
    (ok = true -> forall j, i <= j < i + Z.of_nat n ->
       record_ready (sysfile_seq j) 0 None [] (at_ j st')).
Proof.
  induction n as [|n IH]; intros i st Hi Hm Hb.
  { exists true, st. split_and!; try done. intros _ j ?. lia. }
  destruct (layout_record_run i st Hi ltac:(nia)) as (ok & st1 & E1 & O1 & B1 & A1 & R1).
  cbn [layout_sysfiles]. unfold mbind at 1, P_bind at 1. rewrite E1. destruct ok; cbn [negb].
  2:{ exists false, st1. split_and!; try done. eapply only_wider; [exact O1 | lia | lia]. }
  destruct (R1 eq_refl) as (seq & Hr). pose proof (proj1 O1) as L1.
  destruct (store_seq_run i (sysfile_seq i) 0 None [] seq st1 Hi ltac:(lia)) as (st2 & E2 & O2 & B2 & R2).
  { unfold sysfile_seq. case_match; lia. }
  { done. }
  unfold mbind at 1, P_bind at 1. fold (sysfile_seq i). rewrite E2. pose proof (proj1 O2) as L2.
  destruct (IH (i + 1) st2 ltac:(lia) ltac:(lia) ltac:(rewrite L2, L1; nia))
    as (ok & st' & E & O & B & Hall & Hrs').
  exists ok, st'. split; [exact E|]. split.
  { eapply only_step; [eapply only_trans|]; eassumption. }
  split; [congruence|]. split; [done|]. intros Hok j Hj.
  destruct (decide (j = i)) as [->|]; [|apply Hrs'; (done || lia)].
  rewrite (proj2 O) by lia. exact R2.
Qed.

Lemma layout_rest_run n : forall fuel i (st : fmt),
  g_mft_size g = (i + Z.of_nat n) * rs -> (n <= fuel)%nat ->
  0 <= i -> i + Z.of_nat n <= 2 ^ 16 -> (i + Z.of_nat n) * rs <= Z.of_nat (length (f_buf st)) ->
  exists ok st', layout_rest F vol g fuel i st = Some (ok, st') /\ only i (i + Z.of_nat n) st st' /\
    f_bmp st' = f_bmp st /\
    ((forall b, length b = Z.to_nat rs -> mft_record_layout b <> None) -> ok = true) /\
    (ok = true -> forall j, i <= j < i + Z.of_nat n -> record_ready j 0 None [] (at_ j st')).
Proof.
  induction n as [|n IH]; intros fuel i st Hg Hfuel Hi Hm Hb; destruct fuel as [|fuel]; try lia;
    cbn [layout_rest].
  1,2: rewrite (proj2 (Z.ltb_ge _ _)) by nia; exists true, st; split_and!; try done; intros _ j ?; lia.
  rewrite (proj2 (Z.ltb_lt _ _)) by nia.
  destruct (layout_record_run i st Hi ltac:(nia)) as (ok & st1 & E1 & O1 & B1 & A1 & R1).
  unfold mbind at 1, P_bind at 1. rewrite E1. destruct ok; cbn [negb].
  2:{ exists false, st1. split_and!; try done. eapply only_wider; [exact O1 | lia | lia]. }
  destruct (R1 eq_refl) as (seq & Hr). pose proof (proj1 O1) as L1.
  destruct (rest_fields_run i 0 None [] seq st1 ltac:(lia) ltac:(nia) Hr) as (st2 & E2 & O2 & B2 & R2).
  unfold mbind at 1, P_bind at 1. rewrite E2. pose proof (proj1 O2) as L2.
  destruct (IH fuel (i + 1) st2 ltac:(nia) ltac:(lia) ltac:(lia) ltac:(lia) ltac:(rewrite L2, L1; nia))
    as (ok & st' & E & O & B & Hall & Hrs').
  exists ok, st'. split; [exact E|]. split.
  { eapply only_step; [eapply only_trans|]; eassumption. }
  split; [congruence|]. split; [done|]. intros Hok j Hj.
  destruct (decide (j = i)) as [->|]; [|apply Hrs'; (done || lia)].
  rewrite (proj2 O) by lia. exact R2.
Qed.

(** System file [i] after the second loop: its number and flag when it is in use, and
    its standard information, unless there was no memory to search the record. *)
Definition sysfile_done (i : Z) (r : buffer) : Prop :=
  exists attrs,
    record_ready (sysfile_seq i) (if in_use i then 1 else 0) (if in_use i then Some i else None) attrs r /\
    let '(flags, security_id) := sysfile_attrs F o i in
    (attrs = [] /\ get_search_ctx r = None) \/
    exists a, attrs = [a] /\ attr_type a = 0x10 /\
      length (value_of a) = (if security_id =? 0 then 48%nat else 72%nat) /\
      field 4 32 (value_of a) = flags /\ (security_id <> 0 -> field 4 52 (value_of a) = security_id).

Lemma sysfile_attrs_bounds i :
  0 <= fst (sysfile_attrs F o i) < 2 ^ 32 /\ 0 <= snd (sysfile_attrs F o i) < 2 ^ 32.
Proof.
  unfold sysfile_attrs, base_attrs, hidden_system.
  destruct (i =? _), (disable_indexing o), (enable_compression o); repeat case_match; by vm_compute.
Qed.

Lemma mark_in_use_run i seq (st : fmt) :
  0 <= i < 2 ^ 32 -> (i + 1) * rs <= Z.of_nat (length (f_buf st)) ->
  record_ready seq 0 None [] (at_ i st) ->
  exists st', mark_in_use N F vol i st = Some (tt, st') /\ only i (i + 1) st st' /\
    f_bmp st' = bit_set (f_bmp st) i /\ record_ready seq 1 (Some i) [] (at_ i st').
Proof.
  intros Hi Hb Hr. destruct (number_run i _ _ _ _ st Hi Hb Hr) as (st1 & E1 & O1 & B1 & R1).
  destruct (or_flags_ready i 1 _ _ _ st1 ltac:(lia) ltac:(rewrite (proj1 O1); lia) ltac:(lia) R1)
    as (st2 & E2 & O2 & B2 & R2).
  unfold mark_in_use, mbind, P_bind. rewrite E1. change (MFT_RECORD_IN_USE F) with 1. rewrite E2.
  eexists. split; [reflexivity|]. rewrite <- B1, <- B2. split_and!; try done.
  exact (only_trans _ _ _ _ _ O1 O2).
Qed.

Lemma std_info_ready i fl num (st : fmt) uname flags sid k :
  0 <= i -> (i + 1) * rs <= Z.of_nat (length (f_buf st)) ->
  str2ucs None = inr (uname, 0) -> (forall k j, 0 <= ans_junk (sys k) j < 256) ->
  0 <= flags < 2 ^ 32 -> 0 <= sid < 2 ^ 32 ->
  record_ready (sysfile_seq i) fl num [] (at_ i st) ->
  exists x st' attrs,
    Format.rec vol i (add_attr_std_info documented_record (ans_now (sys k) 0) flags sid
                        (stack_mem (sys k) (sizeof_STANDARD_INFORMATION documented_record))) st =
      Some (x, st') /\ only i (i + 1) st st' /\ f_bmp st' = f_bmp st /\
    record_ready (sysfile_seq i) fl num attrs (at_ i st') /\
    ((attrs = [] /\ get_search_ctx (at_ i st') = None) \/
     exists a, attrs = [a] /\ attr_type a = 0x10 /\
       length (value_of a) = (if sid =? 0 then 48%nat else 72%nat) /\
       field 4 32 (value_of a) = flags /\ (sid <> 0 -> field 4 52 (value_of a) = sid)).
Proof.
  intros Hi Hb Hn Hjunk Hf Hid (hdr & fin & slack & Er & Hok & Hl & Hs & Hfl & Hnum).
  assert (length (at_ i st) = Z.to_nat rs) as Hlen by (apply length_record; nia).
  assert (96 <= length slack)%nat as Hsl.
  { rewrite Er in Hlen. unfold rec_bytes in Hlen. rewrite !length_app in Hlen. cbn [concat length] in Hlen.
    pose proof (proj1 (ok_fin _ _ _ _ Hok)). lia. }
  set (junk := stack_mem (sys k) _).
  assert (length junk = 72%nat) as Lj by (unfold junk, stack_mem; by rewrite length_fmap, length_seq).
  assert (byte_list junk) as Bj by (apply Forall_fmap, Forall_forall; intros j _; apply Hjunk).
  clearbody junk.
  destruct (std_info_run hdr fin slack (ans_now (sys k) 0) flags sid junk uname Hok Hsl Lj Bj Hf Hid Hn)
    as (err & hdr' & attrs & slack' & E & Hok' & Lh & L & O & Hres).
  pose proof (ok_hdr _ _ _ _ Hok) as Hh.
  destruct (rec_run i _ err _ st Hi Hb ltac:(rewrite Er; exact E) ltac:(rewrite Er; exact L))
    as (st' & Es & Ho & Ea & Hm).
  exists err, st', attrs. split_and!; try done.
  - do 3 eexists. split; [exact Ea|]. split; [exact Hok'|]. split; [lia|].
    rewrite !O by lia. done.
  - destruct err; [left | right; exact Hres]. destruct Hres as (_ & -> & -> & -> & Hc). by rewrite Ea.
Qed.

Lemma mark_sysfiles_run uname n : forall i (st : fmt),
  0 <= i -> i + Z.of_nat n <= 2 ^ 16 -> (i + Z.of_nat n) * rs <= Z.of_nat (length (f_buf st)) ->
  i + Z.of_nat n <= 8 * Z.of_nat (length (f_bmp st)) ->
  str2ucs None = inr (uname, 0) -> (forall k j, 0 <= ans_junk (sys k) j < 256) ->
  (forall j, i <= j < i + Z.of_nat n -> record_ready (sysfile_seq j) 0 None [] (at_ j st)) ->
  exists st', mark_sysfiles documented_record N F o vol sys n i st = Some (tt, st') /\
    only i (i + Z.of_nat n) st st' /\ length (f_bmp st') = length (f_bmp st) /\
    (forall j, 0 <= j -> bit_at (f_bmp st') j =
       bit_at (f_bmp st) j || ((i <=? j) && (j <? i + Z.of_nat n) && in_use j)) /\
    (forall j, i <= j < i + Z.of_nat n -> sysfile_done j (at_ j st')).
Proof.
  induction n as [|n IH]; intros i st Hi Hm Hb Hbm Hn Hjunk Hall.
  { exists st. split_and!; try done; intros j ?; [|lia].
    destruct (Z.leb_spec i j), (Z.ltb_spec j (i + Z.of_nat 0)); try lia; by rewrite orb_false_r. }
  cbn [mark_sysfiles].
  assert (exists st1, (if in_use i then mark_in_use N F vol i else fun st => Some (tt, st)) st = Some (tt, st1) /\
    only i (i + 1) st st1 /\ length (f_bmp st1) = length (f_bmp st) /\
    (forall j, 0 <= j -> bit_at (f_bmp st1) j = bit_at (f_bmp st) j || ((j =? i) && in_use i)) /\
    record_ready (sysfile_seq i) (if in_use i then 1 else 0) (if in_use i then Some i else None) []
      (at_ i st1)) as (st1 & E1 & O1 & L1 & B1 & R1).
  { destruct (in_use i) eqn:Eu.
    - destruct (mark_in_use_run i _ st ltac:(lia) ltac:(lia) (Hall i ltac:(lia))) as (st1 & E1 & O1 & B1 & R1).
      destruct (bit_set_law (f_bmp st) i ltac:(lia)) as [Lb Bb]. rewrite <- B1 in Lb, Bb.
      exists st1. split_and!; try done. intros j Hj. rewrite Bb by done. by rewrite andb_true_r, orb_comm.
    - exists st. split_and!; try done; [|apply Hall; lia].
      intros j _. by rewrite andb_false_r, orb_false_r. }
  unfold mbind at 1, P_bind at 1. unfold mret at 1, P_ret at 1. rewrite E1.
  destruct (sysfile_attrs F o i) as [flags sid] eqn:Ea. destruct (sysfile_attrs_bounds i) as [Hf Hid].
  rewrite Ea in Hf, Hid. cbn [fst snd] in Hf, Hid.
  destruct (std_info_ready i _ _ st1 uname flags sid (100 + Z.to_nat i)%nat Hi ltac:(rewrite (proj1 O1); lia)
              Hn Hjunk Hf Hid R1) as (x & st2 & attrs & E2 & O2 & B2 & R2 & V2).
  unfold mbind at 1, P_bind at 1. rewrite E2.
  pose proof (only_trans _ _ _ _ _ O1 O2) as O12.
  destruct (IH (i + 1) st2) as (st' & E & O & L & B & R); try done;
    [lia | lia | rewrite (proj1 O12); lia | rewrite B2, L1; lia | |].
  { intros j Hj. rewrite (proj2 O12) by lia. apply Hall. lia. }
  exists st'. split; [exact E|]. split; [eapply only_step; eassumption|]. split; [congruence|]. split.
  - intros j Hj. rewrite B, B2, B1 by done. rewrite <- orb_assoc. f_equal.
    destruct (Z.eqb_spec j i) as [->|]; [|cbn [andb orb]];
      repeat match goal with
      | |- context [?x <=? ?y] => destruct (Z.leb_spec x y); try lia
      | |- context [?x <? ?y] => destruct (Z.ltb_spec x y); try lia
      end; by destruct (in_use _).
  - intros j Hj. destruct (decide (j = i)) as [->|]; [|apply R; lia].
    rewrite (proj2 O) by lia. exists attrs. rewrite Ea. done.
Qed.
End Records.
