(* ===== verification/FormatReady.v ===== *)
(** * The records and the bitmap of a new volume

    [layout_records] as a whole: what it leaves in [g_buf] and in the MFT bitmap
    before any file is made, and a sample. *)

From S2P Require Import Prelude ClusterAlloc Scatter Runlist Device MkWrite Options Layout Bytes Sd AttrDef Mft MftFacts MftTheorems MftNonRes Index IndexSecure IndexLarge Boot Sized Format FormatFacts ToyFormat FormatRecords.

Section Ready.
Context `{RecordLaws} {S : Type} `{RecordLayoutLaws S}.

(** The system files in use, by number. *)
Definition live (i : Z) : bool := (i <? 16) || ((24 <=? i) && (i <? 27)).

(** The attributes and the security id of system file [i]: hidden and system, the root
    also archive, with what the options add, $Secure with a view index, the files of
    $Extend with both. *)
Definition sysfile_std (o : mkntfs_options) (i : Z) : Z * Z :=
  match i with
  | 5 => (0x26 + (if disable_indexing o then 0x2000 else 0) + (if enable_compression o then 0x800 else 0), 0)
  | 0 | 1 | 2 | 6 | 8 | 10 => (6, 0x100)
  | 9 => (0x20000006, 0x101)
  | 11 => (6, 0x101)
  | 24 | 25 | 26 => (0x20000026, 0x101)
  | _ => (6, 0)
  end.

(** Record [i] of a system file before the file is made. *)
Definition sysfile_ready (o : mkntfs_options) (i : Z) (r : buffer) : Prop :=
  exists attrs,
    record_ready (if decide (i = 0 \/ 24 <= i) then 1 else i) (if live i then 1 else 0)
      (if live i then Some i else None) attrs r /\
    ((attrs = [] /\ get_search_ctx r = None) \/
     exists a, attrs = [a] /\ attr_type a = 0x10 /\
       length (value_of a) = (if (sysfile_std o i).2 =? 0 then 48%nat else 72%nat) /\
       field 4 32 (value_of a) = (sysfile_std o i).1 /\
       ((sysfile_std o i).2 <> 0 -> field 4 52 (value_of a) = (sysfile_std o i).2)).

(** One by one. *)
Lemma each_sysfile (Q : Z -> Prop) : Forall Q (seqZ 0 27) -> forall i, 0 <= i < 27 -> Q i.
Proof. intros HQ i Hi. rewrite Forall_forall in HQ. apply HQ. apply elem_of_seqZ. lia. Qed.

Lemma in_use_live i : 0 <= i -> in_use i && (i <? 27) = live i.
Proof.
  intros Hi. unfold in_use, live.
  destruct (Z.ltb_spec i 16), (Z.ltb_spec 23 i), (Z.leb_spec 24 i), (Z.ltb_spec i 27); cbn; lia.
Qed.

Lemma sysfile_attrs_std o i : 0 <= i < 27 -> sysfile_attrs documented_format o i = sysfile_std o i.
Proof.
  revert i. apply each_sysfile. unfold sysfile_attrs, base_attrs, sysfile_std.
  destruct (disable_indexing o), (enable_compression o);
    apply (bool_decide_unpack _); vm_compute; exact I.
Qed.

Lemma sysfile_done_ready o i r : 0 <= i < 27 -> sysfile_done o i r -> sysfile_ready o i r.
Proof.
  intros Hi (attrs & Hr & Hv). rewrite sysfile_attrs_std in Hv by done.
  pose proof (in_use_live i ltac:(lia)) as E. rewrite (proj2 (Z.ltb_lt i 27)), andb_true_r in E by lia.
  exists attrs. rewrite <- E. replace (if decide _ then 1 else i) with (sysfile_seq i).
  - split; [exact Hr|]. by destruct (sysfile_std o i).
  - unfold sysfile_seq. destruct (Z.eqb_spec i 0), (Z.ltb_spec 23 i); case_decide; cbn; lia.
Qed.

(** [C36] Before any file is made, [layout_records] has formatted all of [g_buf], and it
    fails only when [ntfs_mft_record_layout] does.  Each of the 27 records of the
    system files is then well-formed, has the sequence number of its file ($MFT and
    the files of $Extend: 1), and holds the standard information with the attributes
    and the security id of that file and nothing else (nothing at all, silently, when
    there was no memory to search the record); the records 0 to 15 and 24 to 26, and
    no others, are in use and carry their number, and the MFT bitmap has a bit more
    for exactly those; the other records are empty and free. *)
Theorem layout_records_correct (o : mkntfs_options) (vol : mkvol) (g : globals) (sys : nat -> answers)
    uname (n : nat) (st : fmt (S := S)) :
  1024 <= mft_record_size vol < 2 ^ 31 ->
  g_mft_size g = Z.of_nat n * mft_record_size vol -> (27 <= n)%nat -> Z.of_nat n <= 2 ^ 16 ->
  Z.of_nat (length (f_buf st)) = g_mft_size g ->
  27 <= 8 * Z.of_nat (length (f_bmp st)) ->
  str2ucs None = inr (uname, 0) -> (forall k j, 0 <= ans_junk (sys k) j < 256) ->
  exists ok st',
    layout_records documented_record documented_nonres documented_format o vol g sys st = Some (ok, st') /\
    ((forall b, length b = Z.to_nat (mft_record_size vol) -> mft_record_layout b <> None) -> ok = true) /\
    (ok = true ->
      length (f_buf st') = length (f_buf st) /\ length (f_bmp st') = length (f_bmp st) /\
      (forall i, 0 <= i < 27 -> sysfile_ready o i (record_of vol i (f_buf st'))) /\
      (forall i, 27 <= i < Z.of_nat n -> record_ready i 0 None [] (record_of vol i (f_buf st'))) /\
      forall j, 0 <= j -> bit_at (f_bmp st') j = bit_at (f_bmp st) j || live j).
Proof.
  intros Hrs Hg Hn Hn16 Hb Hbm Hu Hjunk. set (rs := mft_record_size vol) in *.
  destruct (layout_sysfiles_run vol Hrs 27 0 st) as (ok & st1 & E1 & [L1 O1] & B1 & A1 & R1);
    [lia | lia | fold rs; nia|].
  unfold layout_records, nr_sysfiles, mbind, P_bind. rewrite E1. destruct ok; cbn [negb].
  2:{ exists false, st1. done. }
  destruct (layout_rest_run vol g Hrs (n - 27) (Z.to_nat (g_mft_size g)) 27 st1)
    as (ok & st2 & E2 & [L2 O2] & B2 & A2 & R2); [fold rs; nia | nia | lia | lia | fold rs; nia|].
  change (Z.of_nat 27) with 27. rewrite E2. destruct ok; cbn [negb].
  2:{ exists false, st2. done. }
  destruct (mark_sysfiles_run o vol sys Hrs uname 27 0 st2)
    as (st3 & E3 & [L3 O3] & Lb & Bb & R3); [lia | lia | fold rs; nia | by rewrite B2, B1 | done | done | |].
  { intros j Hj. rewrite O2 by lia. by apply R1. }
  rewrite E3. exists true, st3. split; [done|]. split; [done|]. intros _.
  split; [congruence|]. split; [congruence|]. split; [intros i Hi; apply sysfile_done_ready, R3; lia|]. split.
  - intros i Hi. rewrite O3 by lia. apply R2; [done | lia].
  - intros j Hj. rewrite Bb, B2, B1 by done. f_equal.
    rewrite (proj2 (Z.leb_le 0 j)), <- in_use_live, andb_comm by done. done.
Qed.
End Ready.

(** ** A sample *)

Lemma field_at pre l post : field (length l) (length pre) (pre ++ l ++ post) = le_value l.
Proof. unfold field, sl. by rewrite drop_app_length, take_app_length. Qed.

#[local] Existing Instance plain_lib.
#[local] Existing Instance plain_laws.

(** The record of [empty_record] by its parts. *)
Lemma record_head_ready n : 64 <= n < 2 ^ 31 ->
  record_ready 0 0 None [] (record_head n ++ replicate (Z.to_nat (n - 64)) 0).
Proof.
  intros Hn. exists (take 56 (record_head n)), (drop 56 (record_head n)), (replicate (Z.to_nat (n - 64)) 0).
  split; [unfold rec_bytes; cbn [concat app]; by rewrite app_assoc, take_drop|].
  assert (field 4 0x1c (take 56 (record_head n)) = n) as Hal.
  { transitivity (le_value (le_bytes 4 n)); [|apply le_value_bytes; lia].
    exact (field_at (le_bytes 4 0x454c4946 ++ le_bytes 2 0x30 ++ le_bytes 2 (n / 512 + 1) ++
             replicate 12 0 ++ le_bytes 2 0x38 ++ le_bytes 2 0 ++ le_bytes 4 0x40)
             (le_bytes 4 n) (replicate 24 0)). }
  assert (byte_list (record_head n)) as Hbytes.
  { unfold record_head, byte_list. rewrite !Forall_app.
    repeat split; try apply byte_list_le; apply Forall_replicate; lia. }
  split; [|split; [rewrite length_take; lia | done]]. assert (length (take 56 (record_head n)) = 56%nat) as Lh by done.
  constructor; rewrite ?Lh, ?Hal, ?length_replicate; cbn [concat length]; try done; try lia.
  - by apply Forall_take.
  - split; [done|]. split; [done|]. by apply Forall_drop.
  - apply Forall_replicate. lia.
Qed.

#[local] Instance toy_record_layout {S : Type} `{BlockDev S} : RecordLayoutLaws S.
Proof.
  constructor.
  - intros b r Hb. cbn [mft_record_layout toy_format]. unfold empty_record.
    destruct (Nat.ltb_spec (length b) 64); [done|]. intros E.
    assert (r = record_head (Z.of_nat (length b)) ++ replicate (length b - 64) 0) as -> by congruence.
    split.
    + rewrite length_app, length_replicate. change (length (record_head _)) with 64%nat. lia.
    + exists 0. replace (length b - 64)%nat with (Z.to_nat (Z.of_nat (length b) - 64)) by lia.
      apply record_head_ready. lia.
  - intros b i Hi. cbn [bit_set toy_format]. split; [by rewrite length_alter|].
    intros j Hj. unfold bit_at. destruct (decide (j / 8 = i / 8)) as [E|Hne].
    + rewrite E. rewrite list_lookup_alter_eq. destruct (lookup_lt_is_Some_2 b (Z.to_nat (i / 8))) as [v Hv].
      { apply Nat2Z.inj_lt. rewrite Z2Nat.id; Z.to_euclidean_division_equations; lia. }
      rewrite Hv. cbn [fmap option_fmap option_map default from_option id].
      rewrite Z.lor_spec, Z.pow2_bits_eqb by (apply Z.mod_pos_bound; lia). rewrite orb_comm. f_equal.
      apply Bool.eq_iff_eq_true. rewrite !Z.eqb_eq. Z.to_euclidean_division_equations. lia.
    + rewrite list_lookup_alter_ne; [|intros E; apply Hne; apply Z2Nat.inj in E; [done|..]; apply Z.div_pos; lia].
      by rewrite (proj2 (Z.eqb_neq j i)) by congruence.
Qed.

#[local] Instance ready_cells : BlockDev (device (Z -> Z)) := nkdev_block (cell_io (2 ^ 20)).

(** Eight clusters of four records of 1024 bytes. *)
Definition ready_vol : mkvol := mkVol 4096 12 511 1024 10 4096 12.

Definition ready_globals : globals :=
  mkGlobals 0 0 32768 8 4 0 0 0 0 [] [] [] [] [] [] (mkAstate [] 0).

Definition ready_sys (k : nat) : answers :=
  mkAnswers (fun _ => 77) (fun _ => true) (fun _ => 0) true None None.

Definition ready_fmt : fmt (S := device (Z -> Z)) :=
  mkFmt (replicate (32 * 1024) 0) [] (replicate 8 0) [] []
    (mkF (mkAstate [] 0) 0 [] (mkDev false true false 0 (fun _ => 9))).

Lemma layout_records_correct_witness :
  exists st', layout_records documented_record documented_nonres documented_format mkntfs_init_options
      ready_vol ready_globals ready_sys ready_fmt = Some (true, st') /\
    sysfile_ready mkntfs_init_options 5 (record_of ready_vol 5 (f_buf st')) /\
    bit_at (f_bmp st') 24 = true /\ bit_at (f_bmp st') 16 = false.
Proof.
  destruct (layout_records_correct mkntfs_init_options ready_vol ready_globals ready_sys AT_UNNAMED 32
              ready_fmt) as (ok & st' & E & Hok & Hres);
    [cbn; lia | reflexivity | lia | lia | | cbn; lia | reflexivity | intros k j; cbn; lia|].
  { cbn [f_buf ready_fmt g_mft_size ready_globals]. by rewrite length_replicate. }
  assert (ok = true) as ->.
  { apply Hok. intros b Hb. cbn [mft_record_layout toy_format]. unfold empty_record. by rewrite Hb. }
  destruct (Hres eq_refl) as (_ & _ & Hsys & _ & Hbits).
  exists st'. split; [exact E|]. split; [apply Hsys; lia|]. split; by rewrite Hbits by lia.
Defined.
