(* ===== verification/Utils.v ===== *)
(** * Helpers of utils.c

    Models the functions of src/NTFSModule/bridge/mkntfs/utils.c that look at a
    mounted volume: whether a cluster or an MFT record is in use (through the static
    caches), whether a file is metadata, and the search through the records.
    The volume is libntfs-3g's: what its functions answer are the arguments of the
    models. *)

From S2P Require Import Prelude Bytes Mft.

(** Whether [setlocale] succeeds. *)
Definition utils_set_locale (locale : bool) : Z := if locale then 0 else 1.

(** ** The caches of the bitmaps *)

(** [buffer] and [bmplcn] (or [bmpmref]): 4096 bits from bit [c_first] on. *)
Record cache := mkCache { c_buf : buffer; c_first : Z }.

Definition cluster_cache : cache := mkCache (replicate 512 0) (-4096).
Definition mftrec_cache : cache := mkCache (replicate 512 0) (-4097).

Definition outside (n : Z) (c : cache) : bool :=
  (n <? c_first c) || (to_s 64 (c_first c + 4096) <=? n).

(** [memset] and [ntfs_attr_pread]: whether the read succeeds, and the bytes it has
    stored. *)
Definition refill (fill : Z) (read : Z -> bool * buffer) (first : Z) : bool * cache :=
  let '(ok, b) := read (Z.shiftr first 3) in
  (ok, mkCache (take 512 b ++ drop (length b) (replicate 512 fill)) first).

(** [buffer[byte] & bit] *)
Definition test_bit (n : Z) (c : cache) : Z :=
  Z.land (default 0 (c_buf c !! Z.to_nat (Z.land (Z.shiftr n 3) 511))) (Z.shiftl 1 (Z.land n 7)).

(** [vol] is not NULL; [attr_open]: $Bitmap can be opened. *)
Definition utils_cluster_in_use (attr_open : bool) (read : Z -> bool * buffer) (lcn : Z)
    (c : cache) : Z * cache :=
  if outside lcn c then
    if negb attr_open then (-1, c) else
    let '(ok, c) := refill 0xff read (Z.land lcn (Z.lnot 4095)) in
    if negb ok then (-1, c) else (test_bit lcn c, c)
  else (test_bit lcn c, c).

(** The number of a reference, [MREF]: without the sequence number. *)
Definition MREF (mref : Z) : Z := Z.land mref (2 ^ 48 - 1).

(** [mref] is [u64]; the position of the cache is taken from all of it. *)
Definition utils_mftrec_in_use (read : Z -> bool * buffer) (mref : Z) (c : cache) : Z * cache :=
  if outside (MREF mref) c then
    let '(ok, c) := refill 0 read (to_s 64 (Z.land mref (Z.lnot 4095))) in
    if negb ok then (-1, c) else (test_bit mref c, c)
  else (test_bit mref c, c).

(** ** Metadata *)

(** Numbers and fields of [layout.h] only used here. *)
Record utils_h := {
  m_base_mft_record : Z; U_FILE_root : Z; U_FILE_UpCase : Z; U_FILE_Extend : Z
}.

Definition documented_utils : utils_h := {|
  m_base_mft_record := 0x20; U_FILE_root := 5; U_FILE_UpCase := 10; U_FILE_Extend := 11
|}.

(** [ntfs_inode]: its number and its record. *)
Record inode := mkInode { i_no : Z; i_mrec : buffer }.

(** What libntfs-3g answers about attributes. *)
Class AttrLib := {
  (** [find_first_attribute] by [ntfs_attr_lookup] on a bare record. *)
  first_attribute : Z -> buffer -> option Z;
  (** [ntfs_attr_lookup] of the index [$I30] of an inode; [None]: no context. *)
  has_directory_index : inode -> option bool;
}.

Section Search.
Context (R : record_h) (U : utils_h) `{AttrLib} (major_ver : Z).

Definition __metadata (num : Z) : bool :=
  (num <=? U_FILE_UpCase U) || ((major_ver =? 3) && (num =? U_FILE_Extend U)).

(** [find_first_attribute] with a context at hand, and [utils_is_metadata]; [None] is a
    load outside the record. *)
Definition utils_is_metadata (ino : inode) : option Z :=
  if __metadata (i_no ino) then Some 1 else
  match get 8 (m_base_mft_record U) (i_mrec ino) with
  | None => None
  | Some base =>
      if negb (base =? 0) && __metadata (MREF base) then Some 1 else
      match first_attribute (AT_FILE_NAME R) (i_mrec ino) with
      | None => Some (-1)
      | Some a =>
          match get 2 (a + a_value_offset R) (i_mrec ino) with
          | None => None
          | Some offset =>
              match get 8 (a + offset + fn_parent_directory R) (i_mrec ino) with
              | None => None
              | Some parent =>
                  let num := MREF parent in
                  Some (if negb (num =? U_FILE_root U) && __metadata num then 1 else 0)
              end
          end
      end
  end.

(** ** The search *)

Definition FEMR_IN_USE : Z := 1.
Definition FEMR_NOT_IN_USE : Z := 2.
Definition FEMR_FILE : Z := 4.
Definition FEMR_DIR : Z := 8.
Definition FEMR_METADATA : Z := 16.
Definition FEMR_NOT_METADATA : Z := 32.
Definition FEMR_BASE_RECORD : Z := 64.
Definition FEMR_NOT_BASE_RECORD : Z := 128.

(** What happens to inodes: libntfs-3g opens one, the search allocates one, either is
    closed, or freed without closing. *)
Inductive event := Opened (n : Z) | Made (n : Z) | Closed (n : Z) | Freed (n : Z).

(** [struct mft_search_ctx], the static cache, and what has happened so far. *)
Record msctx := mkMs {
  ms_search : Z; ms_match : Z; ms_inode : option inode; ms_num : Z;
  ms_cache : cache; ms_log : list event
}.

Definition mft_get_search_ctx (search : Z) (c : cache) : msctx :=
  mkMs search 0 None (to_u 64 (-1)) c [].

Definition set_match (f : Z) (c : msctx) : msctx :=
  mkMs (ms_search c) f (ms_inode c) (ms_num c) (ms_cache c) (ms_log c).
Definition add_match (f : Z) (c : msctx) : msctx := set_match (Z.lor (ms_match c) f) c.
Definition set_inode (i : option inode) (e : list event) (c : msctx) : msctx :=
  mkMs (ms_search c) (ms_match c) i (ms_num c) (ms_cache c) (ms_log c ++ e).
Definition set_num (n : Z) (c : msctx) : msctx :=
  mkMs (ms_search c) (ms_match c) (ms_inode c) n (ms_cache c) (ms_log c).
Definition set_cache (b : cache) (c : msctx) : msctx :=
  mkMs (ms_search c) (ms_match c) (ms_inode c) (ms_num c) b (ms_log c).

(** [mft_put_search_ctx] *)
Definition mft_put_search_ctx (c : msctx) : msctx :=
  match ms_inode c with Some i => set_inode None [Closed (i_no i)] c | None => c end.

(** Reading the record of a number not in use: no memory for the inode, none for the
    record, $MFT cannot be opened, a short read, or the record. *)
Inductive raw_answer :=
  | NoInode | NoRecord | NoData (junk : buffer) | ShortRead (b : buffer) | Raw (b : buffer).

(** The volume: the number of records, the bitmap of $MFT, [ntfs_inode_open], the
    records not in use, and [ntfs_inode_close] ([Some e]: it fails with errno [e]). *)
Context (nr_mft_records : Z) (read : Z -> bool * buffer) (inode_open : Z -> option buffer)
  (raw_record : Z -> raw_answer) (close_fails : Z -> option Z).

(** A round of the loop: return a number, leave the loop, or the next round. *)
Inductive round := Return (z : Z) | Break | Continue | Next.

(** The flags of a record in use, with its inode open. *)
Definition match_in_use (ino : inode) (c : msctx) : option (round * msctx) :=
  let has type := bool_decide (first_attribute type (i_mrec ino) <> None) in
  let c := add_match (if has (AT_STANDARD_INFORMATION R) then FEMR_BASE_RECORD
                      else FEMR_NOT_BASE_RECORD) c in
  let c := if has (AT_ATTRIBUTE_LIST R) then add_match FEMR_BASE_RECORD c else c in
  let c := if has (AT_DATA R) then add_match FEMR_FILE c else c in
  match (if negb (Z.land (ms_search c) FEMR_DIR =? 0) then has_directory_index ino
         else Some false) with
  | None => Some (Return (-1), c)
  | Some dir =>
      let c := if dir then add_match FEMR_DIR c else c in
      match utils_is_metadata ino with
      | None => None
      | Some m => Some (Next, add_match (if m =? 1 then FEMR_METADATA else FEMR_NOT_METADATA) c)
      end
  end.

(** The record is not in use: read as it is. *)
Definition match_not_in_use (n : Z) (c : msctx) : round * msctx :=
  let c := add_match FEMR_NOT_IN_USE c in
  match raw_record n with
  | NoInode => (Return (-1), set_inode None [] c)
  | NoRecord => (Return (-1), set_inode (Some (mkInode n [])) [Made n; Freed n] c)
  | NoData junk => (Return (-1), set_inode (Some (mkInode n junk)) [Made n] c)
  | ShortRead b => (Return (-1), set_inode (Some (mkInode n b)) [Made n] c)
  | Raw b => (Next, set_inode (Some (mkInode n b)) [Made n] c)
  end.

(** The flags, whichever it is. *)
Definition match_record (c : msctx) : option (round * msctx) :=
  let n := ms_num c in
  let c := set_match 0 c in
  let '(in_use, b) := utils_mftrec_in_use read n (ms_cache c) in
  let c := set_cache b c in
  if in_use =? -1 then Some (Return (-1), c) else
  if negb (in_use =? 0) then
    let c := add_match FEMR_IN_USE c in
    match inode_open n with
    | None => Some (Continue, c)
    | Some b => let ino := mkInode n b in match_in_use ino (set_inode (Some ino) [Opened n] c)
    end
  else Some (match_not_in_use n c).

(** The test at the end of a round, and closing. *)
Definition test_match (c : msctx) : round * msctx :=
  if negb (Z.land (ms_match c) (ms_search c) =? 0) then (Break, c) else
  match close_fails (ms_num c) with
  | Some e => (Return (- e), c)
  | None => (Continue, set_inode None [Closed (ms_num c)] c)
  end.

Definition mft_round (c : msctx) : option (round * msctx) :=
  match match_record c with
  | Some (Next, c) => Some (test_match c)
  | res => res
  end.

(** The result of the function; [None]: a load outside a record, or no fuel left. *)
Fixpoint mft_loop (fuel : nat) (c : msctx) : option (Z * msctx) :=
  if to_s 64 (ms_num c) <? nr_mft_records then
    match fuel with
    | O => None
    | S fuel =>
        match mft_round c with
        | None => None
        | Some (Return z, c) => Some (z, c)
        | Some (Break, c) => Some (if bool_decide (ms_inode c = None) then 1 else 0, c)
        | Some (_, c) => mft_loop fuel (set_num (to_u 64 (ms_num c + 1)) c)
        end
    end
  else Some (if bool_decide (ms_inode c = None) then 1 else 0, c).

Definition mft_next_record (c : msctx) : option (Z * msctx) :=
  let c := mft_put_search_ctx c in
  mft_loop (Z.to_nat nr_mft_records) (set_num (to_u 64 (ms_num c + 1)) c).

End Search.
