(* ===== verification/UtilsTheorems.v ===== *)
(** * Theorems about the helpers of utils.c

    The caches answer what the bitmaps say, and the search through the MFT stops at
    exactly the records that match. *)

From S2P Require Import Prelude Bytes Mft Utils.

(** ** The caches *)

Section Cache.
Context (fill : Z) (bm : buffer).

(** [ntfs_attr_pread] of 512 bytes of a bitmap that can be read. *)
Definition true_read (pos : Z) : bool * buffer := (true, take 512 (drop (Z.to_nat pos) bm)).

(** Bit [n] of the bitmap, not 0 when set; [fill] after its end. *)
Definition bit_of (n : Z) : Z :=
  Z.land (default fill (bm !! Z.to_nat (n / 8))) (2 ^ (n mod 8)).

(** The cache holds a section of the bitmap, or nothing yet. *)
Definition cache_ok (c : cache) : Prop :=
  c_first c < 0 /\ - 4097 <= c_first c <= -4096 \/
  (0 <= c_first c < 2 ^ 62 /\ c_first c mod 4096 = 0 /\
   forall i, (i < 512)%nat ->
     c_buf c !! i = Some (default fill (bm !! (Z.to_nat (c_first c / 8) + i)%nat))).

Lemma refilled first :
  0 <= first < 2 ^ 62 -> first mod 4096 = 0 ->
  (refill fill true_read first).1 = true /\ cache_ok (refill fill true_read first).2.
Proof.
  intros Hf Hm. unfold refill, true_read. cbn [fst snd]. split; [done|]. right.
  cbn [c_first c_buf]. split; [done|]. split; [done|]. intros i Hi.
  rewrite Z.shiftr_div_pow2 by lia. change (2 ^ 3) with 8.
  set (l := drop (Z.to_nat (first / 8)) bm). rewrite take_take, Nat.min_id.
  replace (bm !! _) with (l !! i) by (unfold l; by rewrite lookup_drop).
  destruct (Nat.lt_ge_cases i (length l)) as [Hlt|Hge].
  - rewrite lookup_app_l by (rewrite length_take; lia). rewrite lookup_take_lt by lia.
    destruct (lookup_lt_is_Some_2 l i Hlt) as [x ->]. done.
  - rewrite lookup_app_r by (rewrite length_take; lia).
    rewrite lookup_drop, length_take, lookup_replicate_2 by lia.
    by rewrite (lookup_ge_None_2 l i).
Qed.

Lemma outside_first c n :
  cache_ok c -> 0 <= n < 2 ^ 62 -> outside n c = false -> c_first c <= n < c_first c + 4096.
Proof.
  intros Hc Hn. unfold outside. intros [H1 H2]%orb_false_elim.
  apply Z.ltb_ge in H1. apply Z.leb_gt in H2.
  rewrite to_s_small in H2; [lia|lia|]. unfold fits_s. destruct Hc as [[? ?]|[? _]]; lia.
Qed.

Lemma test_bit_ok c n :
  cache_ok c -> 0 <= n < 2 ^ 62 -> c_first c <= n < c_first c + 4096 -> test_bit n c = bit_of n.
Proof.
  intros [[? ?]|(Hf & Hm & Hb)] Hn Hin; [lia|]. unfold test_bit, bit_of.
  change 511 with (Z.ones 9). change 7 with (Z.ones 3). rewrite !Z.land_ones by lia.
  rewrite Z.shiftl_1_l, Z.shiftr_div_pow2 by lia. change (2 ^ 3) with 8. change (2 ^ 9) with 512.
  assert (n / 8 = c_first c / 8 + (n / 8) mod 512) as E.
  { Z.to_euclidean_division_equations; lia. }
  rewrite Hb by (pose proof (Z.mod_pos_bound (n / 8) 512); lia). cbn [default from_option id].
  rewrite E at 2. rewrite Z2Nat.inj_add; [done| |]; [apply Z.div_pos; lia|].
  apply Z.mod_pos_bound. lia.
Qed.

Lemma section_of n : 0 <= n < 2 ^ 62 ->
  let first := Z.land n (Z.lnot 4095) in
  0 <= first < 2 ^ 62 /\ first mod 4096 = 0 /\ first <= n < first + 4096.
Proof.
  intros Hn. change 4095 with (Z.ones 12). rewrite <- Z.ldiff_land, Z.ldiff_ones_r by lia.
  rewrite Z.shiftr_div_pow2, Z.shiftl_mul_pow2 by lia. change (2 ^ 12) with 4096. cbv zeta.
  Z.to_euclidean_division_equations; lia.
Qed.
End Cache.

Lemma cache_ok_cluster bm : cache_ok 0xff bm cluster_cache.
Proof. left. cbn. lia. Qed.

Lemma cache_ok_mftrec bm : cache_ok 0 bm mftrec_cache.
Proof. left. cbn. lia. Qed.

(** A question keeps the cache right. *)
Lemma cluster_in_use_run bm lcn c :
  cache_ok 0xff bm c -> 0 <= lcn < 2 ^ 62 ->
  exists c', utils_cluster_in_use true (true_read bm) lcn c = (bit_of 0xff bm lcn, c') /\
    cache_ok 0xff bm c'.
Proof.
  intros Hc Hn. unfold utils_cluster_in_use. destruct (outside lcn c) eqn:Eo; cbn [negb].
  - destruct (section_of lcn Hn) as (Hf & Hm & Hin).
    destruct (refilled 0xff bm _ Hf Hm) as [E Hc'].
    destruct (refill 0xff (true_read bm) _) as [ok c'] eqn:Er. cbn [fst snd] in *. subst ok. cbn [negb].
    exists c'. split; [|done]. f_equal. apply test_bit_ok; try done.
    replace (c_first c') with (Z.land lcn (Z.lnot 4095)); [done|]. by injection Er as <-.
  - exists c. split; [|done]. f_equal. apply test_bit_ok; try done. by eapply outside_first.
Qed.

Lemma mftrec_in_use_run bm n c :
  cache_ok 0 bm c -> 0 <= n < 2 ^ 48 ->
  exists c', utils_mftrec_in_use (true_read bm) n c = (bit_of 0 bm n, c') /\ cache_ok 0 bm c'.
Proof.
  intros Hc Hn. unfold utils_mftrec_in_use.
  assert (MREF n = n) as ->.
  { unfold MREF. change (2 ^ 48 - 1) with (Z.ones 48). rewrite Z.land_ones by lia. by apply Z.mod_small. }
  destruct (outside n c) eqn:Eo.
  - destruct (section_of n ltac:(lia)) as (Hf & Hm & Hin).
    rewrite to_s_small by (unfold fits_s; lia). destruct (refilled 0 bm _ Hf Hm) as [E Hc'].
    destruct (refill 0 (true_read bm) _) as [ok c'] eqn:Er. cbn [fst snd] in *. subst ok. cbn [negb].
    exists c'. split; [|done]. f_equal. apply test_bit_ok; [done|lia|].
    replace (c_first c') with (Z.land n (Z.lnot 4095)); [done|]. by injection Er as <-.
  - exists c. split; [|done]. f_equal. apply test_bit_ok; [done|lia|]. eapply outside_first; [done|lia|done].
Qed.

(** The answers to a list of questions, one after the other. *)
Fixpoint ask {A} (f : A -> cache -> Z * cache) (l : list A) (c : cache) : list Z :=
  match l with
  | [] => []
  | x :: l => let '(z, c) := f x c in z :: ask f l c
  end.

(** The cache of $Bitmap does not show: whatever clusters are asked about in whatever
    order, the answer is the bit itself; clusters after the end of the bitmap are in
    use.  (The comment promises 1; the answer is the bit in its place, 1 to 128.) *)
Theorem utils_cluster_in_use_correct bm lcns :
  Forall (fun n => 0 <= n < 2 ^ 62) lcns ->
  ask (utils_cluster_in_use true (true_read bm)) lcns cluster_cache = bit_of 0xff bm <$> lcns.
Proof.
  generalize (cache_ok_cluster bm). generalize cluster_cache. induction lcns as [|n l IH]; intros c Hc Hl.
  { done. }
  apply Forall_cons in Hl as [Hn Hl]. cbn [ask].
  destruct (cluster_in_use_run bm n c Hc Hn) as (c' & -> & Hc'). rewrite IH by done. done.
Qed.

Lemma utils_cluster_in_use_correct_witness :
  ask (utils_cluster_in_use true (true_read [5])) [0; 2; 5000; 1] cluster_cache = [1; 4; 1; 0].
Proof.
  rewrite (utils_cluster_in_use_correct [5] [0; 2; 5000; 1]); [reflexivity|].
  repeat (constructor; [lia|]). constructor.
Defined.

(** A failed read is remembered as if it had succeeded: the next question about the
    section is answered from the cache, "in use" for every cluster. *)
Lemma utils_cluster_in_use_poisoned bm lcn :
  0 <= lcn < 2 ^ 62 ->
  let '(z, c) := utils_cluster_in_use true (fun _ => (false, [])) lcn cluster_cache in
  z = -1 /\ (utils_cluster_in_use true (true_read bm) lcn c).1 = 2 ^ (lcn mod 8).
Proof.
  intros Hn. destruct (section_of lcn Hn) as (Hf & Hm & Hin). unfold utils_cluster_in_use at 1.
  assert (outside lcn cluster_cache = true) as ->.
  { unfold outside. cbn [c_first cluster_cache]. rewrite to_s_small by (unfold fits_s; lia).
    apply orb_true_iff. right. apply Z.leb_le. lia. }
  cbn [negb refill]. split; [done|]. unfold utils_cluster_in_use, outside. cbn [c_first].
  rewrite to_s_small by (unfold fits_s; lia).
  rewrite (proj2 (Z.ltb_ge _ _)), (proj2 (Z.leb_gt _ _)) by lia. cbn [orb fst]. unfold test_bit.
  cbn [c_buf take app length]. change 511 with (Z.ones 9). change 7 with (Z.ones 3).
  rewrite !Z.land_ones by lia. rewrite drop_0, lookup_replicate_2
    by (pose proof (Z.mod_pos_bound (Z.shiftr lcn 3) (2 ^ 9)); lia).
  rewrite Z.shiftl_1_l. cbn [default from_option id]. change (2 ^ 3) with 8.
  pose proof (Z.mod_pos_bound lcn 8 ltac:(lia)).
  rewrite <- (Z.mod_small (2 ^ (lcn mod 8)) 256) at 2.
  - change 255 with (Z.ones 8). rewrite Z.land_comm, Z.land_ones by lia. done.
  - split; [lia|]. change 256 with (2 ^ 8). apply Z.pow_lt_mono_r; lia.
Qed.

(** The position of the record cache is taken from the whole reference: with a sequence
    number the section read lies far behind the bitmap, and a record in use is reported
    as free. *)
Example utils_mftrec_in_use_sequence :
  utils_mftrec_in_use (true_read (replicate 8 255)) 3 mftrec_cache =
    (8, mkCache (replicate 8 255 ++ replicate 504 0) 0) /\
  (utils_mftrec_in_use (true_read (replicate 8 255)) (2 ^ 48 + 3) mftrec_cache).1 = 0.
Proof. split; [vm_compute; reflexivity | reflexivity]. Qed.

(** ** The search *)

(** At most one inode is open at a time, and only an open one is closed. *)
Definition account_step (o : option (option Z)) (e : event) : option (option Z) :=
  match o, e with
  | Some None, (Opened n | Made n) => Some (Some n)
  | Some (Some n), (Closed m | Freed m) => if n =? m then Some None else None
  | _, _ => None
  end.

Definition account (l : list event) : option (option Z) := foldl account_step (Some None) l.

Section Search.
Context (R : record_h) (U : utils_h) `{AttrLib} (major_ver : Z).
Context (nr : Z) (bm : buffer) (inode_open : Z -> option buffer) (raw_record : Z -> raw_answer)
  (search : Z).
Abbreviation metadata := (utils_is_metadata R U major_ver).
Abbreviation next_record :=
  (mft_next_record R U major_ver nr (true_read bm) inode_open raw_record (fun _ => None)).
Abbreviation round_of := (mft_round R U major_ver (true_read bm) inode_open raw_record (fun _ => None)).

(** The volume can be read, and no record is shorter than its contents say. *)
Context (Hnr : 0 <= nr < 2 ^ 48)
  (Hraw : forall n, exists b, raw_record n = Raw b)
  (Hdir : forall i, has_directory_index i <> None)
  (Hmeta : forall n b, inode_open n = Some b -> metadata (mkInode n b) <> None).

(** The flags of a record in use, and of any record; [None]: it cannot be opened. *)
Definition in_use_flags (ino : inode) : Z :=
  let has type := bool_decide (first_attribute type (i_mrec ino) <> None) in
  let flag (b : bool) f := if b then f else 0 in
  Z.lor (Z.lor (Z.lor (Z.lor (Z.lor FEMR_IN_USE
    (if has (AT_STANDARD_INFORMATION R) then FEMR_BASE_RECORD else FEMR_NOT_BASE_RECORD))
    (flag (has (AT_ATTRIBUTE_LIST R)) FEMR_BASE_RECORD))
    (flag (has (AT_DATA R)) FEMR_FILE))
    (flag (negb (Z.land search FEMR_DIR =? 0) && bool_decide (has_directory_index ino = Some true)) FEMR_DIR))
    (if bool_decide (metadata ino = Some 1) then FEMR_METADATA else FEMR_NOT_METADATA).

Definition flags_of (n : Z) : option Z :=
  if bit_of 0 bm n =? 0 then Some FEMR_NOT_IN_USE
  else match inode_open n with Some b => Some (in_use_flags (mkInode n b)) | None => None end.

Definition matches (n : Z) : Prop := exists f, flags_of n = Some f /\ Z.land f search <> 0.

Lemma match_in_use_run ino c :
  metadata ino <> None -> ms_search c = search -> ms_match c = FEMR_IN_USE ->
  match_in_use R U major_ver ino c = Some (Next, set_match (in_use_flags ino) c).
Proof.
  intros Hm Hs Hi. unfold match_in_use, in_use_flags, add_match. pose proof (Hdir ino) as Hd.
  generalize (bool_decide (first_attribute (AT_STANDARD_INFORMATION R) (i_mrec ino) <> None)).
  generalize (bool_decide (first_attribute (AT_ATTRIBUTE_LIST R) (i_mrec ino) <> None)).
  generalize (bool_decide (first_attribute (AT_DATA R) (i_mrec ino) <> None)). intros b1 b2 b3.
  destruct (metadata ino) as [m|]; [|done]. destruct (has_directory_index ino) as [d|]; [|done].
  destruct c as [cs cm ci cn cc cl]. cbn [ms_search ms_match] in Hs, Hi. subst cs cm.
  rewrite (bool_decide_ext (Some m = Some 1) (m = 1)) by (split; congruence).
  rewrite (bool_decide_ext (Some d = Some true) (d = true)) by (split; congruence).
  destruct b1, b2, d, (negb (Z.land search FEMR_DIR =? 0)) eqn:Ed, (decide (m = 1)) as [->|Hne];
    cbn [set_match ms_match ms_search ms_inode ms_num ms_cache ms_log]; rewrite ?Ed;
    rewrite ?(bool_decide_eq_true_2 (1 = 1)), ?(bool_decide_eq_false_2 _ Hne) by done;
    rewrite ?(proj2 (Z.eqb_neq m 1) Hne), ?Z.lor_0_r; cbn; rewrite ?Z.lor_0_r; reflexivity.
Qed.

(** A context between two calls: the cache is right, and the inode it has is the only
    one open. *)
Definition ctx_ok (c : msctx) : Prop :=
  ms_search c = search /\ cache_ok 0 bm (ms_cache c) /\
  account (ms_log c) = Some (i_no <$> ms_inode c).

Lemma account_snoc l e : account (l ++ [e]) = account_step (account l) e.
Proof. unfold account. by rewrite foldl_app. Qed.

(** A round at record [n] stops there if it matches, and otherwise leaves nothing
    open. *)
Lemma round_run n c :
  ctx_ok c -> ms_inode c = None -> ms_num c = n -> 0 <= n < nr ->
  exists r c', round_of c = Some (r, c') /\ ctx_ok c' /\ ms_num c' = n /\
    (matches n /\ r = Break /\ (exists i, ms_inode c' = Some i /\ i_no i = n) /\
       flags_of n = Some (ms_match c') \/
     ~ matches n /\ r = Continue /\ ms_inode c' = None).
Proof.
  destruct c as [cs cm ci cn cc cl]. intros (Hs & Hc & Ha) Hi Hn Hr. cbn in Hs, Hi, Hn. subst cs ci cn.
  cbn [ms_cache ms_log ms_inode fmap option_fmap option_map] in Hc, Ha.
  unfold mft_round, match_record. cbn [set_match ms_cache ms_num].
  destruct (mftrec_in_use_run bm n cc Hc ltac:(lia)) as (b & -> & Hb).
  assert (0 <= bit_of 0 bm n) as Hpos.
  { unfold bit_of. apply Z.land_nonneg. right. apply Z.pow_nonneg. lia. }
  rewrite (proj2 (Z.eqb_neq _ _)) by lia.
  assert (forall e i f c1, i_no i = n -> e = Opened n \/ e = Made n ->
    c1 = mkMs search f (Some i) n b (cl ++ [e]) -> flags_of n = Some f ->
    exists r c', test_match (fun _ => None) c1 = (r, c') /\ ctx_ok c' /\ ms_num c' = n /\
      (matches n /\ r = Break /\ (exists i, ms_inode c' = Some i /\ i_no i = n) /\
         flags_of n = Some (ms_match c') \/ ~ matches n /\ r = Continue /\ ms_inode c' = None)) as Htest.
  { intros e i f c1 Hin He -> Hf. unfold test_match. cbn [ms_match ms_search ms_num].
    assert (account (cl ++ [e]) = Some (Some n)) as Hacc.
    { rewrite account_snoc, Ha. by destruct He as [-> | ->]. }
    destruct (Z.eqb_spec (Z.land f search) 0) as [E|E]; cbn [negb].
    - eexists _, _. split; [reflexivity|]. split; [|split; [done|]].
      + split; [done|]. split; [done|]. cbn [set_inode ms_log ms_inode fmap option_fmap option_map].
        rewrite (account_snoc (cl ++ [e])). rewrite Hacc. cbn. by rewrite Z.eqb_refl.
      + right. split; [|done]. intros (f' & Hf' & Hne). congruence.
    - eexists _, _. split; [reflexivity|]. split; [|split; [done|]].
      + split; [done|]. split; [done|]. cbn [ms_log ms_inode fmap option_fmap option_map]. by rewrite Hacc, Hin.
      + left. split; [by exists f|]. split; [done|]. split; [by exists i | done]. }
  cbn [set_cache set_match ms_search ms_match ms_inode ms_num ms_log].
  destruct (Z.eqb_spec (bit_of 0 bm n) 0) as [E|E]; cbn [negb].
  - assert (flags_of n = Some FEMR_NOT_IN_USE) as Hf by (unfold flags_of; by rewrite E).
    unfold match_not_in_use. destruct (Hraw n) as [rb ->].
    destruct (Htest (Made n) (mkInode n rb) FEMR_NOT_IN_USE _ eq_refl (or_intror eq_refl) eq_refl Hf)
      as (r & c' & Ht & Hrest). exists r, c'. split; [|done]. rewrite <- Ht. reflexivity.
  - destruct (inode_open n) as [rb|] eqn:Eo.
    + assert (flags_of n = Some (in_use_flags (mkInode n rb))) as Hf.
      { unfold flags_of. rewrite (proj2 (Z.eqb_neq _ _) E), Eo. done. }
      rewrite match_in_use_run by (done || by eapply Hmeta).
      destruct (Htest (Opened n) (mkInode n rb) _ _ eq_refl (or_introl eq_refl) eq_refl Hf)
        as (r & c' & Ht & Hrest). exists r, c'. split; [|done]. rewrite <- Ht. reflexivity.
    + assert (flags_of n = None) as Hf.
      { unfold flags_of. by rewrite (proj2 (Z.eqb_neq _ _) E), Eo. }
      eexists Continue, _. split; [reflexivity|]. split; [|split; [done|]].
      * split; [done|]. split; [done|]. exact Ha.
      * right. split; [|done]. intros (f & Hf' & _). congruence.
Qed.

(** What the function answers: the next record that matches, or that there is none. *)
Definition found_next (k z : Z) (c' : msctx) : Prop :=
  (z = 0 /\ k <= ms_num c' < nr /\ matches (ms_num c') /\
     (exists i, ms_inode c' = Some i /\ i_no i = ms_num c') /\
     flags_of (ms_num c') = Some (ms_match c') /\ forall m, k <= m < ms_num c' -> ~ matches m) \/
  (z = 1 /\ ms_inode c' = None /\ forall m, k <= m < nr -> ~ matches m).

Lemma loop_run fuel : forall k c,
  ctx_ok c -> ms_inode c = None -> ms_num c = k -> 0 <= k <= 2 ^ 62 -> nr - k <= Z.of_nat fuel ->
  exists z c',
    mft_loop R U major_ver nr (true_read bm) inode_open raw_record (fun _ => None) fuel c = Some (z, c') /\
    ctx_ok c' /\ found_next k z c'.
Proof.
  induction fuel as [|fuel IH]; intros k c Hc Hi Hk Hr Hf; cbn [mft_loop];
    rewrite Hk, to_s_small by (unfold fits_s; lia).
  - rewrite (proj2 (Z.ltb_ge _ _)) by lia. rewrite bool_decide_eq_true_2 by done.
    exists 1, c. split; [done|]. split; [done|]. right. split; [done|]. split; [done|]. lia.
  - destruct (Z.ltb_spec k nr) as [Hlt|Hge].
    2:{ rewrite bool_decide_eq_true_2 by done. exists 1, c. split; [done|]. split; [done|].
        right. split; [done|]. split; [done|]. lia. }
    destruct (round_run k c Hc Hi Hk ltac:(lia)) as (r & c1 & -> & Hc1 & Hn1 & Hcase).
    destruct Hcase as [(Hm & -> & (i & Hi1 & Hin) & Hfl) | (Hm & -> & Hi1)].
    + rewrite bool_decide_eq_false_2 by congruence. exists 0, c1. split; [done|]. split; [done|].
      left. rewrite Hn1. split; [done|]. split; [lia|]. split; [done|]. split; [by exists i|].
      split; [done|]. lia.
    + rewrite Hn1, to_u_small by (unfold fits_u; lia).
      destruct (IH (k + 1) (set_num (k + 1) c1)) as (z & c' & -> & Hc' & Hfn); [done|done|done|lia|lia|].
      exists z, c'. split; [done|]. split; [done|].
      assert (forall m, k <= m -> (k + 1 <= m -> ~ matches m) -> ~ matches m) as Hstep.
      { intros m Hkm Hx. destruct (Z.eq_dec m k) as [->|]; [done|]. apply Hx. lia. }
      destruct Hfn as [(-> & H1' & H2' & H3' & H4' & H5')|(-> & H1' & H2')]; [left|right];
        split_and!; try done; try lia; intros m Hmr; apply Hstep; try lia; intros Hle.
      * apply H5'. lia.
      * apply H2'. lia.
Qed.

(** Closing what the last call has left open. *)
Lemma put_ctx_ok c : ctx_ok c -> ctx_ok (mft_put_search_ctx c) /\ ms_inode (mft_put_search_ctx c) = None.
Proof.
  intros (Hs & Hc & Ha). unfold mft_put_search_ctx. destruct (ms_inode c) as [i|] eqn:Ei.
  2:{ split; [|done]. split; [done|]. split; [done|]. by rewrite Ei. }
  split; [|done]. split; [done|]. split; [done|]. cbn [set_inode ms_log ms_inode fmap option_fmap option_map].
  rewrite account_snoc, Ha. cbn. by rewrite Z.eqb_refl.
Qed.
End Search.

(** [C39] The search stops at exactly the records that match.  From a context as
    [mft_get_search_ctx] or the call before leaves it, on a volume of less than 2^48
    records where the MFT bitmap and every record can be read, the search contexts
    inside can be had, and closing an inode succeeds (a record in use may fail to
    open, and is left out): [mft_next_record]
    ends, answers 0 at the next record whose flags have one of the flags searched
    for, with that record's inode the only one open, or 1 when there is none left,
    with nothing open; and leaves a context for the next call. *)
Theorem mft_next_record_correct R U `{AttrLib} major_ver nr bm inode_open raw_record search c k :
  0 <= nr < 2 ^ 48 -> (forall n, exists b, raw_record n = Raw b) ->
  (forall i, has_directory_index i <> None) ->
  (forall n b, inode_open n = Some b -> utils_is_metadata R U major_ver (mkInode n b) <> None) ->
  ctx_ok bm search c -> -1 <= k < 2 ^ 62 -> ms_num c = to_u 64 k ->
  exists z c',
    mft_next_record R U major_ver nr (true_read bm) inode_open raw_record (fun _ => None) c = Some (z, c') /\
    ctx_ok bm search c' /\
    found_next R U major_ver nr bm inode_open search (k + 1) z c'.
Proof.
  intros Hnr Hraw Hdir Hmeta Hc Hk Hn. unfold mft_next_record.
  destruct (put_ctx_ok bm search c Hc) as [Hc' Hi].
  assert (ms_num (mft_put_search_ctx c) = ms_num c) as -> by (unfold mft_put_search_ctx; by destruct (ms_inode c)).
  assert (to_u 64 (ms_num c + 1) = k + 1) as ->.
  { rewrite Hn. unfold to_u. rewrite Z.add_mod_idemp_l by lia. apply Z.mod_small. lia. }
  apply (loop_run R U major_ver nr bm inode_open raw_record search Hnr Hraw Hdir Hmeta);
    [exact Hc' | exact Hi | done | lia | lia].
Qed.

(** Records 0 and 2 are in use; the next free one after the start is record 1. *)
#[local] Instance no_attributes : AttrLib := {
  first_attribute _ _ := None;
  has_directory_index _ := Some false
}.

Definition zero_record (n : Z) : option buffer := Some (replicate 64 0).

Lemma mft_next_record_correct_witness :
  exists c', mft_next_record documented_record documented_utils 3 4 (true_read [5]) zero_record
      (fun _ => Raw []) (fun _ => None) (mft_get_search_ctx FEMR_NOT_IN_USE mftrec_cache) = Some (0, c') /\
    ms_num c' = 1 /\ account (ms_log c') = Some (Some 1).
Proof.
  destruct (mft_next_record_correct documented_record documented_utils 3 4 [5] zero_record
              (fun _ => Raw []) FEMR_NOT_IN_USE (mft_get_search_ctx FEMR_NOT_IN_USE mftrec_cache) (-1))
    as (z & c' & E & (_ & _ & Ha) & Hf); try done; try lia.
  { intros n. by exists []. }
  { intros n b [= <-]. unfold utils_is_metadata. destruct (__metadata _ _ _); [done|]. done. }
  { split; [done|]. split; [left; cbn; lia | done]. }
  assert (matches documented_record documented_utils 3 [5] zero_record FEMR_NOT_IN_USE 1) as Hm
    by (exists 2; split; [reflexivity | done]).
  destruct Hf as [(-> & Hr & Hc & (i & Ei & Hi) & _ & Hno)|(_ & _ & Hno)]; [|by destruct (Hno 1 ltac:(lia))].
  assert (ms_num c' = 1) as Hone.
  { destruct (Z.lt_ge_cases 1 (ms_num c')); [by destruct (Hno 1 ltac:(lia))|].
    destruct (Z.eq_dec (ms_num c') 0) as [E0|]; [|lia]. rewrite E0 in Hc. by destruct Hc as (f & [= <-] & []). }
  exists c'. split; [exact E|]. split; [done|]. rewrite Ha, Ei. cbn. by rewrite Hi, Hone.
Defined.
