(* ===== verification/UtilsNames.v ===== *)
(** * Names and texts of utils.c

    Models the functions of src/NTFSModule/bridge/mkntfs/utils.c that mount a volume
    and that produce text: [utils_valid_device], [utils_mount_volume],
    [ntfs_mbstoucs_libntfscompat], [utils_inode_get_name], [utils_attr_get_name],
    [utils_dump_mem], and, for Windows, [ntfs_utils_reformat] and
    [ntfs_utils_unix_path]; with what makes each correct.  A string is the list of its
    characters. *)

From Stdlib Require Import String.
From S2P Require Import Prelude Options Bytes Mft Layout IndexLarge Format Utils UtilsTheorems.

(** ** Mounting *)

(** [name] is not NULL; whether [stat] succeeds; whether [ntfs_check_if_mounted]
    answers, and that the device is mounted. *)
Definition utils_valid_device (stat_ok : bool) (mounted : option bool) (force : bool) : bool :=
  if negb stat_ok then false else
  match mounted with
  | None | Some true => force
  | Some false => true
  end.

(** What happens to the volume: mounted, unmounted. *)
Inductive mount_event := Mounted | Unmounted.

(** [flags & NTFS_MNT_RECOVER]; [ntfs_mount]: NULL, or the flags of the volume. *)
Definition utils_mount_volume (stat_ok : bool) (mounted : option bool) (recover : bool)
    (ntfs_mount : option Z) (VOLUME_IS_DIRTY : Z) : option Z * list mount_event :=
  if negb (utils_valid_device stat_ok mounted recover) then (None, []) else
  match ntfs_mount with
  | None => (None, [])
  | Some flags =>
      if negb (Z.land flags VOLUME_IS_DIRTY =? 0) && negb recover then (None, [Mounted; Unmounted])
      else (Some flags, [Mounted])
  end.

(** A volume that is handed out stays mounted, one that is not is not; without force no
    device that is, or may be, mounted already and no dirty volume is handed out. *)
Lemma utils_mount_volume_spec stat_ok mounted recover ntfs_mount DIRTY :
  let '(vol, events) := utils_mount_volume stat_ok mounted recover ntfs_mount DIRTY in
  match vol with
  | Some flags => events = [Mounted] /\ ntfs_mount = Some flags /\
      (recover = false -> mounted = Some false /\ Z.land flags DIRTY = 0)
  | None => events = [] \/ events = [Mounted; Unmounted]
  end.
Proof.
  unfold utils_mount_volume, utils_valid_device.
  destruct stat_ok, recover, mounted as [[]|], ntfs_mount as [flags|]; cbn; auto;
    destruct (Z.eqb_spec (Z.land flags DIRTY) 0); cbn; auto; by repeat split.
Qed.

(** ** Conversion into an array that may be there *)

(** [*outs] with [outs_len] characters of room, or NULL; [ntfs_mbstoucs]: -1, or the
    converted string; whether [realloc] succeeds.  The answer and [*outs] afterwards:
    its size and its first characters. *)
Definition ntfs_mbstoucs_libntfscompat (mbs : option (list Z)) (outs : option (list Z))
    (outs_len : Z) (realloc_ok : bool) : Z * option (list Z) :=
  match outs with
  | None => match mbs with
            | Some s => (Z.of_nat (length s), Some (s ++ [0]))
            | None => (-1, None)
            end
  | Some old =>
      match mbs with
      | None => (-1, Some old)
      | Some s =>
          let n := Z.of_nat (length s) + 1 in
          if (outs_len <? n) && negb realloc_ok then (-1, Some old) else
          let room := if outs_len <? n then Z.to_nat n else length old in
          (Z.of_nat (length s), Some (s ++ [0] ++ drop (length s + 1) (take room old)))
      end
  end.

(** ** [snprintf] of the pieces *)

(** What [snprintf(buffer, size, ...)] stores of the text [s] ([size] as [size_t]), and
    what it answers. *)
Definition snprintf (size : Z) (s : cstring) : cstring * Z :=
  (take (Z.to_nat (to_u 64 size - 1)) s, Z.of_nat (length s)).

Lemma snprintf_fits size s :
  Z.of_nat (length s) < size -> size < 2 ^ 64 -> snprintf size s = (s, Z.of_nat (length s)).
Proof.
  intros Hs Hb. unfold snprintf. rewrite to_u_small by (unfold fits_u; lia).
  by rewrite take_ge by lia.
Qed.

(** ** The path of a file *)

(** A $FILE_NAME: its name space, its parent (a reference), and its name as
    [ntfs_ucstombs] translates it. *)
Record file_name := mkFn { fnm_type : Z; fnm_parent : Z; fnm_name : option cstring }.

Definition max_path : nat := 20.
Definition slash : Z := 47.

Section InodeName.
Context (U : utils_h).

(** The volume: the $FILE_NAMEs of a file in the order of the search, whether a search
    context can be had, [ntfs_inode_open] by reference (the number of the inode); and
    whether the 30 bytes of a substitute name can be allocated. *)
Context (file_names : Z -> list file_name) (ctx_ok : Z -> bool) (open : Z -> option Z) (malloc_ok : bool).

(** [snprintf(temp, 30, "<MFT%llu>", inode->mft_no)] *)
Definition substitute (no : Z) : cstring := fst (snprintf 30 (chars "<MFT" ++ chars (show no ">"))).

(** The loop over the $FILE_NAMEs: the name with the smallest name space, the last of
    several.  [None]: no memory for a substitute. *)
Fixpoint pick_name (no : Z) (l : list file_name) (name_space parent : Z) (name : option cstring)
  : option (Z * option cstring) :=
  match l with
  | [] => Some (parent, name)
  | f :: l =>
      if name_space <? fnm_type f then pick_name no l name_space parent name else
      match fnm_name f with
      | Some s => pick_name no l (fnm_type f) (fnm_parent f) (Some s)
      | None =>
          if negb malloc_ok then None
          else pick_name no l (fnm_type f) (fnm_parent f) (Some (substitute no))
      end
  end.

(** The loop over the directories.  [names] is [names[0]] to [names[i - 1]]; [first]:
    the inode is the caller's.  The answer: the names, or [return 0]; and the inodes
    opened and closed. *)
Fixpoint walk (fuel : nat) (first : bool) (no parent : Z) (names : list (option cstring))
  : option (list (option cstring)) * list event :=
  match fuel with
  | O => (None, [])
  | S fuel =>
      if negb (ctx_ok no) then (None, []) else
      match pick_name no (file_names no) 4 parent None with
      | None => (None, [])
      | Some (parent, name) =>
          let names := names ++ [name] in
          let closed := if first then [] else [Closed no] in
          if MREF parent =? U_FILE_root U then (Some names, closed) else
          match open (MREF parent) with
          | None => (Some names, closed)
          | Some up =>
              let '(r, events) := walk fuel false up parent names in
              (r, closed ++ Opened up :: events)
          end
      end
  end.

(** The names from the last to the first; [offset] characters are in the buffer. *)
Fixpoint assemble (names : list (option cstring)) (bufsize offset : Z) : cstring :=
  match names with
  | [] => []
  | None :: names => assemble names bufsize offset
  | Some s :: names =>
      let '(out, len) := snprintf (bufsize - offset) (slash :: s) in
      if bufsize - offset <=? len then out
      else out ++ assemble names bufsize (offset + len)
  end.

(** The answer, the text in the buffer, and the inodes opened and closed.  [no]: the
    inode, which is not NULL. *)
Definition utils_inode_get_name (no : Z) (bufsize : Z) : Z * cstring * list event :=
  match walk max_path true no (U_FILE_root U) [] with
  | (None, events) => (0, [], events)
  | (Some names, events) => (1, assemble (reverse names) bufsize 0, events)
  end.
End InodeName.

(** ** The name of an attribute *)

(** The type's name in $AttrDef, translated ([inl]: not found; [inr None]: it cannot be
    translated); [attr->name_length], and the attribute's name, translated.  The
    answer and the text. *)
Definition utils_attr_get_name (attrdef : unit + option cstring) (name_length : Z)
    (name : option cstring) (bufsize : Z) : Z * cstring :=
  match attrdef with
  | inr None => (0, [])
  | _ =>
      let '(out, len) := snprintf bufsize (match attrdef with
                                           | inr (Some s) => s
                                           | _ => chars "<UNKNOWN>"
                                           end) in
      if bufsize <=? len then (0, out) else
      if name_length =? 0 then (0, out) else
      let '(more, _) := snprintf (bufsize - len)
        (match name with Some s => chars "(" ++ s ++ chars ")" | None => chars "<UNKNOWN>" end) in
      (0, out ++ more)
  end.

(** ** Windows: formats and paths *)

Inductive reformat_state := F_INIT | F_PERCENT | F_FIRST.

Definition percent : Z := 37.
Definition ell : Z := 108.

(** The loop of [ntfs_utils_reformat]; [i] characters have been written. *)
Fixpoint reformat (f : cstring) (i sz : Z) (st : reformat_state) : cstring :=
  match f with
  | [] => []
  | c :: f =>
      if negb (i + 3 <? sz) then [] else
      match st with
      | F_INIT => c :: reformat f (i + 1) sz (if c =? percent then F_PERCENT else F_INIT)
      | F_PERCENT =>
          if c =? ell then reformat f i sz F_FIRST
          else c :: reformat f (i + 1) sz
                      (if ((c <? 48) || (57 <? c)) && negb (c =? 42) && negb (c =? 45)
                       then F_INIT else F_PERCENT)
      | F_FIRST =>
          if c =? ell then chars "I64" ++ reformat f (i + 3) sz F_INIT
          else [ell; c] ++ reformat f (i + 2) sz F_INIT
      end
  end.

Definition ntfs_utils_reformat (sz : Z) (fmt : cstring) : cstring := reformat fmt 0 sz F_INIT ++ [0].

(** [strdup] fails or not. *)
Definition ntfs_utils_unix_path (strdup_ok : bool) (path : cstring) : option cstring :=
  if strdup_ok then Some ((fun c => if c =? 92 then slash else c) <$> path) else None.

(** ** [utils_dump_mem] *)

(** What is printed for one of the 16 places of a line: a byte, or nothing. *)
Inductive cell := Byte (b : Z) | Blank.

(** The line at [off]: the number before it and its 16 places; [mem] is the memory, and
    [None] a load outside it.  The colours and the column of characters are left out. *)
Definition dump_cell (mem : buffer) (start len p : Z) : option cell :=
  if (start <=? p) && (p <? start + len) then
    match mem !! Z.to_nat p with Some b => Some (Byte b) | None => None end
  else Some Blank.

Definition dump_line (mem : buffer) (start len off : Z) (first : bool) : option (Z * list cell) :=
  match mapM (fun i => dump_cell mem start len (off + Z.of_nat i)) (seq 0 16) with
  | Some cells => Some (if first then start else off, cells)
  | None => None
  end.

Fixpoint dump_lines (fuel : nat) (mem : buffer) (start len off e : Z) (first : bool)
  : option (list (Z * list cell)) :=
  if off <? e then
    match fuel with
    | O => None
    | S fuel =>
        match dump_line mem start len off first with
        | None => None
        | Some l =>
            match dump_lines fuel mem start len (off + 16) e false with
            | None => None
            | Some ls => Some (l :: ls)
            end
        end
    end
  else Some [].

Definition utils_dump_mem (mem : buffer) (start len : Z) : option (list (Z * list cell)) :=
  let s := Z.land start (Z.lnot 15) in
  let e := Z.land (start + len + 15) (Z.lnot 15) in
  dump_lines (S (Z.to_nat (e - s))) mem start len s e true.

(** ** What the texts are *)

(** The translation stays in its buffer of [sz] characters, the zero included. *)
Lemma reformat_bound f : forall i sz st,
  0 <= i < sz -> i + Z.of_nat (length (reformat f i sz st)) < sz.
Proof.
  induction f as [|c f IH]; intros i sz st Hi; cbn [reformat length]; [lia|].
  destruct (Z.ltb_spec (i + 3) sz); cbn [negb length]; [|lia].
  destruct st; repeat case_match; cbn [length app]; rewrite ?length_app;
    match goal with
    | |- context [reformat f ?j sz ?st] => specialize (IH j sz st ltac:(lia)); cbn; lia
    end.
Qed.

(** A format without the letter l is only copied. *)
Lemma reformat_same f : forall i sz st,
  st <> F_FIRST -> ell ∉ f -> i + Z.of_nat (length f) + 2 < sz -> reformat f i sz st = f.
Proof.
  induction f as [|c f IH]; intros i sz st Hst Hl Hi; cbn [reformat]; [done|].
  apply not_elem_of_cons in Hl as [Hc Hl]. cbn [length] in Hi.
  rewrite (proj2 (Z.ltb_lt _ _)) by lia. cbn [negb].
  destruct st; [| |done].
  - f_equal. apply IH; [by case_match|done|lia].
  - rewrite (proj2 (Z.eqb_neq c ell)) by done. f_equal. apply IH; [by case_match|done|lia].
Qed.

Theorem ntfs_utils_reformat_correct sz fmt :
  0 < sz ->
  Z.of_nat (length (ntfs_utils_reformat sz fmt)) <= sz /\
  (ell ∉ fmt -> Z.of_nat (length fmt) + 2 < sz -> ntfs_utils_reformat sz fmt = fmt ++ [0]).
Proof.
  intros Hs. unfold ntfs_utils_reformat. split.
  - pose proof (reformat_bound fmt 0 sz F_INIT ltac:(lia)). rewrite length_app. cbn. lia.
  - intros Hl Hf. rewrite reformat_same; [done|done|done|lia].
Qed.

Example reformat_lld :
  ntfs_utils_reformat 1536 (chars "%6lld at %-3ld") = chars "%6I64d at %-3ld" ++ [0].
Proof. reflexivity. Qed.

(** The name of an attribute: the answer is 0 whether or not a name was found. *)
Lemma utils_attr_get_name_zero attrdef n name bufsize :
  (utils_attr_get_name attrdef n name bufsize).1 = 0.
Proof.
  unfold utils_attr_get_name, snprintf. destruct attrdef as [u|[s|]]; repeat case_match; done.
Qed.

(** ** Paths *)

Section Paths.
Context (U : utils_h).
Context (file_names : Z -> list file_name) (ctx_ok : Z -> bool) (open : Z -> option Z) (malloc_ok : bool).
Abbreviation best no p := (pick_name malloc_ok no (file_names no) 4 p None).

(** The names from a file up to the root directory. *)
Inductive path_from (no : Z) : list cstring -> Prop :=
  | path_top parent s :
      (forall p, best no p = Some (parent, Some s)) -> MREF parent = U_FILE_root U ->
      path_from no [s]
  | path_up parent s up l :
      (forall p, best no p = Some (parent, Some s)) -> MREF parent <> U_FILE_root U ->
      open (MREF parent) = Some up -> path_from up l -> path_from no (s :: l).

Lemma walk_path no l : path_from no l -> forall fuel first parent names,
  (forall n, ctx_ok n = true) -> (length l <= fuel)%nat ->
  exists events, walk U file_names ctx_ok open malloc_ok fuel first no parent names =
      (Some (names ++ (Some <$> l)), events) /\
    foldl account_step (Some (if first then None else Some no)) events = Some None.
Proof.
  induction 1 as [no parent s Hb Hp|no parent s up l Hb Hp Ho Hl IH];
    intros [|fuel] first p names Hctx Hf; cbn [length] in Hf; try lia; cbn [walk]; rewrite Hctx, Hb.
  - rewrite Hp, Z.eqb_refl. eexists. split; [reflexivity|].
    destruct first; cbn; [done|]. by rewrite Z.eqb_refl.
  - cbn [negb]. rewrite (proj2 (Z.eqb_neq _ _) Hp), Ho.
    destruct (IH fuel false parent (names ++ [Some s]) Hctx ltac:(lia)) as (ev & -> & Ha).
    eexists. split; [by rewrite <- app_assoc|].
    destruct first; cbn; rewrite ?Z.eqb_refl; exact Ha.
Qed.

Definition path_text (l : list cstring) : cstring := concat ((fun s => slash :: s) <$> l).

Lemma assemble_fits l : forall bufsize offset,
  0 <= offset -> offset + Z.of_nat (length (path_text l)) < bufsize -> bufsize < 2 ^ 31 ->
  assemble (Some <$> l) bufsize offset = path_text l.
Proof.
  unfold path_text.
  induction l as [|s l IH]; intros bufsize offset Ho Hl Hb; cbn [fmap list_fmap concat assemble] in *; [done|].
  rewrite length_app in Hl. rewrite snprintf_fits by lia.
  rewrite (proj2 (Z.leb_gt _ _)) by lia. f_equal. apply IH; lia.
Qed.

(** The path of a file less than 20 directories deep is put together from the root
    down, and every inode opened on the way is closed again. *)
Theorem utils_inode_get_name_correct no l bufsize :
  path_from no l -> (forall n, ctx_ok n = true) -> (length l <= 20)%nat ->
  Z.of_nat (length (path_text l)) < bufsize -> bufsize < 2 ^ 31 ->
  exists events,
    utils_inode_get_name U file_names ctx_ok open malloc_ok no bufsize =
      (1, path_text (reverse l), events) /\ account events = Some None.
Proof.
  intros Hp Hctx Hl Hb Hs. unfold utils_inode_get_name.
  destruct (walk_path no l Hp max_path true (U_FILE_root U) [] Hctx Hl) as (ev & -> & Ha).
  exists ev. split; [|exact Ha]. f_equal. f_equal. cbn [app].
  rewrite <- fmap_reverse. apply assemble_fits; [lia| |done].
  enough (length (path_text (reverse l)) = length (path_text l)) as -> by lia.
  unfold path_text. by rewrite reverse_Permutation.
Qed.
End Paths.

(** A directory that is its own parent: the answer is 0 after 20 rounds, and the last
    inode opened is not closed. *)
Example utils_inode_get_name_leak :
  let '(answer, _, events) :=
    utils_inode_get_name documented_utils (fun _ => [mkFn 1 64 (Some (chars "d"))]) (fun _ => true)
      (fun n => Some n) true 64 100 in
  answer = 0 /\ account events = Some (Some 64).
Proof. vm_compute. split; reflexivity. Qed.

(** ** The dump *)

Definition cell_bytes (l : list cell) : buffer :=
  omap (fun c => match c with Byte b => Some b | Blank => None end) l.

Section Dump.
Context (mem : buffer) (start len : Z).
Context (Hstart : 0 <= start) (Hlen : 0 <= len) (Hmem : start + len <= Z.of_nat (length mem)).

(** The bytes to show among [n] places from [off] on. *)
Definition shown (off : Z) (n : nat) : buffer :=
  omap (fun p => if (start <=? p) && (p <? start + len) then mem !! Z.to_nat p else None)
    (seqZ off (Z.of_nat n)).

Lemma shown_app off n1 n2 : shown off (n1 + n2) = shown off n1 ++ shown (off + Z.of_nat n1) n2.
Proof. unfold shown. rewrite Nat2Z.inj_add, seqZ_app, omap_app by lia. done. Qed.

Lemma shown_S off n : shown off (S n) = shown off 1 ++ shown (off + 1) n.
Proof. exact (shown_app off 1 n). Qed.

Lemma dump_cell_run p : exists c, dump_cell mem start len p = Some c /\ cell_bytes [c] = shown p 1.
Proof.
  unfold dump_cell, shown.
  replace (seqZ p (Z.of_nat 1)) with [p] by reflexivity.
  cbn [omap list_omap].
  destruct ((start <=? p) && (p <? start + len)) eqn:E; [|by exists Blank].
  apply andb_prop in E as [E1 E2]. apply Z.leb_le in E1. apply Z.ltb_lt in E2.
  destruct (lookup_lt_is_Some_2 mem (Z.to_nat p)) as [b ->]; [lia|]. by exists (Byte b).
Qed.

Lemma dump_cells_run off n : forall k, exists cells,
  mapM (fun i => dump_cell mem start len (off + Z.of_nat i)) (seq k n) = Some cells /\
  cell_bytes cells = shown (off + Z.of_nat k) n.
Proof.
  induction n as [|n IH]; intros k; [by exists []|]. cbn [seq].
  destruct (dump_cell_run (off + Z.of_nat k)) as (c & Ec & Hc).
  destruct (IH (S k)) as (cs & Es & Hs). exists (c :: cs). split.
  - cbn [mapM]. rewrite Ec. cbn [mbind option_bind]. by rewrite Es.
  - rewrite shown_S, <- Hc. replace (off + Z.of_nat k + 1) with (off + Z.of_nat (S k)) by lia.
    rewrite <- Hs. unfold cell_bytes. by destruct c.
Qed.

Lemma shown_out off n : off + Z.of_nat n <= start \/ start + len <= off -> shown off n = [].
Proof.
  revert off. induction n as [|n IH]; intros off H; [done|]. rewrite shown_S, IH by lia.
  unfold shown. replace (seqZ off (Z.of_nat 1)) with [off] by reflexivity. cbn [omap list_omap].
  destruct (Z.leb_spec start off), (Z.ltb_spec off (start + len)); cbn; [lia|done..].
Qed.

Lemma shown_in off n :
  start <= off -> off + Z.of_nat n <= start + len -> shown off n = take n (drop (Z.to_nat off) mem).
Proof.
  revert off. induction n as [|n IH]; intros off Ho Hn; [done|]. rewrite shown_S, IH by lia.
  unfold shown. replace (seqZ off (Z.of_nat 1)) with [off] by reflexivity. cbn [omap list_omap].
  rewrite (proj2 (Z.leb_le _ _)), (proj2 (Z.ltb_lt _ _)) by lia. cbn [andb].
  destruct (lookup_lt_is_Some_2 mem (Z.to_nat off)) as [b Eb]; [lia|]. rewrite Eb.
  rewrite (drop_S mem b (Z.to_nat off) Eb). cbn [app take].
  by replace (Z.to_nat (off + 1)) with (S (Z.to_nat off)) by lia.
Qed.

Lemma shown_all off e :
  off <= start -> start + len <= e -> shown off (Z.to_nat (e - off)) = slice mem start len.
Proof.
  intros Ho He.
  replace (Z.to_nat (e - off)) with (Z.to_nat (start - off) + (Z.to_nat len + Z.to_nat (e - (start + len))))%nat by lia.
  rewrite !shown_app, (shown_out off) by lia.
  replace (off + Z.of_nat (Z.to_nat (start - off))) with start by lia.
  rewrite shown_in, shown_out, app_nil_r by lia. done.
Qed.

Definition lines_bytes (ls : list (Z * list cell)) : buffer := ls ≫= fun l => cell_bytes l.2.

Lemma dump_lines_run k : forall fuel off first,
  (k <= fuel)%nat -> exists ls,
  dump_lines fuel mem start len off (off + 16 * Z.of_nat k) first = Some ls /\
  lines_bytes ls = shown off (16 * k) /\ length ls = k.
Proof.
  induction k as [|k IH]; intros fuel off first Hf.
  - exists []. destruct fuel; cbn [dump_lines]; rewrite (proj2 (Z.ltb_ge _ _)) by lia; done.
  - destruct fuel as [|fuel]; [lia|]. cbn [dump_lines]. rewrite (proj2 (Z.ltb_lt _ _)) by lia.
    unfold dump_line. destruct (dump_cells_run off 16 0) as (cells & -> & Hc).
    destruct (IH fuel (off + 16) false ltac:(lia)) as (ls & El & Hl & Hn).
    replace (off + 16 * Z.of_nat (S k)) with (off + 16 + 16 * Z.of_nat k) by lia. rewrite El.
    eexists. split; [reflexivity|]. split; [|cbn; lia]. cbn [lines_bytes mbind list_bind snd].
    replace (16 * S k)%nat with (16 + 16 * k)%nat by lia. rewrite shown_app, Hc.
    change (Z.of_nat 16) with 16. rewrite <- Hl. by rewrite Z.add_0_r.
Qed.

Lemma land_15 x : Z.land x (Z.lnot 15) = 16 * (x / 16).
Proof.
  change 15 with (Z.ones 4). rewrite <- Z.ldiff_land, Z.ldiff_ones_r by lia.
  rewrite Z.shiftr_div_pow2, Z.shiftl_mul_pow2 by lia. change (2 ^ 4) with 16. lia.
Qed.

(** The dump always ends, reads only the bytes it is asked for, and shows them all in
    order. *)
Theorem utils_dump_mem_correct :
  exists ls, utils_dump_mem mem start len = Some ls /\ lines_bytes ls = slice mem start len.
Proof.
  unfold utils_dump_mem. rewrite !land_15.
  set (a := start / 16). set (b := (start + len + 15) / 16).
  assert (a <= b) by (apply Z.div_le_mono; lia).
  assert (16 * a <= start) by (unfold a; pose proof (Z.mul_div_le start 16); lia).
  assert (start + len <= 16 * b).
  { unfold b. Z.to_euclidean_division_equations; lia. }
  assert (Z.to_nat (b - a) <= S (Z.to_nat (16 * b - 16 * a)))%nat as Hf.
  { clearbody a b. lia. }
  destruct (dump_lines_run (Z.to_nat (b - a)) _ (16 * a) true Hf) as (ls & El & Hl & _).
  replace (16 * a + 16 * Z.of_nat (Z.to_nat (b - a))) with (16 * b) in El by lia.
  exists ls. split; [done|]. rewrite Hl.
  replace (16 * Z.to_nat (b - a))%nat with (Z.to_nat (16 * b - 16 * a)) by lia. by apply shown_all.
Qed.
End Dump.
